(** * mempool: a fixed-size block allocator over two caller-owned buffers

    Shallow embedding of [src/mempool.c] (the opaque, two-buffer version
    declared by [include/mempool.h]) and proofs about its layout planner,
    its counters, its free list and bitmap, and its error behaviour.

    Machine model: LP64.  [size_t] and [uintptr_t] are 64-bit unsigned,
    [uint32_t] is 32-bit unsigned, [uint8_t] is 8-bit unsigned; every
    arithmetic operation of the source is written with its wrap-around.
    Memory is a byte-addressed store; a pointer is stored little-endian in
    eight consecutive bytes, so that the free-list links live in the blocks
    and the bitmap in front of them, as in the pool buffer.  A division by
    zero is undefined behaviour in C and is modelled by [None].

    Overview of the results:
    - the counters ([used + free = total], [peak >= used],
      [alloc_count - free_count = used] modulo 2^32) are consistent in every
      state reachable from a successful [mempool_init];
    - a pointer that passes the checks of [mempool_free] always has its bit
      inside the bitmap, and a double free is reported without a change;
    - the free list and the bitmap mirror each other in every reachable
      state when the aligned block size fits the 32-bit [block_size] field;
    - [mempool_init] finds the largest block count that fits, and rejects
      it above [UINT32_MAX];
    - [mempool_init] does not reject an aligned block size above
      [UINT32_MAX]: the field is truncated, and with a block size of
      [2 ^ 32] the pool it returns has a [block_size] of 0. *)

From Stdlib Require Import ZArith List Bool Lia.
From Stdlib Require String.
Import ListNotations.
Open Scope Z_scope.

(** ** Machine integers *)

Definition SIZE_MAX : Z := 2 ^ 64 - 1.
Definition PTRDIFF_MAX : Z := 2 ^ 63 - 1.
Definition UINT32_MAX : Z := 2 ^ 32 - 1.

(** Conversion to [size_t] / [uintptr_t], to [uint32_t] and to [uint8_t]. *)
Definition size_t (x : Z) : Z := x mod 2 ^ 64.
Definition uint32_t (x : Z) : Z := x mod 2 ^ 32.
Definition uint8_t (x : Z) : Z := x mod 2 ^ 8.

(** [~x] on a [size_t]. *)
Definition size_not (x : Z) : Z := size_t (Z.lnot x).

(** [sizeof(free_node_t)]: one pointer. *)
Definition sizeof_free_node_t : Z := 8.

(** [sizeof(struct mempool)]: four pointers, five [uint32_t], the seven
    [uint32_t] of the statistics, three pointers of the hook record and two
    [bool], padded to pointer alignment. *)
Definition sizeof_struct_mempool : Z := 112.

(** Undefined behaviour is [None]; the two partial operators of the source. *)
Definition udiv (a b : Z) : option Z := if b =? 0 then None else Some (a / b).
Definition umod (a b : Z) : option Z := if b =? 0 then None else Some (a mod b).

Definition bind {A B : Type} (x : option A) (f : A -> option B) : option B :=
  match x with
  | Some a => f a
  | None => None
  end.

Notation "x <- e ;; k" := (bind e (fun x => k))
  (at level 61, e at next level, right associativity).

(** ** Byte-addressed memory *)

Definition memory : Type := Z -> Z.

Definition load_byte (m : memory) (a : Z) : Z := m a.

Definition store_byte (m : memory) (a v : Z) : memory :=
  fun x => if x =? a then uint8_t v else m x.

(** [n] bytes, least significant first. *)
Fixpoint load_bytes (n : nat) (m : memory) (a : Z) : Z :=
  match n with
  | O => 0
  | S k => load_byte m a + 256 * load_bytes k m (a + 1)
  end.

Fixpoint store_bytes (n : nat) (m : memory) (a v : Z) : memory :=
  match n with
  | O => m
  | S k => store_bytes k (store_byte m a v) (a + 1) (v / 256)
  end.

(** [node->next] read and written through a [free_node_t *]. *)
Definition load_ptr (m : memory) (a : Z) : Z := load_bytes 8 m a.
Definition store_ptr (m : memory) (a v : Z) : memory := store_bytes 8 m a v.

(** [memset(a, c, n)]. *)
Definition memset (m : memory) (a c n : Z) : memory :=
  fun x => if (a <=? x) && (x <? a + n) then uint8_t c else m x.

(** ** Types of [mempool.h] *)

Inductive mempool_error_t : Type :=
| MEMPOOL_OK
| MEMPOOL_ERR_NULL_PTR
| MEMPOOL_ERR_INVALID_SIZE
| MEMPOOL_ERR_OUT_OF_MEMORY
| MEMPOOL_ERR_INVALID_BLOCK
| MEMPOOL_ERR_ALIGNMENT
| MEMPOOL_ERR_DOUBLE_FREE
| MEMPOOL_ERR_NOT_INITIALIZED.

(** Function pointers and the context pointer are addresses; 0 is [NULL]. *)
Record mempool_sync_t : Type := mk_sync {
  lock : Z;
  unlock : Z;
  user_ctx : Z
}.

Record mempool_stats_t : Type := mk_stats {
  s_total_blocks : Z;
  s_used_blocks : Z;
  s_free_blocks : Z;
  s_peak_usage : Z;
  s_alloc_count : Z;
  s_free_count : Z;
  s_block_size : Z
}.

(** [struct mempool]. *)
Record mempool : Type := mk_mempool {
  pool_buffer_start : Z;
  blocks_start : Z;
  free_list : Z;
  bitmap : Z;
  bitmap_bytes : Z;
  block_size : Z;
  total_blocks : Z;
  free_blocks : Z;
  alignment : Z;
  stats : mempool_stats_t;
  sync : mempool_sync_t;
  sync_enabled : bool;
  initialized : bool
}.

(** The control block after [memset(pool, 0, sizeof(struct mempool))]. *)
Definition zero_pool : mempool :=
  mk_mempool 0 0 0 0 0 0 0 0 0 (mk_stats 0 0 0 0 0 0 0) (mk_sync 0 0 0)
    false false.

Definition set_free_list (p : mempool) (v : Z) : mempool :=
  mk_mempool (pool_buffer_start p) (blocks_start p) v (bitmap p)
    (bitmap_bytes p) (block_size p) (total_blocks p) (free_blocks p)
    (alignment p) (stats p) (sync p) (sync_enabled p) (initialized p).

Definition set_free_blocks (p : mempool) (v : Z) : mempool :=
  mk_mempool (pool_buffer_start p) (blocks_start p) (free_list p) (bitmap p)
    (bitmap_bytes p) (block_size p) (total_blocks p) v
    (alignment p) (stats p) (sync p) (sync_enabled p) (initialized p).

Definition set_stats (p : mempool) (v : mempool_stats_t) : mempool :=
  mk_mempool (pool_buffer_start p) (blocks_start p) (free_list p) (bitmap p)
    (bitmap_bytes p) (block_size p) (total_blocks p) (free_blocks p)
    (alignment p) v (sync p) (sync_enabled p) (initialized p).

Definition set_sync (p : mempool) (v : mempool_sync_t) (en : bool) : mempool :=
  mk_mempool (pool_buffer_start p) (blocks_start p) (free_list p) (bitmap p)
    (bitmap_bytes p) (block_size p) (total_blocks p) (free_blocks p)
    (alignment p) (stats p) v en (initialized p).

(** A call of a user callback: the function pointer and its argument. *)
Inductive event : Type :=
| Call (fn ctx : Z).

(** What a call of the API leaves behind: the error code, the control block
    (when the handle is not null), the memory, the caller's output cell
    ([None] when the output pointer is null or the function has none) and the
    callbacks invoked, in order. *)
Record result (A : Type) : Type := mk_result {
  r_err : mempool_error_t;
  r_pool : option mempool;
  r_mem : memory;
  r_out : option A;
  r_trace : list event
}.

Arguments mk_result {A} _ _ _ _ _.
Arguments r_err {A} _.
Arguments r_pool {A} _.
Arguments r_mem {A} _.
Arguments r_out {A} _.
Arguments r_trace {A} _.

(** ** Static helpers of [mempool.c] *)

Definition is_power_of_two (value : Z) : bool :=
  if 0 <? value then Z.land value (size_t (value - 1)) =? 0 else false.

Definition align_up (value alignment : Z) : Z :=
  let mask := size_t (alignment - 1) in
  Z.land (size_t (value + mask)) (size_not mask).

Definition mempool_internal_lock (pool : mempool) : list event :=
  if sync_enabled pool then
    if negb (lock (sync pool) =? 0)
    then [Call (lock (sync pool)) (user_ctx (sync pool))]
    else []
  else [].

Definition mempool_internal_unlock (pool : mempool) : list event :=
  if sync_enabled pool then
    if negb (unlock (sync pool) =? 0)
    then [Call (unlock (sync pool)) (user_ctx (sync pool))]
    else []
  else [].

Definition mempool_block_index (pool : mempool) (ptr : Z) : option Z :=
  let base := blocks_start pool in
  let p := ptr in
  let off := size_t (p - base) in
  q <- udiv off (block_size pool) ;;
  Some (uint32_t q).

Definition mempool_state_size : Z := sizeof_struct_mempool.

(** ** [mempool_init] *)

(** The variables of the layout search that live across iterations. *)
Record layout : Type := mk_layout {
  l_n : Z;
  l_bitmap_bytes : Z;
  l_blocks_offset : Z;
  l_found : bool
}.

(** Padding after a bitmap that ends at offset [bitmap_end]. *)
Definition layout_pad (alignment bitmap_end : Z) : Z :=
  if 1 <? alignment then
    let mod_ := Z.land bitmap_end (size_t (alignment - 1)) in
    if negb (mod_ =? 0) then size_t (alignment - mod_) else 0
  else 0.

(** One iteration of the [while ((n > 0U) && !found)] body. *)
Definition layout_body (pool_buffer_size aligned_block_size alignment : Z)
    (st : layout) : layout :=
  let n := l_n st in
  let bitmap_bytes := size_t (n + 7) / 8 in
  let bitmap_end := bitmap_bytes in
  let pad := layout_pad alignment bitmap_end in
  let blocks_offset := size_t (bitmap_end + pad) in
  let required := size_t (blocks_offset + size_t (n * aligned_block_size)) in
  if required <=? pool_buffer_size
  then mk_layout n bitmap_bytes blocks_offset true
  else mk_layout (size_t (n - 1)) bitmap_bytes blocks_offset false.

(** The loop; [None] when the fuel does not suffice. *)
Fixpoint layout_loop (fuel : nat)
    (pool_buffer_size aligned_block_size alignment : Z) (st : layout)
    : option layout :=
  if (0 <? l_n st) && negb (l_found st) then
    match fuel with
    | O => None
    | S fuel' =>
        layout_loop fuel' pool_buffer_size aligned_block_size alignment
          (layout_body pool_buffer_size aligned_block_size alignment st)
    end
  else Some st.

(** The [for] loop that threads the free list through the blocks: [count]
    iterations from block [current], each block linking to the one before
    it.  Returns [prev_node] and the memory. *)
Fixpoint build_free_list (count : nat) (step current prev_node : Z)
    (m : memory) : Z * memory :=
  match count with
  | O => (prev_node, m)
  | S count' =>
      let node := current in
      let m' := store_ptr m node prev_node in
      build_free_list count' step (size_t (current + step)) node m'
  end.

Definition mempool_init
    (state_buffer state_buffer_size pool_buffer pool_buffer_size
     block_size alignment : Z) (pool_out : option Z) (m : memory)
    : option (result Z) :=
  match pool_out with
  | None => Some (mk_result MEMPOOL_ERR_NULL_PTR None m pool_out [])
  | Some _ =>
  if (state_buffer =? 0) || (pool_buffer =? 0) then
    Some (mk_result MEMPOOL_ERR_NULL_PTR None m pool_out [])
  else if state_buffer_size <? sizeof_struct_mempool then
    Some (mk_result MEMPOOL_ERR_INVALID_SIZE None m pool_out [])
  else if (pool_buffer_size =? 0) || (block_size =? 0) then
    Some (mk_result MEMPOOL_ERR_INVALID_SIZE None m pool_out [])
  else if negb (is_power_of_two alignment) then
    Some (mk_result MEMPOOL_ERR_ALIGNMENT None m pool_out [])
  else if negb (Z.land pool_buffer (size_t (alignment - 1)) =? 0) then
    Some (mk_result MEMPOOL_ERR_ALIGNMENT None m pool_out [])
  else if block_size <? sizeof_free_node_t then
    Some (mk_result MEMPOOL_ERR_INVALID_SIZE None m pool_out [])
  else
    (* memset(pool, 0, sizeof(struct mempool)) *)
    let aligned_block_size := align_up block_size alignment in
    max_blocks <- udiv pool_buffer_size aligned_block_size ;;
    if max_blocks =? 0 then
      Some (mk_result MEMPOOL_ERR_INVALID_SIZE (Some zero_pool) m pool_out [])
    else
      st <- layout_loop (Z.to_nat max_blocks) pool_buffer_size
              aligned_block_size alignment (mk_layout max_blocks 0 0 false) ;;
      let n := l_n st in
      let bitmap_bytes := l_bitmap_bytes st in
      let blocks_offset := l_blocks_offset st in
      if negb (l_found st) || (n =? 0) then
        Some (mk_result MEMPOOL_ERR_INVALID_SIZE (Some zero_pool) m pool_out [])
      else if (UINT32_MAX <? n) || (UINT32_MAX <? bitmap_bytes) then
        Some (mk_result MEMPOOL_ERR_INVALID_SIZE (Some zero_pool) m pool_out [])
      else
        let pool_blocks_start := size_t (pool_buffer + blocks_offset) in
        let pool_block_size := uint32_t aligned_block_size in
        let pool_total_blocks := uint32_t n in
        let pool_stats :=
          mk_stats pool_total_blocks 0 pool_total_blocks 0 0 0
            pool_block_size in
        let m1 := memset m pool_buffer 0 bitmap_bytes in
        let '(prev_node, m2) :=
          build_free_list (Z.to_nat pool_total_blocks) aligned_block_size
            pool_blocks_start 0 m1 in
        let pool :=
          mk_mempool pool_buffer pool_blocks_start prev_node pool_buffer
            (uint32_t bitmap_bytes) pool_block_size pool_total_blocks
            (uint32_t n) (uint32_t alignment) pool_stats (mk_sync 0 0 0)
            false true in
        Some (mk_result MEMPOOL_OK (Some pool) m2 (Some state_buffer) [])
  end.

(** ** [mempool_alloc] *)

Definition mempool_alloc (pool : option mempool) (block : option Z)
    (m : memory) : option (result Z) :=
  match pool, block with
  | Some p, Some _ =>
      if negb (initialized p) then
        Some (mk_result MEMPOOL_ERR_NOT_INITIALIZED pool m block [])
      else
        let locked := mempool_internal_lock p in
        if free_list p =? 0 then
          Some (mk_result MEMPOOL_ERR_OUT_OF_MEMORY pool m block
                  (locked ++ mempool_internal_unlock p))
        else if free_blocks p =? 0 then
          Some (mk_result MEMPOOL_ERR_OUT_OF_MEMORY pool m block
                  (locked ++ mempool_internal_unlock p))
        else
          let node := free_list p in
          let p1 := set_free_list p (load_ptr m node) in
          let p2 := set_free_blocks p1 (uint32_t (free_blocks p1 - 1)) in
          let alloc_count := uint32_t (s_alloc_count (stats p2) + 1) in
          let used_blocks := uint32_t (total_blocks p2 - free_blocks p2) in
          let peak_usage :=
            if s_peak_usage (stats p2) <? used_blocks
            then used_blocks else s_peak_usage (stats p2) in
          let p3 :=
            set_stats p2
              (mk_stats (s_total_blocks (stats p2)) used_blocks
                 (free_blocks p2) peak_usage alloc_count
                 (s_free_count (stats p2)) (s_block_size (stats p2))) in
          index <- mempool_block_index p3 node ;;
          let byte_index := index / 8 in
          let bit_index := index mod 8 in
          let mask := uint8_t (Z.shiftl 1 bit_index) in
          let m' :=
            if byte_index <? bitmap_bytes p3 then
              store_byte m (bitmap p3 + byte_index)
                (uint8_t (Z.lor (load_byte m (bitmap p3 + byte_index)) mask))
            else m in
          Some (mk_result MEMPOOL_OK (Some p3) m' (Some node)
                  (locked ++ mempool_internal_unlock p3))
  | _, _ => Some (mk_result MEMPOOL_ERR_NULL_PTR pool m block [])
  end.

(** ** [mempool_free] *)

Definition mempool_free (pool : option mempool) (block : Z) (m : memory)
    : option (result unit) :=
  match pool with
  | None => Some (mk_result MEMPOOL_ERR_NULL_PTR pool m None [])
  | Some p =>
  if block =? 0 then Some (mk_result MEMPOOL_ERR_NULL_PTR pool m None [])
  else if negb (initialized p) then
    Some (mk_result MEMPOOL_ERR_NOT_INITIALIZED pool m None [])
  else
    let blocks_start_addr := blocks_start p in
    let blocks_end_addr :=
      size_t (blocks_start_addr + size_t (total_blocks p * block_size p)) in
    let block_addr := block in
    if (block_addr <? blocks_start_addr) || (blocks_end_addr <=? block_addr)
    then Some (mk_result MEMPOOL_ERR_INVALID_BLOCK pool m None [])
    else
      let offset := size_t (block_addr - blocks_start_addr) in
      r <- umod offset (block_size p) ;;
      if negb (r =? 0) then
        Some (mk_result MEMPOOL_ERR_INVALID_BLOCK pool m None [])
      else
        let locked := mempool_internal_lock p in
        index <- mempool_block_index p block ;;
        let byte_index := index / 8 in
        let bit_index := index mod 8 in
        let mask := uint8_t (Z.shiftl 1 bit_index) in
        if bitmap_bytes p <=? byte_index then
          Some (mk_result MEMPOOL_ERR_INVALID_BLOCK pool m None
                  (locked ++ mempool_internal_unlock p))
        else
          let byte := load_byte m (bitmap p + byte_index) in
          if Z.land byte mask =? 0 then
            Some (mk_result MEMPOOL_ERR_DOUBLE_FREE pool m None
                    (locked ++ mempool_internal_unlock p))
          else
            let node := block in
            let m1 := store_ptr m node (free_list p) in
            let p1 := set_free_list p node in
            let p2 :=
              if free_blocks p1 <? total_blocks p1
              then set_free_blocks p1 (uint32_t (free_blocks p1 + 1))
              else p1 in
            let p3 :=
              set_stats p2
                (mk_stats (s_total_blocks (stats p2))
                   (uint32_t (total_blocks p2 - free_blocks p2))
                   (free_blocks p2) (s_peak_usage (stats p2))
                   (s_alloc_count (stats p2))
                   (uint32_t (s_free_count (stats p2) + 1))
                   (s_block_size (stats p2))) in
            let m2 :=
              store_byte m1 (bitmap p3 + byte_index)
                (uint8_t (Z.land byte (uint8_t (Z.lnot mask)))) in
            Some (mk_result MEMPOOL_OK (Some p3) m2 None
                    (locked ++ mempool_internal_unlock p3))
  end.

(** ** [mempool_get_stats], [mempool_reset], [mempool_contains],
       [mempool_set_sync] *)

Definition mempool_get_stats (pool : option mempool)
    (stats_out : option mempool_stats_t) (m : memory)
    : option (result mempool_stats_t) :=
  match pool, stats_out with
  | Some p, Some _ =>
      if negb (initialized p) then
        Some (mk_result MEMPOOL_ERR_NOT_INITIALIZED pool m stats_out [])
      else
        Some (mk_result MEMPOOL_OK pool m (Some (stats p))
                (mempool_internal_lock p ++ mempool_internal_unlock p))
  | _, _ => Some (mk_result MEMPOOL_ERR_NULL_PTR pool m stats_out [])
  end.

Definition mempool_reset (pool : option mempool) (m : memory)
    : option (result unit) :=
  match pool with
  | None => Some (mk_result MEMPOOL_ERR_NULL_PTR pool m None [])
  | Some p =>
      if negb (initialized p) then
        Some (mk_result MEMPOOL_ERR_NOT_INITIALIZED pool m None [])
      else
        let locked := mempool_internal_lock p in
        let m1 := memset m (bitmap p) 0 (bitmap_bytes p) in
        let '(prev_node, m2) :=
          build_free_list (Z.to_nat (total_blocks p)) (block_size p)
            (blocks_start p) 0 m1 in
        let p1 := set_free_list p prev_node in
        let p2 := set_free_blocks p1 (total_blocks p1) in
        let p3 :=
          set_stats p2
            (mk_stats (total_blocks p2) 0 (total_blocks p2) 0 0 0
               (block_size p2)) in
        Some (mk_result MEMPOOL_OK (Some p3) m2 None
                (locked ++ mempool_internal_unlock p3))
  end.

Definition mempool_contains (pool : option mempool) (ptr : Z) : bool :=
  match pool with
  | None => false
  | Some p =>
      if (ptr =? 0) || negb (initialized p) then false
      else
        let blocks_start_addr := blocks_start p in
        let blocks_end_addr :=
          size_t (blocks_start_addr + size_t (total_blocks p * block_size p)) in
        (blocks_start_addr <=? ptr) && (ptr <? blocks_end_addr)
  end.

Definition mempool_set_sync (pool : option mempool)
    (lock_fn unlock_fn ctx : Z) (m : memory) : option (result unit) :=
  match pool with
  | None => Some (mk_result MEMPOOL_ERR_NULL_PTR pool m None [])
  | Some p =>
      if negb (initialized p) then
        Some (mk_result MEMPOOL_ERR_NOT_INITIALIZED pool m None [])
      else
        let p1 :=
          set_sync p (mk_sync lock_fn unlock_fn ctx)
            (negb (lock_fn =? 0) && negb (unlock_fn =? 0)) in
        Some (mk_result MEMPOOL_OK (Some p1) m None [])
  end.

(** ** Programs over one pool *)

(** The state a caller holds after a successful [mempool_init]: the control
    block in the state buffer and the memory that contains the pool buffer. *)
Record state : Type := mk_state {
  st_pool : mempool;
  st_mem : memory
}.

(** The calls a client can make on its handle.  [OpFree] carries whatever
    pointer the client passes, valid or not. *)
Inductive op : Type :=
| OpAlloc
| OpFree (block : Z)
| OpReset
| OpGetStats
| OpSetSync (lock_fn unlock_fn ctx : Z).

(** What the client sees of a call: the error code, the block or statistics
    written through the output pointer, and the callbacks invoked. *)
Record response : Type := mk_response {
  rsp_err : mempool_error_t;
  rsp_block : option Z;
  rsp_stats : option mempool_stats_t;
  rsp_trace : list event
}.

Definition state_after {A : Type} (s : state) (r : result A) : state :=
  match r_pool r with
  | Some p => mk_state p (r_mem r)
  | None => mk_state (st_pool s) (r_mem r)
  end.

(** One call on the handle [&st_pool s].  The output cells of [alloc] and
    [get_stats] start out holding nothing: [rsp_block] and [rsp_stats] are
    what the call wrote. *)
Definition step (s : state) (o : op) : option (state * response) :=
  match o with
  | OpAlloc =>
      r <- mempool_alloc (Some (st_pool s)) (Some 0) (st_mem s) ;;
      Some (state_after s r,
            mk_response (r_err r)
              (match r_err r with MEMPOOL_OK => r_out r | _ => None end)
              None (r_trace r))
  | OpFree block =>
      r <- mempool_free (Some (st_pool s)) block (st_mem s) ;;
      Some (state_after s r, mk_response (r_err r) None None (r_trace r))
  | OpReset =>
      r <- mempool_reset (Some (st_pool s)) (st_mem s) ;;
      Some (state_after s r, mk_response (r_err r) None None (r_trace r))
  | OpGetStats =>
      r <- mempool_get_stats (Some (st_pool s))
             (Some (mk_stats 0 0 0 0 0 0 0)) (st_mem s) ;;
      Some (state_after s r,
            mk_response (r_err r) None
              (match r_err r with MEMPOOL_OK => r_out r | _ => None end)
              (r_trace r))
  | OpSetSync lock_fn unlock_fn ctx =>
      r <- mempool_set_sync (Some (st_pool s)) lock_fn unlock_fn ctx
             (st_mem s) ;;
      Some (state_after s r, mk_response (r_err r) None None (r_trace r))
  end.

(** A sequence of calls; the responses are collected in order. *)
Fixpoint run (s : state) (os : list op) : option (state * list response) :=
  match os with
  | [] => Some (s, [])
  | o :: os' =>
      sr <- step s o ;;
      sr' <- run (fst sr) os' ;;
      Some (fst sr', snd sr :: snd sr')
  end.

(** The state after a successful [mempool_init]. *)
Definition init_state (r : result Z) : state :=
  match r_pool r with
  | Some p => mk_state p (r_mem r)
  | None => mk_state zero_pool (r_mem r)
  end.

(** ** Observations on a pool *)

(** Address of block [i] as the allocator computes it from its own fields. *)
Definition block_addr (p : mempool) (i : Z) : Z :=
  blocks_start p + i * block_size p.

(** Bit [k] of a bitmap byte, tested the way [mempool_free] tests it. *)
Definition byte_bit (byte k : Z) : bool :=
  negb (Z.land byte (uint8_t (Z.shiftl 1 k)) =? 0).

(** The allocation bit of block [i]. *)
Definition bit_set (p : mempool) (m : memory) (i : Z) : bool :=
  byte_bit (load_byte m (bitmap p + i / 8)) (i mod 8).

(** The nodes met when following [next] from [ptr], at most [fuel] of them. *)
Fixpoint walk (fuel : nat) (m : memory) (ptr : Z) : list Z :=
  match fuel with
  | O => []
  | S fuel' =>
      if ptr =? 0 then [] else ptr :: walk fuel' m (load_ptr m ptr)
  end.

(** The free list of a pool: one step more than there are blocks, so that a
    list that does not end within [total_blocks] nodes shows by its length. *)
Definition free_list_nodes (s : state) : list Z :=
  walk (S (Z.to_nat (total_blocks (st_pool s)))) (st_mem s)
    (free_list (st_pool s)).

(** The block indices [0 .. n-1]. *)
Definition indices (n : Z) : list Z := map Z.of_nat (seq 0 (Z.to_nat n)).

(** Number of blocks whose allocation bit is set. *)
Definition count_allocated (p : mempool) (m : memory) : Z :=
  Z.of_nat (length (filter (bit_set p m) (indices (total_blocks p)))).

(** The three relations on a statistics record. *)
Definition stats_consistent (st : mempool_stats_t) : Prop :=
  s_used_blocks st + s_free_blocks st = s_total_blocks st /\
  s_used_blocks st <= s_peak_usage st /\
  uint32_t (s_alloc_count st - s_free_count st) = s_used_blocks st.

(** The range check and the block-boundary check of [mempool_free]. *)
Definition in_blocks_range (p : mempool) (block : Z) : bool :=
  negb ((block <? blocks_start p) ||
        (size_t (blocks_start p + size_t (total_blocks p * block_size p))
           <=? block)).

Definition on_block_boundary (p : mempool) (block : Z) : bool :=
  match umod (size_t (block - blocks_start p)) (block_size p) with
  | Some r => r =? 0
  | None => false
  end.

(** ** Arguments of [mempool_init] *)

Record init_args : Type := mk_init_args {
  a_state_buffer : Z;
  a_state_buffer_size : Z;
  a_pool_buffer : Z;
  a_pool_buffer_size : Z;
  a_block_size : Z;
  a_alignment : Z
}.

(** [mempool_init] called with a non-null [pool_out]. *)
Definition init (a : init_args) (m : memory) : option (result Z) :=
  mempool_init (a_state_buffer a) (a_state_buffer_size a) (a_pool_buffer a)
    (a_pool_buffer_size a) (a_block_size a) (a_alignment a) (Some 0) m.

Definition is_size_t (x : Z) : Prop := 0 <= x <= SIZE_MAX.

(** The arguments are values of their C types and the pool buffer is an
    object: it is no larger than [PTRDIFF_MAX] and the pointer one past its
    end is an address. *)
Definition well_typed_args (a : init_args) : Prop :=
  is_size_t (a_state_buffer a) /\ is_size_t (a_state_buffer_size a) /\
  is_size_t (a_pool_buffer a) /\ is_size_t (a_pool_buffer_size a) /\
  is_size_t (a_block_size a) /\ is_size_t (a_alignment a) /\
  a_pool_buffer_size a <= PTRDIFF_MAX /\
  a_pool_buffer a + a_pool_buffer_size a <= SIZE_MAX.

(** [init] succeeded and left the state [s]. *)
Definition init_ok (a : init_args) (m : memory) (s : state) : Prop :=
  exists r, init a m = Some r /\ r_err r = MEMPOOL_OK /\ s = init_state r.

(** ** Invariants *)

(** What never changes after [mempool_init]: the geometry of the pool. *)
Definition shape_ok (p : mempool) : Prop :=
  initialized p = true /\
  1 <= total_blocks p <= UINT32_MAX /\
  0 <= block_size p <= UINT32_MAX /\
  bitmap_bytes p = (total_blocks p + 7) / 8 /\
  0 < bitmap p /\
  bitmap p + bitmap_bytes p <= blocks_start p /\
  blocks_start p + total_blocks p * block_size p <= SIZE_MAX.

(** The counters against each other and against the bitmap. *)
Definition counters_ok (s : state) : Prop :=
  let p := st_pool s in
  shape_ok p /\
  0 <= free_blocks p /\
  free_blocks p + count_allocated p (st_mem s) <= total_blocks p /\
  s_total_blocks (stats p) = total_blocks p /\
  s_free_blocks (stats p) = free_blocks p /\
  s_used_blocks (stats p) = total_blocks p - free_blocks p /\
  s_used_blocks (stats p) <= s_peak_usage (stats p) /\
  0 <= s_alloc_count (stats p) <= UINT32_MAX /\
  0 <= s_free_count (stats p) <= UINT32_MAX /\
  uint32_t (s_alloc_count (stats p) - s_free_count (stats p))
    = s_used_blocks (stats p).

(** [l] is the list of nodes linked from [ptr] and ended by [NULL]. *)
Fixpoint lseg (m : memory) (ptr : Z) (l : list Z) : Prop :=
  match l with
  | [] => ptr = 0
  | a :: l' => ptr = a /\ a <> 0 /\ lseg m (load_ptr m a) l'
  end.

(** The free list holds exactly the blocks [idxs], each once, and these are
    the blocks whose bit is clear. *)
Definition free_list_is (s : state) (idxs : list Z) : Prop :=
  let p := st_pool s in
  lseg (st_mem s) (free_list p) (map (block_addr p) idxs) /\
  NoDup idxs /\
  (forall i, In i idxs -> 0 <= i < total_blocks p) /\
  Z.of_nat (length idxs) = free_blocks p /\
  (forall i, 0 <= i < total_blocks p ->
     (bit_set p (st_mem s) i = true <-> ~ In i idxs)).

(** The representation invariant of a pool whose [block_size] field holds
    the real distance between blocks. *)
Definition pool_inv (s : state) : Prop :=
  counters_ok s /\
  sizeof_free_node_t <= block_size (st_pool s) /\
  exists idxs, free_list_is s idxs.

(** ** The layout of the specification *)

(** [ceil(block_size / alignment) * alignment]. *)
Definition spec_aligned_block_size (block_size alignment : Z) : Z :=
  ((block_size + alignment - 1) / alignment) * alignment.

(** [ceil(N / 8)]. *)
Definition spec_bitmap_bytes (N : Z) : Z := (N + 7) / 8.

(** The padding that brings the end of the bitmap up to the alignment. *)
Definition spec_pad (alignment N : Z) : Z :=
  (alignment - spec_bitmap_bytes N mod alignment) mod alignment.

(** [ceil(N/8) + pad + N * aligned_block_size]. *)
Definition spec_required (aligned_block_size alignment N : Z) : Z :=
  spec_bitmap_bytes N + spec_pad alignment N + N * aligned_block_size.

(** [ceil(N/8) + pad + N * aligned_block_size <= pool_region_size]. *)
Definition spec_fits (pool_size block_size alignment N : Z) : Prop :=
  spec_required (spec_aligned_block_size block_size alignment) alignment N
  <= pool_size.

(** [N] is the largest block count that fits, and is at least 1. *)
Definition spec_largest (pool_size block_size alignment N : Z) : Prop :=
  1 <= N /\ spec_fits pool_size block_size alignment N /\
  forall N', N < N' -> ~ spec_fits pool_size block_size alignment N'.

(** The inputs the planner's contract admits: a non-zero power-of-two
    alignment, an aligned, non-null pool region, a block that holds a
    free-list link, non-null state and output pointers and a state buffer
    of at least [mempool_state_size] bytes. *)
Definition planner_input (a : init_args) : Prop :=
  (exists k, 0 <= k < 64 /\ a_alignment a = 2 ^ k) /\
  a_pool_buffer a <> 0 /\
  a_pool_buffer a mod a_alignment a = 0 /\
  sizeof_free_node_t <= a_block_size a /\
  a_state_buffer a <> 0 /\
  mempool_state_size <= a_state_buffer_size a.

(** The total number of blocks a successful [init] reports. *)
Definition init_block_count (r : result Z) : option Z :=
  match r_err r, r_pool r with
  | MEMPOOL_OK, Some p => Some (total_blocks p)
  | _, _ => None
  end.

(** ** The effect of a successful call, written out *)

(** The index [mempool_block_index] computes for [ptr] when the block size
    is not zero. *)
Definition index_of (p : mempool) (ptr : Z) : Z :=
  uint32_t (size_t (ptr - blocks_start p) / block_size p).

(** The control block after [mempool_alloc] has popped the head. *)
Definition pool_after_alloc (p : mempool) (m : memory) : mempool :=
  let free' := uint32_t (free_blocks p - 1) in
  let used := uint32_t (total_blocks p - free') in
  mk_mempool (pool_buffer_start p) (blocks_start p)
    (load_ptr m (free_list p)) (bitmap p) (bitmap_bytes p) (block_size p)
    (total_blocks p) free' (alignment p)
    (mk_stats (s_total_blocks (stats p)) used free'
       (if s_peak_usage (stats p) <? used then used
        else s_peak_usage (stats p))
       (uint32_t (s_alloc_count (stats p) + 1)) (s_free_count (stats p))
       (s_block_size (stats p)))
    (sync p) (sync_enabled p) (initialized p).

(** The memory after [mempool_alloc] has marked block [idx]. *)
Definition mem_after_alloc (p : mempool) (m : memory) (idx : Z) : memory :=
  if idx / 8 <? bitmap_bytes p then
    store_byte m (bitmap p + idx / 8)
      (uint8_t (Z.lor (load_byte m (bitmap p + idx / 8))
                  (uint8_t (Z.shiftl 1 (idx mod 8)))))
  else m.

(** The control block after [mempool_free] has pushed [block]. *)
Definition pool_after_free (p : mempool) (block : Z) : mempool :=
  let free' :=
    if free_blocks p <? total_blocks p then uint32_t (free_blocks p + 1)
    else free_blocks p in
  mk_mempool (pool_buffer_start p) (blocks_start p) block (bitmap p)
    (bitmap_bytes p) (block_size p) (total_blocks p) free' (alignment p)
    (mk_stats (s_total_blocks (stats p)) (uint32_t (total_blocks p - free'))
       free' (s_peak_usage (stats p)) (s_alloc_count (stats p))
       (uint32_t (s_free_count (stats p) + 1)) (s_block_size (stats p)))
    (sync p) (sync_enabled p) (initialized p).

(** The memory after [mempool_free] has linked [block] and cleared the bit
    of [idx]. *)
Definition mem_after_free (p : mempool) (m : memory) (block idx : Z)
    : memory :=
  store_byte (store_ptr m block (free_list p)) (bitmap p + idx / 8)
    (uint8_t (Z.land (load_byte m (bitmap p + idx / 8))
                (uint8_t (Z.lnot (uint8_t (Z.shiftl 1 (idx mod 8))))))).

(** The control block and the memory after [mempool_reset]. *)
Definition mem_after_reset (p : mempool) (m : memory) : memory :=
  snd (build_free_list (Z.to_nat (total_blocks p)) (block_size p)
         (blocks_start p) 0 (memset m (bitmap p) 0 (bitmap_bytes p))).

Definition pool_after_reset (p : mempool) (m : memory) : mempool :=
  mk_mempool (pool_buffer_start p) (blocks_start p)
    (fst (build_free_list (Z.to_nat (total_blocks p)) (block_size p)
            (blocks_start p) 0 (memset m (bitmap p) 0 (bitmap_bytes p))))
    (bitmap p) (bitmap_bytes p) (block_size p) (total_blocks p)
    (total_blocks p) (alignment p)
    (mk_stats (total_blocks p) 0 (total_blocks p) 0 0 0 (block_size p))
    (sync p) (sync_enabled p) (initialized p).

(** The callbacks a critical section of pool [p] invokes. *)
Definition critical_section (p : mempool) : list event :=
  mempool_internal_lock p ++ mempool_internal_unlock p.

(** ** The state [mempool_init] builds from the result of its search *)

Definition init_pool_of (a : init_args) (aligned_block_size : Z)
    (st : layout) (m : memory) : state :=
  let blocks := size_t (a_pool_buffer a + l_blocks_offset st) in
  let built :=
    build_free_list (Z.to_nat (uint32_t (l_n st))) aligned_block_size blocks 0
      (memset m (a_pool_buffer a) 0 (l_bitmap_bytes st)) in
  mk_state
    (mk_mempool (a_pool_buffer a) blocks (fst built) (a_pool_buffer a)
       (uint32_t (l_bitmap_bytes st)) (uint32_t aligned_block_size)
       (uint32_t (l_n st)) (uint32_t (l_n st)) (uint32_t (a_alignment a))
       (mk_stats (uint32_t (l_n st)) 0 (uint32_t (l_n st)) 0 0 0
          (uint32_t aligned_block_size))
       (mk_sync 0 0 0) false true)
    (snd built).

(** The search of [mempool_init] on the arguments [a]. *)
Definition init_search (a : init_args) : option layout :=
  let aligned_block_size := align_up (a_block_size a) (a_alignment a) in
  max_blocks <- udiv (a_pool_buffer_size a) aligned_block_size ;;
  layout_loop (Z.to_nat max_blocks) (a_pool_buffer_size a)
    aligned_block_size (a_alignment a) (mk_layout max_blocks 0 0 false).

(** The argument checks of [mempool_init] before the search. *)
Definition init_checks (a : init_args) : option mempool_error_t :=
  if (a_state_buffer a =? 0) || (a_pool_buffer a =? 0) then
    Some MEMPOOL_ERR_NULL_PTR
  else if a_state_buffer_size a <? sizeof_struct_mempool then
    Some MEMPOOL_ERR_INVALID_SIZE
  else if (a_pool_buffer_size a =? 0) || (a_block_size a =? 0) then
    Some MEMPOOL_ERR_INVALID_SIZE
  else if negb (is_power_of_two (a_alignment a)) then
    Some MEMPOOL_ERR_ALIGNMENT
  else if negb (Z.land (a_pool_buffer a) (size_t (a_alignment a - 1)) =? 0)
  then Some MEMPOOL_ERR_ALIGNMENT
  else if a_block_size a <? sizeof_free_node_t then
    Some MEMPOOL_ERR_INVALID_SIZE
  else None.

(** The fields that describe the geometry of a pool. *)
Definition same_geometry (p p' : mempool) : Prop :=
  pool_buffer_start p' = pool_buffer_start p /\
  blocks_start p' = blocks_start p /\
  bitmap p' = bitmap p /\
  bitmap_bytes p' = bitmap_bytes p /\
  block_size p' = block_size p /\
  total_blocks p' = total_blocks p /\
  alignment p' = alignment p /\
  initialized p' = initialized p.

(** ** A pool to run the calls on *)

(** A 4096-byte pool at address 4096, 64-byte blocks, alignment 8, in a
    memory of zeros. *)
Definition demo_args : init_args := mk_init_args 1000 128 4096 4096 64 8.
Definition demo_memory : memory := fun _ => 0.

Definition demo_state : state :=
  match init demo_args demo_memory with
  | Some r => init_state r
  | None => mk_state zero_pool demo_memory
  end.

(** A pool of two 4 GiB blocks: the aligned block size is [2 ^ 32]. *)
Definition huge_args : init_args :=
  mk_init_args 1000 128 4096 (2 ^ 33 + 8) (2 ^ 32) 8.

Definition huge_state : state :=
  match init huge_args demo_memory with
  | Some r => init_state r
  | None => mk_state zero_pool demo_memory
  end.

(** The calls that enter the critical section. *)
Definition uses_critical_section (o : op) : bool :=
  match o with
  | OpSetSync _ _ _ => false
  | _ => true
  end.

(** A pool with the hooks (1, 2) and the context 3 installed. *)
Definition hooked_state : state :=
  mk_state (set_sync (st_pool demo_state) (mk_sync 1 2 3) true)
    (st_mem demo_state).

(** The state and the responses of a run that is defined. *)
Definition state_after_run (s : state) (os : list op) : state :=
  match run s os with
  | Some (s', _) => s'
  | None => s
  end.

Definition responses_of_run (s : state) (os : list op) : list response :=
  match run s os with
  | Some (_, rs) => rs
  | None => []
  end.

(** The memory holds bytes and the head of the free list is an address. *)
Definition byte_memory (m : memory) : Prop := forall x, 0 <= m x < 256.

Definition typed_state (s : state) : Prop :=
  byte_memory (st_mem s) /\ 0 <= free_list (st_pool s) < 2 ^ 64.

(** The block indices [k-1, ..., 1, 0]: the order in which the free list of
    a fresh pool of [k] blocks hands them out. *)
Fixpoint down (k : nat) : list Z :=
  match k with
  | O => []
  | S k' => Z.of_nat k' :: down k'
  end.

(** The block a successful [alloc] wrote through its output pointer. *)
Definition allocated_block (rsp : response) : option Z :=
  match rsp_err rsp with
  | MEMPOOL_OK => rsp_block rsp
  | _ => None
  end.

(** A pool of [2 ^ 32] blocks of 8 bytes: [2 ^ 35] bytes of blocks after a
    bitmap of [2 ^ 29] bytes. *)
Definition wide_args : init_args :=
  mk_init_args 1000 128 4096 (2 ^ 35 + 2 ^ 29) 8 8.

(** * Definitions for the rest of the interface *)

(** ** [mempool_strerror] *)

(** The values of the enumeration [mempool_error_t]. *)
Definition error_code (e : mempool_error_t) : Z :=
  match e with
  | MEMPOOL_OK => 0
  | MEMPOOL_ERR_NULL_PTR => 1
  | MEMPOOL_ERR_INVALID_SIZE => 2
  | MEMPOOL_ERR_OUT_OF_MEMORY => 3
  | MEMPOOL_ERR_INVALID_BLOCK => 4
  | MEMPOOL_ERR_ALIGNMENT => 5
  | MEMPOOL_ERR_DOUBLE_FREE => 6
  | MEMPOOL_ERR_NOT_INITIALIZED => 7
  end.

Section Messages.
Import String.

(** The [switch] of [mempool_strerror] on the value it is passed. *)
Definition mempool_strerror (error : Z) : string :=
  match error with
  | 0 => "Success"
  | 1 => "Null pointer"
  | 2 => "Invalid size"
  | 3 => "Out of memory"
  | 4 => "Invalid block"
  | 5 => "Alignment error"
  | 6 => "Double free detected"
  | 7 => "Pool not initialized"
  | _ => "Unknown error"
  end%string.

(** The message of a value outside the enumeration. *)
Definition unknown_error : string := "Unknown error"%string.

End Messages.

(** A pool whose rounded block size would exceed [SIZE_MAX]. *)
Definition wrapping_args : init_args :=
  mk_init_args 1000 128 4096 4096 (2 ^ 64 - 1) 8.

(** ** States a client can reach *)

(** The aligned block size fits the 32-bit [block_size] field. *)
Definition block_size_fits (a : init_args) : Prop :=
  align_up (a_block_size a) (a_alignment a) <= UINT32_MAX.

(** [s] is the state after a successful [mempool_init] on [a] in the memory
    [m0], followed by any calls on the handle. *)
Definition reached (a : init_args) (m0 : memory) (s : state) : Prop :=
  exists s0 os rs, init_ok a m0 s0 /\ run s0 os = Some (s, rs).

(** The address one past the last block, as [mempool_free] and
    [mempool_contains] compute it when nothing wraps. *)
Definition blocks_end (p : mempool) : Z :=
  blocks_start p + total_blocks p * block_size p.

(** The pool buffer of the arguments [a] holds the address [x]. *)
Definition in_pool_buffer (a : init_args) (x : Z) : Prop :=
  a_pool_buffer a <= x < a_pool_buffer a + a_pool_buffer_size a.

(** The bytes a call may write when it answers [rsp]: none unless it
    returns [OK]; then a bitmap byte for [alloc], a bitmap byte and the
    link at the start of the block for [free], the bitmap and the blocks
    for [reset]. *)
Definition written_by (p : mempool) (o : op) (rsp : response) (x : Z)
    : Prop :=
  rsp_err rsp = MEMPOOL_OK /\
  match o with
  | OpAlloc => bitmap p <= x < bitmap p + bitmap_bytes p
  | OpFree block =>
      bitmap p <= x < bitmap p + bitmap_bytes p \/
      block <= x < block + sizeof_free_node_t
  | OpReset =>
      bitmap p <= x < bitmap p + bitmap_bytes p \/
      blocks_start p <= x < blocks_end p
  | OpGetStats => False
  | OpSetSync _ _ _ => False
  end.

(** The numbers of [alloc] and of [free] calls that returned [OK] among
    the calls [os] answered by [rs], counted on from [acc] and started
    again at zero by a [reset]. *)
Fixpoint tally (acc : Z * Z) (os : list op) (rs : list response) : Z * Z :=
  match os, rs with
  | o :: os', r :: rs' =>
      tally
        (match o, rsp_err r with
         | OpAlloc, MEMPOOL_OK => (fst acc + 1, snd acc)
         | OpFree _, MEMPOOL_OK => (fst acc, snd acc + 1)
         | OpReset, MEMPOOL_OK => (0, 0)
         | _, _ => acc
         end) os' rs'
  | _, _ => acc
  end.

(** The callbacks of one critical section under the hooks [l], [u] and the
    context [c]: the lock, then the unlock. *)
Definition bracket (l u c : Z) : list event := [Call l c; Call u c].

(** ** The version with a caller-visible control block

    The second implementation in [src/mempool.c] (its header declares
    [struct mempool_t] in full and [mempool_init] takes the control block
    instead of a state buffer).  Its helpers [is_power_of_two], [align_up],
    [mempool_internal_lock], [mempool_internal_unlock] and
    [mempool_block_index] are those above, word for word; its
    [buffer_start] field is held in [pool_buffer_start].  Each function has
    one exit, so that an error leaves the control block as it was. *)
Module Legacy.

(** [mempool_init(pool, buffer, buffer_size, block_size, alignment)];
    [pool] is the caller's control block with the contents it has. *)
Definition mempool_init (pool : option mempool)
    (buffer buffer_size block_size alignment : Z) (m : memory)
    : option (result unit) :=
  match pool with
  | None => Some (mk_result MEMPOOL_ERR_NULL_PTR pool m None [])
  | Some _ =>
  if buffer =? 0 then
    Some (mk_result MEMPOOL_ERR_NULL_PTR pool m None [])
  else if (buffer_size =? 0) || (block_size =? 0) then
    Some (mk_result MEMPOOL_ERR_INVALID_SIZE pool m None [])
  else if negb (is_power_of_two alignment) then
    Some (mk_result MEMPOOL_ERR_ALIGNMENT pool m None [])
  else if negb (Z.land buffer (size_t (alignment - 1)) =? 0) then
    Some (mk_result MEMPOOL_ERR_ALIGNMENT pool m None [])
  else if block_size <? sizeof_free_node_t then
    Some (mk_result MEMPOOL_ERR_INVALID_SIZE pool m None [])
  else
    let aligned_block_size := align_up block_size alignment in
    max_blocks <- udiv buffer_size aligned_block_size ;;
    if max_blocks =? 0 then
      Some (mk_result MEMPOOL_ERR_INVALID_SIZE pool m None [])
    else
      st <- layout_loop (Z.to_nat max_blocks) buffer_size
              aligned_block_size alignment (mk_layout max_blocks 0 0 false) ;;
      let n := l_n st in
      let bitmap_bytes := l_bitmap_bytes st in
      let blocks_offset := l_blocks_offset st in
      if negb (l_found st) || (n =? 0) then
        Some (mk_result MEMPOOL_ERR_INVALID_SIZE pool m None [])
      else if UINT32_MAX <? n then
        Some (mk_result MEMPOOL_ERR_INVALID_SIZE pool m None [])
      else if UINT32_MAX <? bitmap_bytes then
        Some (mk_result MEMPOOL_ERR_INVALID_SIZE pool m None [])
      else
        let total_blocks := uint32_t n in
        let pool_blocks_start := size_t (buffer + blocks_offset) in
        let pool_stats :=
          mk_stats total_blocks 0 total_blocks 0 0 0
            (uint32_t aligned_block_size) in
        let m1 := memset m buffer 0 bitmap_bytes in
        let '(prev_node, m2) :=
          build_free_list (Z.to_nat total_blocks) aligned_block_size
            pool_blocks_start 0 m1 in
        let pool' :=
          mk_mempool buffer pool_blocks_start prev_node buffer
            (uint32_t bitmap_bytes) (uint32_t aligned_block_size)
            total_blocks total_blocks (uint32_t alignment) pool_stats
            (mk_sync 0 0 0) false true in
        Some (mk_result MEMPOOL_OK (Some pool') m2 None [])
  end.

(** [mempool_alloc]: the head is popped before [free_blocks] is looked
    at, and put back when it is 0; the bit is written when the index is
    below [total_blocks]. *)
Definition mempool_alloc (pool : option mempool) (block : option Z)
    (m : memory) : option (result Z) :=
  match pool, block with
  | Some p, Some _ =>
      if negb (initialized p) then
        Some (mk_result MEMPOOL_ERR_NOT_INITIALIZED pool m block [])
      else
        let locked := mempool_internal_lock p in
        if free_list p =? 0 then
          Some (mk_result MEMPOOL_ERR_OUT_OF_MEMORY pool m block
                  (locked ++ mempool_internal_unlock p))
        else
          let node := free_list p in
          let p1 := set_free_list p (load_ptr m node) in
          if free_blocks p1 =? 0 then
            let p2 := set_free_list p1 node in
            Some (mk_result MEMPOOL_ERR_OUT_OF_MEMORY (Some p2) m block
                    (locked ++ mempool_internal_unlock p2))
          else
            let p2 := set_free_blocks p1 (uint32_t (free_blocks p1 - 1)) in
            let alloc_count := uint32_t (s_alloc_count (stats p2) + 1) in
            let used_blocks := uint32_t (total_blocks p2 - free_blocks p2) in
            let peak_usage :=
              if s_peak_usage (stats p2) <? used_blocks
              then used_blocks else s_peak_usage (stats p2) in
            let p3 :=
              set_stats p2
                (mk_stats (s_total_blocks (stats p2)) used_blocks
                   (free_blocks p2) peak_usage alloc_count
                   (s_free_count (stats p2)) (s_block_size (stats p2))) in
            index <- mempool_block_index p3 node ;;
            let m' :=
              if index <? total_blocks p3 then
                let byte_index := index / 8 in
                let bit_index := index mod 8 in
                let mask := uint8_t (Z.shiftl 1 bit_index) in
                store_byte m (bitmap p3 + byte_index)
                  (uint8_t (Z.lor (load_byte m (bitmap p3 + byte_index)) mask))
              else m in
            Some (mk_result MEMPOOL_OK (Some p3) m' (Some node)
                    (locked ++ mempool_internal_unlock p3))
  | _, _ => Some (mk_result MEMPOOL_ERR_NULL_PTR pool m block [])
  end.

(** [mempool_free]: the index is checked against [total_blocks] before
    the lock is taken, and the bitmap byte is read again after the link
    has been written. *)
Definition mempool_free (pool : option mempool) (block : Z) (m : memory)
    : option (result unit) :=
  match pool with
  | None => Some (mk_result MEMPOOL_ERR_NULL_PTR pool m None [])
  | Some p =>
  if block =? 0 then Some (mk_result MEMPOOL_ERR_NULL_PTR pool m None [])
  else if negb (initialized p) then
    Some (mk_result MEMPOOL_ERR_NOT_INITIALIZED pool m None [])
  else
    let blocks_start_addr := blocks_start p in
    let blocks_end_addr :=
      size_t (blocks_start_addr + size_t (total_blocks p * block_size p)) in
    let block_addr := block in
    if (block_addr <? blocks_start_addr) || (blocks_end_addr <=? block_addr)
    then Some (mk_result MEMPOOL_ERR_INVALID_BLOCK pool m None [])
    else
      let offset := size_t (block_addr - blocks_start_addr) in
      r <- umod offset (block_size p) ;;
      if negb (r =? 0) then
        Some (mk_result MEMPOOL_ERR_INVALID_BLOCK pool m None [])
      else
        q <- udiv offset (block_size p) ;;
        let index := uint32_t q in
        if total_blocks p <=? index then
          Some (mk_result MEMPOOL_ERR_INVALID_BLOCK pool m None [])
        else
          let byte_index := index / 8 in
          let bit_index := index mod 8 in
          let mask := uint8_t (Z.shiftl 1 bit_index) in
          let locked := mempool_internal_lock p in
          if Z.land (load_byte m (bitmap p + byte_index)) mask =? 0 then
            Some (mk_result MEMPOOL_ERR_DOUBLE_FREE pool m None
                    (locked ++ mempool_internal_unlock p))
          else
            let node := block in
            let m1 := store_ptr m node (free_list p) in
            let p1 := set_free_list p node in
            let p2 :=
              if free_blocks p1 <? total_blocks p1
              then set_free_blocks p1 (uint32_t (free_blocks p1 + 1))
              else p1 in
            let p3 :=
              set_stats p2
                (mk_stats (s_total_blocks (stats p2))
                   (uint32_t (total_blocks p2 - free_blocks p2))
                   (free_blocks p2) (s_peak_usage (stats p2))
                   (s_alloc_count (stats p2))
                   (uint32_t (s_free_count (stats p2) + 1))
                   (s_block_size (stats p2))) in
            let m2 :=
              store_byte m1 (bitmap p3 + byte_index)
                (uint8_t (Z.land (load_byte m1 (bitmap p3 + byte_index))
                            (uint8_t (Z.lnot mask)))) in
            Some (mk_result MEMPOOL_OK (Some p3) m2 None
                    (locked ++ mempool_internal_unlock p3))
  end.

Definition mempool_get_stats (pool : option mempool)
    (stats_out : option mempool_stats_t) (m : memory)
    : option (result mempool_stats_t) :=
  match pool, stats_out with
  | Some p, Some _ =>
      if negb (initialized p) then
        Some (mk_result MEMPOOL_ERR_NOT_INITIALIZED pool m stats_out [])
      else
        Some (mk_result MEMPOOL_OK pool m (Some (stats p))
                (mempool_internal_lock p ++ mempool_internal_unlock p))
  | _, _ => Some (mk_result MEMPOOL_ERR_NULL_PTR pool m stats_out [])
  end.

Definition mempool_reset (pool : option mempool) (m : memory)
    : option (result unit) :=
  match pool with
  | None => Some (mk_result MEMPOOL_ERR_NULL_PTR pool m None [])
  | Some p =>
      if negb (initialized p) then
        Some (mk_result MEMPOOL_ERR_NOT_INITIALIZED pool m None [])
      else
        let locked := mempool_internal_lock p in
        let m1 := memset m (bitmap p) 0 (bitmap_bytes p) in
        let '(prev_node, m2) :=
          build_free_list (Z.to_nat (total_blocks p)) (block_size p)
            (blocks_start p) 0 m1 in
        let p1 := set_free_list p prev_node in
        let p2 := set_free_blocks p1 (total_blocks p1) in
        let p3 :=
          set_stats p2
            (mk_stats (total_blocks p2) 0 (total_blocks p2) 0 0 0
               (block_size p2)) in
        Some (mk_result MEMPOOL_OK (Some p3) m2 None
                (locked ++ mempool_internal_unlock p3))
  end.

Definition mempool_contains (pool : option mempool) (ptr : Z) : bool :=
  match pool with
  | None => false
  | Some p =>
      if negb (ptr =? 0) && initialized p then
        let blocks_start_addr := blocks_start p in
        let blocks_end_addr :=
          size_t (blocks_start_addr + size_t (total_blocks p * block_size p)) in
        if (blocks_start_addr <=? ptr) && (ptr <? blocks_end_addr)
        then true else false
      else false
  end.

Definition mempool_set_sync (pool : option mempool)
    (lock_fn unlock_fn ctx : Z) (m : memory) : option (result unit) :=
  match pool with
  | None => Some (mk_result MEMPOOL_ERR_NULL_PTR pool m None [])
  | Some p =>
      if negb (initialized p) then
        Some (mk_result MEMPOOL_ERR_NOT_INITIALIZED pool m None [])
      else
        let p1 :=
          set_sync p (mk_sync lock_fn unlock_fn ctx)
            (if negb (lock_fn =? 0) && negb (unlock_fn =? 0)
             then true else false) in
        Some (mk_result MEMPOOL_OK (Some p1) m None [])
  end.

End Legacy.

(** The calls that free the blocks of indices [l], in this order. *)
Definition free_calls (p : mempool) (l : list Z) : list op :=
  map (fun i => OpFree (block_addr p i)) l.

(** * Proofs *)

(** ** Machine integers *)

Lemma size_t_small (x : Z) : 0 <= x < 2 ^ 64 -> size_t x = x.
Proof. intros H. unfold size_t. apply Z.mod_small. exact H. Qed.

Lemma uint32_t_small (x : Z) : 0 <= x <= UINT32_MAX -> uint32_t x = x.
Proof.
  unfold uint32_t, UINT32_MAX. intros H. apply Z.mod_small. lia.
Qed.

Lemma uint8_t_small (x : Z) : 0 <= x < 256 -> uint8_t x = x.
Proof. intros H. unfold uint8_t. apply Z.mod_small. change (2 ^ 8) with 256. lia. Qed.

Lemma uint8_t_range (x : Z) : 0 <= uint8_t x < 256.
Proof. unfold uint8_t. change (2 ^ 8) with 256. apply Z.mod_pos_bound. lia. Qed.

Lemma size_t_range (x : Z) : 0 <= size_t x < 2 ^ 64.
Proof. unfold size_t. apply Z.mod_pos_bound. lia. Qed.

Lemma uint32_t_range (x : Z) : 0 <= uint32_t x <= UINT32_MAX.
Proof.
  unfold uint32_t, UINT32_MAX.
  pose proof (Z.mod_pos_bound x (2 ^ 32)). lia.
Qed.

(** ** Memory *)

Lemma store_byte_same (m : memory) (a v : Z) :
  store_byte m a v a = uint8_t v.
Proof. unfold store_byte. rewrite Z.eqb_refl. reflexivity. Qed.

Lemma store_byte_other (m : memory) (a v x : Z) :
  x <> a -> store_byte m a v x = m x.
Proof.
  intros H. unfold store_byte.
  destruct (x =? a) eqn:E; [apply Z.eqb_eq in E; contradiction | reflexivity].
Qed.

Lemma store_bytes_outside (n : nat) :
  forall (m : memory) (a v x : Z),
    x < a \/ a + Z.of_nat n <= x -> store_bytes n m a v x = m x.
Proof.
  induction n as [|n IH]; intros m a v x H; simpl.
  - reflexivity.
  - rewrite IH by lia. apply store_byte_other. lia.
Qed.

Lemma load_bytes_ext (n : nat) :
  forall (m m' : memory) (a : Z),
    (forall x, a <= x < a + Z.of_nat n -> m' x = m x) ->
    load_bytes n m' a = load_bytes n m a.
Proof.
  induction n as [|n IH]; intros m m' a H; simpl.
  - reflexivity.
  - unfold load_byte. rewrite (H a) by lia.
    rewrite (IH m m' (a + 1)); [reflexivity|].
    intros x Hx. apply H. lia.
Qed.

Lemma load_store_bytes (n : nat) :
  forall (m : memory) (a v : Z),
    0 <= v < 256 ^ Z.of_nat n ->
    load_bytes n (store_bytes n m a v) a = v.
Proof.
  induction n as [|n IH]; intros m a v H.
  - simpl in *. lia.
  - cbn [load_bytes store_bytes].
    assert (Hpow : 256 ^ Z.of_nat (S n) = 256 * 256 ^ Z.of_nat n).
    { rewrite Nat2Z.inj_succ. apply Z.pow_succ_r. lia. }
    rewrite Hpow in H.
    rewrite IH.
    + unfold load_byte. rewrite store_bytes_outside by lia.
      rewrite store_byte_same. unfold uint8_t. change (2 ^ 8) with 256.
      pose proof (Z.div_mod v 256). lia.
    + split.
      * apply Z.div_pos; lia.
      * apply Z.div_lt_upper_bound; lia.
Qed.

Lemma load_store_ptr_same (m : memory) (a v : Z) :
  0 <= v < 2 ^ 64 -> load_ptr (store_ptr m a v) a = v.
Proof.
  intros H. unfold load_ptr, store_ptr. apply load_store_bytes.
  change (256 ^ Z.of_nat 8) with (2 ^ 64). exact H.
Qed.

Lemma store_ptr_outside (m : memory) (a v x : Z) :
  x < a \/ a + 8 <= x -> store_ptr m a v x = m x.
Proof.
  intros H. unfold store_ptr. apply store_bytes_outside.
  change (Z.of_nat 8) with 8. exact H.
Qed.

Lemma load_ptr_ext (m m' : memory) (a : Z) :
  (forall x, a <= x < a + 8 -> m' x = m x) -> load_ptr m' a = load_ptr m a.
Proof.
  intros H. unfold load_ptr. apply load_bytes_ext.
  change (Z.of_nat 8) with 8. exact H.
Qed.

Lemma load_store_ptr_other (m : memory) (a v b : Z) :
  b + 8 <= a \/ a + 8 <= b ->
  load_ptr (store_ptr m a v) b = load_ptr m b.
Proof.
  intros H. apply load_ptr_ext. intros x Hx.
  apply store_ptr_outside. lia.
Qed.

Lemma load_ptr_store_byte (m : memory) (a v b : Z) :
  a < b \/ b + 8 <= a ->
  load_ptr (store_byte m a v) b = load_ptr m b.
Proof.
  intros H. apply load_ptr_ext. intros x Hx.
  apply store_byte_other. lia.
Qed.

Lemma memset_inside (m : memory) (a c n x : Z) :
  a <= x < a + n -> memset m a c n x = uint8_t c.
Proof.
  intros H. unfold memset.
  destruct (a <=? x) eqn:E1; [|apply Z.leb_gt in E1; lia].
  destruct (x <? a + n) eqn:E2; [reflexivity|apply Z.ltb_ge in E2; lia].
Qed.

Lemma memset_outside (m : memory) (a c n x : Z) :
  x < a \/ a + n <= x -> memset m a c n x = m x.
Proof.
  intros H. unfold memset.
  destruct (a <=? x) eqn:E1; [|reflexivity].
  destruct (x <? a + n) eqn:E2; [|reflexivity].
  apply Z.leb_le in E1. apply Z.ltb_lt in E2. lia.
Qed.

(** ** Bits of a bitmap byte *)

Lemma mask_pow2 (k : Z) : 0 <= k < 8 -> uint8_t (Z.shiftl 1 k) = 2 ^ k.
Proof.
  intros H. rewrite Z.shiftl_1_l. apply uint8_t_small.
  split; [apply Z.pow_nonneg; lia|].
  change 256 with (2 ^ 8). apply Z.pow_lt_mono_r; lia.
Qed.

Lemma byte_bit_testbit (b k : Z) : 0 <= k < 8 -> byte_bit b k = Z.testbit b k.
Proof.
  intros H. unfold byte_bit. rewrite mask_pow2 by exact H.
  destruct (Z.testbit b k) eqn:E.
  - destruct (Z.land b (2 ^ k) =? 0) eqn:E0; [|reflexivity].
    apply Z.eqb_eq in E0.
    assert (Hk : Z.testbit (Z.land b (2 ^ k)) k = true).
    { rewrite Z.land_spec, E, Z.pow2_bits_true by lia. reflexivity. }
    rewrite E0, Z.bits_0 in Hk. discriminate.
  - assert (H0 : Z.land b (2 ^ k) = 0).
    { apply Z.bits_inj'. intros j Hj. rewrite Z.land_spec, Z.bits_0.
      rewrite Z.pow2_bits_eqb by lia.
      destruct (k =? j) eqn:Ekj.
      - apply Z.eqb_eq in Ekj. subst j. rewrite E. reflexivity.
      - apply andb_false_r. }
    rewrite H0. reflexivity.
Qed.

Lemma byte_bit_set (b k j : Z) :
  0 <= k < 8 -> 0 <= j < 8 ->
  byte_bit (uint8_t (uint8_t (Z.lor b (uint8_t (Z.shiftl 1 k))))) j
  = byte_bit b j || (j =? k).
Proof.
  intros Hk Hj. rewrite !byte_bit_testbit by exact Hj.
  rewrite mask_pow2 by exact Hk. unfold uint8_t.
  rewrite !Z.mod_pow2_bits_low by lia.
  rewrite Z.lor_spec, Z.pow2_bits_eqb by lia.
  rewrite (Z.eqb_sym k j). reflexivity.
Qed.

Lemma byte_bit_clear (b k j : Z) :
  0 <= k < 8 -> 0 <= j < 8 ->
  byte_bit
    (uint8_t
       (uint8_t (Z.land b (uint8_t (Z.lnot (uint8_t (Z.shiftl 1 k))))))) j
  = byte_bit b j && negb (j =? k).
Proof.
  intros Hk Hj. rewrite !byte_bit_testbit by exact Hj.
  rewrite mask_pow2 by exact Hk. unfold uint8_t.
  rewrite !Z.mod_pow2_bits_low by lia.
  rewrite Z.land_spec, Z.mod_pow2_bits_low, Z.lnot_spec by lia.
  rewrite Z.pow2_bits_eqb by lia.
  rewrite (Z.eqb_sym k j). reflexivity.
Qed.

Lemma index_split (i idx : Z) :
  i / 8 = idx / 8 -> (i mod 8 =? idx mod 8) = (i =? idx).
Proof.
  intros H. pose proof (Z.div_mod i 8). pose proof (Z.div_mod idx 8).
  destruct (i mod 8 =? idx mod 8) eqn:E1; destruct (i =? idx) eqn:E2;
    try reflexivity.
  - apply Z.eqb_eq in E1. apply Z.eqb_neq in E2. lia.
  - apply Z.eqb_neq in E1. apply Z.eqb_eq in E2. subst. contradiction.
Qed.

Lemma mod8_range (i : Z) : 0 <= i mod 8 < 8.
Proof. apply Z.mod_pos_bound. lia. Qed.

(** Setting the bit of [idx] the way [mempool_alloc] does. *)
Lemma bit_set_after_set (p : mempool) (m : memory) (idx i : Z) :
  bit_set p
    (store_byte m (bitmap p + idx / 8)
       (uint8_t (Z.lor (load_byte m (bitmap p + idx / 8))
                   (uint8_t (Z.shiftl 1 (idx mod 8)))))) i
  = bit_set p m i || (i =? idx).
Proof.
  unfold bit_set, load_byte.
  destruct (Z.eq_dec (i / 8) (idx / 8)) as [E|E].
  - rewrite E, store_byte_same.
    rewrite byte_bit_set by apply mod8_range.
    rewrite index_split by exact E. reflexivity.
  - rewrite store_byte_other by lia.
    destruct (i =? idx) eqn:E2.
    + apply Z.eqb_eq in E2. subst. contradiction.
    + rewrite orb_false_r. reflexivity.
Qed.

(** Clearing the bit of [idx] the way [mempool_free] does, on any memory
    [m1] that holds the new byte. *)
Lemma bit_set_after_clear (p : mempool) (m m1 : memory) (idx i : Z) :
  (forall x, bitmap p <= x < blocks_start p -> m1 x = m x) ->
  bitmap p <= bitmap p + i / 8 < blocks_start p ->
  bit_set p
    (store_byte m1 (bitmap p + idx / 8)
       (uint8_t (Z.land (load_byte m (bitmap p + idx / 8))
                   (uint8_t (Z.lnot (uint8_t (Z.shiftl 1 (idx mod 8)))))))) i
  = bit_set p m i && negb (i =? idx).
Proof.
  intros Hframe Hi. unfold bit_set, load_byte.
  destruct (Z.eq_dec (i / 8) (idx / 8)) as [E|E].
  - rewrite E, store_byte_same.
    rewrite byte_bit_clear by apply mod8_range.
    rewrite index_split by exact E. reflexivity.
  - rewrite store_byte_other by lia. rewrite Hframe by exact Hi.
    destruct (i =? idx) eqn:E2.
    + apply Z.eqb_eq in E2. subst. contradiction.
    + rewrite andb_true_r. reflexivity.
Qed.

(** Reduce the projections of the records, and nothing else. *)
Ltac fields :=
  cbn [pool_buffer_start blocks_start free_list bitmap bitmap_bytes block_size
       total_blocks free_blocks alignment stats sync sync_enabled initialized
       s_total_blocks s_used_blocks s_free_blocks s_peak_usage s_alloc_count
       s_free_count s_block_size lock unlock user_ctx st_pool st_mem
       r_err r_pool r_mem r_out r_trace fst snd] in *.

(** ** The calls, case by case *)

Lemma alloc_empty (p : mempool) (b : Z) (m : memory) :
  initialized p = true ->
  free_list p = 0 \/ free_blocks p = 0 ->
  mempool_alloc (Some p) (Some b) m
  = Some (mk_result MEMPOOL_ERR_OUT_OF_MEMORY (Some p) m (Some b)
            (critical_section p)).
Proof.
  intros Hi H. unfold mempool_alloc. rewrite Hi. simpl.
  destruct (free_list p =? 0) eqn:E1; [reflexivity|].
  destruct (free_blocks p =? 0) eqn:E2; [reflexivity|].
  apply Z.eqb_neq in E1. apply Z.eqb_neq in E2. lia.
Qed.

Lemma alloc_success (p : mempool) (b : Z) (m : memory) (idx : Z) :
  initialized p = true ->
  free_list p <> 0 -> free_blocks p <> 0 ->
  mempool_block_index p (free_list p) = Some idx ->
  mempool_alloc (Some p) (Some b) m
  = Some (mk_result MEMPOOL_OK (Some (pool_after_alloc p m))
            (mem_after_alloc p m idx) (Some (free_list p))
            (critical_section p)).
Proof.
  intros Hi H1 H2 Hidx. unfold mempool_alloc. rewrite Hi. simpl.
  apply Z.eqb_neq in H1. apply Z.eqb_neq in H2. rewrite H1, H2.
  unfold mempool_block_index in *. simpl. 
  destruct (udiv (size_t (free_list p - blocks_start p)) (block_size p))
    as [q|]; simpl in *; [|discriminate].
  injection Hidx as Hidx. rewrite Hidx. reflexivity.
Qed.

Lemma alloc_undefined (p : mempool) (b : Z) (m : memory) :
  initialized p = true ->
  free_list p <> 0 -> free_blocks p <> 0 ->
  block_size p = 0 ->
  mempool_alloc (Some p) (Some b) m = None.
Proof.
  intros Hi H1 H2 Hz. unfold mempool_alloc. rewrite Hi. simpl.
  apply Z.eqb_neq in H1. apply Z.eqb_neq in H2. rewrite H1, H2.
  unfold mempool_block_index. simpl. unfold udiv. rewrite Hz. reflexivity.
Qed.

Lemma block_index_defined (p : mempool) (ptr : Z) :
  block_size p <> 0 ->
  mempool_block_index p ptr
  = Some (uint32_t (size_t (ptr - blocks_start p) / block_size p)).
Proof.
  intros H. unfold mempool_block_index, udiv.
  apply Z.eqb_neq in H. rewrite H. reflexivity.
Qed.

Lemma boundary_block_size (p : mempool) (block : Z) :
  on_block_boundary p block = true ->
  block_size p <> 0 /\
  size_t (block - blocks_start p) mod block_size p = 0.
Proof.
  unfold on_block_boundary, umod. intros H.
  destruct (block_size p =? 0) eqn:E; [discriminate|].
  apply Z.eqb_neq in E. apply Z.eqb_eq in H. split; assumption.
Qed.

Lemma free_rejected_range (p : mempool) (block : Z) (m : memory) :
  initialized p = true -> block <> 0 ->
  in_blocks_range p block = false ->
  mempool_free (Some p) block m
  = Some (mk_result MEMPOOL_ERR_INVALID_BLOCK (Some p) m None []).
Proof.
  intros Hi Hb Hr. unfold mempool_free. rewrite Hi. simpl.
  apply Z.eqb_neq in Hb. rewrite Hb.
  unfold in_blocks_range in Hr. apply negb_false_iff in Hr.
  rewrite Hr. reflexivity.
Qed.

Lemma free_rejected_boundary (p : mempool) (block : Z) (m : memory) :
  initialized p = true -> block <> 0 ->
  in_blocks_range p block = true ->
  on_block_boundary p block = false ->
  mempool_free (Some p) block m
  = Some (mk_result MEMPOOL_ERR_INVALID_BLOCK (Some p) m None []) \/
  (mempool_free (Some p) block m = None /\ block_size p = 0).
Proof.
  intros Hi Hb Hr Ha. unfold mempool_free. rewrite Hi. simpl.
  apply Z.eqb_neq in Hb. rewrite Hb.
  unfold in_blocks_range in Hr. apply negb_true_iff in Hr. rewrite Hr.
  unfold on_block_boundary in Ha. unfold umod in *.
  destruct (block_size p =? 0) eqn:E.
  - right. apply Z.eqb_eq in E. split; [reflexivity|exact E].
  - left. simpl. rewrite Ha. reflexivity.
Qed.

(** Past the two checks, [mempool_free] reaches its critical section with
    the index of the block. *)
Lemma free_checked (p : mempool) (block : Z) (m : memory) :
  initialized p = true -> block <> 0 ->
  in_blocks_range p block = true ->
  on_block_boundary p block = true ->
  let idx := uint32_t (size_t (block - blocks_start p) / block_size p) in
  mempool_free (Some p) block m
  = Some
      (if bitmap_bytes p <=? idx / 8 then
         mk_result MEMPOOL_ERR_INVALID_BLOCK (Some p) m None
           (critical_section p)
       else if bit_set p m idx then
         mk_result MEMPOOL_OK (Some (pool_after_free p block))
           (mem_after_free p m block idx) None (critical_section p)
       else
         mk_result MEMPOOL_ERR_DOUBLE_FREE (Some p) m None
           (critical_section p)).
Proof.
  intros Hi Hb Hr Ha idx. unfold mempool_free. rewrite Hi. simpl.
  apply Z.eqb_neq in Hb. rewrite Hb.
  unfold in_blocks_range in Hr. apply negb_true_iff in Hr. rewrite Hr.
  destruct (boundary_block_size p block Ha) as [Hbs Hmod].
  unfold umod. pose proof Hbs as Hbs'. apply Z.eqb_neq in Hbs'.
  rewrite Hbs'. simpl. rewrite Hmod. simpl.
  rewrite block_index_defined by exact Hbs. simpl. fold idx.
  destruct (bitmap_bytes p <=? idx / 8); [reflexivity|].
  unfold bit_set, byte_bit.
  destruct (Z.land (load_byte m (bitmap p + idx / 8))
              (uint8_t (Z.shiftl 1 (idx mod 8))) =? 0) eqn:E; simpl.
  - reflexivity.
  - unfold pool_after_free, mem_after_free, critical_section. simpl.
    destruct (free_blocks p <? total_blocks p); reflexivity.
Qed.

Lemma reset_result (p : mempool) (m : memory) :
  initialized p = true ->
  mempool_reset (Some p) m
  = Some (mk_result MEMPOOL_OK (Some (pool_after_reset p m))
            (mem_after_reset p m) None (critical_section p)).
Proof.
  intros Hi. unfold mempool_reset. rewrite Hi.
  unfold pool_after_reset, mem_after_reset. simpl.
  destruct (build_free_list (Z.to_nat (total_blocks p)) (block_size p)
              (blocks_start p) 0 (memset m (bitmap p) 0 (bitmap_bytes p)))
    as [prev m2].
  reflexivity.
Qed.

Lemma get_stats_result (p : mempool) (old : mempool_stats_t) (m : memory) :
  initialized p = true ->
  mempool_get_stats (Some p) (Some old) m
  = Some (mk_result MEMPOOL_OK (Some p) m (Some (stats p))
            (critical_section p)).
Proof. intros Hi. unfold mempool_get_stats. rewrite Hi. reflexivity. Qed.

Lemma set_sync_result (p : mempool) (l u c : Z) (m : memory) :
  initialized p = true ->
  mempool_set_sync (Some p) l u c m
  = Some (mk_result MEMPOOL_OK
            (Some (set_sync p (mk_sync l u c)
                     (negb (l =? 0) && negb (u =? 0)))) m None []).
Proof. intros Hi. unfold mempool_set_sync. rewrite Hi. reflexivity. Qed.

(** ** Counting set bits *)

Lemma In_indices (n i : Z) : In i (indices n) <-> 0 <= i < n.
Proof.
  unfold indices. rewrite in_map_iff. split.
  - intros [k [Hk Hin]]. apply in_seq in Hin. lia.
  - intros H. exists (Z.to_nat i). split; [lia|]. apply in_seq. lia.
Qed.

Lemma NoDup_indices (n : Z) : NoDup (indices n).
Proof.
  unfold indices. apply NoDup_map_NoDup_ForallPairs.
  - intros x y _ _ H. lia.
  - apply seq_NoDup.
Qed.

Lemma length_indices (n : Z) : 0 <= n -> Z.of_nat (length (indices n)) = n.
Proof.
  intros H. unfold indices. rewrite length_map, length_seq. lia.
Qed.

Section Counting.
Variables f g : Z -> bool.

Lemma count_filter_ext (l : list Z) :
  (forall i, In i l -> g i = f i) ->
  length (filter g l) = length (filter f l).
Proof.
  induction l as [|a l IH]; intros H; simpl; [reflexivity|].
  rewrite (H a) by (left; reflexivity).
  destruct (f a); simpl; rewrite IH; auto; intros i Hi; apply H; right;
    exact Hi.
Qed.

Lemma count_filter_add (l : list Z) (j : Z) :
  NoDup l ->
  (forall i, In i l -> i <> j -> g i = f i) ->
  (length (filter g l) <= S (length (filter f l)))%nat.
Proof.
  induction l as [|a l IH]; intros Hnd H; simpl; [lia|].
  inversion Hnd as [|a' l' Hnotin Hnd']; subst.
  destruct (Z.eq_dec a j) as [E|E].
  - subst a.
    assert (Hrest : length (filter g l) = length (filter f l)).
    { apply count_filter_ext. intros i Hi. apply H; [right; exact Hi|].
      intros ->. contradiction. }
    destruct (g j), (f j); simpl; lia.
  - rewrite (H a) by (auto; left; reflexivity).
    assert (IH' : (length (filter g l) <= S (length (filter f l)))%nat).
    { apply IH; [exact Hnd'|]. intros i Hi. apply H. right. exact Hi. }
    destruct (f a); simpl; lia.
Qed.

Lemma count_filter_remove (l : list Z) (j : Z) :
  NoDup l -> In j l -> f j = true -> g j = false ->
  (forall i, In i l -> i <> j -> g i = f i) ->
  S (length (filter g l)) = length (filter f l).
Proof.
  induction l as [|a l IH]; intros Hnd Hin Hf Hg H; simpl; [destruct Hin|].
  inversion Hnd as [|a' l' Hnotin Hnd']; subst.
  destruct (Z.eq_dec a j) as [E|E].
  - subst a. rewrite Hf, Hg. simpl. f_equal.
    apply count_filter_ext. intros i Hi. apply H; [right; exact Hi|].
    intros ->. contradiction.
  - destruct Hin as [Hin|Hin]; [contradiction|].
    rewrite (H a) by (auto; left; reflexivity).
    assert (IH' : S (length (filter g l)) = length (filter f l)).
    { apply IH; auto. intros i Hi. apply H. right. exact Hi. }
    destruct (f a); simpl; lia.
Qed.

Lemma count_filter_none (l : list Z) :
  (forall i, In i l -> f i = false) -> length (filter f l) = 0%nat.
Proof.
  induction l as [|a l IH]; intros H; simpl; [reflexivity|].
  rewrite (H a) by (left; reflexivity). apply IH.
  intros i Hi. apply H. right. exact Hi.
Qed.
End Counting.

Lemma bit_set_fields (p p' : mempool) (m : memory) (i : Z) :
  bitmap p' = bitmap p -> bit_set p' m i = bit_set p m i.
Proof. intros H. unfold bit_set. rewrite H. reflexivity. Qed.

Lemma bit_set_frame (p : mempool) (m m' : memory) (i : Z) :
  m' (bitmap p + i / 8) = m (bitmap p + i / 8) ->
  bit_set p m' i = bit_set p m i.
Proof. intros H. unfold bit_set, load_byte. rewrite H. reflexivity. Qed.

Lemma count_allocated_ext (p p' : mempool) (m m' : memory) :
  bitmap p' = bitmap p -> total_blocks p' = total_blocks p ->
  (forall i, 0 <= i < total_blocks p -> bit_set p m' i = bit_set p m i) ->
  count_allocated p' m' = count_allocated p m.
Proof.
  intros Hb Ht H. unfold count_allocated. rewrite Ht. f_equal.
  apply count_filter_ext. intros i Hi. apply In_indices in Hi.
  rewrite (bit_set_fields p p' m' i Hb). apply H. exact Hi.
Qed.

Lemma count_allocated_bounds (p : mempool) (m : memory) :
  0 <= total_blocks p ->
  0 <= count_allocated p m <= total_blocks p.
Proof.
  intros H. unfold count_allocated. split; [lia|].
  rewrite <- (length_indices (total_blocks p)) at 2 by exact H.
  apply Nat2Z.inj_le. apply filter_length_le.
Qed.

(** ** One call on a state *)

Lemma free_null (p : mempool) (m : memory) :
  mempool_free (Some p) 0 m
  = Some (mk_result MEMPOOL_ERR_NULL_PTR (Some p) m None []).
Proof. reflexivity. Qed.

Lemma step_alloc (s : state) :
  initialized (st_pool s) = true ->
  let p := st_pool s in
  let m := st_mem s in
  ((free_list p = 0 \/ free_blocks p = 0) /\
   step s OpAlloc
   = Some (s, mk_response MEMPOOL_ERR_OUT_OF_MEMORY None None
                (critical_section p))) \/
  (free_list p <> 0 /\ free_blocks p <> 0 /\ block_size p = 0 /\
   step s OpAlloc = None) \/
  (free_list p <> 0 /\ free_blocks p <> 0 /\ block_size p <> 0 /\
   step s OpAlloc
   = Some (mk_state (pool_after_alloc p m)
             (mem_after_alloc p m (index_of p (free_list p))),
           mk_response MEMPOOL_OK (Some (free_list p)) None
             (critical_section p))).
Proof.
  destruct s as [p m]. cbn [st_pool st_mem]. intros Hi.
  unfold step; cbn [st_pool st_mem].
  destruct (Z.eq_dec (free_list p) 0) as [E1|E1].
  { left. split; [left; exact E1|].
    rewrite (alloc_empty p 0 m Hi (or_introl E1)). reflexivity. }
  destruct (Z.eq_dec (free_blocks p) 0) as [E2|E2].
  { left. split; [right; exact E2|].
    rewrite (alloc_empty p 0 m Hi (or_intror E2)). reflexivity. }
  right. destruct (Z.eq_dec (block_size p) 0) as [E3|E3].
  - left. repeat split; try assumption.
    rewrite (alloc_undefined p 0 m Hi E1 E2 E3). reflexivity.
  - right. repeat split; try assumption.
    rewrite (alloc_success p 0 m _ Hi E1 E2 (block_index_defined p _ E3)).
    reflexivity.
Qed.

Lemma step_free (s : state) (block : Z) :
  initialized (st_pool s) = true ->
  let p := st_pool s in
  let m := st_mem s in
  let idx := index_of p block in
  (block = 0 /\
   step s (OpFree block)
   = Some (s, mk_response MEMPOOL_ERR_NULL_PTR None None [])) \/
  (block <> 0 /\
   (in_blocks_range p block = false \/ on_block_boundary p block = false) /\
   (step s (OpFree block)
    = Some (s, mk_response MEMPOOL_ERR_INVALID_BLOCK None None []) \/
    (step s (OpFree block) = None /\ block_size p = 0))) \/
  (block <> 0 /\ in_blocks_range p block = true /\
   on_block_boundary p block = true /\
   step s (OpFree block)
   = Some
       (if bitmap_bytes p <=? idx / 8 then
          (s, mk_response MEMPOOL_ERR_INVALID_BLOCK None None
                (critical_section p))
        else if bit_set p m idx then
          (mk_state (pool_after_free p block) (mem_after_free p m block idx),
           mk_response MEMPOOL_OK None None (critical_section p))
        else
          (s, mk_response MEMPOOL_ERR_DOUBLE_FREE None None
                (critical_section p)))).
Proof.
  destruct s as [p m]. cbn [st_pool st_mem]. intros Hi.
  unfold step; cbn [st_pool st_mem].
  destruct (Z.eq_dec block 0) as [E0|E0].
  { left. subst block. split; [reflexivity|]. rewrite free_null.
    reflexivity. }
  right. destruct (in_blocks_range p block) eqn:Er.
  - destruct (on_block_boundary p block) eqn:Ea.
    + right. repeat split; try assumption.
      rewrite (free_checked p block m Hi E0 Er Ea). fold (index_of p block).
      simpl. destruct (bitmap_bytes p <=? index_of p block / 8);
        [reflexivity|].
      destruct (bit_set p m (index_of p block)); reflexivity.
    + left. split; [exact E0|]. split; [right; reflexivity|].
      destruct (free_rejected_boundary p block m Hi E0 Er Ea) as [H|[H Hz]].
      * left. rewrite H. reflexivity.
      * right. rewrite H. split; [reflexivity|exact Hz].
  - left. split; [exact E0|]. split; [left; reflexivity|]. left.
    rewrite (free_rejected_range p block m Hi E0 Er). reflexivity.
Qed.

Lemma step_reset (s : state) :
  initialized (st_pool s) = true ->
  step s OpReset
  = Some (mk_state (pool_after_reset (st_pool s) (st_mem s))
            (mem_after_reset (st_pool s) (st_mem s)),
          mk_response MEMPOOL_OK None None (critical_section (st_pool s))).
Proof.
  destruct s as [p m]. cbn [st_pool st_mem]. intros Hi.
  unfold step; cbn [st_pool st_mem].
  rewrite (reset_result p m Hi). reflexivity.
Qed.

Lemma step_get_stats (s : state) :
  initialized (st_pool s) = true ->
  step s OpGetStats
  = Some (s, mk_response MEMPOOL_OK None (Some (stats (st_pool s)))
               (critical_section (st_pool s))).
Proof.
  destruct s as [p m]. cbn [st_pool st_mem]. intros Hi.
  unfold step; cbn [st_pool st_mem].
  rewrite (get_stats_result p _ m Hi). reflexivity.
Qed.

Lemma step_set_sync (s : state) (l u c : Z) :
  initialized (st_pool s) = true ->
  step s (OpSetSync l u c)
  = Some (mk_state
            (set_sync (st_pool s) (mk_sync l u c)
               (negb (l =? 0) && negb (u =? 0))) (st_mem s),
          mk_response MEMPOOL_OK None None []).
Proof.
  destruct s as [p m]. cbn [st_pool st_mem]. intros Hi.
  unfold step; cbn [st_pool st_mem].
  rewrite (set_sync_result p l u c m Hi). reflexivity.
Qed.

(** ** Pointers that pass the checks of [mempool_free] *)

Lemma bitmap_bytes_bound (total idx : Z) :
  0 <= idx < total -> idx / 8 < (total + 7) / 8.
Proof.
  intros H.
  pose proof (Z.div_mod idx 8). pose proof (Z.mod_pos_bound idx 8).
  pose proof (Z.div_mod (total + 7) 8).
  pose proof (Z.mod_pos_bound (total + 7) 8). lia.
Qed.

Lemma checked_index (p : mempool) (block : Z) :
  shape_ok p ->
  in_blocks_range p block = true ->
  on_block_boundary p block = true ->
  0 < block_size p /\
  0 <= index_of p block < total_blocks p /\
  index_of p block / 8 < bitmap_bytes p /\
  block = block_addr p (index_of p block).
Proof.
  intros (Hi & Ht & Hb & Hbm & Hbp & Hbb & Hend) Hr Ha.
  destruct (boundary_block_size p block Ha) as [Hnz Hmod].
  assert (Hpos : 0 < block_size p) by lia.
  assert (Hbs : 0 < blocks_start p).
  { assert (0 <= (total_blocks p + 7) / 8) by (apply Z.div_pos; lia). lia. }
  unfold SIZE_MAX in Hend.
  assert (HT : 0 <= total_blocks p * block_size p) by nia.
  assert (HT' : 0 <= total_blocks p * block_size p < 2 ^ 64)
    by (clear - Hend HT Hbs; lia).
  assert (HE : 0 <= blocks_start p + total_blocks p * block_size p < 2 ^ 64)
    by (clear - Hend HT Hbs; lia).
  unfold in_blocks_range in Hr. apply negb_true_iff in Hr.
  apply orb_false_iff in Hr. destruct Hr as [Hlo Hhi].
  apply Z.ltb_ge in Hlo.
  rewrite (size_t_small (total_blocks p * block_size p) HT') in Hhi.
  rewrite (size_t_small _ HE) in Hhi. apply Z.leb_gt in Hhi.
  assert (Hoff0 : 0 <= block - blocks_start p < 2 ^ 64)
    by (clear - Hlo Hhi HE Hbs; lia).
  rewrite (size_t_small _ Hoff0) in Hmod.
  unfold index_of, block_addr. rewrite (size_t_small _ Hoff0).
  set (off := block - blocks_start p) in *.
  assert (Hoff : off = block_size p * (off / block_size p)).
  { pose proof (Z.div_mod off (block_size p) Hnz) as Hdm.
    rewrite Hmod in Hdm. rewrite Z.add_0_r in Hdm. exact Hdm. }
  assert (Hq : 0 <= off / block_size p < total_blocks p).
  { split; [apply Z.div_pos; clear - Hoff0 Hpos; lia|].
    apply Z.div_lt_upper_bound; [exact Hpos|].
    clear - Hhi Hpos. unfold off.
    rewrite (Z.mul_comm (block_size p)). lia. }
  assert (Hq32 : 0 <= off / block_size p <= UINT32_MAX)
    by (clear - Hq Ht; lia).
  rewrite (uint32_t_small _ Hq32).
  split; [exact Hpos|]. split; [exact Hq|]. split.
  - rewrite Hbm. apply bitmap_bytes_bound. exact Hq.
  - rewrite (Z.mul_comm _ (block_size p)), <- Hoff. unfold off. ring.
Qed.

(** ** The counters are consistent after every call *)

Lemma wrap_count_incr (a b u : Z) :
  uint32_t (a - b) = u -> 0 <= u + 1 <= UINT32_MAX ->
  uint32_t (uint32_t (a + 1) - b) = u + 1.
Proof.
  unfold uint32_t, UINT32_MAX. intros H Hu.
  rewrite Zminus_mod_idemp_l.
  replace (a + 1 - b) with ((a - b) + 1) by ring.
  rewrite <- Zplus_mod_idemp_l, H. apply Z.mod_small. lia.
Qed.

Lemma wrap_count_decr (a b u : Z) :
  uint32_t (a - b) = u -> 0 <= u - 1 <= UINT32_MAX ->
  uint32_t (a - uint32_t (b + 1)) = u - 1.
Proof.
  unfold uint32_t, UINT32_MAX. intros H Hu.
  rewrite Zminus_mod_idemp_r.
  replace (a - (b + 1)) with ((a - b) - 1) by ring.
  rewrite <- Zminus_mod_idemp_l, H. apply Z.mod_small. lia.
Qed.

Lemma counters_after_alloc (s : state) :
  counters_ok s ->
  free_list (st_pool s) <> 0 -> free_blocks (st_pool s) <> 0 ->
  counters_ok
    (mk_state (pool_after_alloc (st_pool s) (st_mem s))
       (mem_after_alloc (st_pool s) (st_mem s)
          (index_of (st_pool s) (free_list (st_pool s))))).
Proof.
  destruct s as [p m]. unfold counters_ok. cbn [st_pool st_mem].
  intros (Hshape & Hf0 & Hcount & Hst & Hsf & Hsu & Hpk & Hac & Hfc & Hw)
    Hfl Hfb.
  set (idx := index_of p (free_list p)).
  pose proof Hshape as (Hi & Ht & Hb & Hbm & Hbp & Hbb & Hend).
  pose proof (count_allocated_bounds p m ltac:(lia)) as Hcb.
  assert (Hfree' : uint32_t (free_blocks p - 1) = free_blocks p - 1).
  { apply uint32_t_small. lia. }
  assert (Hused' : uint32_t (total_blocks p - (free_blocks p - 1))
                   = total_blocks p - free_blocks p + 1).
  { rewrite uint32_t_small by lia. ring. }
  assert (Hcnt : count_allocated (pool_after_alloc p m)
                   (mem_after_alloc p m idx)
                 <= count_allocated p m + 1).
  { unfold count_allocated. cbn [pool_after_alloc total_blocks].
    assert (Hle : (length (filter (bit_set (pool_after_alloc p m)
                                     (mem_after_alloc p m idx))
                             (indices (total_blocks p)))
                   <= S (length (filter (bit_set p m)
                                   (indices (total_blocks p)))))%nat).
    { apply (count_filter_add _ _ _ idx); [apply NoDup_indices|].
      intros i Hin Hne.
      rewrite (bit_set_fields p (pool_after_alloc p m)) by reflexivity.
      unfold mem_after_alloc.
      destruct (idx / 8 <? bitmap_bytes p); [|reflexivity].
      rewrite bit_set_after_set.
      apply Z.eqb_neq in Hne. rewrite Hne. apply orb_false_r. }
    lia. }
  revert Hcnt.
  generalize (count_allocated (pool_after_alloc p m)
                (mem_after_alloc p m idx)).
  intros c' Hcnt.
  unfold pool_after_alloc. fields.
  rewrite Hfree', Hused'.
  split; [exact Hshape|].
  split; [lia|]. split; [lia|]. split; [exact Hst|].
  split; [reflexivity|]. split; [ring|]. split.
  { destruct (s_peak_usage (stats p) <? total_blocks p - free_blocks p + 1)
      eqn:E; [lia|apply Z.ltb_ge in E; lia]. }
  split; [apply uint32_t_range|]. split; [exact Hfc|].
  rewrite (wrap_count_incr _ _ _ Hw) by lia. lia.
Qed.

Lemma shape_blocks_start (p : mempool) :
  shape_ok p -> bitmap p + bitmap_bytes p <= blocks_start p /\
                0 <= bitmap_bytes p /\ 0 < blocks_start p.
Proof.
  intros (Hi & Ht & Hb & Hbm & Hbp & Hbb & Hend).
  assert (0 <= (total_blocks p + 7) / 8) by (apply Z.div_pos; lia).
  lia.
Qed.

Lemma index_byte_in_bitmap (p : mempool) (i : Z) :
  shape_ok p -> 0 <= i < total_blocks p ->
  bitmap p <= bitmap p + i / 8 < blocks_start p.
Proof.
  intros Hs Hi. pose proof (shape_blocks_start p Hs) as (Hbb & _ & _).
  destruct Hs as (_ & _ & _ & Hbm & _).
  pose proof (bitmap_bytes_bound (total_blocks p) i Hi).
  assert (0 <= i / 8) by (apply Z.div_pos; lia). lia.
Qed.

Lemma counters_after_free (s : state) (block : Z) :
  counters_ok s ->
  in_blocks_range (st_pool s) block = true ->
  on_block_boundary (st_pool s) block = true ->
  bit_set (st_pool s) (st_mem s) (index_of (st_pool s) block) = true ->
  free_blocks (st_pool s) < total_blocks (st_pool s) /\
  counters_ok
    (mk_state (pool_after_free (st_pool s) block)
       (mem_after_free (st_pool s) (st_mem s) block
          (index_of (st_pool s) block))).
Proof.
  destruct s as [p m]. unfold counters_ok. cbn [st_pool st_mem].
  intros (Hshape & Hf0 & Hcount & Hst & Hsf & Hsu & Hpk & Hac & Hfc & Hw)
    Hr Ha Hbit.
  set (idx := index_of p block) in *.
  destruct (checked_index p block Hshape Hr Ha)
    as (Hpos & Hidx & Hbyte & Haddr).
  fold idx in Hidx, Hbyte, Haddr.
  pose proof (shape_blocks_start p Hshape) as (Hbb & Hbn & Hbs).
  pose proof Hshape as (_ & Ht & _).
  assert (Hcnt : count_allocated (pool_after_free p block)
                   (mem_after_free p m block idx) + 1
                 = count_allocated p m).
  { unfold count_allocated. cbn [pool_after_free total_blocks].
    assert (Heq : S (length (filter (bit_set (pool_after_free p block)
                                       (mem_after_free p m block idx))
                               (indices (total_blocks p))))
                  = length (filter (bit_set p m)
                              (indices (total_blocks p)))).
    { assert (Hclr : forall i, 0 <= i < total_blocks p ->
                bit_set (pool_after_free p block)
                  (mem_after_free p m block idx) i
                = bit_set p m i && negb (i =? idx)).
      { intros i Hi.
        rewrite (bit_set_fields p (pool_after_free p block)) by reflexivity.
        unfold mem_after_free. apply bit_set_after_clear.
        - intros x Hx. apply store_ptr_outside. left.
          unfold block_addr in Haddr. nia.
        - apply index_byte_in_bitmap; assumption. }
      apply (count_filter_remove _ _ _ idx).
      - apply NoDup_indices.
      - apply In_indices. exact Hidx.
      - exact Hbit.
      - rewrite Hclr by exact Hidx. rewrite Z.eqb_refl. apply andb_false_r.
      - intros i Hin Hne. apply In_indices in Hin.
        rewrite Hclr by exact Hin. apply Z.eqb_neq in Hne. rewrite Hne.
        apply andb_true_r. }
    lia. }
  pose proof (count_allocated_bounds (pool_after_free p block)
                (mem_after_free p m block idx)) as Hcb.
  cbn [pool_after_free total_blocks] in Hcb.
  specialize (Hcb ltac:(lia)).
  revert Hcnt Hcb.
  generalize (count_allocated (pool_after_free p block)
                (mem_after_free p m block idx)).
  intros c' Hcnt Hcb.
  assert (Hlt : free_blocks p < total_blocks p) by lia.
  split; [exact Hlt|].
  unfold pool_after_free. fields.
  apply Z.ltb_lt in Hlt. rewrite Hlt. apply Z.ltb_lt in Hlt.
  assert (Hfree' : uint32_t (free_blocks p + 1) = free_blocks p + 1).
  { apply uint32_t_small. lia. }
  rewrite Hfree'.
  assert (Hused' : uint32_t (total_blocks p - (free_blocks p + 1))
                   = total_blocks p - free_blocks p - 1).
  { rewrite uint32_t_small by lia. ring. }
  rewrite Hused'.
  split; [exact Hshape|].
  split; [lia|]. split; [lia|]. split; [exact Hst|].
  split; [reflexivity|]. split; [ring|]. split; [lia|].
  split; [exact Hac|]. split; [apply uint32_t_range|].
  rewrite (wrap_count_decr _ _ _ Hw) by lia. lia.
Qed.

(** The loop of [init] and [reset] writes at and above its first block. *)
Lemma build_free_list_below (count : nat) :
  forall (step cur prev : Z) (m : memory) (x : Z),
    0 <= step -> 0 <= cur ->
    cur + Z.of_nat count * step <= SIZE_MAX ->
    x < cur ->
    snd (build_free_list count step cur prev m) x = m x.
Proof.
  induction count as [|count IH]; intros step cur prev m x Hs Hc Hend Hx.
  - reflexivity.
  - cbn [build_free_list]. unfold SIZE_MAX in *.
    rewrite size_t_small by lia.
    rewrite IH; try lia.
    apply store_ptr_outside. lia.
Qed.

Lemma bits_clear_after_memset (p : mempool) (m m' : memory) (i : Z) :
  shape_ok p -> 0 <= i < total_blocks p ->
  (forall x, x < blocks_start p ->
     m' x = memset m (bitmap p) 0 (bitmap_bytes p) x) ->
  bit_set p m' i = false.
Proof.
  intros Hs Hi Hm. unfold bit_set, load_byte.
  pose proof (index_byte_in_bitmap p i Hs Hi) as Hb.
  rewrite Hm by lia. rewrite memset_inside.
  - reflexivity.
  - destruct Hs as (_ & _ & _ & Hbm & _).
    pose proof (bitmap_bytes_bound (total_blocks p) i Hi). lia.
Qed.

Lemma counters_after_reset (s : state) :
  counters_ok s ->
  counters_ok
    (mk_state (pool_after_reset (st_pool s) (st_mem s))
       (mem_after_reset (st_pool s) (st_mem s))).
Proof.
  destruct s as [p m]. unfold counters_ok. cbn [st_pool st_mem].
  intros (Hshape & _).
  pose proof Hshape as (Hi & Ht & Hb & Hbm & Hbp & Hbb & Hend).
  pose proof (shape_blocks_start p Hshape) as (_ & _ & Hbs).
  assert (Hcnt : count_allocated (pool_after_reset p m)
                   (mem_after_reset p m) = 0).
  { unfold count_allocated. rewrite count_filter_none; [reflexivity|].
    intros i Hin. apply In_indices in Hin.
    cbn [pool_after_reset total_blocks] in Hin.
    rewrite (bit_set_fields p (pool_after_reset p m)) by reflexivity.
    apply (bits_clear_after_memset p m); [exact Hshape|exact Hin|].
    intros x Hx. unfold mem_after_reset.
    apply build_free_list_below; try lia. }
  rewrite Hcnt. unfold pool_after_reset. fields.
  split; [exact Hshape|].
  split; [lia|]. split; [lia|]. split; [reflexivity|].
  split; [reflexivity|]. split; [ring|]. split; [lia|].
  unfold UINT32_MAX. split; [lia|]. split; [lia|]. reflexivity.
Qed.

Lemma counters_after_set_sync (s : state) (l u c : Z) :
  counters_ok s ->
  counters_ok
    (mk_state
       (set_sync (st_pool s) (mk_sync l u c)
          (negb (l =? 0) && negb (u =? 0))) (st_mem s)).
Proof. destruct s as [p m]. intros H. exact H. Qed.

(** Every call keeps the counters consistent. *)
Lemma step_counters_ok (s s' : state) (o : op) (rsp : response) :
  counters_ok s -> step s o = Some (s', rsp) -> counters_ok s'.
Proof.
  intros Hc Hstep.
  assert (Hi : initialized (st_pool s) = true) by apply Hc.
  destruct o as [|block| | |l u c].
  - destruct (step_alloc s Hi) as [[_ H]|[(_ & _ & _ & H)|(H1 & H2 & _ & H)]];
      rewrite H in Hstep.
    + injection Hstep as <- _. exact Hc.
    + discriminate.
    + injection Hstep as <- _. apply counters_after_alloc; assumption.
  - destruct (step_free s block Hi)
      as [[_ H]|[(_ & _ & [H|[H _]])|(_ & Hr & Ha & H)]];
      rewrite H in Hstep.
    + injection Hstep as <- _. exact Hc.
    + injection Hstep as <- _. exact Hc.
    + discriminate.
    + destruct (bitmap_bytes (st_pool s) <=?
                index_of (st_pool s) block / 8).
      { injection Hstep as <- _. exact Hc. }
      destruct (bit_set (st_pool s) (st_mem s)
                  (index_of (st_pool s) block)) eqn:Hbit.
      * injection Hstep as <- _.
        apply counters_after_free; assumption.
      * injection Hstep as <- _. exact Hc.
  - rewrite (step_reset s Hi) in Hstep. injection Hstep as <- _.
    apply counters_after_reset. exact Hc.
  - rewrite (step_get_stats s Hi) in Hstep. injection Hstep as <- _.
    exact Hc.
  - rewrite (step_set_sync s l u c Hi) in Hstep. injection Hstep as <- _.
    apply counters_after_set_sync. exact Hc.
Qed.

(** ** Powers of two and alignment *)

Lemma pow2_size_t_pred (k : Z) :
  0 <= k < 64 -> size_t (2 ^ k - 1) = Z.ones k.
Proof.
  intros H. rewrite Z.ones_equiv, <- Z.sub_1_r. apply size_t_small.
  assert (0 < 2 ^ k) by (apply Z.pow_pos_nonneg; lia).
  assert (2 ^ k < 2 ^ 64) by (apply Z.pow_lt_mono_r; lia). lia.
Qed.

Lemma land_pow2_pred (x k : Z) :
  0 <= k < 64 -> Z.land x (size_t (2 ^ k - 1)) = x mod 2 ^ k.
Proof.
  intros H. rewrite pow2_size_t_pred by exact H. apply Z.land_ones. lia.
Qed.

Lemma is_power_of_two_pow2 (k : Z) :
  0 <= k < 64 -> is_power_of_two (2 ^ k) = true.
Proof.
  intros H. unfold is_power_of_two.
  assert (Hp : 0 < 2 ^ k) by (apply Z.pow_pos_nonneg; lia).
  apply Z.ltb_lt in Hp. rewrite Hp.
  rewrite land_pow2_pred by exact H. rewrite Z.mod_same; [reflexivity|].
  apply Z.ltb_lt in Hp. lia.
Qed.

Lemma is_power_of_two_inv (a : Z) :
  0 <= a < 2 ^ 64 -> is_power_of_two a = true ->
  exists k, 0 <= k < 64 /\ a = 2 ^ k.
Proof.
  intros Ha H. unfold is_power_of_two in H.
  destruct (0 <? a) eqn:Hpos; [|discriminate].
  apply Z.ltb_lt in Hpos. apply Z.eqb_eq in H.
  rewrite size_t_small in H by lia.
  exists (Z.log2 a).
  pose proof (Z.log2_spec a Hpos) as [Hlo Hhi].
  pose proof (Z.log2_nonneg a) as Hk.
  assert (Hk64 : Z.log2 a < 64).
  { apply Z.log2_lt_pow2; lia. }
  split; [lia|].
  destruct (Z.eq_dec a (2 ^ Z.log2 a)) as [E|E]; [exact E|exfalso].
  assert (Hlog : Z.log2 (a - 1) = Z.log2 a).
  { apply Z.log2_unique; [exact Hk|]. rewrite <- Z.add_1_r in *. lia. }
  assert (Hb1 : Z.testbit a (Z.log2 a) = true) by (apply Z.bit_log2; lia).
  assert (Hb2 : Z.testbit (a - 1) (Z.log2 a) = true).
  { rewrite <- Hlog. apply Z.bit_log2. lia. }
  assert (Hb : Z.testbit (Z.land a (a - 1)) (Z.log2 a) = true).
  { rewrite Z.land_spec, Hb1, Hb2. reflexivity. }
  rewrite H, Z.bits_0 in Hb. discriminate.
Qed.

Lemma land_size_not (y k : Z) :
  0 <= k < 64 -> 0 <= y < 2 ^ 64 ->
  Z.land y (size_not (size_t (2 ^ k - 1))) = (y / 2 ^ k) * 2 ^ k.
Proof.
  intros Hk Hy. rewrite pow2_size_t_pred by exact Hk.
  unfold size_not, size_t.
  rewrite <- (Z.land_ones (Z.lnot (Z.ones k)) 64) by lia.
  rewrite (Z.land_comm (Z.lnot (Z.ones k))), Z.land_assoc.
  rewrite (Z.land_ones y 64) by lia. rewrite (Z.mod_small y) by exact Hy.
  rewrite <- Z.ldiff_land, Z.ldiff_ones_r by lia.
  rewrite Z.shiftr_div_pow2, Z.shiftl_mul_pow2 by lia. reflexivity.
Qed.

Lemma align_up_spec (v k : Z) :
  0 <= k < 64 -> 0 <= v -> v + 2 ^ k - 1 < 2 ^ 64 ->
  align_up v (2 ^ k) = spec_aligned_block_size v (2 ^ k).
Proof.
  intros Hk Hv Hlt. unfold align_up, spec_aligned_block_size.
  assert (Hp : 0 < 2 ^ k) by (apply Z.pow_pos_nonneg; lia).
  rewrite (size_t_small (2 ^ k - 1)) at 1
    by (split; [lia|]; assert (2 ^ k < 2 ^ 64)
          by (apply Z.pow_lt_mono_r; lia); lia).
  rewrite (size_t_small (v + (2 ^ k - 1))) by lia.
  rewrite land_size_not by lia.
  replace (v + (2 ^ k - 1)) with (v + 2 ^ k - 1) by ring. reflexivity.
Qed.

Lemma align_up_wraps (v k : Z) :
  0 <= k < 64 -> 0 <= v < 2 ^ 64 -> 2 ^ 64 <= v + 2 ^ k - 1 ->
  align_up v (2 ^ k) = 0.
Proof.
  intros Hk Hv Hge. unfold align_up.
  assert (Hp : 0 < 2 ^ k) by (apply Z.pow_pos_nonneg; lia).
  assert (Hp64 : 2 ^ k < 2 ^ 64) by (apply Z.pow_lt_mono_r; lia).
  rewrite (size_t_small (2 ^ k - 1)) at 1 by lia.
  assert (Hw : size_t (v + (2 ^ k - 1)) = v + 2 ^ k - 1 - 2 ^ 64).
  { unfold size_t.
    replace (v + (2 ^ k - 1)) with (v + 2 ^ k - 1 - 2 ^ 64 + 1 * 2 ^ 64)
      by ring.
    rewrite Z.mod_add by lia. apply Z.mod_small. lia. }
  rewrite Hw. rewrite land_size_not by lia.
  rewrite Z.div_small by lia. reflexivity.
Qed.

Lemma layout_pad_spec (k be : Z) :
  0 <= k < 64 -> 0 <= be ->
  layout_pad (2 ^ k) be = (2 ^ k - be mod 2 ^ k) mod 2 ^ k.
Proof.
  intros Hk Hbe. unfold layout_pad.
  assert (Hp : 0 < 2 ^ k) by (apply Z.pow_pos_nonneg; lia).
  assert (Hp64 : 2 ^ k < 2 ^ 64) by (apply Z.pow_lt_mono_r; lia).
  pose proof (Z.mod_pos_bound be (2 ^ k) Hp) as Hm.
  destruct (1 <? 2 ^ k) eqn:E.
  - rewrite land_pow2_pred by exact Hk.
    destruct (be mod 2 ^ k =? 0) eqn:E0; simpl.
    + apply Z.eqb_eq in E0. rewrite E0, Z.sub_0_r, Z.mod_same by lia.
      reflexivity.
    + apply Z.eqb_neq in E0. rewrite size_t_small by lia.
      symmetry. apply Z.mod_small. lia.
  - apply Z.ltb_ge in E. assert (H1 : 2 ^ k = 1) by lia.
    rewrite H1. rewrite !Z.mod_1_r. reflexivity.
Qed.

(** ** [mempool_init], case by case *)

Lemma init_rejected (a : init_args) (m : memory) (e : mempool_error_t) :
  init_checks a = Some e ->
  init a m = Some (mk_result e None m (Some 0) []).
Proof.
  unfold init_checks, init, mempool_init. intros H.
  destruct ((a_state_buffer a =? 0) || (a_pool_buffer a =? 0));
    [injection H as <-; reflexivity|].
  destruct (a_state_buffer_size a <? sizeof_struct_mempool);
    [injection H as <-; reflexivity|].
  destruct ((a_pool_buffer_size a =? 0) || (a_block_size a =? 0));
    [injection H as <-; reflexivity|].
  destruct (negb (is_power_of_two (a_alignment a)));
    [injection H as <-; reflexivity|].
  destruct (negb (Z.land (a_pool_buffer a) (size_t (a_alignment a - 1)) =? 0));
    [injection H as <-; reflexivity|].
  destruct (a_block_size a <? sizeof_free_node_t);
    [injection H as <-; reflexivity|].
  discriminate.
Qed.

Lemma init_searched (a : init_args) (m : memory) :
  init_checks a = None ->
  init a m =
  let aligned_block_size := align_up (a_block_size a) (a_alignment a) in
  if aligned_block_size =? 0 then None
  else if a_pool_buffer_size a / aligned_block_size =? 0 then
    Some (mk_result MEMPOOL_ERR_INVALID_SIZE (Some zero_pool) m (Some 0) [])
  else
    st <- init_search a ;;
    if negb (l_found st) || (l_n st =? 0) then
      Some (mk_result MEMPOOL_ERR_INVALID_SIZE (Some zero_pool) m (Some 0) [])
    else if (UINT32_MAX <? l_n st) || (UINT32_MAX <? l_bitmap_bytes st) then
      Some (mk_result MEMPOOL_ERR_INVALID_SIZE (Some zero_pool) m (Some 0) [])
    else
      let s := init_pool_of a aligned_block_size st m in
      Some (mk_result MEMPOOL_OK (Some (st_pool s)) (st_mem s)
              (Some (a_state_buffer a)) []).
Proof.
  unfold init_checks, init, mempool_init, init_search. intros H.
  destruct ((a_state_buffer a =? 0) || (a_pool_buffer a =? 0));
    [discriminate|].
  destruct (a_state_buffer_size a <? sizeof_struct_mempool); [discriminate|].
  destruct ((a_pool_buffer_size a =? 0) || (a_block_size a =? 0));
    [discriminate|].
  destruct (negb (is_power_of_two (a_alignment a))); [discriminate|].
  destruct (negb (Z.land (a_pool_buffer a) (size_t (a_alignment a - 1)) =? 0));
    [discriminate|].
  destruct (a_block_size a <? sizeof_free_node_t); [discriminate|].
  cbv zeta. unfold udiv.
  destruct (align_up (a_block_size a) (a_alignment a) =? 0); [reflexivity|].
  cbn [bind].
  destruct (a_pool_buffer_size a
            / align_up (a_block_size a) (a_alignment a) =? 0);
    [reflexivity|].
  destruct (layout_loop _ _ _ _ _) as [st|]; [|reflexivity].
  cbn [bind].
  destruct (negb (l_found st) || (l_n st =? 0)); [reflexivity|].
  destruct ((UINT32_MAX <? l_n st) || (UINT32_MAX <? l_bitmap_bytes st));
    [reflexivity|].
  unfold init_pool_of.
  destruct (build_free_list _ _ _ _ _) as [prev m2]. reflexivity.
Qed.

(** ** The layout search *)

Lemma spec_pad_range (a n : Z) : 0 < a -> 0 <= spec_pad a n < a.
Proof. intros H. unfold spec_pad. apply Z.mod_pos_bound. exact H. Qed.

Lemma spec_bitmap_bytes_range (n : Z) :
  1 <= n -> 1 <= spec_bitmap_bytes n <= n.
Proof.
  intros H. unfold spec_bitmap_bytes.
  pose proof (Z.div_mod (n + 7) 8). pose proof (Z.mod_pos_bound (n + 7) 8).
  lia.
Qed.

Lemma spec_aligned_range (bs a : Z) :
  0 < a -> 1 <= bs ->
  bs <= spec_aligned_block_size bs a < bs + a /\
  a <= spec_aligned_block_size bs a.
Proof.
  intros Ha Hbs. unfold spec_aligned_block_size.
  pose proof (Z.div_mod (bs + a - 1) a ltac:(lia)) as Hdm.
  pose proof (Z.mod_pos_bound (bs + a - 1) a Ha) as Hm.
  assert (Hq : 1 <= (bs + a - 1) / a).
  { apply Z.div_le_lower_bound; lia. }
  split; [nia|nia].
Qed.

(** No intermediate result of the search wraps when the pool is an object. *)
Lemma required_no_wrap (size A a n : Z) :
  0 < a -> a <= A -> 8 <= A -> size <= PTRDIFF_MAX ->
  1 <= n -> n * A <= size ->
  spec_required A a n <= SIZE_MAX /\ n + 7 <= SIZE_MAX.
Proof.
  intros Ha HaA HA Hsize Hn HnA. unfold spec_required, PTRDIFF_MAX, SIZE_MAX in *.
  pose proof (spec_pad_range a n Ha) as Hpad.
  pose proof (spec_bitmap_bytes_range n Hn) as Hbb.
  assert (H8 : 8 * n <= n * A) by nia.
  destruct (Z.eq_dec n 1) as [->|Hn1].
  - lia.
  - assert (H2 : 2 * A <= n * A) by nia. lia.
Qed.

Lemma layout_body_spec (size A k n bb bo : Z) :
  0 <= k < 64 -> 8 <= A -> 1 <= n ->
  spec_required A (2 ^ k) n <= SIZE_MAX ->
  layout_body size A (2 ^ k) (mk_layout n bb bo false)
  = if spec_required A (2 ^ k) n <=? size
    then mk_layout n (spec_bitmap_bytes n)
           (spec_bitmap_bytes n + spec_pad (2 ^ k) n) true
    else mk_layout (n - 1) (spec_bitmap_bytes n)
           (spec_bitmap_bytes n + spec_pad (2 ^ k) n) false.
Proof.
  intros Hk HA Hn Hreq. unfold layout_body. cbn [l_n].
  assert (Hp : 0 < 2 ^ k) by (apply Z.pow_pos_nonneg; lia).
  pose proof (spec_pad_range (2 ^ k) n Hp) as Hpad.
  pose proof (spec_bitmap_bytes_range n Hn) as Hbb.
  unfold spec_required, SIZE_MAX in Hreq.
  assert (HnA : 8 * n <= n * A) by nia.
  rewrite (size_t_small (n + 7)) by lia.
  fold (spec_bitmap_bytes n).
  rewrite layout_pad_spec by lia. fold (spec_pad (2 ^ k) n).
  rewrite (size_t_small (n * A)) by lia.
  rewrite (size_t_small (spec_bitmap_bytes n + spec_pad (2 ^ k) n)) by lia.
  rewrite size_t_small by lia.
  fold (spec_required A (2 ^ k) n).
  rewrite (size_t_small (n - 1)) by lia. reflexivity.
Qed.

Lemma layout_loop_spec (size A k : Z) (fuel : nat) :
  0 <= k < 64 -> 8 <= A ->
  forall n bb bo,
    0 <= n <= Z.of_nat fuel ->
    (forall n', 1 <= n' <= n -> spec_required A (2 ^ k) n' <= SIZE_MAX) ->
    exists st,
      layout_loop fuel size A (2 ^ k) (mk_layout n bb bo false) = Some st /\
      ((l_found st = true /\ 1 <= l_n st <= n /\
        spec_required A (2 ^ k) (l_n st) <= size /\
        (forall n', l_n st < n' <= n -> size < spec_required A (2 ^ k) n') /\
        l_bitmap_bytes st = spec_bitmap_bytes (l_n st) /\
        l_blocks_offset st
        = spec_bitmap_bytes (l_n st) + spec_pad (2 ^ k) (l_n st)) \/
       (l_found st = false /\ l_n st = 0 /\
        forall n', 1 <= n' <= n -> size < spec_required A (2 ^ k) n')).
Proof.
  intros Hk HA. induction fuel as [|fuel IH]; intros n bb bo Hn Hnw.
  - assert (n = 0) by lia. subst n. exists (mk_layout 0 bb bo false).
    split; [reflexivity|]. right. repeat split. intros n' Hn'. lia.
  - destruct (Z.eq_dec n 0) as [->|Hn0].
    + exists (mk_layout 0 bb bo false).
      split; [reflexivity|]. right. repeat split. intros n' Hn'. lia.
    + cbn [layout_loop l_n l_found].
      assert (Hpos : (0 <? n) = true) by (apply Z.ltb_lt; lia).
      rewrite Hpos. cbn [negb andb].
      rewrite layout_body_spec; try lia; [|apply Hnw; lia].
      destruct (spec_required A (2 ^ k) n <=? size) eqn:E.
      * apply Z.leb_le in E.
        exists (mk_layout n (spec_bitmap_bytes n)
                  (spec_bitmap_bytes n + spec_pad (2 ^ k) n) true).
        split.
        { destruct fuel; cbn [layout_loop l_n l_found]; rewrite Hpos;
            reflexivity. }
        left. cbn [l_n l_found l_bitmap_bytes l_blocks_offset].
        repeat split; try lia.
      * apply Z.leb_gt in E.
        destruct (IH (n - 1) (spec_bitmap_bytes n)
                    (spec_bitmap_bytes n + spec_pad (2 ^ k) n))
          as [st [Hst Hcases]]; [lia|intros n' Hn'; apply Hnw; lia|].
        exists st. split; [exact Hst|].
        destruct Hcases as [(Hf & Hr & Hfit & Hmax & Hb & Ho)|(Hf & Hz & Hno)].
        { left. repeat split; try assumption; try lia.
          intros n' Hn'. destruct (Z.eq_dec n' n) as [->|Hne]; [exact E|].
          apply Hmax. lia. }
        { right. repeat split; try assumption.
          intros n' Hn'. destruct (Z.eq_dec n' n) as [->|Hne]; [exact E|].
          apply Hno. lia. }
Qed.

Lemma init_checks_pass (a : init_args) :
  well_typed_args a -> init_checks a = None ->
  exists k, 0 <= k < 64 /\ a_alignment a = 2 ^ k /\
            a_pool_buffer a mod 2 ^ k = 0 /\ 0 < a_pool_buffer a /\
            sizeof_free_node_t <= a_block_size a /\
            0 < a_pool_buffer_size a /\ a_state_buffer a <> 0 /\
            sizeof_struct_mempool <= a_state_buffer_size a.
Proof.
  intros (Hsb & Hss & Hpb & Hps & Hbs & Hal & Hobj & Hend) H.
  unfold init_checks in H. unfold is_size_t, SIZE_MAX in *.
  destruct ((a_state_buffer a =? 0) || (a_pool_buffer a =? 0)) eqn:E1;
    [discriminate|].
  apply orb_false_iff in E1. destruct E1 as [E1 E1'].
  apply Z.eqb_neq in E1. apply Z.eqb_neq in E1'.
  destruct (a_state_buffer_size a <? sizeof_struct_mempool) eqn:E2;
    [discriminate|]. apply Z.ltb_ge in E2.
  destruct ((a_pool_buffer_size a =? 0) || (a_block_size a =? 0)) eqn:E3;
    [discriminate|].
  apply orb_false_iff in E3. destruct E3 as [E3 E3'].
  apply Z.eqb_neq in E3. apply Z.eqb_neq in E3'.
  destruct (is_power_of_two (a_alignment a)) eqn:E4; [|discriminate].
  cbn [negb] in H.
  destruct (is_power_of_two_inv (a_alignment a) ltac:(lia) E4)
    as [k [Hk Hak]].
  destruct (Z.land (a_pool_buffer a) (size_t (a_alignment a - 1)) =? 0)
    eqn:E5; [|discriminate]. cbn [negb] in H.
  apply Z.eqb_eq in E5. rewrite Hak in E5.
  rewrite land_pow2_pred in E5 by exact Hk.
  destruct (a_block_size a <? sizeof_free_node_t) eqn:E6; [discriminate|].
  apply Z.ltb_ge in E6.
  exists k. repeat split; try assumption; lia.
Qed.

Lemma init_checks_planner (a : init_args) :
  well_typed_args a -> planner_input a -> a_pool_buffer_size a <> 0 ->
  init_checks a = None.
Proof.
  intros (Hsb & Hss & Hpb & Hps & Hbs & Hal & Hobj & Hend)
    ((k & Hk & Hak) & Hnn & Hmod & Hlink & Hst & Hsz) Hne.
  unfold init_checks, mempool_state_size, sizeof_free_node_t in *.
  apply Z.eqb_neq in Hst. apply Z.eqb_neq in Hnn. rewrite Hst, Hnn.
  cbn [orb].
  assert (E2 : (a_state_buffer_size a <? sizeof_struct_mempool) = false)
    by (apply Z.ltb_ge; exact Hsz).
  rewrite E2. apply Z.eqb_neq in Hne. rewrite Hne.
  assert (E3 : (a_block_size a =? 0) = false) by (apply Z.eqb_neq; lia).
  rewrite E3. cbn [orb].
  rewrite Hak, is_power_of_two_pow2 by exact Hk. cbn [negb].
  rewrite land_pow2_pred by exact Hk. rewrite <- Hak, Hmod. cbn [negb Z.eqb].
  assert (E6 : (a_block_size a <? 8) = false) by (apply Z.ltb_ge; lia).
  rewrite E6. reflexivity.
Qed.

(** The search on arguments whose aligned block size does not wrap. *)
Lemma init_search_spec (a : init_args) (k : Z) :
  well_typed_args a -> 0 <= k < 64 -> a_alignment a = 2 ^ k ->
  sizeof_free_node_t <= a_block_size a ->
  a_block_size a + 2 ^ k - 1 < 2 ^ 64 ->
  let A := spec_aligned_block_size (a_block_size a) (2 ^ k) in
  align_up (a_block_size a) (a_alignment a) = A /\ 8 <= A /\ 2 ^ k <= A /\
  (1 <= a_pool_buffer_size a / A ->
   exists st,
     init_search a = Some st /\
     ((l_found st = true /\ 1 <= l_n st /\
       spec_required A (2 ^ k) (l_n st) <= a_pool_buffer_size a /\
       (forall n', l_n st < n' ->
          a_pool_buffer_size a < spec_required A (2 ^ k) n') /\
       l_bitmap_bytes st = spec_bitmap_bytes (l_n st) /\
       l_blocks_offset st
       = spec_bitmap_bytes (l_n st) + spec_pad (2 ^ k) (l_n st)) \/
      (l_found st = false /\ l_n st = 0 /\
       forall n', 1 <= n' ->
          a_pool_buffer_size a < spec_required A (2 ^ k) n'))).
Proof.
  intros (Hsb & Hss & Hpb & Hps & Hbs & Hal & Hobj & Hend) Hk Hak Hlink Hnw A.
  unfold is_size_t, sizeof_free_node_t in *.
  assert (Hp : 0 < 2 ^ k) by (apply Z.pow_pos_nonneg; lia).
  assert (HA : align_up (a_block_size a) (a_alignment a) = A).
  { rewrite Hak. apply align_up_spec; lia. }
  destruct (spec_aligned_range (a_block_size a) (2 ^ k) Hp ltac:(lia))
    as [HAr HAa]. fold A in HAr, HAa.
  split; [exact HA|]. split; [lia|]. split; [exact HAa|].
  intros Hmax. set (size := a_pool_buffer_size a) in *.
  assert (Hbig : forall n', size / A < n' -> 1 <= n' ->
                            size < spec_required A (2 ^ k) n').
  { intros n' Hn' Hn1. unfold spec_required.
    pose proof (spec_pad_range (2 ^ k) n' Hp).
    pose proof (spec_bitmap_bytes_range n' Hn1).
    pose proof (Z.div_mod size A ltac:(lia)).
    pose proof (Z.mod_pos_bound size A ltac:(lia)). nia. }
  assert (Hwrap : forall n', 1 <= n' <= size / A ->
                             spec_required A (2 ^ k) n' <= SIZE_MAX).
  { intros n' Hn'. apply (required_no_wrap size); try lia.
    pose proof (Z.div_mod size A ltac:(lia)).
    pose proof (Z.mod_pos_bound size A ltac:(lia)). nia. }
  destruct (layout_loop_spec size A k (Z.to_nat (size / A)) Hk ltac:(lia)
              (size / A) 0 0 ltac:(lia) Hwrap) as [st [Hst Hcases]].
  exists st. split.
  { unfold init_search, udiv. rewrite HA.
    assert (E : (A =? 0) = false) by (apply Z.eqb_neq; lia).
    rewrite E. cbn [bind]. rewrite Hak. exact Hst. }
  destruct Hcases as [(Hf & Hr & Hfit & Hmx & Hb & Ho)|(Hf & Hz & Hno)].
  - left. repeat split; try assumption; try lia.
    intros n' Hn'. destruct (Z_le_gt_dec n' (size / A)).
    + apply Hmx. lia.
    + apply Hbig; lia.
  - right. repeat split; try assumption.
    intros n' Hn'. destruct (Z_le_gt_dec n' (size / A)).
    + apply Hno. lia.
    + apply Hbig; lia.
Qed.

(** What a successful [init] has computed. *)
Lemma init_ok_facts (a : init_args) (m : memory) (s : state) :
  well_typed_args a -> init_ok a m s ->
  exists k n,
    0 <= k < 64 /\ a_alignment a = 2 ^ k /\
    let A := spec_aligned_block_size (a_block_size a) (2 ^ k) in
    8 <= A /\ 2 ^ k <= A /\ A <= SIZE_MAX /\
    1 <= n <= UINT32_MAX /\
    spec_required A (2 ^ k) n <= a_pool_buffer_size a /\
    (forall n', n < n' -> a_pool_buffer_size a < spec_required A (2 ^ k) n') /\
    0 < a_pool_buffer a /\
    s = init_pool_of a A
          (mk_layout n (spec_bitmap_bytes n)
             (spec_bitmap_bytes n + spec_pad (2 ^ k) n) true) m.
Proof.
  intros Hwt (r & Hinit & Herr & Hs).
  destruct (init_checks a) as [e|] eqn:Hchk.
  { rewrite (init_rejected a m e Hchk) in Hinit. injection Hinit as <-.
    cbn [r_err] in Herr. subst e. unfold init_checks in Hchk.
    repeat match type of Hchk with
           | (if ?c then _ else _) = _ => destruct c; try discriminate
           end. }
  destruct (init_checks_pass a Hwt Hchk)
    as (k & Hk & Hak & Hmod & Hpb & Hlink & Hps & Hsb & Hsz).
  rewrite (init_searched a m Hchk) in Hinit. cbv zeta in Hinit.
  destruct (align_up (a_block_size a) (a_alignment a) =? 0) eqn:EA;
    [discriminate|]. apply Z.eqb_neq in EA.
  assert (Hp : 0 < 2 ^ k) by (apply Z.pow_pos_nonneg; lia).
  assert (Hp64 : 2 ^ k < 2 ^ 64) by (apply Z.pow_lt_mono_r; lia).
  pose proof Hwt as (_ & _ & _ & Hps' & Hbs' & _ & Hobj & Hend).
  unfold is_size_t, SIZE_MAX in Hps', Hbs'.
  assert (Hnw : a_block_size a + 2 ^ k - 1 < 2 ^ 64).
  { destruct (Z_lt_ge_dec (a_block_size a + 2 ^ k - 1) (2 ^ 64)) as [H|H];
      [exact H|].
    rewrite Hak in EA. rewrite align_up_wraps in EA by lia.
    contradiction. }
  destruct (init_search_spec a k Hwt Hk Hak Hlink Hnw)
    as (HA & HA8 & HAa & Hsearch).
  rewrite HA in Hinit.
  set (A := spec_aligned_block_size (a_block_size a) (2 ^ k)) in *.
  destruct (a_pool_buffer_size a / A =? 0) eqn:Emax.
  { injection Hinit as <-. discriminate. }
  apply Z.eqb_neq in Emax.
  assert (Hmax : 1 <= a_pool_buffer_size a / A).
  { assert (0 <= a_pool_buffer_size a / A) by (apply Z.div_pos; lia). lia. }
  destruct (Hsearch Hmax) as [st [Hst Hcases]].
  rewrite Hst in Hinit. cbn [bind] in Hinit.
  destruct Hcases as [(Hf & Hr & Hfit & Hmx & Hb & Ho)|(Hf & Hz & Hno)].
  2:{ rewrite Hf in Hinit. cbn [negb orb] in Hinit.
      injection Hinit as <-. discriminate. }
  rewrite Hf in Hinit. cbn [negb orb] in Hinit.
  assert (En : (l_n st =? 0) = false) by (apply Z.eqb_neq; lia).
  rewrite En in Hinit.
  destruct ((UINT32_MAX <? l_n st) || (UINT32_MAX <? l_bitmap_bytes st))
    eqn:E32.
  { injection Hinit as <-. discriminate. }
  apply orb_false_iff in E32. destruct E32 as [E32 _].
  apply Z.ltb_ge in E32.
  injection Hinit as <-. unfold init_state in Hs. cbn [r_pool r_mem] in Hs.
  exists k, (l_n st). split; [exact Hk|]. split; [exact Hak|].
  cbv zeta. fold A.
  split; [exact HA8|]. split; [exact HAa|].
  split.
  { destruct (spec_aligned_range (a_block_size a) (2 ^ k) Hp ltac:(unfold sizeof_free_node_t in Hlink; lia))
      as [HAr _]. fold A in HAr. unfold SIZE_MAX. lia. }
  split; [lia|]. split; [exact Hfit|]. split; [exact Hmx|].
  split; [exact Hpb|].
  rewrite Hs. destruct st as [n bb bo f]. cbn [l_n l_bitmap_bytes
    l_blocks_offset l_found] in *. subst bb bo f.
  reflexivity.
Qed.

(** ** The state after [mempool_init] *)

Lemma uint32_t_le (x : Z) : 0 <= x -> uint32_t x <= x.
Proof. intros H. unfold uint32_t. apply Z.mod_le; lia. Qed.

(** The geometry and the counters right after a successful [init]. *)
Lemma init_counters_ok (a : init_args) (m : memory) (s : state) :
  well_typed_args a -> init_ok a m s -> counters_ok s.
Proof.
  intros Hwt Hok.
  destruct (init_ok_facts a m s Hwt Hok)
    as (k & n & Hk & Hak & HA8 & HAa & HAmax & Hn & Hfit & _ & Hpb & Hs).
  set (A := spec_aligned_block_size (a_block_size a) (2 ^ k)) in *.
  assert (Hp : 0 < 2 ^ k) by (apply Z.pow_pos_nonneg; lia).
  pose proof (spec_pad_range (2 ^ k) n Hp) as Hpad.
  pose proof (spec_bitmap_bytes_range n ltac:(lia)) as Hbb.
  pose proof Hwt as (_ & _ & _ & _ & _ & _ & Hobj & Hend).
  unfold spec_required in Hfit. unfold SIZE_MAX in *.
  assert (HnA : 0 <= n * A) by nia.
  assert (Hu : uint32_t A <= A) by (apply uint32_t_le; lia).
  pose proof (uint32_t_range A) as HuA.
  assert (HnU : n * uint32_t A <= n * A) by nia.
  assert (HnU0 : 0 <= n * uint32_t A) by nia.
  assert (Hshape : shape_ok (st_pool s)).
  { rewrite Hs. unfold init_pool_of, shape_ok.
    cbn [l_n l_bitmap_bytes l_blocks_offset st_pool].
    cbn [initialized total_blocks block_size bitmap_bytes bitmap
         blocks_start].
    rewrite (uint32_t_small n) by lia.
    rewrite (uint32_t_small (spec_bitmap_bytes n)) by lia.
    rewrite size_t_small by lia.
    split; [reflexivity|]. split; [lia|]. split; [lia|].
    split; [reflexivity|]. split; [lia|]. split; [lia|].
    unfold SIZE_MAX. lia. }
  unfold counters_ok. split; [exact Hshape|].
  assert (Hcnt : count_allocated (st_pool s) (st_mem s) = 0).
  { unfold count_allocated. rewrite count_filter_none; [reflexivity|].
    intros i Hin. apply In_indices in Hin.
    apply (bits_clear_after_memset (st_pool s) m); [exact Hshape|exact Hin|].
    intros x Hx. revert Hx. rewrite Hs. unfold init_pool_of.
    cbn [l_n l_bitmap_bytes l_blocks_offset st_pool st_mem].
    cbn [bitmap_bytes bitmap blocks_start].
    rewrite (uint32_t_small n) by lia.
    rewrite (uint32_t_small (spec_bitmap_bytes n)) by lia.
    rewrite size_t_small by lia. intros Hx.
    apply build_free_list_below; try lia.
    rewrite Z2Nat.id by lia. unfold SIZE_MAX. lia. }
  rewrite Hcnt. rewrite Hs. unfold init_pool_of.
  cbn [l_n l_bitmap_bytes l_blocks_offset st_pool st_mem].
  cbn [free_blocks total_blocks stats s_total_blocks s_used_blocks
       s_free_blocks s_peak_usage s_alloc_count s_free_count].
  rewrite (uint32_t_small n) by lia.
  split; [lia|]. split; [lia|]. split; [reflexivity|].
  split; [reflexivity|]. split; [ring|]. split; [lia|].
  unfold UINT32_MAX. split; [lia|]. split; [lia|]. reflexivity.
Qed.

Lemma run_counters_ok (os : list op) :
  forall (s s' : state) (rs : list response),
    counters_ok s -> run s os = Some (s', rs) -> counters_ok s'.
Proof.
  induction os as [|o os IH]; intros s s' rs Hc Hrun.
  - injection Hrun as <- _. exact Hc.
  - cbn [run] in Hrun.
    destruct (step s o) as [[s1 r1]|] eqn:Hstep; [|discriminate].
    cbn [bind fst snd] in Hrun.
    destruct (run s1 os) as [[s2 r2]|] eqn:Hrest; [|discriminate].
    cbn [bind fst snd] in Hrun. injection Hrun as <- _.
    apply (IH s1 s2 r2); [|exact Hrest].
    apply (step_counters_ok s s1 o r1); assumption.
Qed.

Lemma counters_stats_consistent (s : state) :
  counters_ok s -> stats_consistent (stats (st_pool s)).
Proof.
  intros (Hshape & Hf0 & Hcount & Hst & Hsf & Hsu & Hpk & Hac & Hfc & Hw).
  unfold stats_consistent. split; [lia|]. split; [exact Hpk|exact Hw].
Qed.

(** ** Geometry is never changed; calls are defined when the block size is
       not zero *)

Lemma same_geometry_refl (p : mempool) : same_geometry p p.
Proof. unfold same_geometry. repeat split. Qed.

Lemma step_geometry (s s' : state) (o : op) (rsp : response) :
  initialized (st_pool s) = true ->
  step s o = Some (s', rsp) ->
  same_geometry (st_pool s) (st_pool s').
Proof.
  intros Hi Hstep.
  destruct o as [|block| | |l u c].
  - destruct (step_alloc s Hi) as [[_ H]|[(_ & _ & _ & H)|(_ & _ & _ & H)]];
      rewrite H in Hstep.
    + injection Hstep as <- _. apply same_geometry_refl.
    + discriminate.
    + injection Hstep as <- _. unfold same_geometry. repeat split.
  - destruct (step_free s block Hi)
      as [[_ H]|[(_ & _ & [H|[H _]])|(_ & _ & _ & H)]];
      rewrite H in Hstep.
    + injection Hstep as <- _. apply same_geometry_refl.
    + injection Hstep as <- _. apply same_geometry_refl.
    + discriminate.
    + destruct (bitmap_bytes (st_pool s) <=?
                index_of (st_pool s) block / 8).
      { injection Hstep as <- _. apply same_geometry_refl. }
      destruct (bit_set (st_pool s) (st_mem s)
                  (index_of (st_pool s) block)).
      * injection Hstep as <- _. unfold same_geometry. repeat split.
      * injection Hstep as <- _. apply same_geometry_refl.
  - rewrite (step_reset s Hi) in Hstep. injection Hstep as <- _.
    unfold same_geometry. repeat split.
  - rewrite (step_get_stats s Hi) in Hstep. injection Hstep as <- _.
    apply same_geometry_refl.
  - rewrite (step_set_sync s l u c Hi) in Hstep. injection Hstep as <- _.
    unfold same_geometry. repeat split.
Qed.

Lemma step_defined (s : state) (o : op) :
  initialized (st_pool s) = true ->
  block_size (st_pool s) <> 0 ->
  exists s' rsp, step s o = Some (s', rsp).
Proof.
  intros Hi Hnz.
  destruct o as [|block| | |l u c].
  - destruct (step_alloc s Hi) as [[_ H]|[(_ & _ & Hz & _)|(_ & _ & _ & H)]];
      [eauto|contradiction|eauto].
  - destruct (step_free s block Hi)
      as [[_ H]|[(_ & _ & [H|[_ Hz]])|(_ & _ & _ & H)]];
      [eauto|eauto|contradiction|].
    rewrite H.
    destruct (bitmap_bytes (st_pool s) <=? index_of (st_pool s) block / 8);
      [eauto|].
    destruct (bit_set (st_pool s) (st_mem s) (index_of (st_pool s) block));
      eauto.
  - rewrite (step_reset s Hi). eauto.
  - rewrite (step_get_stats s Hi). eauto.
  - rewrite (step_set_sync s l u c Hi). eauto.
Qed.

Lemma run_defined (os : list op) :
  forall s : state,
    initialized (st_pool s) = true ->
    block_size (st_pool s) <> 0 ->
    exists s' rs, run s os = Some (s', rs).
Proof.
  induction os as [|o os IH]; intros s Hi Hnz.
  - exists s, []. reflexivity.
  - destruct (step_defined s o Hi Hnz) as (s1 & r1 & Hstep).
    pose proof (step_geometry s s1 o r1 Hi Hstep)
      as (_ & _ & _ & _ & Hbs & _ & _ & Hi1).
    destruct (IH s1) as (s2 & rs & Hrun); [congruence|congruence|].
    exists s2, (r1 :: rs). cbn [run]. rewrite Hstep. cbn [bind fst snd].
    rewrite Hrun. reflexivity.
Qed.

Lemma run_geometry (os : list op) :
  forall (s s' : state) (rs : list response),
    initialized (st_pool s) = true ->
    run s os = Some (s', rs) ->
    same_geometry (st_pool s) (st_pool s').
Proof.
  induction os as [|o os IH]; intros s s' rs Hi Hrun.
  - injection Hrun as <- _. apply same_geometry_refl.
  - cbn [run] in Hrun.
    destruct (step s o) as [[s1 r1]|] eqn:Hstep; [|discriminate].
    cbn [bind fst snd] in Hrun.
    destruct (run s1 os) as [[s2 r2]|] eqn:Hrest; [|discriminate].
    cbn [bind fst snd] in Hrun. injection Hrun as <- _.
    pose proof (step_geometry s s1 o r1 Hi Hstep) as G1.
    assert (Hi1 : initialized (st_pool s1) = true)
      by (destruct G1 as (_ & _ & _ & _ & _ & _ & _ & G); congruence).
    pose proof (IH s1 s2 r2 Hi1 Hrest) as G2.
    unfold same_geometry in *. intuition congruence.
Qed.

(** The statistics a call reports are those of the state it ran in. *)
Lemma step_reported_stats (s s' : state) (o : op) (rsp : response)
    (st : mempool_stats_t) :
  initialized (st_pool s) = true ->
  step s o = Some (s', rsp) -> rsp_stats rsp = Some st ->
  st = stats (st_pool s).
Proof.
  intros Hi Hstep Hst.
  destruct o as [|block| | |l u c].
  - destruct (step_alloc s Hi) as [[_ H]|[(_ & _ & _ & H)|(_ & _ & _ & H)]];
      rewrite H in Hstep; try discriminate;
      injection Hstep as _ <-; discriminate.
  - destruct (step_free s block Hi)
      as [[_ H]|[(_ & _ & [H|[H _]])|(_ & _ & _ & H)]];
      rewrite H in Hstep; try discriminate;
      try (injection Hstep as _ <-; discriminate).
    destruct (bitmap_bytes (st_pool s) <=? index_of (st_pool s) block / 8);
      [injection Hstep as _ <-; discriminate|].
    destruct (bit_set (st_pool s) (st_mem s) (index_of (st_pool s) block));
      injection Hstep as _ <-; discriminate.
  - rewrite (step_reset s Hi) in Hstep. injection Hstep as _ <-.
    discriminate.
  - rewrite (step_get_stats s Hi) in Hstep. injection Hstep as _ <-.
    cbn [rsp_stats] in Hst. congruence.
  - rewrite (step_set_sync s l u c Hi) in Hstep. injection Hstep as _ <-.
    discriminate.
Qed.

Lemma run_reported_stats (os : list op) :
  forall (s s' : state) (rs : list response),
    counters_ok s -> run s os = Some (s', rs) ->
    forall rsp st, In rsp rs -> rsp_stats rsp = Some st ->
                   stats_consistent st.
Proof.
  induction os as [|o os IH]; intros s s' rs Hc Hrun rsp st Hin Hst.
  - injection Hrun as _ <-. destruct Hin.
  - cbn [run] in Hrun.
    destruct (step s o) as [[s1 r1]|] eqn:Hstep; [|discriminate].
    cbn [bind fst snd] in Hrun.
    destruct (run s1 os) as [[s2 r2]|] eqn:Hrest; [|discriminate].
    cbn [bind fst snd] in Hrun. injection Hrun as _ <-.
    destruct Hin as [<-|Hin].
    + assert (Hi : initialized (st_pool s) = true) by apply Hc.
      rewrite (step_reported_stats s s1 o r1 st Hi Hstep Hst).
      apply counters_stats_consistent. exact Hc.
    + apply (IH s1 s2 r2 (step_counters_ok s s1 o r1 Hc Hstep) Hrest rsp st);
        assumption.
Qed.

(** * The counters, the validation of pointers, the outputs and the hooks *)

(** ** Statistics *)

(** C1.  For every pool that [mempool_init] has initialized and every
    sequence of calls of [alloc], [free], [reset], [get_stats] and
    [set_sync] (with any arguments), the statistics satisfy
    used_blocks + free_blocks = total_blocks, peak_usage >= used_blocks and
    alloc_count - free_count = used_blocks in unsigned 32-bit arithmetic:
    right after [init], in the state after the calls, and in every snapshot
    [get_stats] has reported on the way.  The calls are all defined when the
    pool's [block_size] field is not zero. *)
Theorem stats_consistent_after_every_call
    (a : init_args) (m : memory) (s0 : state) (os : list op) :
  well_typed_args a -> init_ok a m s0 ->
  stats_consistent (stats (st_pool s0)) /\
  (block_size (st_pool s0) <> 0 -> exists s' rs, run s0 os = Some (s', rs)) /\
  (forall s' rs,
      run s0 os = Some (s', rs) ->
      stats_consistent (stats (st_pool s')) /\
      forall rsp st, In rsp rs -> rsp_stats rsp = Some st ->
                     stats_consistent st).
Proof.
  intros Hwt Hok.
  pose proof (init_counters_ok a m s0 Hwt Hok) as Hc.
  split; [apply counters_stats_consistent; exact Hc|].
  split.
  - intros Hnz. apply run_defined; [apply Hc|exact Hnz].
  - intros s' rs Hrun. split.
    + apply counters_stats_consistent.
      apply (run_counters_ok os s0 s' rs Hc Hrun).
    + apply (run_reported_stats os s0 s' rs Hc Hrun).
Qed.

Lemma demo_args_well_typed : well_typed_args demo_args.
Proof.
  unfold well_typed_args, is_size_t, SIZE_MAX, PTRDIFF_MAX, demo_args.
  cbn. lia.
Defined.

Lemma demo_state_init_ok : init_ok demo_args demo_memory demo_state.
Proof.
  assert (H : exists r, init demo_args demo_memory = Some r /\
                        r_err r = MEMPOOL_OK).
  { vm_compute. eexists. split; reflexivity. }
  destruct H as (r & Hr & Herr). exists r.
  split; [exact Hr|]. split; [exact Herr|].
  unfold demo_state. rewrite Hr. reflexivity.
Defined.

Lemma stats_consistent_after_every_call_witness :
  well_typed_args demo_args /\
  init_ok demo_args demo_memory demo_state /\
  stats_consistent (stats (st_pool demo_state)) /\
  (block_size (st_pool demo_state) <> 0 ->
   exists s' rs,
     run demo_state [OpAlloc; OpGetStats; OpFree 8072; OpReset;
                     OpSetSync 1 2 3; OpAlloc] = Some (s', rs)) /\
  (forall s' rs,
      run demo_state [OpAlloc; OpGetStats; OpFree 8072; OpReset;
                      OpSetSync 1 2 3; OpAlloc] = Some (s', rs) ->
      stats_consistent (stats (st_pool s')) /\
      forall rsp st, In rsp rs -> rsp_stats rsp = Some st ->
                     stats_consistent st).
Proof.
  split; [exact demo_args_well_typed|].
  split; [exact demo_state_init_ok|].
  exact (stats_consistent_after_every_call demo_args demo_memory demo_state
           [OpAlloc; OpGetStats; OpFree 8072; OpReset; OpSetSync 1 2 3;
            OpAlloc]
           demo_args_well_typed demo_state_init_ok).
Defined.

(** ** Pointer validation *)

(** C9.  In every state reachable from a successful [init], a pointer that
    passes the range check and the block-boundary check of [mempool_free]
    has a block index whose byte index is strictly below [bitmap_bytes]:
    [mempool_free] returns [MEMPOOL_OK] or [MEMPOOL_ERR_DOUBLE_FREE] there,
    never the [MEMPOOL_ERR_INVALID_BLOCK] of its critical section. *)
Theorem free_byte_index_below_bitmap_bytes
    (a : init_args) (m : memory) (s0 s : state) (os : list op)
    (rs : list response) (block : Z) :
  well_typed_args a -> init_ok a m s0 ->
  run s0 os = Some (s, rs) ->
  in_blocks_range (st_pool s) block = true ->
  on_block_boundary (st_pool s) block = true ->
  mempool_block_index (st_pool s) block
  = Some (index_of (st_pool s) block) /\
  index_of (st_pool s) block / 8 < bitmap_bytes (st_pool s) /\
  exists r,
    mempool_free (Some (st_pool s)) block (st_mem s) = Some r /\
    (r_err r = MEMPOOL_OK \/ r_err r = MEMPOOL_ERR_DOUBLE_FREE).
Proof.
  intros Hwt Hok Hrun Hr Ha.
  pose proof (run_counters_ok os s0 s rs (init_counters_ok a m s0 Hwt Hok)
                Hrun) as Hc.
  assert (Hshape : shape_ok (st_pool s)) by apply Hc.
  destruct (checked_index (st_pool s) block Hshape Hr Ha)
    as (Hpos & Hidx & Hbyte & Haddr).
  pose proof (shape_blocks_start (st_pool s) Hshape) as (_ & _ & Hbs).
  assert (Hnz : block <> 0).
  { rewrite Haddr. unfold block_addr. nia. }
  split; [apply block_index_defined; lia|]. split; [exact Hbyte|].
  rewrite (free_checked (st_pool s) block (st_mem s)
             ltac:(apply Hshape) Hnz Hr Ha).
  fold (index_of (st_pool s) block).
  apply Z.leb_gt in Hbyte. rewrite Hbyte.
  destruct (bit_set (st_pool s) (st_mem s) (index_of (st_pool s) block));
    eexists; (split; [reflexivity|]); [left|right]; reflexivity.
Qed.

Lemma run_defined_eq (s : state) (os : list op) :
  run s os <> None ->
  run s os = Some (state_after_run s os, responses_of_run s os).
Proof.
  unfold state_after_run, responses_of_run. intros H.
  destruct (run s os) as [[s' rs]|]; [reflexivity|contradiction].
Defined.

Lemma free_byte_index_below_bitmap_bytes_witness :
  let s := state_after_run demo_state [OpAlloc; OpAlloc] in
  well_typed_args demo_args /\
  init_ok demo_args demo_memory demo_state /\
  run demo_state [OpAlloc; OpAlloc]
  = Some (s, responses_of_run demo_state [OpAlloc; OpAlloc]) /\
  in_blocks_range (st_pool s) 8008 = true /\
  on_block_boundary (st_pool s) 8008 = true /\
  mempool_block_index (st_pool s) 8008 = Some (index_of (st_pool s) 8008) /\
  index_of (st_pool s) 8008 / 8 < bitmap_bytes (st_pool s) /\
  exists r,
    mempool_free (Some (st_pool s)) 8008 (st_mem s) = Some r /\
    (r_err r = MEMPOOL_OK \/ r_err r = MEMPOOL_ERR_DOUBLE_FREE).
Proof.
  intros s.
  assert (Hrun : run demo_state [OpAlloc; OpAlloc]
                 = Some (s, responses_of_run demo_state [OpAlloc; OpAlloc])).
  { apply run_defined_eq. intros E. vm_compute in E. discriminate. }
  assert (Hr : in_blocks_range (st_pool s) 8008 = true)
    by (vm_compute; reflexivity).
  assert (Ha : on_block_boundary (st_pool s) 8008 = true)
    by (vm_compute; reflexivity).
  split; [exact demo_args_well_typed|].
  split; [exact demo_state_init_ok|].
  split; [exact Hrun|]. split; [exact Hr|]. split; [exact Ha|].
  exact (free_byte_index_below_bitmap_bytes demo_args demo_memory demo_state
           s [OpAlloc; OpAlloc] _ 8008 demo_args_well_typed
           demo_state_init_ok Hrun Hr Ha).
Defined.

(** ** Output parameters *)

(** C10.  A call of [mempool_alloc] that returns an error returns
    [NULL_POINTER], [NOT_INITIALIZED] or [OUT_OF_MEMORY] and leaves the
    caller's [*block] with the contents it had, whatever they were;
    [mempool_get_stats] stores into [*stats] exactly when it returns
    [MEMPOOL_OK], and then stores the pool's statistics. *)
Theorem outputs_written_only_on_success
    (pool : option mempool) (block : option Z)
    (stats_out : option mempool_stats_t) (m : memory) :
  (forall r,
      mempool_alloc pool block m = Some r ->
      r_err r <> MEMPOOL_OK ->
      r_out r = block /\
      (r_err r = MEMPOOL_ERR_NULL_PTR \/
       r_err r = MEMPOOL_ERR_NOT_INITIALIZED \/
       r_err r = MEMPOOL_ERR_OUT_OF_MEMORY)) /\
  (forall r,
      mempool_get_stats pool stats_out m = Some r ->
      (r_err r <> MEMPOOL_OK -> r_out r = stats_out) /\
      (r_err r = MEMPOOL_OK ->
       exists p, pool = Some p /\ r_out r = Some (stats p))).
Proof.
  split.
  - intros r H Herr. unfold mempool_alloc in H.
    destruct pool as [p|]; [|injection H as <-; split; auto].
    destruct block as [b|]; [|injection H as <-; split; auto].
    destruct (negb (initialized p)); [injection H as <-; split; auto|].
    destruct (free_list p =? 0); [injection H as <-; split; auto|].
    destruct (free_blocks p =? 0); [injection H as <-; split; auto|].
    cbv zeta in H.
    destruct (mempool_block_index _ _) as [idx|]; [|discriminate].
    cbn [bind] in H. injection H as <-. cbn [r_err] in Herr. contradiction.
  - intros r H. unfold mempool_get_stats in H.
    destruct pool as [p|];
      [|injection H as <-; split; [reflexivity|discriminate]].
    destruct stats_out as [st|];
      [|injection H as <-; split; [reflexivity|discriminate]].
    destruct (negb (initialized p));
      injection H as <-; cbn [r_err r_out].
    + split; [reflexivity|discriminate].
    + split; [intros Hne; contradiction|]. intros _. exists p.
      split; reflexivity.
Qed.

Lemma outputs_written_only_on_success_witness :
  (exists r,
      mempool_alloc (Some zero_pool) (Some 77) demo_memory = Some r /\
      r_err r = MEMPOOL_ERR_NOT_INITIALIZED /\ r_out r = Some 77) /\
  (exists r,
      mempool_get_stats (Some zero_pool) (Some (mk_stats 1 2 3 4 5 6 7))
        demo_memory = Some r /\
      r_err r = MEMPOOL_ERR_NOT_INITIALIZED /\
      r_out r = Some (mk_stats 1 2 3 4 5 6 7)).
Proof.
  destruct (outputs_written_only_on_success (Some zero_pool) (Some 77)
              (Some (mk_stats 1 2 3 4 5 6 7)) demo_memory) as [Ha Hg].
  split.
  - eexists. split; [reflexivity|]. split; [reflexivity|].
    apply Ha; [reflexivity|discriminate].
  - eexists. split; [reflexivity|]. split; [reflexivity|].
    apply Hg; [reflexivity|discriminate].
Defined.

(** ** The critical-section hook *)

Lemma critical_section_disabled (p : mempool) :
  sync_enabled p = false -> critical_section p = [].
Proof.
  intros H. unfold critical_section, mempool_internal_lock,
    mempool_internal_unlock. rewrite H. reflexivity.
Qed.

(** A call other than [set_sync] leaves the hook record alone and invokes
    nothing but the callbacks of its critical section. *)
Lemma step_hooks (s s' : state) (o : op) (rsp : response) :
  initialized (st_pool s) = true ->
  uses_critical_section o = true ->
  step s o = Some (s', rsp) ->
  sync (st_pool s') = sync (st_pool s) /\
  sync_enabled (st_pool s') = sync_enabled (st_pool s) /\
  (rsp_trace rsp = [] \/ rsp_trace rsp = critical_section (st_pool s)).
Proof.
  intros Hi Ho Hstep.
  destruct o as [|block| | |l u c]; [| | | |discriminate].
  - destruct (step_alloc s Hi) as [[_ H]|[(_ & _ & _ & H)|(_ & _ & _ & H)]];
      rewrite H in Hstep; try discriminate;
      injection Hstep as <- <-; repeat split; try reflexivity; right; reflexivity.
  - destruct (step_free s block Hi)
      as [[_ H]|[(_ & _ & [H|[H _]])|(_ & _ & _ & H)]];
      rewrite H in Hstep; try discriminate;
      try (injection Hstep as <- <-; repeat split; try reflexivity; left; reflexivity).
    destruct (bitmap_bytes (st_pool s) <=? index_of (st_pool s) block / 8);
      [injection Hstep as <- <-; repeat split; try reflexivity; right; reflexivity|].
    destruct (bit_set (st_pool s) (st_mem s) (index_of (st_pool s) block));
      injection Hstep as <- <-; repeat split; try reflexivity; right; reflexivity.
  - rewrite (step_reset s Hi) in Hstep. injection Hstep as <- <-.
    repeat split; try reflexivity; right; reflexivity.
  - rewrite (step_get_stats s Hi) in Hstep. injection Hstep as <- <-.
    repeat split; try reflexivity; right; reflexivity.
Qed.

Lemma run_without_hooks (os : list op) :
  forall (s s' : state) (rs : list response),
    initialized (st_pool s) = true ->
    sync_enabled (st_pool s) = false ->
    Forall (fun o => uses_critical_section o = true) os ->
    run s os = Some (s', rs) ->
    Forall (fun rsp => rsp_trace rsp = []) rs /\
    sync_enabled (st_pool s') = false /\
    sync (st_pool s') = sync (st_pool s).
Proof.
  induction os as [|o os IH]; intros s s' rs Hi Hen Hos Hrun.
  - injection Hrun as <- <-. split; [constructor|]. split; [exact Hen|reflexivity].
  - inversion Hos as [|o' os' Ho Hos']; subst.
    cbn [run] in Hrun.
    destruct (step s o) as [[s1 r1]|] eqn:Hstep; [|discriminate].
    cbn [bind fst snd] in Hrun.
    destruct (run s1 os) as [[s2 r2]|] eqn:Hrest; [|discriminate].
    cbn [bind fst snd] in Hrun. injection Hrun as <- <-.
    destruct (step_hooks s s1 o r1 Hi Ho Hstep) as (Hs & He & Ht).
    pose proof (step_geometry s s1 o r1 Hi Hstep)
      as (_ & _ & _ & _ & _ & _ & _ & Hi1).
    destruct (IH s1 s2 r2) as (Hrs & He2 & Hs2);
      [congruence|congruence|exact Hos'|exact Hrest|].
    split; [|split; congruence].
    constructor; [|exact Hrs].
    destruct Ht as [Ht|Ht]; [exact Ht|].
    rewrite Ht. apply critical_section_disabled. exact Hen.
Qed.

(** C8, as the code has it.  On every initialized pool, [set_sync] with a
    null lock callback or a null unlock callback returns [MEMPOOL_OK],
    invokes nothing, disables synchronization and overwrites the hook record
    with its three arguments as given (the callback that is not null is
    stored, not cleared); the calls of [alloc], [free], [reset] and
    [get_stats] that follow invoke no callback and leave that record and
    the disabled flag as they are. *)
Theorem set_sync_null_disables
    (s : state) (lock_fn unlock_fn ctx : Z) (os : list op) :
  initialized (st_pool s) = true ->
  lock_fn = 0 \/ unlock_fn = 0 ->
  Forall (fun o => uses_critical_section o = true) os ->
  exists s1,
    step s (OpSetSync lock_fn unlock_fn ctx)
    = Some (s1, mk_response MEMPOOL_OK None None []) /\
    sync_enabled (st_pool s1) = false /\
    sync (st_pool s1) = mk_sync lock_fn unlock_fn ctx /\
    st_mem s1 = st_mem s /\
    forall s2 rs,
      run s1 os = Some (s2, rs) ->
      Forall (fun rsp => rsp_trace rsp = []) rs /\
      sync_enabled (st_pool s2) = false /\
      sync (st_pool s2) = mk_sync lock_fn unlock_fn ctx.
Proof.
  intros Hi Hnull Hos.
  exists (mk_state
            (set_sync (st_pool s) (mk_sync lock_fn unlock_fn ctx)
               (negb (lock_fn =? 0) && negb (unlock_fn =? 0))) (st_mem s)).
  assert (Hen : negb (lock_fn =? 0) && negb (unlock_fn =? 0) = false).
  { destruct Hnull as [-> | ->]; [reflexivity|apply andb_false_r]. }
  split; [apply step_set_sync; exact Hi|].
  cbn [st_pool st_mem set_sync sync_enabled sync].
  split; [exact Hen|]. split; [reflexivity|]. split; [reflexivity|].
  intros s2 rs Hrun.
  apply (run_without_hooks os _ s2 rs) in Hrun;
    [exact Hrun|exact Hi|exact Hen|exact Hos].
Qed.

Lemma hooked_state_initialized : initialized (st_pool hooked_state) = true.
Proof. vm_compute. reflexivity. Defined.

Lemma set_sync_null_disables_witness :
  initialized (st_pool hooked_state) = true /\
  (0 = 0 \/ 2 = 0) /\
  Forall (fun o => uses_critical_section o = true)
    [OpAlloc; OpGetStats; OpFree 8072; OpReset] /\
  exists s1,
    step hooked_state (OpSetSync 0 2 3)
    = Some (s1, mk_response MEMPOOL_OK None None []) /\
    sync_enabled (st_pool s1) = false /\
    sync (st_pool s1) = mk_sync 0 2 3 /\
    st_mem s1 = st_mem hooked_state /\
    forall s2 rs,
      run s1 [OpAlloc; OpGetStats; OpFree 8072; OpReset] = Some (s2, rs) ->
      Forall (fun rsp => rsp_trace rsp = []) rs /\
      sync_enabled (st_pool s2) = false /\
      sync (st_pool s2) = mk_sync 0 2 3.
Proof.
  assert (Hos : Forall (fun o => uses_critical_section o = true)
                  [OpAlloc; OpGetStats; OpFree 8072; OpReset]).
  { repeat constructor. }
  split; [exact hooked_state_initialized|].
  split; [left; reflexivity|]. split; [exact Hos|].
  exact (set_sync_null_disables hooked_state 0 2 3
           [OpAlloc; OpGetStats; OpFree 8072; OpReset]
           hooked_state_initialized (or_introl eq_refl) Hos).
Defined.

(** C8, as the claim has it, fails: with the hooks (1, 2) installed,
    [set_sync] with a null lock and the same unlock callback 2 disables
    synchronization, but the hook record is not cleared: callback 2, which
    was installed before the call, is still in it. *)
Lemma set_sync_null_keeps_callback :
  lock (sync (st_pool hooked_state)) = 1 /\
  unlock (sync (st_pool hooked_state)) = 2 /\
  sync_enabled (st_pool hooked_state) = true /\
  exists r p',
    mempool_set_sync (Some (st_pool hooked_state)) 0 2 3
      (st_mem hooked_state) = Some r /\
    r_err r = MEMPOOL_OK /\ r_pool r = Some p' /\
    sync_enabled p' = false /\
    unlock (sync p') = unlock (sync (st_pool hooked_state)) /\
    ~ (lock (sync p') = 0 /\ unlock (sync p') = 0).
Proof.
  split; [reflexivity|]. split; [reflexivity|]. split; [reflexivity|].
  rewrite (set_sync_result _ 0 2 3 _ hooked_state_initialized).
  eexists. eexists. split; [reflexivity|].
  cbn [r_err r_pool]. split; [reflexivity|]. split; [reflexivity|].
  cbn [set_sync sync_enabled sync unlock lock].
  split; [reflexivity|]. split; [reflexivity|].
  intros [_ H]. discriminate.
Qed.

(** * The free list *)

(** ** Bytes stay bytes *)

Lemma store_byte_bytes (m : memory) (a v : Z) :
  byte_memory m -> byte_memory (store_byte m a v).
Proof.
  intros H x. unfold store_byte.
  destruct (x =? a); [apply uint8_t_range|apply H].
Qed.

Lemma store_bytes_bytes (n : nat) :
  forall (m : memory) (a v : Z),
    byte_memory m -> byte_memory (store_bytes n m a v).
Proof.
  induction n as [|n IH]; intros m a v H; cbn [store_bytes].
  - exact H.
  - apply IH. apply store_byte_bytes. exact H.
Qed.

Lemma memset_bytes (m : memory) (a c n : Z) :
  byte_memory m -> byte_memory (memset m a c n).
Proof.
  intros H x. unfold memset.
  destruct ((a <=? x) && (x <? a + n)); [apply uint8_t_range|apply H].
Qed.

Lemma load_bytes_range (n : nat) :
  forall (m : memory) (a : Z),
    byte_memory m -> 0 <= load_bytes n m a < 256 ^ Z.of_nat n.
Proof.
  induction n as [|n IH]; intros m a H.
  - cbn. lia.
  - cbn [load_bytes]. unfold load_byte.
    rewrite Nat2Z.inj_succ, Z.pow_succ_r by lia.
    pose proof (H a). pose proof (IH m (a + 1) H). lia.
Qed.

Lemma load_ptr_range (m : memory) (a : Z) :
  byte_memory m -> 0 <= load_ptr m a < 2 ^ 64.
Proof.
  intros H. unfold load_ptr.
  change (2 ^ 64) with (256 ^ Z.of_nat 8). apply load_bytes_range. exact H.
Qed.

Lemma build_free_list_bytes (count : nat) :
  forall (step cur prev : Z) (m : memory),
    byte_memory m ->
    byte_memory (snd (build_free_list count step cur prev m)).
Proof.
  induction count as [|count IH]; intros step cur prev m H.
  - exact H.
  - cbn [build_free_list]. apply IH. apply store_bytes_bytes. exact H.
Qed.

Lemma build_free_list_head (count : nat) :
  forall (step cur prev : Z) (m : memory),
    0 <= prev < 2 ^ 64 -> 0 <= cur < 2 ^ 64 ->
    0 <= fst (build_free_list count step cur prev m) < 2 ^ 64.
Proof.
  induction count as [|count IH]; intros step cur prev m Hp Hc.
  - exact Hp.
  - cbn [build_free_list]. apply IH; [exact Hc|apply size_t_range].
Qed.

Lemma step_typed (s s' : state) (o : op) (rsp : response) :
  counters_ok s -> typed_state s ->
  step s o = Some (s', rsp) -> typed_state s'.
Proof.
  intros Hc [Hm Hf] Hstep.
  assert (Hi : initialized (st_pool s) = true) by apply Hc.
  assert (Hshape : shape_ok (st_pool s)) by apply Hc.
  destruct o as [|block| | |l u c].
  - destruct (step_alloc s Hi) as [[_ H]|[(_ & _ & _ & H)|(_ & _ & _ & H)]];
      rewrite H in Hstep; try discriminate; injection Hstep as <- _.
    + split; assumption.
    + split; cbn [st_mem st_pool pool_after_alloc free_list].
      * unfold mem_after_alloc.
        destruct (_ <? _); [apply store_byte_bytes|]; exact Hm.
      * apply load_ptr_range. exact Hm.
  - destruct (step_free s block Hi)
      as [[_ H]|[(_ & _ & [H|[H _]])|(_ & Hr & Ha & H)]];
      rewrite H in Hstep; try discriminate;
      try (injection Hstep as <- _; split; assumption).
    destruct (bitmap_bytes (st_pool s) <=? index_of (st_pool s) block / 8);
      [injection Hstep as <- _; split; assumption|].
    destruct (bit_set (st_pool s) (st_mem s) (index_of (st_pool s) block));
      injection Hstep as <- _; [|split; assumption].
    split; cbn [st_mem st_pool pool_after_free free_list].
    + unfold mem_after_free. apply store_byte_bytes.
      apply store_bytes_bytes. exact Hm.
    + destruct (checked_index (st_pool s) block Hshape Hr Ha)
        as (Hpos & Hidx & _ & Haddr).
      pose proof (shape_blocks_start _ Hshape) as (_ & _ & Hbs).
      destruct Hshape as (_ & _ & _ & _ & _ & _ & Hend).
      unfold SIZE_MAX, block_addr in *. nia.
  - rewrite (step_reset s Hi) in Hstep. injection Hstep as <- _.
    pose proof (shape_blocks_start _ Hshape) as (_ & _ & Hbs).
    destruct Hshape as (_ & Ht & Hb & _ & _ & _ & Hend).
    unfold SIZE_MAX in Hend.
    split; cbn [st_mem st_pool pool_after_reset free_list].
    + unfold mem_after_reset. apply build_free_list_bytes.
      apply memset_bytes. exact Hm.
    + apply build_free_list_head; nia.
  - rewrite (step_get_stats s Hi) in Hstep. injection Hstep as <- _.
    split; assumption.
  - rewrite (step_set_sync s l u c Hi) in Hstep. injection Hstep as <- _.
    split; assumption.
Qed.

Lemma run_typed (os : list op) :
  forall (s s' : state) (rs : list response),
    counters_ok s -> typed_state s ->
    run s os = Some (s', rs) -> typed_state s'.
Proof.
  induction os as [|o os IH]; intros s s' rs Hc Ht Hrun.
  - injection Hrun as <- _. exact Ht.
  - cbn [run] in Hrun.
    destruct (step s o) as [[s1 r1]|] eqn:Hstep; [|discriminate].
    cbn [bind fst snd] in Hrun.
    destruct (run s1 os) as [[s2 r2]|] eqn:Hrest; [|discriminate].
    cbn [bind fst snd] in Hrun. injection Hrun as <- _.
    apply (IH s1 s2 r2); [| |exact Hrest].
    + apply (step_counters_ok s s1 o r1); assumption.
    + apply (step_typed s s1 o r1); assumption.
Qed.

Lemma init_typed (a : init_args) (m : memory) (s : state) :
  well_typed_args a -> byte_memory m -> init_ok a m s -> typed_state s.
Proof.
  intros Hwt Hm Hok.
  destruct (init_ok_facts a m s Hwt Hok)
    as (k & n & Hk & Hak & HA8 & HAa & HAmax & Hn & Hfit & _ & Hpb & Hs).
  rewrite Hs. unfold init_pool_of, typed_state.
  cbn [st_mem st_pool free_list]. split.
  - apply build_free_list_bytes. apply memset_bytes. exact Hm.
  - apply build_free_list_head; [lia|apply size_t_range].
Qed.

(** ** Blocks of a pool whose block size holds a link *)

Lemma block_addr_bounds (p : mempool) (i : Z) :
  shape_ok p -> 0 <= i < total_blocks p ->
  blocks_start p <= block_addr p i /\
  block_addr p i + block_size p
  <= blocks_start p + total_blocks p * block_size p /\
  0 < block_addr p i < 2 ^ 64.
Proof.
  intros Hs Hi. pose proof (shape_blocks_start p Hs) as (_ & _ & Hbs).
  destruct Hs as (_ & Ht & Hb & _ & _ & _ & Hend).
  unfold block_addr, SIZE_MAX in *. nia.
Qed.

Lemma block_addr_apart (p : mempool) (i j : Z) :
  sizeof_free_node_t <= block_size p -> i <> j ->
  block_addr p i + 8 <= block_addr p j \/
  block_addr p j + 8 <= block_addr p i.
Proof.
  unfold block_addr, sizeof_free_node_t. intros Hb Hne. nia.
Qed.

Lemma block_addr_checked (p : mempool) (i : Z) :
  shape_ok p -> 0 < block_size p -> 0 <= i < total_blocks p ->
  in_blocks_range p (block_addr p i) = true /\
  on_block_boundary p (block_addr p i) = true /\
  index_of p (block_addr p i) = i.
Proof.
  intros Hs Hpos Hi.
  pose proof (block_addr_bounds p i Hs Hi) as (Hlo & Hhi & Hty).
  pose proof (shape_blocks_start p Hs) as (_ & _ & Hbs).
  destruct Hs as (_ & Ht & Hb & _ & _ & _ & Hend). unfold SIZE_MAX in Hend.
  assert (HT : 0 <= total_blocks p * block_size p) by nia.
  assert (Hoff : block_addr p i - blocks_start p = i * block_size p)
    by (unfold block_addr; ring).
  split; [|split].
  - unfold in_blocks_range.
    rewrite (size_t_small (total_blocks p * block_size p)) by lia.
    rewrite size_t_small by lia.
    apply negb_true_iff, orb_false_iff. split.
    + apply Z.ltb_ge. lia.
    + apply Z.leb_gt. lia.
  - unfold on_block_boundary, umod.
    assert (E : (block_size p =? 0) = false) by (apply Z.eqb_neq; lia).
    rewrite E, Hoff. rewrite size_t_small by nia.
    rewrite Z.mod_mul by lia. reflexivity.
  - unfold index_of. rewrite Hoff. rewrite size_t_small by nia.
    rewrite Z.div_mul by lia. apply uint32_t_small. lia.
Qed.

(** ** Linked lists in memory *)

Lemma lseg_frame (m m' : memory) (l : list Z) :
  forall ptr,
    (forall a x, In a l -> a <= x < a + 8 -> m' x = m x) ->
    lseg m ptr l -> lseg m' ptr l.
Proof.
  induction l as [|a l IH]; intros ptr Hf H; cbn [lseg] in *.
  - exact H.
  - destruct H as (Hp & Hnz & Hrest). split; [exact Hp|].
    split; [exact Hnz|].
    rewrite (load_ptr_ext m m' a).
    + apply IH; [|exact Hrest]. intros b x Hb Hx.
      apply (Hf b x); [right; exact Hb|exact Hx].
    + intros x Hx. apply (Hf a x); [left; reflexivity|exact Hx].
Qed.

Lemma lseg_walk (m : memory) (l : list Z) :
  forall (ptr : Z) (fuel : nat),
    lseg m ptr l -> (length l < fuel)%nat -> walk fuel m ptr = l.
Proof.
  induction l as [|a l IH]; intros ptr fuel H Hlen; cbn [lseg] in H.
  - subst ptr. destruct fuel; [cbn in Hlen; lia|]. reflexivity.
  - destruct H as (-> & Hnz & Hrest).
    destruct fuel as [|fuel]; [cbn in Hlen; lia|].
    cbn [walk]. apply Z.eqb_neq in Hnz. rewrite Hnz. f_equal.
    apply IH; [exact Hrest|]. cbn [length] in Hlen. lia.
Qed.

Lemma lseg_head_typed (p : mempool) (m : memory) (idxs : list Z) :
  shape_ok p ->
  (forall i, In i idxs -> 0 <= i < total_blocks p) ->
  lseg m (free_list p) (map (block_addr p) idxs) ->
  0 <= free_list p < 2 ^ 64.
Proof.
  intros Hs Hin H. destruct idxs as [|i idxs]; cbn [map lseg] in H.
  - rewrite H. lia.
  - destruct H as (-> & _ & _).
    pose proof (block_addr_bounds p i Hs (Hin i (or_introl eq_refl))). lia.
Qed.

Lemma down_In (k : nat) (i : Z) : In i (down k) <-> 0 <= i < Z.of_nat k.
Proof.
  induction k as [|k IH]; cbn [down In].
  - lia.
  - rewrite IH. lia.
Qed.

Lemma down_NoDup (k : nat) : NoDup (down k).
Proof.
  induction k as [|k IH]; cbn [down]; constructor.
  - rewrite down_In. lia.
  - exact IH.
Qed.

Lemma down_length (k : nat) : length (down k) = k.
Proof. induction k as [|k IH]; cbn [down length]; congruence. Qed.

(** The loop threads the blocks [k .. k + count - 1] in front of a list that
    already holds the blocks below [k]. *)
Lemma build_free_list_lseg (start step : Z) (count : nat) :
  8 <= step -> 0 < start ->
  forall (k : nat) (m : memory),
    start + Z.of_nat (k + count) * step <= SIZE_MAX ->
    let addr := fun i => start + i * step in
    lseg m (hd 0 (map addr (down k))) (map addr (down k)) ->
    let r := build_free_list count step (addr (Z.of_nat k))
               (hd 0 (map addr (down k))) m in
    fst r = hd 0 (map addr (down (k + count))) /\
    lseg (snd r) (fst r) (map addr (down (k + count))).
Proof.
  intros Hstep Hstart. induction count as [|count IH];
    intros k m Hend addr Hl.
  - rewrite Nat.add_0_r. cbn [build_free_list fst snd]. split;
      [reflexivity|exact Hl].
  - cbn [build_free_list]. unfold SIZE_MAX in Hend.
    assert (Hnext : size_t (addr (Z.of_nat k) + step)
                    = addr (Z.of_nat (S k))).
    { unfold addr. rewrite size_t_small by nia. lia. }
    rewrite Hnext.
    assert (Hprev : hd 0 (map addr (down (S k))) = addr (Z.of_nat k))
      by reflexivity.
    rewrite <- Hprev.
    replace (k + S count)%nat with (S k + count)%nat by lia.
    apply IH.
    + unfold SIZE_MAX. lia.
    + cbn [down map hd lseg]. split; [reflexivity|]. split.
      { unfold addr. nia. }
      assert (Hty : 0 <= hd 0 (map addr (down k)) < 2 ^ 64).
      { destruct k as [|k']; cbn [down map hd]; [lia|]. unfold addr. nia. }
      rewrite load_store_ptr_same by exact Hty.
      apply (lseg_frame m); [|exact Hl].
      intros a x Ha Hx. apply in_map_iff in Ha.
      destruct Ha as (j & <- & Hj). apply down_In in Hj.
      apply store_ptr_outside. left. unfold addr in *. nia.
Qed.

(** ** The representation invariant is kept *)

Lemma pool_inv_alloc (s : state) (idxs : list Z) :
  counters_ok s -> sizeof_free_node_t <= block_size (st_pool s) ->
  free_list_is s idxs ->
  free_list (st_pool s) <> 0 ->
  exists i rest,
    idxs = i :: rest /\
    free_list (st_pool s) = block_addr (st_pool s) i /\
    index_of (st_pool s) (free_list (st_pool s)) = i /\
    0 <= i < total_blocks (st_pool s) /\
    free_blocks (st_pool s) <> 0 /\
    free_list_is
      (mk_state (pool_after_alloc (st_pool s) (st_mem s))
         (mem_after_alloc (st_pool s) (st_mem s) i)) rest.
Proof.
  destruct s as [p m]. cbn [st_pool st_mem].
  intros Hc Hb8 (Hl & Hnd & Hrange & Hlen & Hbits) Hnz.
  cbn [st_pool st_mem] in *.
  assert (Hshape : shape_ok p) by apply Hc.
  unfold sizeof_free_node_t in Hb8.
  destruct idxs as [|i rest]; cbn [map lseg] in Hl; [contradiction|].
  destruct Hl as (Hhead & _ & Hrest).
  assert (Hi : 0 <= i < total_blocks p) by (apply Hrange; left; reflexivity).
  destruct (block_addr_checked p i Hshape ltac:(lia) Hi) as (_ & _ & Hidx).
  exists i, rest. split; [reflexivity|]. split; [exact Hhead|].
  split; [rewrite Hhead; exact Hidx|]. split; [exact Hi|].
  split; [cbn [length] in Hlen; lia|].
  inversion Hnd as [|i' rest' Hnotin Hnd']; subst i' rest'.
  pose proof (index_byte_in_bitmap p i Hshape Hi) as Hbyte.
  pose proof (shape_blocks_start p Hshape) as (Hbb & _ & _).
  assert (Hmem : mem_after_alloc p m i
                 = store_byte m (bitmap p + i / 8)
                     (uint8_t (Z.lor (load_byte m (bitmap p + i / 8))
                                 (uint8_t (Z.shiftl 1 (i mod 8)))))).
  { unfold mem_after_alloc.
    assert (E : (i / 8 <? bitmap_bytes p) = true).
    { apply Z.ltb_lt. destruct Hshape as (_ & _ & _ & Hbm & _).
      rewrite Hbm. apply bitmap_bytes_bound. exact Hi. }
    rewrite E. reflexivity. }
  unfold free_list_is. cbn [st_pool st_mem].
  change (block_addr (pool_after_alloc p m)) with (block_addr p).
  cbn [pool_after_alloc free_list total_blocks free_blocks].
  split; [|split; [exact Hnd'|split; [|split]]].
  - rewrite Hhead. apply (lseg_frame m); [|exact Hrest].
    intros a x Ha Hx. apply in_map_iff in Ha. destruct Ha as (j & <- & Hj).
    rewrite Hmem. apply store_byte_other.
    pose proof (block_addr_bounds p j Hshape
                  (Hrange j (or_intror Hj))). lia.
  - intros j Hj. apply Hrange. right. exact Hj.
  - assert (Hf : 1 <= free_blocks p <= UINT32_MAX).
    { destruct Hshape as (_ & Ht & _). destruct Hc as (_ & Hf0 & Hcnt & _).
      cbn [st_pool st_mem] in *.
      pose proof (count_allocated_bounds p m ltac:(lia)).
      cbn [length] in Hlen. lia. }
    rewrite uint32_t_small by lia. cbn [length] in Hlen. lia.
  - intros j Hj.
    rewrite (bit_set_fields p (pool_after_alloc p m)) by reflexivity.
    rewrite Hmem, bit_set_after_set.
    destruct (Z.eqb_spec j i) as [->|Hne].
    + rewrite orb_true_r. split; [intros _; exact Hnotin|reflexivity].
    + rewrite orb_false_r. rewrite (Hbits j Hj). cbn [In]. intuition.
Qed.

Lemma pool_inv_free (s : state) (idxs : list Z) (block : Z) :
  counters_ok s -> sizeof_free_node_t <= block_size (st_pool s) ->
  free_list_is s idxs ->
  in_blocks_range (st_pool s) block = true ->
  on_block_boundary (st_pool s) block = true ->
  bit_set (st_pool s) (st_mem s) (index_of (st_pool s) block) = true ->
  free_list_is
    (mk_state (pool_after_free (st_pool s) block)
       (mem_after_free (st_pool s) (st_mem s) block
          (index_of (st_pool s) block)))
    (index_of (st_pool s) block :: idxs).
Proof.
  destruct s as [p m]. cbn [st_pool st_mem].
  intros Hc Hb8 (Hl & Hnd & Hrange & Hlen & Hbits) Hr Ha Hbit.
  cbn [st_pool st_mem] in *.
  assert (Hshape : shape_ok p) by apply Hc.
  unfold sizeof_free_node_t in Hb8.
  set (idx := index_of p block) in *.
  destruct (checked_index p block Hshape Hr Ha)
    as (Hpos & Hidx & Hbyte & Haddr). fold idx in Hidx, Hbyte, Haddr.
  assert (Hnotin : ~ In idx idxs) by (apply Hbits; assumption).
  destruct (counters_after_free (mk_state p m) block Hc Hr Ha Hbit)
    as [Hlt _]. cbn [st_pool] in Hlt.
  pose proof (block_addr_bounds p idx Hshape Hidx) as (Hlo & _ & Hty).
  pose proof (shape_blocks_start p Hshape) as (Hbb & _ & _).
  pose proof (index_byte_in_bitmap p idx Hshape Hidx) as Hbi.
  pose proof (lseg_head_typed p m idxs Hshape Hrange Hl) as Hhead.
  unfold free_list_is. cbn [st_pool st_mem].
  change (block_addr (pool_after_free p block)) with (block_addr p).
  cbn [pool_after_free free_list total_blocks free_blocks].
  split; [|split; [|split; [|split]]].
  - cbn [map lseg]. rewrite <- Haddr. split; [reflexivity|].
    split; [lia|]. unfold mem_after_free.
    rewrite load_ptr_store_byte by lia.
    rewrite load_store_ptr_same by exact Hhead.
    apply (lseg_frame m); [|exact Hl].
    intros a x Hain Hx. apply in_map_iff in Hain.
    destruct Hain as (j & <- & Hj).
    pose proof (block_addr_bounds p j Hshape (Hrange j Hj)) as (Hjlo & _).
    rewrite store_byte_other by lia.
    apply store_ptr_outside.
    assert (Hne : j <> idx) by (intros ->; contradiction).
    pose proof (block_addr_apart p j idx Hb8 Hne). lia.
  - constructor; assumption.
  - intros j [<-|Hj]; [exact Hidx|apply Hrange; exact Hj].
  - apply Z.ltb_lt in Hlt. rewrite Hlt. apply Z.ltb_lt in Hlt.
    rewrite uint32_t_small.
    + cbn [length]. lia.
    + destruct Hshape as (_ & Ht & _). lia.
  - intros j Hj.
    rewrite (bit_set_fields p (pool_after_free p block)) by reflexivity.
    unfold mem_after_free. rewrite bit_set_after_clear.
    + destruct (Z.eqb_spec j idx) as [->|Hne].
      * rewrite andb_false_r. cbn [In]. split; [discriminate|].
        intros H. exfalso. apply H. left. reflexivity.
      * rewrite andb_true_r. rewrite (Hbits j Hj). cbn [In]. intuition.
    + intros x Hx. apply store_ptr_outside. lia.
    + apply index_byte_in_bitmap; assumption.
Qed.

(** The free list that [init] and [reset] build. *)
Lemma fresh_free_list (p : mempool) (m : memory) :
  shape_ok p -> sizeof_free_node_t <= block_size p ->
  free_blocks p = total_blocks p ->
  let r := build_free_list (Z.to_nat (total_blocks p)) (block_size p)
             (blocks_start p) 0
             (memset m (bitmap p) 0 (bitmap_bytes p)) in
  free_list p = fst r ->
  free_list_is (mk_state p (snd r)) (down (Z.to_nat (total_blocks p))).
Proof.
  intros Hshape Hb8 Hfree r Hhead. unfold sizeof_free_node_t in Hb8.
  pose proof (shape_blocks_start p Hshape) as (Hbb & _ & Hbs).
  pose proof Hshape as (_ & Ht & Hb & Hbm & Hbp & _ & Hend).
  destruct (build_free_list_lseg (blocks_start p) (block_size p)
              (Z.to_nat (total_blocks p)) Hb8 Hbs 0
              (memset m (bitmap p) 0 (bitmap_bytes p)))
    as [Hfst Hl].
  { cbn [Nat.add]. rewrite Z2Nat.id by lia. exact Hend. }
  { reflexivity. }
  cbn [Nat.add Z.of_nat] in Hfst, Hl.
  replace (blocks_start p + 0 * block_size p) with (blocks_start p)
    in Hfst, Hl by ring.
  fold r in Hfst, Hl.
  unfold free_list_is. cbn [st_pool st_mem].
  split; [|split; [|split; [|split]]].
  - rewrite Hhead. exact Hl.
  - apply down_NoDup.
  - intros i Hi. apply down_In in Hi. lia.
  - rewrite down_length, Hfree. lia.
  - intros i Hi.
    rewrite (bits_clear_after_memset p m (snd r) i Hshape Hi).
    + split; [discriminate|]. intros H. exfalso. apply H.
      apply down_In. lia.
    + intros x Hx. unfold r. apply build_free_list_below; try lia.
Qed.

Lemma pool_inv_reset (s : state) :
  counters_ok s -> sizeof_free_node_t <= block_size (st_pool s) ->
  free_list_is
    (mk_state (pool_after_reset (st_pool s) (st_mem s))
       (mem_after_reset (st_pool s) (st_mem s)))
    (down (Z.to_nat (total_blocks (st_pool s)))).
Proof.
  destruct s as [p m]. cbn [st_pool st_mem]. intros Hc Hb8.
  assert (Hshape : shape_ok p) by apply Hc.
  apply (fresh_free_list (pool_after_reset p m) m); try reflexivity.
  - exact Hshape.
  - exact Hb8.
Qed.

(** Every call keeps the representation invariant. *)
Lemma step_pool_inv (s s' : state) (o : op) (rsp : response) :
  pool_inv s -> step s o = Some (s', rsp) -> pool_inv s'.
Proof.
  intros (Hc & Hb8 & idxs & Hfl) Hstep.
  pose proof (step_counters_ok s s' o rsp Hc Hstep) as Hc'.
  assert (Hi : initialized (st_pool s) = true) by apply Hc.
  pose proof (step_geometry s s' o rsp Hi Hstep)
    as (_ & _ & _ & _ & Hbs & _).
  split; [exact Hc'|]. split; [congruence|].
  destruct o as [|block| | |l u c].
  - destruct (step_alloc s Hi) as [[_ H]|[(_ & _ & _ & H)|(H1 & H2 & _ & H)]];
      rewrite H in Hstep; try discriminate; injection Hstep as <- _.
    + exists idxs. exact Hfl.
    + destruct (pool_inv_alloc s idxs Hc Hb8 Hfl H1)
        as (i & rest & _ & _ & Hidx & _ & _ & Hrest).
      exists rest. rewrite Hidx. exact Hrest.
  - destruct (step_free s block Hi)
      as [[_ H]|[(_ & _ & [H|[H _]])|(_ & Hr & Ha & H)]];
      rewrite H in Hstep; try discriminate;
      try (injection Hstep as <- _; exists idxs; exact Hfl).
    destruct (bitmap_bytes (st_pool s) <=? index_of (st_pool s) block / 8);
      [injection Hstep as <- _; exists idxs; exact Hfl|].
    destruct (bit_set (st_pool s) (st_mem s) (index_of (st_pool s) block))
      eqn:Hbit; injection Hstep as <- _; [|exists idxs; exact Hfl].
    exists (index_of (st_pool s) block :: idxs).
    apply pool_inv_free; assumption.
  - rewrite (step_reset s Hi) in Hstep. injection Hstep as <- _.
    exists (down (Z.to_nat (total_blocks (st_pool s)))).
    apply pool_inv_reset; assumption.
  - rewrite (step_get_stats s Hi) in Hstep. injection Hstep as <- _.
    exists idxs. exact Hfl.
  - rewrite (step_set_sync s l u c Hi) in Hstep. injection Hstep as <- _.
    exists idxs. destruct s as [p m]. exact Hfl.
Qed.

Lemma run_pool_inv (os : list op) :
  forall (s s' : state) (rs : list response),
    pool_inv s -> run s os = Some (s', rs) -> pool_inv s'.
Proof.
  induction os as [|o os IH]; intros s s' rs Hc Hrun.
  - injection Hrun as <- _. exact Hc.
  - cbn [run] in Hrun.
    destruct (step s o) as [[s1 r1]|] eqn:Hstep; [|discriminate].
    cbn [bind fst snd] in Hrun.
    destruct (run s1 os) as [[s2 r2]|] eqn:Hrest; [|discriminate].
    cbn [bind fst snd] in Hrun. injection Hrun as <- _.
    apply (IH s1 s2 r2); [|exact Hrest].
    apply (step_pool_inv s s1 o r1); assumption.
Qed.

(** [init] establishes it when the aligned block size fits the 32-bit
    [block_size] field. *)
Lemma init_pool_inv (a : init_args) (m : memory) (s : state) :
  well_typed_args a -> init_ok a m s ->
  align_up (a_block_size a) (a_alignment a) <= UINT32_MAX ->
  pool_inv s /\
  free_list_is s (down (Z.to_nat (total_blocks (st_pool s)))) /\
  block_size (st_pool s) = align_up (a_block_size a) (a_alignment a).
Proof.
  intros Hwt Hok Hfit.
  pose proof (init_counters_ok a m s Hwt Hok) as Hc.
  destruct (init_ok_facts a m s Hwt Hok)
    as (k & n & Hk & Hak & HA8 & HAa & HAmax & Hn & Hreq & _ & Hpb & Hs).
  set (A := spec_aligned_block_size (a_block_size a) (2 ^ k)) in *.
  assert (HA : align_up (a_block_size a) (a_alignment a) = A).
  { pose proof Hwt as (_ & _ & _ & _ & Hbs & _).
    unfold is_size_t, SIZE_MAX in Hbs.
    assert (Hp : 0 < 2 ^ k) by (apply Z.pow_pos_nonneg; lia).
    destruct (Z_lt_ge_dec (a_block_size a + 2 ^ k - 1) (2 ^ 64)) as [H|H].
    - rewrite Hak. apply align_up_spec; lia.
    - exfalso.
      pose proof (spec_aligned_range (a_block_size a) (2 ^ k) Hp) as Hr.
      fold A in Hr. unfold SIZE_MAX in HAmax.
      assert (Hbig : 2 ^ 64 <= A + 2 ^ k - 1).
      { unfold A, spec_aligned_block_size.
        pose proof (Z.div_mod (a_block_size a + 2 ^ k - 1) (2 ^ k)
                      ltac:(lia)) as Hdm.
        pose proof (Z.mod_pos_bound (a_block_size a + 2 ^ k - 1) (2 ^ k) Hp).
        nia. }
      rewrite Hak in Hfit. rewrite align_up_wraps in Hfit by lia.
      destruct Hok as (r & Hinit & Herr & _).
      destruct (init_checks a) as [e|] eqn:Hchk.
      + rewrite (init_rejected a m e Hchk) in Hinit.
        injection Hinit as <-. cbn [r_err] in Herr. subst e.
        unfold init_checks in Hchk.
        repeat match type of Hchk with
               | (if ?c then _ else _) = _ => destruct c; try discriminate
               end.
      + rewrite (init_searched a m Hchk) in Hinit. cbv zeta in Hinit.
        rewrite Hak in Hinit. rewrite align_up_wraps in Hinit by lia.
        discriminate. }
  rewrite HA in *.
  assert (Hbsz : block_size (st_pool s) = A).
  { rewrite Hs. unfold init_pool_of. cbn [st_pool block_size].
    apply uint32_t_small. lia. }
  assert (Hfl : free_list_is s (down (Z.to_nat (total_blocks (st_pool s))))).
  { assert (Hshape : shape_ok (st_pool s)) by apply Hc.
    assert (Hb8 : sizeof_free_node_t <= block_size (st_pool s))
      by (rewrite Hbsz; exact HA8).
    pose proof (fresh_free_list (st_pool s) m Hshape Hb8) as Hfresh.
    revert Hfresh. rewrite Hs. unfold init_pool_of.
    cbn [l_n l_bitmap_bytes l_blocks_offset st_pool st_mem].
    cbn [free_blocks total_blocks block_size blocks_start bitmap
         bitmap_bytes free_list].
    rewrite (uint32_t_small A) by lia.
    rewrite (uint32_t_small (spec_bitmap_bytes n)).
    2:{ pose proof (spec_bitmap_bytes_range n ltac:(lia)). lia. }
    intros Hfresh. apply Hfresh; reflexivity. }
  split; [|split; [exact Hfl|exact Hbsz]].
  split; [exact Hc|]. split; [rewrite Hbsz; exact HA8|].
  exists (down (Z.to_nat (total_blocks (st_pool s)))). exact Hfl.
Qed.

(** ** The free list as the walk sees it *)

Lemma block_addr_inj (p : mempool) (i j : Z) :
  0 < block_size p -> block_addr p i = block_addr p j -> i = j.
Proof. unfold block_addr. intros Hb H. nia. Qed.

Lemma In_block_addr (p : mempool) (idxs : list Z) (i : Z) :
  0 < block_size p ->
  (In (block_addr p i) (map (block_addr p) idxs) <-> In i idxs).
Proof.
  intros Hb. rewrite in_map_iff. split.
  - intros (j & Hj & Hin). apply (block_addr_inj p j i Hb) in Hj.
    subst j. exact Hin.
  - intros H. exists i. split; [reflexivity|exact H].
Qed.

Lemma free_list_nodes_of (s : state) (idxs : list Z) :
  counters_ok s -> free_list_is s idxs ->
  free_list_nodes s = map (block_addr (st_pool s)) idxs.
Proof.
  intros Hc (Hl & Hnd & Hrange & Hlen & Hbits).
  unfold free_list_nodes. apply lseg_walk; [exact Hl|].
  rewrite length_map.
  destruct Hc as (Hshape & Hf0 & Hcnt & _).
  destruct Hshape as (_ & Ht & _).
  pose proof (count_allocated_bounds (st_pool s) (st_mem s) ltac:(lia)).
  lia.
Qed.

(** What the representation invariant says about the walk. *)
Lemma pool_inv_free_list (s : state) :
  pool_inv s ->
  let p := st_pool s in
  let l := free_list_nodes s in
  (forall i, 0 <= i < total_blocks p ->
     (bit_set p (st_mem s) i = true <-> ~ In (block_addr p i) l)) /\
  Z.of_nat (length l) = free_blocks p /\
  NoDup l /\
  (forall a, In a l -> exists i, 0 <= i < total_blocks p /\
                                 a = block_addr p i).
Proof.
  intros (Hc & Hb8 & idxs & Hfl) p l.
  pose proof (free_list_nodes_of s idxs Hc Hfl) as Hnodes.
  fold p l in Hnodes. unfold sizeof_free_node_t in Hb8. fold p in Hb8.
  destruct Hfl as (Hl & Hnd & Hrange & Hlen & Hbits). fold p in Hbits, Hlen.
  rewrite Hnodes. split; [|split; [|split]].
  - intros i Hi. rewrite In_block_addr by lia. apply Hbits. exact Hi.
  - rewrite length_map. exact Hlen.
  - apply NoDup_map_NoDup_ForallPairs; [|exact Hnd].
    intros i j _ _ H. apply (block_addr_inj p i j); [lia|exact H].
  - intros a Ha. apply in_map_iff in Ha. destruct Ha as (i & <- & Hi).
    exists i. split; [apply Hrange; exact Hi|reflexivity].
Qed.

(** ** Allocations follow the free list *)

Lemma allocs_follow_list (pre : list Z) :
  forall (s : state) (rest : list Z),
    counters_ok s -> sizeof_free_node_t <= block_size (st_pool s) ->
    free_list_is s (pre ++ rest) ->
    exists s' rs,
      run s (repeat OpAlloc (length pre)) = Some (s', rs) /\
      map rsp_err rs = repeat MEMPOOL_OK (length pre) /\
      map rsp_block rs = map (fun i => Some (block_addr (st_pool s) i)) pre /\
      counters_ok s' /\ free_list_is s' rest /\
      same_geometry (st_pool s) (st_pool s') /\
      (forall i, In i pre -> bit_set (st_pool s') (st_mem s') i = true).
Proof.
  induction pre as [|i pre IH]; intros s rest Hc Hb8 Hfl.
  - exists s, []. cbn [length repeat run map app] in *.
    split; [reflexivity|]. split; [reflexivity|]. split; [reflexivity|].
    split; [exact Hc|]. split; [exact Hfl|].
    split; [apply same_geometry_refl|]. intros i [].
  - cbn [app] in Hfl.
    assert (Hi : initialized (st_pool s) = true) by apply Hc.
    assert (Hnz : free_list (st_pool s) <> 0).
    { destruct Hfl as (Hl & _). cbn [map lseg] in Hl.
      destruct Hl as (-> & Hnz & _). exact Hnz. }
    destruct (pool_inv_alloc s (i :: pre ++ rest) Hc Hb8 Hfl Hnz)
      as (i' & rest' & Heq & Hhead & Hidx & Hir & Hfb & Hrest).
    injection Heq as <- <-.
    destruct (step_alloc s Hi)
      as [[[H|H] _]|[(_ & _ & Hz & _)|(_ & _ & _ & Hstep)]];
      try contradiction.
    { unfold sizeof_free_node_t in Hb8. lia. }
    rewrite Hidx in Hstep.
    set (s1 := mk_state (pool_after_alloc (st_pool s) (st_mem s))
                 (mem_after_alloc (st_pool s) (st_mem s) i)) in *.
    assert (Hc1 : counters_ok s1).
    { pose proof (counters_after_alloc s Hc Hnz Hfb) as H.
      rewrite Hidx in H. exact H. }
    destruct (IH s1 rest Hc1 Hb8 Hrest)
      as (s' & rs & Hrun & Herr & Hblk & Hc' & Hfl' & Hgeo & Hbits).
    exists s', (mk_response MEMPOOL_OK (Some (free_list (st_pool s))) None
                  (critical_section (st_pool s)) :: rs).
    cbn [length repeat run]. rewrite Hstep. cbn [bind fst snd].
    rewrite Hrun. cbn [bind fst snd map rsp_err rsp_block].
    split; [reflexivity|]. split; [rewrite Herr; reflexivity|].
    split; [rewrite Hblk, Hhead; reflexivity|].
    split; [exact Hc'|]. split; [exact Hfl'|]. split; [exact Hgeo|].
    intros j [<-|Hj]; [|apply Hbits; exact Hj].
    destruct Hfl' as (_ & _ & Hrange' & _ & Hbits').
    destruct Hgeo as (_ & _ & _ & _ & _ & Htot & _).
    cbn [s1 st_pool pool_after_alloc total_blocks] in Htot.
    apply Hbits'; [rewrite Htot; exact Hir|].
    destruct Hfl as (_ & Hnd & _). inversion Hnd as [|x l Hnotin Hnd'].
    subst. intros Hin. apply Hnotin. apply in_or_app. right. exact Hin.
Qed.

(** ** What [mempool_free] does to a block that passes its checks *)

Lemma same_geometry_checks (p p' : mempool) (block : Z) :
  same_geometry p p' ->
  in_blocks_range p' block = in_blocks_range p block /\
  on_block_boundary p' block = on_block_boundary p block /\
  index_of p' block = index_of p block.
Proof.
  intros (_ & Hbs & _ & _ & Hsz & Ht & _).
  unfold in_blocks_range, on_block_boundary, index_of.
  rewrite Hbs, Hsz, Ht. repeat split.
Qed.

Lemma critical_section_fields (p p' : mempool) :
  sync p' = sync p -> sync_enabled p' = sync_enabled p ->
  critical_section p' = critical_section p.
Proof.
  intros Hs He. unfold critical_section, mempool_internal_lock,
    mempool_internal_unlock. rewrite Hs, He. reflexivity.
Qed.

Lemma free_effect (s : state) (block : Z) :
  counters_ok s -> typed_state s ->
  in_blocks_range (st_pool s) block = true ->
  on_block_boundary (st_pool s) block = true ->
  let p := st_pool s in
  let m := st_mem s in
  let idx := index_of p block in
  (bit_set p m idx = false ->
   mempool_free (Some p) block m
   = Some (mk_result MEMPOOL_ERR_DOUBLE_FREE (Some p) m None
             (critical_section p))) /\
  (bit_set p m idx = true ->
   exists p' m',
     mempool_free (Some p) block m
     = Some (mk_result MEMPOOL_OK (Some p') m' None (critical_section p)) /\
     free_list p' = block /\
     load_ptr m' block = free_list p /\
     free_blocks p' = free_blocks p + 1 /\
     free_blocks p' <= total_blocks p' /\
     s_free_count (stats p') = uint32_t (s_free_count (stats p) + 1) /\
     s_used_blocks (stats p') = total_blocks p' - free_blocks p' /\
     s_free_blocks (stats p') = free_blocks p' /\
     s_peak_usage (stats p') = s_peak_usage (stats p) /\
     s_alloc_count (stats p') = s_alloc_count (stats p) /\
     bit_set p' m' idx = false /\
     (forall j, 0 <= j < total_blocks p -> j <> idx ->
                bit_set p' m' j = bit_set p m j) /\
     same_geometry p p' /\
     mempool_free (Some p') block m'
     = Some (mk_result MEMPOOL_ERR_DOUBLE_FREE (Some p') m' None
               (critical_section p'))).
Proof.
  destruct s as [p m]. cbn [st_pool st_mem]. intros Hc [Hbytes Hhead] Hr Ha.
  cbn [st_pool st_mem] in *. cbv zeta.
  assert (Hshape : shape_ok p) by apply Hc.
  assert (Hi : initialized p = true) by apply Hshape.
  set (idx := index_of p block).
  destruct (checked_index p block Hshape Hr Ha)
    as (Hpos & Hidx & Hbyte & Haddr). fold idx in Hidx, Hbyte, Haddr.
  pose proof (block_addr_bounds p idx Hshape Hidx) as (Hlo & _ & Hty).
  pose proof (shape_blocks_start p Hshape) as (Hbb & _ & Hbs).
  pose proof (index_byte_in_bitmap p idx Hshape Hidx) as Hbi.
  assert (Hnz : block <> 0) by lia.
  pose proof (free_checked p block m Hi Hnz Hr Ha) as Hfree.
  cbv zeta in Hfree. fold (index_of p block) in Hfree. fold idx in Hfree.
  assert (E : (bitmap_bytes p <=? idx / 8) = false)
    by (apply Z.leb_gt; exact Hbyte).
  rewrite E in Hfree.
  split; intros Hbit; rewrite Hbit in Hfree; [exact Hfree|].
  destruct (counters_after_free (mk_state p m) block Hc Hr Ha Hbit)
    as [Hlt Hc']. cbn [st_pool st_mem] in Hlt, Hc'. fold idx in Hc'.
  set (p' := pool_after_free p block) in *.
  set (m' := mem_after_free p m block idx) in *.
  assert (Hclr : forall j, 0 <= j < total_blocks p ->
                   bit_set p' m' j = bit_set p m j && negb (j =? idx)).
  { intros j Hj. rewrite (bit_set_fields p p') by reflexivity.
    unfold m', mem_after_free. apply bit_set_after_clear.
    - intros x Hx. apply store_ptr_outside. lia.
    - apply index_byte_in_bitmap; assumption. }
  assert (Hfb : free_blocks p' = free_blocks p + 1).
  { unfold p', pool_after_free. cbn [free_blocks].
    apply Z.ltb_lt in Hlt. rewrite Hlt. apply Z.ltb_lt in Hlt.
    apply uint32_t_small. destruct Hshape as (_ & Ht & _).
    destruct Hc as (_ & Hf0 & _). cbn [st_pool] in Hf0. lia. }
  assert (Hgeo : same_geometry p p') by (unfold same_geometry; repeat split).
  exists p', m'. split; [exact Hfree|]. split; [reflexivity|].
  split.
  { unfold m', mem_after_free. rewrite load_ptr_store_byte by lia.
    apply load_store_ptr_same. exact Hhead. }
  split; [exact Hfb|].
  split; [change (total_blocks p') with (total_blocks p); lia|].
  split; [reflexivity|].
  split; [apply Hc'|]. split; [apply Hc'|].
  split; [reflexivity|]. split; [reflexivity|].
  assert (Hbit' : bit_set p' m' idx = false).
  { rewrite Hclr by exact Hidx. rewrite Z.eqb_refl. apply andb_false_r. }
  split; [exact Hbit'|]. split.
  { intros j Hj Hne. rewrite Hclr by exact Hj. apply Z.eqb_neq in Hne.
    rewrite Hne. apply andb_true_r. }
  split; [exact Hgeo|].
  destruct (same_geometry_checks p p' block Hgeo) as (Hr' & Ha' & Hidx').
  rewrite (free_checked p' block m' Hi Hnz); [|congruence|congruence].
  cbv zeta. fold (index_of p' block). rewrite Hidx'. fold idx.
  change (bitmap_bytes p') with (bitmap_bytes p). rewrite E, Hbit'.
  reflexivity.
Qed.

(** Successful allocations count the free blocks down. *)
Lemma allocs_count (k : nat) :
  forall (s s' : state) (rs : list response),
    counters_ok s ->
    run s (repeat OpAlloc k) = Some (s', rs) ->
    map rsp_err rs = repeat MEMPOOL_OK k ->
    free_blocks (st_pool s') = free_blocks (st_pool s) - Z.of_nat k.
Proof.
  induction k as [|k IH]; intros s s' rs Hc Hrun Herr.
  - injection Hrun as <- _. cbn. lia.
  - cbn [repeat run] in Hrun.
    destruct (step s OpAlloc) as [[s1 r1]|] eqn:Hstep; [|discriminate].
    cbn [bind fst snd] in Hrun.
    destruct (run s1 (repeat OpAlloc k)) as [[s2 r2]|] eqn:Hrest;
      [|discriminate].
    cbn [bind fst snd] in Hrun. injection Hrun as <- <-.
    cbn [map repeat] in Herr. injection Herr as Herr1 Herr.
    pose proof (step_counters_ok s s1 OpAlloc r1 Hc Hstep) as Hc1.
    rewrite (IH s1 s2 r2 Hc1 Hrest Herr).
    assert (Hi : initialized (st_pool s) = true) by apply Hc.
    destruct (step_alloc s Hi) as [[_ H]|[(_ & _ & _ & H)|(_ & H2 & _ & H)]];
      rewrite H in Hstep; try discriminate.
    + injection Hstep as _ <-. discriminate.
    + injection Hstep as <- _. cbn [st_pool pool_after_alloc free_blocks].
      destruct Hc as ((_ & Ht & _) & Hf0 & Hcnt & _).
      pose proof (count_allocated_bounds (st_pool s) (st_mem s) ltac:(lia)).
      rewrite uint32_t_small by lia. lia.
Qed.

(** ** Double free *)

(** C5.  In every state reachable from a successful [init], for every
    pointer that passes the range check and the block-boundary check:
    when the block's bit is clear, [mempool_free] returns [DOUBLE_FREE] and
    leaves the control block and the memory as they are; when the bit is
    set, it returns [OK], makes the block the head of the free list with
    the old head in its first word, adds one to [free_blocks] (which stays
    at most [total_blocks]), adds one to [free_count], sets [used_blocks] to
    total - free, leaves [peak_usage] and [alloc_count], clears the bit and
    no other, and a second [free] of the same pointer returns
    [DOUBLE_FREE].  So when [alloc] returns a block [B] on which the two
    checks pass, [free(B)] returns [OK], a second [free(B)] returns
    [DOUBLE_FREE] and changes nothing, and [free_count] has grown by one:
    on a fresh pool it is 1. *)
Theorem free_pushes_once_then_reports_double_free
    (a : init_args) (m0 : memory) (s0 s : state) (os : list op)
    (rs : list response) (block : Z) :
  well_typed_args a -> byte_memory m0 -> init_ok a m0 s0 ->
  run s0 os = Some (s, rs) ->
  in_blocks_range (st_pool s) block = true ->
  on_block_boundary (st_pool s) block = true ->
  let p := st_pool s in
  let m := st_mem s in
  let idx := index_of p block in
  (bit_set p m idx = false ->
   mempool_free (Some p) block m
   = Some (mk_result MEMPOOL_ERR_DOUBLE_FREE (Some p) m None
             (critical_section p))) /\
  (bit_set p m idx = true ->
   exists p' m',
     mempool_free (Some p) block m
     = Some (mk_result MEMPOOL_OK (Some p') m' None (critical_section p)) /\
     free_list p' = block /\
     load_ptr m' block = free_list p /\
     free_blocks p' = free_blocks p + 1 /\
     free_blocks p' <= total_blocks p' /\
     s_free_count (stats p') = uint32_t (s_free_count (stats p) + 1) /\
     s_used_blocks (stats p') = total_blocks p' - free_blocks p' /\
     s_free_blocks (stats p') = free_blocks p' /\
     s_peak_usage (stats p') = s_peak_usage (stats p) /\
     s_alloc_count (stats p') = s_alloc_count (stats p) /\
     bit_set p' m' idx = false /\
     (forall j, 0 <= j < total_blocks p -> j <> idx ->
                bit_set p' m' j = bit_set p m j) /\
     same_geometry p p' /\
     mempool_free (Some p') block m'
     = Some (mk_result MEMPOOL_ERR_DOUBLE_FREE (Some p') m' None
               (critical_section p'))) /\
  (forall s1 rsp,
      step s OpAlloc = Some (s1, rsp) ->
      allocated_block rsp = Some block ->
      exists s2 rsp2,
        step s1 (OpFree block) = Some (s2, rsp2) /\
        rsp_err rsp2 = MEMPOOL_OK /\
        step s2 (OpFree block)
        = Some (s2, mk_response MEMPOOL_ERR_DOUBLE_FREE None None
                      (critical_section (st_pool s2))) /\
        s_free_count (stats (st_pool s2))
        = uint32_t (s_free_count (stats p) + 1) /\
        (os = [] -> s_free_count (stats (st_pool s2)) = 1)).
Proof.
  intros Hwt Hbytes Hok Hrun Hr Ha p m idx.
  pose proof (init_counters_ok a m0 s0 Hwt Hok) as Hc0.
  pose proof (init_typed a m0 s0 Hwt Hbytes Hok) as Ht0.
  pose proof (run_counters_ok os s0 s rs Hc0 Hrun) as Hc.
  pose proof (run_typed os s0 s rs Hc0 Ht0 Hrun) as Ht.
  destruct (free_effect s block Hc Ht Hr Ha) as [Hdouble Hpush].
  split; [exact Hdouble|]. split; [exact Hpush|].
  intros s1 rsp Hstep Hblk.
  assert (Hi : initialized (st_pool s) = true) by apply Hc.
  pose proof (step_counters_ok s s1 OpAlloc rsp Hc Hstep) as Hc1.
  pose proof (step_typed s s1 OpAlloc rsp Hc Ht Hstep) as Ht1.
  pose proof (step_geometry s s1 OpAlloc rsp Hi Hstep) as Hgeo.
  destruct (same_geometry_checks _ _ block Hgeo) as (Hr1 & Ha1 & Hidx1).
  assert (Hshape : shape_ok (st_pool s)) by apply Hc.
  destruct (checked_index (st_pool s) block Hshape Hr Ha)
    as (Hpos & Hidx & Hbyte & Haddr).
  (* the allocation has set the bit of [block] *)
  assert (Hbit1 : bit_set (st_pool s1) (st_mem s1)
                    (index_of (st_pool s1) block) = true /\
                  s_free_count (stats (st_pool s1))
                  = s_free_count (stats (st_pool s))).
  { destruct (step_alloc s Hi) as [[_ H]|[(_ & _ & _ & H)|(_ & _ & _ & H)]];
      rewrite H in Hstep; try discriminate.
    - injection Hstep as _ <-. discriminate.
    - injection Hstep as <- <-. cbn [allocated_block rsp_err rsp_block] in Hblk.
      injection Hblk as Hblk. rewrite Hblk.
      cbn [st_pool st_mem]. split; [|reflexivity].
      rewrite (bit_set_fields (st_pool s)) by reflexivity.
      change (index_of (pool_after_alloc (st_pool s) (st_mem s)) block)
        with (index_of (st_pool s) block).
      unfold mem_after_alloc. apply Z.ltb_lt in Hbyte. rewrite Hbyte.
      rewrite bit_set_after_set, Z.eqb_refl. apply orb_true_r. }
  destruct Hbit1 as [Hbit1 Hfc1].
  assert (Hr1' : in_blocks_range (st_pool s1) block = true) by congruence.
  assert (Ha1' : on_block_boundary (st_pool s1) block = true) by congruence.
  destruct (free_effect s1 block Hc1 Ht1 Hr1' Ha1') as [_ Hpush1].
  destruct (Hpush1 Hbit1)
    as (p' & m' & Hfree & _ & _ & _ & _ & Hfc & _ & _ & _ & _ & _ & _ & _
        & Hagain).
  assert (Hnz : block <> 0).
  { pose proof (shape_blocks_start _ Hshape) as (_ & _ & Hbs).
    rewrite Haddr. unfold block_addr. nia. }
  exists (mk_state p' m'),
    (mk_response MEMPOOL_OK None None (critical_section (st_pool s1))).
  split.
  { unfold step. rewrite Hfree. reflexivity. }
  split; [reflexivity|]. split.
  { unfold step. cbn [st_pool st_mem]. rewrite Hagain. reflexivity. }
  cbn [st_pool]. rewrite Hfc, Hfc1. split; [reflexivity|].
  intros ->. injection Hrun as <- _.
  destruct (init_ok_facts a m0 s0 Hwt Hok) as (k & n & _ & _ & _ & _ & _ & _
    & _ & _ & _ & Hs).
  rewrite Hs. reflexivity.
Qed.

Lemma demo_memory_bytes : byte_memory demo_memory.
Proof. intros x. unfold demo_memory. lia. Defined.

Lemma free_pushes_once_then_reports_double_free_witness :
  well_typed_args demo_args /\ byte_memory demo_memory /\
  init_ok demo_args demo_memory demo_state /\
  run demo_state [] = Some (demo_state, []) /\
  in_blocks_range (st_pool demo_state) 8072 = true /\
  on_block_boundary (st_pool demo_state) 8072 = true /\
  exists s1 rsp s2 rsp2,
    step demo_state OpAlloc = Some (s1, rsp) /\
    allocated_block rsp = Some 8072 /\
    step s1 (OpFree 8072) = Some (s2, rsp2) /\
    rsp_err rsp2 = MEMPOOL_OK /\
    step s2 (OpFree 8072)
    = Some (s2, mk_response MEMPOOL_ERR_DOUBLE_FREE None None
                  (critical_section (st_pool s2))) /\
    s_free_count (stats (st_pool s2)) = 1.
Proof.
  assert (Hr : in_blocks_range (st_pool demo_state) 8072 = true)
    by (vm_compute; reflexivity).
  assert (Ha : on_block_boundary (st_pool demo_state) 8072 = true)
    by (vm_compute; reflexivity).
  split; [exact demo_args_well_typed|].
  split; [exact demo_memory_bytes|].
  split; [exact demo_state_init_ok|].
  split; [reflexivity|]. split; [exact Hr|]. split; [exact Ha|].
  assert (Hblk : option_map (fun sr => allocated_block (snd sr))
                   (step demo_state OpAlloc) = Some (Some 8072))
    by (vm_compute; reflexivity).
  destruct (step demo_state OpAlloc) as [[s1 rsp]|] eqn:Hstep;
    [|discriminate Hblk].
  cbn [option_map snd] in Hblk. injection Hblk as Hblk.
  destruct (free_pushes_once_then_reports_double_free demo_args demo_memory
              demo_state demo_state [] [] 8072 demo_args_well_typed
              demo_memory_bytes demo_state_init_ok eq_refl Hr Ha)
    as (_ & _ & Hscenario).
  destruct (Hscenario s1 rsp Hstep Hblk)
    as (s2 & rsp2 & H1 & H2 & H3 & _ & H5).
  exists s1, rsp, s2, rsp2. split; [reflexivity|]. split; [exact Hblk|].
  split; [exact H1|]. split; [exact H2|].
  split; [exact H3|]. apply H5. reflexivity.
Defined.

(** ** Exhaustion *)

(** C4.  On every initialized pool whose free list is empty or whose
    [free_blocks] is 0, [mempool_alloc] returns [OUT_OF_MEMORY] and leaves
    the control block (free list and all statistics), the memory (bitmap
    and blocks) and the caller's [*block] as they were.  In particular,
    after [total_blocks] successful allocations on a fresh pool the next
    [alloc] returns [OUT_OF_MEMORY] in an unchanged state, in which
    [free_blocks] is 0 and the statistics still count all [total_blocks]
    blocks as used. *)
Theorem alloc_out_of_memory_changes_nothing
    (a : init_args) (m0 : memory) (s0 s1 : state) (rs : list response) :
  well_typed_args a -> init_ok a m0 s0 ->
  (forall p b m,
      initialized p = true ->
      free_list p = 0 \/ free_blocks p = 0 ->
      mempool_alloc (Some p) (Some b) m
      = Some (mk_result MEMPOOL_ERR_OUT_OF_MEMORY (Some p) m (Some b)
                (critical_section p))) /\
  (run s0 (repeat OpAlloc (Z.to_nat (total_blocks (st_pool s0))))
   = Some (s1, rs) ->
   map rsp_err rs
   = repeat MEMPOOL_OK (Z.to_nat (total_blocks (st_pool s0))) ->
   step s1 OpAlloc
   = Some (s1, mk_response MEMPOOL_ERR_OUT_OF_MEMORY None None
                 (critical_section (st_pool s1))) /\
   free_blocks (st_pool s1) = 0 /\
   s_free_blocks (stats (st_pool s1)) = 0 /\
   s_used_blocks (stats (st_pool s1)) = total_blocks (st_pool s0)).
Proof.
  intros Hwt Hok. split; [intros p b m; apply alloc_empty|].
  intros Hrun Herr.
  pose proof (init_counters_ok a m0 s0 Hwt Hok) as Hc0.
  pose proof (run_counters_ok _ s0 s1 rs Hc0 Hrun) as Hc1.
  pose proof (allocs_count _ s0 s1 rs Hc0 Hrun Herr) as Hcount.
  assert (Hi0 : initialized (st_pool s0) = true) by apply Hc0.
  pose proof (run_geometry _ s0 s1 rs Hi0 Hrun)
    as (_ & _ & _ & _ & _ & Htot & _).
  assert (Hfree0 : free_blocks (st_pool s0) = total_blocks (st_pool s0)).
  { destruct (init_ok_facts a m0 s0 Hwt Hok)
      as (k & n & _ & _ & _ & _ & _ & _ & _ & _ & _ & Hs).
    rewrite Hs. reflexivity. }
  assert (Hz : free_blocks (st_pool s1) = 0).
  { destruct Hc0 as ((_ & Ht & _) & _). rewrite Hcount, Hfree0. lia. }
  assert (Hi1 : initialized (st_pool s1) = true) by apply Hc1.
  split.
  - destruct (step_alloc s1 Hi1)
      as [[_ H]|[(_ & Hne & _)|(_ & Hne & _)]];
      [exact H|contradiction|contradiction].
  - destruct Hc1 as (_ & _ & _ & _ & Hsf & Hsu & _).
    split; [exact Hz|]. split; [congruence|]. rewrite Hsu, Hz, Htot. ring.
Qed.

Lemma demo_total_blocks : Z.to_nat (total_blocks (st_pool demo_state)) = 63%nat.
Proof. vm_compute. reflexivity. Defined.

Lemma alloc_out_of_memory_changes_nothing_witness :
  let s1 := state_after_run demo_state (repeat OpAlloc 63) in
  let rs := responses_of_run demo_state (repeat OpAlloc 63) in
  well_typed_args demo_args /\
  init_ok demo_args demo_memory demo_state /\
  run demo_state (repeat OpAlloc 63) = Some (s1, rs) /\
  map rsp_err rs = repeat MEMPOOL_OK 63 /\
  step s1 OpAlloc
  = Some (s1, mk_response MEMPOOL_ERR_OUT_OF_MEMORY None None
                (critical_section (st_pool s1))) /\
  free_blocks (st_pool s1) = 0 /\
  s_free_blocks (stats (st_pool s1)) = 0 /\
  s_used_blocks (stats (st_pool s1)) = total_blocks (st_pool demo_state).
Proof.
  intros s1 rs.
  assert (Hrun : run demo_state (repeat OpAlloc 63) = Some (s1, rs)).
  { apply run_defined_eq. intros E. vm_compute in E. discriminate. }
  assert (Herr : map rsp_err rs = repeat MEMPOOL_OK 63)
    by (vm_compute; reflexivity).
  split; [exact demo_args_well_typed|].
  split; [exact demo_state_init_ok|].
  split; [exact Hrun|]. split; [exact Herr|].
  destruct (alloc_out_of_memory_changes_nothing demo_args demo_memory
              demo_state s1 rs demo_args_well_typed demo_state_init_ok)
    as [_ Hexhaust].
  rewrite demo_total_blocks in Hexhaust.
  exact (Hexhaust Hrun Herr).
Defined.

(** ** The free list and the bitmap, when the block size fits its field *)

(** The representation invariant holds in every state reachable from an
    [init] whose aligned block size fits the 32-bit [block_size] field, and
    every sequence of calls is defined there: bit i is set if and only if
    block i is not on the free list, the free list has [free_blocks] nodes,
    no node twice, and every node is a block. *)
Theorem free_list_agrees_with_bitmap
    (a : init_args) (m0 : memory) (s0 : state) (os : list op) :
  well_typed_args a -> init_ok a m0 s0 ->
  align_up (a_block_size a) (a_alignment a) <= UINT32_MAX ->
  exists s rs,
    run s0 os = Some (s, rs) /\
    let p := st_pool s in
    let l := free_list_nodes s in
    (forall i, 0 <= i < total_blocks p ->
       (bit_set p (st_mem s) i = true <-> ~ In (block_addr p i) l)) /\
    Z.of_nat (length l) = free_blocks p /\
    NoDup l /\
    (forall b, In b l -> exists i, 0 <= i < total_blocks p /\
                                   b = block_addr p i).
Proof.
  intros Hwt Hok Hfit.
  destruct (init_pool_inv a m0 s0 Hwt Hok Hfit) as (Hinv & _ & _).
  assert (Hi : initialized (st_pool s0) = true) by apply Hinv.
  assert (Hnz : block_size (st_pool s0) <> 0).
  { destruct Hinv as (_ & Hb8 & _). unfold sizeof_free_node_t in Hb8. lia. }
  destruct (run_defined os s0 Hi Hnz) as (s & rs & Hrun).
  exists s, rs. split; [exact Hrun|].
  apply pool_inv_free_list. apply (run_pool_inv os s0 s rs Hinv Hrun).
Qed.

(** On a fresh pool of N blocks whose block size fits its field, the head
    of the free list is block N-1 and the first N allocations succeed and
    return the blocks N-1, N-2, ..., 0 in this order. *)
Theorem first_allocations_descend
    (a : init_args) (m0 : memory) (s0 : state) :
  well_typed_args a -> init_ok a m0 s0 ->
  align_up (a_block_size a) (a_alignment a) <= UINT32_MAX ->
  let p := st_pool s0 in
  let N := Z.to_nat (total_blocks p) in
  free_list p = block_addr p (total_blocks p - 1) /\
  free_list_nodes s0 = map (block_addr p) (down N) /\
  exists s1 rs,
    run s0 (repeat OpAlloc N) = Some (s1, rs) /\
    map rsp_err rs = repeat MEMPOOL_OK N /\
    map rsp_block rs = map (fun i => Some (block_addr p i)) (down N) /\
    free_list (st_pool s1) = 0 /\
    forall i, 0 <= i < total_blocks p ->
              bit_set (st_pool s1) (st_mem s1) i = true.
Proof.
  intros Hwt Hok Hfit p N.
  destruct (init_pool_inv a m0 s0 Hwt Hok Hfit) as (Hinv & Hfl & _).
  fold p N in Hfl. destruct Hinv as (Hc & Hb8 & _).
  assert (Ht : 1 <= total_blocks p) by apply Hc.
  split; [|split].
  - destruct Hfl as (Hl & _).
    destruct N as [|N'] eqn:EN; [unfold N in EN; lia|].
    cbn [down map lseg] in Hl. destruct Hl as (Hhead & _).
    fold p in Hhead. rewrite Hhead. f_equal. unfold N in EN. lia.
  - apply free_list_nodes_of; assumption.
  - pose proof (allocs_follow_list (down N) s0 [] Hc Hb8) as Hallocs.
    rewrite app_nil_r, down_length in Hallocs.
    destruct (Hallocs Hfl)
      as (s1 & rs & Hrun & Herr & Hblk & _ & Hrest & _ & Hbits).
    exists s1, rs. split; [exact Hrun|]. split; [exact Herr|].
    split; [exact Hblk|]. split.
    + destruct Hrest as (Hl & _). exact Hl.
    + intros i Hi. apply Hbits. apply down_In. unfold N. lia.
Qed.

(** In every state reachable from an [init] whose block size fits its
    field, [reset] returns [OK], zeros the bitmap, makes the free list the
    one [init] built, sets [free_blocks] to [total_blocks], resets the
    counters and keeps the geometry and the hook record; a [free] of any
    pointer that is in range and on a block boundary then returns
    [DOUBLE_FREE] and changes nothing. *)
Theorem reset_rebuilds_initial_free_list
    (a : init_args) (m0 : memory) (s0 s : state) (os : list op)
    (rs : list response) :
  well_typed_args a -> init_ok a m0 s0 ->
  align_up (a_block_size a) (a_alignment a) <= UINT32_MAX ->
  run s0 os = Some (s, rs) ->
  let p := st_pool s in
  exists s',
    step s OpReset
    = Some (s', mk_response MEMPOOL_OK None None (critical_section p)) /\
    free_list_nodes s' = free_list_nodes s0 /\
    free_list_nodes s'
    = map (block_addr p) (down (Z.to_nat (total_blocks p))) /\
    (forall i, 0 <= i < total_blocks p ->
               bit_set (st_pool s') (st_mem s') i = false) /\
    free_blocks (st_pool s') = total_blocks p /\
    stats (st_pool s')
    = mk_stats (total_blocks p) 0 (total_blocks p) 0 0 0 (block_size p) /\
    same_geometry p (st_pool s') /\
    sync (st_pool s') = sync p /\
    sync_enabled (st_pool s') = sync_enabled p /\
    forall block,
      in_blocks_range (st_pool s') block = true ->
      on_block_boundary (st_pool s') block = true ->
      step s' (OpFree block)
      = Some (s', mk_response MEMPOOL_ERR_DOUBLE_FREE None None
                    (critical_section (st_pool s'))).
Proof.
  intros Hwt Hok Hfit Hrun p.
  destruct (init_pool_inv a m0 s0 Hwt Hok Hfit) as (Hinv0 & Hfl0 & _).
  pose proof (run_pool_inv os s0 s rs Hinv0 Hrun) as (Hc & Hb8 & _).
  assert (Hi : initialized (st_pool s) = true) by apply Hc.
  assert (Hi0 : initialized (st_pool s0) = true) by apply Hinv0.
  pose proof (run_geometry os s0 s rs Hi0 Hrun) as Hgeo0.
  pose proof (pool_inv_reset s Hc Hb8) as Hfl.
  pose proof (counters_after_reset s Hc) as Hc'.
  set (s' := mk_state (pool_after_reset (st_pool s) (st_mem s))
               (mem_after_reset (st_pool s) (st_mem s))) in *.
  exists s'. split; [apply step_reset; exact Hi|].
  assert (Hnodes : free_list_nodes s'
                   = map (block_addr p) (down (Z.to_nat (total_blocks p)))).
  { rewrite (free_list_nodes_of s' _ Hc' Hfl). reflexivity. }
  split.
  { rewrite Hnodes.
    rewrite (free_list_nodes_of s0 _ ltac:(apply Hinv0) Hfl0).
    destruct Hgeo0 as (_ & Hbs & _ & _ & Hsz & Htot & _). fold p in Hbs, Hsz, Htot.
    rewrite Htot. apply map_ext. intros i. unfold block_addr.
    rewrite Hbs, Hsz. reflexivity. }
  split; [exact Hnodes|].
  assert (Hbits : forall i, 0 <= i < total_blocks p ->
                            bit_set (st_pool s') (st_mem s') i = false).
  { intros i Hir. destruct Hfl as (_ & _ & _ & _ & Hb).
    destruct (bit_set (st_pool s') (st_mem s') i) eqn:E; [|reflexivity].
    exfalso. apply (Hb i Hir) in E. apply E. apply down_In.
    cbn [s' st_pool pool_after_reset total_blocks]. fold p. lia. }
  split; [exact Hbits|].
  split; [reflexivity|]. split; [reflexivity|].
  split; [unfold same_geometry; repeat split|].
  split; [reflexivity|]. split; [reflexivity|].
  intros block Hr Ha.
  assert (Hshape' : shape_ok (st_pool s')) by apply Hc'.
  destruct (checked_index (st_pool s') block Hshape' Hr Ha)
    as (_ & Hidx & Hbyte & Haddr).
  assert (Hnz : block <> 0).
  { pose proof (block_addr_bounds (st_pool s') _ Hshape' Hidx). lia. }
  unfold step.
  rewrite (free_checked (st_pool s') block (st_mem s')
             ltac:(apply Hshape') Hnz Hr Ha).
  cbv zeta. fold (index_of (st_pool s') block).
  apply Z.leb_gt in Hbyte. rewrite Hbyte.
  rewrite (Hbits _ Hidx). reflexivity.
Qed.

(** ** A block size that does not fit the 32-bit [block_size] field

    [mempool_init] rejects a block count and a bitmap size above
    [UINT32_MAX] but stores [(uint32_t)aligned_block_size] unchecked.  With
    a block size of [2 ^ 32] the field holds 0, while the free list was
    threaded with the real size. *)

Lemma huge_args_well_typed : well_typed_args huge_args.
Proof.
  unfold well_typed_args, is_size_t, SIZE_MAX, PTRDIFF_MAX, huge_args.
  cbn. lia.
Qed.

Lemma huge_state_init_ok : init_ok huge_args demo_memory huge_state.
Proof.
  assert (H : exists r, init huge_args demo_memory = Some r /\
                        r_err r = MEMPOOL_OK).
  { vm_compute. eexists. split; reflexivity. }
  destruct H as (r & Hr & Herr). exists r.
  split; [exact Hr|]. split; [exact Herr|].
  unfold huge_state. rewrite Hr. reflexivity.
Qed.

(** C2, at the pool of two 4 GiB blocks: [init] succeeds with two blocks
    and a [block_size] field of 0; [reset] then stores both links at the
    same address, so that the free list is a cycle through the first
    block: walking it meets that block three times in three steps, whereas
    [free_blocks] is 2. *)
Theorem truncated_block_size_breaks_free_list :
  let s := state_after_run huge_state [OpReset] in
  well_typed_args huge_args /\
  init_ok huge_args demo_memory huge_state /\
  total_blocks (st_pool huge_state) = 2 /\
  block_size (st_pool huge_state) = 0 /\
  run huge_state [OpReset]
  = Some (s, [mk_response MEMPOOL_OK None None []]) /\
  free_blocks (st_pool s) = 2 /\
  free_list_nodes s = [4104; 4104; 4104] /\
  ~ NoDup (free_list_nodes s) /\
  Z.of_nat (length (free_list_nodes s)) <> free_blocks (st_pool s).
Proof.
  intros s.
  assert (Hnodes : free_list_nodes s = [4104; 4104; 4104])
    by (vm_compute; reflexivity).
  split; [exact huge_args_well_typed|].
  split; [exact huge_state_init_ok|].
  split; [vm_compute; reflexivity|]. split; [vm_compute; reflexivity|].
  split.
  { rewrite (run_defined_eq huge_state [OpReset]).
    - assert (Hrs : responses_of_run huge_state [OpReset]
                    = [mk_response MEMPOOL_OK None None []])
        by (vm_compute; reflexivity).
      rewrite Hrs. reflexivity.
    - intros E. vm_compute in E. discriminate. }
  split; [vm_compute; reflexivity|]. split; [exact Hnodes|].
  rewrite Hnodes. split.
  - intros H. inversion H as [|x l Hnotin _]; subst.
    apply Hnotin. left. reflexivity.
  - vm_compute. discriminate.
Qed.

(** C6, at the same pool: the free list [init] builds holds the blocks at
    4104 + 2^32 and 4104; the one [reset] builds holds the block at 4104
    over and over. *)
Theorem truncated_block_size_reset_differs_from_init :
  let s := state_after_run huge_state [OpReset] in
  init_ok huge_args demo_memory huge_state /\
  run huge_state [OpReset]
  = Some (s, [mk_response MEMPOOL_OK None None []]) /\
  free_list_nodes huge_state = [4104 + 2 ^ 32; 4104] /\
  free_list (st_pool huge_state) = 4104 + 2 ^ 32 /\
  free_list_nodes s = [4104; 4104; 4104] /\
  free_list (st_pool s) = 4104 /\
  load_ptr (st_mem s) 4104 = 4104 /\
  free_list_nodes s <> free_list_nodes huge_state.
Proof.
  intros s.
  split; [exact huge_state_init_ok|].
  split.
  { rewrite (run_defined_eq huge_state [OpReset]).
    - assert (Hrs : responses_of_run huge_state [OpReset]
                    = [mk_response MEMPOOL_OK None None []])
        by (vm_compute; reflexivity).
      rewrite Hrs. reflexivity.
    - intros E. vm_compute in E. discriminate. }
  repeat split; try (vm_compute; reflexivity).
  vm_compute. discriminate.
Qed.

(** C7, at the same pool: after [init] the head of the free list is the
    second block, but its index cannot be computed and the first [alloc]
    divides by the [block_size] field, which is 0: it returns no block. *)
Theorem truncated_block_size_alloc_undefined :
  init_ok huge_args demo_memory huge_state /\
  total_blocks (st_pool huge_state) = 2 /\
  block_size (st_pool huge_state) = 0 /\
  free_list (st_pool huge_state) = 4104 + 2 ^ 32 /\
  mempool_block_index (st_pool huge_state) (free_list (st_pool huge_state))
  = None /\
  mempool_alloc (Some (st_pool huge_state)) (Some 0) (st_mem huge_state)
  = None /\
  step huge_state OpAlloc = None.
Proof.
  split; [exact huge_state_init_ok|].
  repeat split; vm_compute; reflexivity.
Qed.

(** * The layout planner *)

Lemma init_checks_empty_pool (a : init_args) :
  planner_input a -> a_pool_buffer_size a = 0 ->
  init_checks a = Some MEMPOOL_ERR_INVALID_SIZE.
Proof.
  intros ((k & Hk & Hak) & Hnn & Hmod & Hlink & Hst & Hsz) Hz.
  unfold init_checks, mempool_state_size in *.
  apply Z.eqb_neq in Hst. apply Z.eqb_neq in Hnn. rewrite Hst, Hnn.
  cbn [orb].
  assert (E2 : (a_state_buffer_size a <? sizeof_struct_mempool) = false)
    by (apply Z.ltb_ge; exact Hsz).
  rewrite E2, Hz. reflexivity.
Qed.

Lemma spec_required_pos (A a N : Z) :
  0 < a -> 0 <= A -> 1 <= N -> 1 <= spec_required A a N /\
                                 N * A + 1 <= spec_required A a N.
Proof.
  intros Ha HA HN. unfold spec_required.
  pose proof (spec_pad_range a N Ha).
  pose proof (spec_bitmap_bytes_range N HN). nia.
Qed.

(** What [init] returns on the inputs its contract admits. *)
Lemma init_planned (a : init_args) (m : memory) :
  well_typed_args a -> planner_input a -> a_block_size a <= PTRDIFF_MAX ->
  let size := a_pool_buffer_size a in
  let A := spec_aligned_block_size (a_block_size a) (a_alignment a) in
  (forall N,
      spec_largest size (a_block_size a) (a_alignment a) N ->
      N <= UINT32_MAX ->
      init a m
      = Some (mk_result MEMPOOL_OK
                (Some (st_pool
                         (init_pool_of a A
                            (mk_layout N (spec_bitmap_bytes N)
                               (spec_bitmap_bytes N
                                + spec_pad (a_alignment a) N) true) m)))
                (st_mem
                   (init_pool_of a A
                      (mk_layout N (spec_bitmap_bytes N)
                         (spec_bitmap_bytes N
                          + spec_pad (a_alignment a) N) true) m))
                (Some (a_state_buffer a)) [])) /\
  (forall N,
      spec_largest size (a_block_size a) (a_alignment a) N ->
      UINT32_MAX < N ->
      init a m
      = Some (mk_result MEMPOOL_ERR_INVALID_SIZE (Some zero_pool) m
                (Some 0) [])) /\
  ((forall N, 1 <= N ->
              ~ spec_fits size (a_block_size a) (a_alignment a) N) ->
   exists r, init a m = Some r /\ r_err r = MEMPOOL_ERR_INVALID_SIZE /\
             r_out r = Some 0 /\ r_mem r = m).
Proof.
  intros Hwt Hpl Hbsmax size A.
  pose proof Hpl as ((k & Hk & Hak) & Hnn & Hmod & Hlink & Hst & Hsz).
  pose proof Hwt as (_ & _ & _ & Hps & Hbs & _ & Hobj & _).
  unfold is_size_t, SIZE_MAX, PTRDIFF_MAX in *.
  assert (Hp : 0 < 2 ^ k) by (apply Z.pow_pos_nonneg; lia).
  assert (Hp63 : 2 ^ k <= 2 ^ 63) by (apply Z.pow_le_mono_r; lia).
  assert (Hnw : a_block_size a + 2 ^ k - 1 < 2 ^ 64) by lia.
  destruct (init_search_spec a k Hwt Hk Hak Hlink Hnw)
    as (HA & HA8 & HAa & Hsearch).
  unfold A, size, spec_largest, spec_fits. rewrite Hak in *.
  set (A' := spec_aligned_block_size (a_block_size a) (2 ^ k)) in *.
  destruct (Z.eq_dec (a_pool_buffer_size a) 0) as [Hz|Hne].
  { (* an empty pool: nothing fits *)
    pose proof (init_rejected a m _ (init_checks_empty_pool a Hpl Hz)) as Hr.
    split; [|split].
    - intros N (HN & Hfit & _) _. exfalso.
      pose proof (spec_required_pos A' (2 ^ k) N Hp ltac:(lia) HN). lia.
    - intros N (HN & Hfit & _) _. exfalso.
      pose proof (spec_required_pos A' (2 ^ k) N Hp ltac:(lia) HN). lia.
    - intros _. eexists. split; [exact Hr|]. repeat split. }
  pose proof (init_checks_planner a Hwt Hpl Hne) as Hchk.
  pose proof (init_searched a m Hchk) as Hinit. cbv zeta in Hinit.
  rewrite Hak, HA in Hinit.
  assert (EA : (A' =? 0) = false) by (apply Z.eqb_neq; lia).
  rewrite EA in Hinit.
  destruct (Z.eq_dec (a_pool_buffer_size a / A') 0) as [Hmax0|Hmax].
  { (* not even one block *)
    rewrite Hmax0 in Hinit. cbn [Z.eqb] in Hinit.
    assert (Hsmall : a_pool_buffer_size a < A').
    { pose proof (Z.div_mod (a_pool_buffer_size a) A' ltac:(lia)).
      pose proof (Z.mod_pos_bound (a_pool_buffer_size a) A' ltac:(lia)).
      lia. }
    split; [|split].
    - intros N (HN & Hfit & _) _. exfalso.
      pose proof (spec_required_pos A' (2 ^ k) N Hp ltac:(lia) HN). nia.
    - intros N (HN & Hfit & _) _. exfalso.
      pose proof (spec_required_pos A' (2 ^ k) N Hp ltac:(lia) HN). nia.
    - intros _. eexists. split; [exact Hinit|]. repeat split. }
  apply Z.eqb_neq in Hmax. rewrite Hmax in Hinit. apply Z.eqb_neq in Hmax.
  assert (Hmax1 : 1 <= a_pool_buffer_size a / A').
  { assert (0 <= a_pool_buffer_size a / A') by (apply Z.div_pos; lia). lia. }
  destruct (Hsearch Hmax1) as [st [Hst' Hcases]].
  rewrite Hst' in Hinit. cbn [bind] in Hinit.
  destruct Hcases as [(Hf & Hr & Hfit & Hmx & Hb & Ho)|(Hf & Hz & Hno)].
  - (* the search has found the largest count *)
    rewrite Hf in Hinit. cbn [negb orb] in Hinit.
    assert (En : (l_n st =? 0) = false) by (apply Z.eqb_neq; lia).
    rewrite En in Hinit.
    assert (Huniq : forall N,
               1 <= N /\ spec_required A' (2 ^ k) N <= a_pool_buffer_size a /\
               (forall N', N < N' ->
                  ~ spec_required A' (2 ^ k) N' <= a_pool_buffer_size a) ->
               N = l_n st).
    { intros N (HN & HfitN & HmaxN).
      destruct (Z.lt_trichotomy N (l_n st)) as [Hlt|[Heq|Hgt]];
        [|exact Heq|].
      - exfalso. apply (HmaxN (l_n st) Hlt). exact Hfit.
      - exfalso. pose proof (Hmx N Hgt). lia. }
    pose proof (spec_bitmap_bytes_range (l_n st) Hr) as Hbbr.
    split; [|split].
    + intros N HN H32. pose proof (Huniq N HN) as ->.
      assert (E1 : (UINT32_MAX <? l_n st) = false) by (apply Z.ltb_ge; lia).
      assert (E2 : (UINT32_MAX <? l_bitmap_bytes st) = false)
        by (apply Z.ltb_ge; lia).
      rewrite E1, E2 in Hinit. cbn [orb] in Hinit. rewrite Hinit.
      destruct st as [n bb bo f].
      cbn [l_n l_bitmap_bytes l_blocks_offset l_found] in *.
      subst bb bo f. reflexivity.
    + intros N HN H32. pose proof (Huniq N HN) as ->.
      assert (E1 : (UINT32_MAX <? l_n st) = true) by (apply Z.ltb_lt; lia).
      rewrite E1 in Hinit. cbn [orb] in Hinit. exact Hinit.
    + intros Hnone. exfalso. apply (Hnone (l_n st) Hr). exact Hfit.
  - (* nothing fits *)
    rewrite Hf in Hinit. cbn [negb orb] in Hinit.
    split; [|split].
    + intros N (HN & HfitN & _) _. exfalso. pose proof (Hno N HN). lia.
    + intros N (HN & HfitN & _) _. exfalso. pose proof (Hno N HN). lia.
    + intros _. eexists. split; [exact Hinit|]. repeat split.
Qed.

(** C3, as the code has it.  For every valid input (a non-zero
    power-of-two alignment; a non-null pool region aligned to it, which is
    an object: at most [PTRDIFF_MAX] bytes, inside the address space; a
    block size between the link size and [PTRDIFF_MAX]; non-null state and
    output pointers; a state buffer of at least [mempool_state_size] bytes),
    with aligned_block_size = ceil(block_size / alignment) * alignment and
    pad the padding that brings the end of the bitmap up to the alignment:
    when the largest N >= 1 with
    ceil(N/8) + pad + N * aligned_block_size <= pool_region_size exists and
    is at most [UINT32_MAX], [init] succeeds with [total_blocks] = N, all
    N blocks free, a bitmap of ceil(N/8) bytes and the blocks at offset
    ceil(N/8) + pad; when it exists and exceeds [UINT32_MAX], and when no
    such N exists, [init] returns the invalid-size error. *)
Theorem init_plans_largest_block_count (a : init_args) (m : memory) :
  well_typed_args a -> planner_input a -> a_block_size a <= PTRDIFF_MAX ->
  let size := a_pool_buffer_size a in
  let fits := spec_fits size (a_block_size a) (a_alignment a) in
  let largest := spec_largest size (a_block_size a) (a_alignment a) in
  (forall N,
      largest N -> N <= UINT32_MAX ->
      exists r p,
        init a m = Some r /\ r_err r = MEMPOOL_OK /\
        r_pool r = Some p /\ r_out r = Some (a_state_buffer a) /\
        init_block_count r = Some N /\
        total_blocks p = N /\ free_blocks p = N /\
        bitmap_bytes p = spec_bitmap_bytes N /\
        bitmap p = a_pool_buffer a /\
        blocks_start p
        = a_pool_buffer a + spec_bitmap_bytes N
          + spec_pad (a_alignment a) N /\
        block_size p
        = uint32_t
            (spec_aligned_block_size (a_block_size a) (a_alignment a))) /\
  (forall N,
      largest N -> UINT32_MAX < N ->
      exists r, init a m = Some r /\ r_err r = MEMPOOL_ERR_INVALID_SIZE) /\
  ((forall N, 1 <= N -> ~ fits N) ->
   exists r, init a m = Some r /\ r_err r = MEMPOOL_ERR_INVALID_SIZE).
Proof.
  intros Hwt Hpl Hbs size fits largest.
  destruct (init_planned a m Hwt Hpl Hbs) as (Hok & Hwide & Hnone).
  split; [|split].
  - intros N HN H32. specialize (Hok N HN H32).
    eexists. eexists. split; [exact Hok|].
    cbn [r_err r_pool r_out]. split; [reflexivity|].
    split; [reflexivity|]. split; [reflexivity|].
    destruct HN as (HN1 & Hfit & _).
    pose proof Hpl as ((k & Hk & Hak) & _).
    pose proof Hwt as (_ & _ & Hpb & _ & _ & _ & _ & Hend).
    unfold is_size_t, SIZE_MAX in *.
    assert (Hp : 0 < 2 ^ k) by (apply Z.pow_pos_nonneg; lia).
    pose proof (spec_bitmap_bytes_range N HN1) as Hbb.
    pose proof (spec_pad_range (a_alignment a) N ltac:(lia)) as Hpad.
    unfold spec_fits, spec_required in Hfit.
    set (A := spec_aligned_block_size (a_block_size a) (a_alignment a)) in *.
    assert (HA : 0 <= N * A).
    { destruct (spec_aligned_range (a_block_size a) (a_alignment a)
                  ltac:(lia)
                  ltac:(destruct Hpl as (_ & _ & _ & Hl & _);
                        unfold sizeof_free_node_t in Hl; lia)) as [? ?].
      fold A in H, H0. nia. }
    unfold init_block_count, init_pool_of.
    cbn [r_err r_pool st_pool l_n l_bitmap_bytes l_blocks_offset].
    cbn [total_blocks free_blocks bitmap_bytes bitmap blocks_start
         block_size].
    rewrite (uint32_t_small N) by lia.
    rewrite (uint32_t_small (spec_bitmap_bytes N)) by lia.
    rewrite size_t_small by (fold size in Hfit; unfold size in *; lia).
    repeat split; try reflexivity. ring.
  - intros N HN H32. eexists. split; [exact (Hwide N HN H32)|reflexivity].
  - intros Hno. destruct (Hnone Hno) as (r & Hr & Herr & _).
    exists r. split; assumption.
Qed.

Lemma demo_args_planner_input : planner_input demo_args.
Proof.
  unfold planner_input, demo_args, mempool_state_size,
    sizeof_struct_mempool, sizeof_free_node_t. cbn.
  split; [exists 3; split; [lia|reflexivity]|].
  repeat split; try lia; discriminate.
Defined.

Lemma demo_largest : spec_largest 4096 64 8 63.
Proof.
  unfold spec_largest, spec_fits.
  assert (EA : spec_aligned_block_size 64 8 = 64) by (vm_compute; reflexivity).
  rewrite EA. split; [lia|]. split.
  - assert (E : spec_required 64 8 63 = 4040) by (vm_compute; reflexivity).
    rewrite E. lia.
  - intros N' HN' Hfit.
    pose proof (spec_required_pos 64 8 N' ltac:(lia) ltac:(lia) ltac:(lia)).
    lia.
Defined.

Lemma init_plans_largest_block_count_witness :
  well_typed_args demo_args /\ planner_input demo_args /\
  a_block_size demo_args <= PTRDIFF_MAX /\
  spec_largest 4096 64 8 63 /\ 63 <= UINT32_MAX /\
  exists r p,
    init demo_args demo_memory = Some r /\ r_err r = MEMPOOL_OK /\
    r_pool r = Some p /\ init_block_count r = Some 63 /\
    total_blocks p = 63 /\ bitmap_bytes p = 8 /\ blocks_start p = 4104.
Proof.
  assert (Hbs : a_block_size demo_args <= PTRDIFF_MAX)
    by (vm_compute; discriminate).
  assert (H32 : 63 <= UINT32_MAX) by (vm_compute; discriminate).
  split; [exact demo_args_well_typed|].
  split; [exact demo_args_planner_input|].
  split; [exact Hbs|]. split; [exact demo_largest|]. split; [exact H32|].
  destruct (init_plans_largest_block_count demo_args demo_memory
              demo_args_well_typed demo_args_planner_input Hbs)
    as (Hok & _ & _).
  destruct (Hok 63 demo_largest H32)
    as (r & p & Hr & Herr & Hp & _ & Hcount & Htot & _ & Hbm & _ & Hstart
        & _).
  exists r, p. repeat split; assumption.
Defined.

(** C3, as the claim has it, fails: for the pool of [2 ^ 35 + 2 ^ 29]
    bytes with 8-byte blocks and alignment 8, the largest N that satisfies
    the constraint is [2 ^ 32], which is at least 1; yet [init] does not
    take N as its block count: it returns the invalid-size error. *)
Lemma wide_pool_is_rejected :
  well_typed_args wide_args /\ planner_input wide_args /\
  spec_largest (a_pool_buffer_size wide_args) (a_block_size wide_args)
    (a_alignment wide_args) (2 ^ 32) /\
  init wide_args demo_memory
  = Some (mk_result MEMPOOL_ERR_INVALID_SIZE (Some zero_pool) demo_memory
            (Some 0) []) /\
  ~ (exists r, init wide_args demo_memory = Some r /\
               init_block_count r = Some (2 ^ 32)).
Proof.
  assert (Hwt : well_typed_args wide_args).
  { unfold well_typed_args, is_size_t, SIZE_MAX, PTRDIFF_MAX, wide_args.
    cbn. lia. }
  assert (Hpl : planner_input wide_args).
  { unfold planner_input, wide_args, mempool_state_size,
      sizeof_struct_mempool, sizeof_free_node_t. cbn.
    split; [exists 3; split; [lia|reflexivity]|].
    repeat split; try lia; discriminate. }
  assert (Hbs : a_block_size wide_args <= PTRDIFF_MAX)
    by (vm_compute; discriminate).
  assert (Hlargest : spec_largest (a_pool_buffer_size wide_args)
                       (a_block_size wide_args) (a_alignment wide_args)
                       (2 ^ 32)).
  { unfold spec_largest, spec_fits. cbn [wide_args a_pool_buffer_size
      a_block_size a_alignment].
    assert (EA : spec_aligned_block_size 8 8 = 8) by (vm_compute; reflexivity).
    rewrite EA. split; [lia|]. split.
    - assert (E : spec_required 8 8 (2 ^ 32) = 2 ^ 35 + 2 ^ 29)
        by (vm_compute; reflexivity).
      rewrite E. lia.
    - intros N' HN' Hfit. unfold spec_required, spec_bitmap_bytes in Hfit.
      pose proof (spec_pad_range 8 N' ltac:(lia)).
      assert (2 ^ 29 <= (N' + 7) / 8)
        by (apply Z.div_le_lower_bound; lia).
      lia. }
  assert (Hinit : init wide_args demo_memory
                  = Some (mk_result MEMPOOL_ERR_INVALID_SIZE (Some zero_pool)
                            demo_memory (Some 0) [])).
  { destruct (init_planned wide_args demo_memory Hwt Hpl Hbs)
      as (_ & Hwide & _).
    apply (Hwide (2 ^ 32) Hlargest). unfold UINT32_MAX. lia. }
  split; [exact Hwt|]. split; [exact Hpl|]. split; [exact Hlargest|].
  split; [exact Hinit|].
  intros (r & Hr & Hcount). rewrite Hinit in Hr. injection Hr as <-.
  discriminate.
Qed.

(** * The helpers, the argument checks and the messages *)

(** ** [is_power_of_two] and [align_up] *)

(** [is_power_of_two] holds of a [size_t] value exactly when it is one of
    [2 ^ 0, ..., 2 ^ 63]; in particular it rejects 0. *)
Theorem is_power_of_two_iff (value : Z) :
  (is_power_of_two (size_t value) = true <->
   exists k, 0 <= k < 64 /\ size_t value = 2 ^ k) /\
  is_power_of_two 0 = false.
Proof.
  split; [|reflexivity]. split.
  - apply is_power_of_two_inv. apply size_t_range.
  - intros (k & Hk & E). rewrite E. apply is_power_of_two_pow2. exact Hk.
Qed.

(** For a power-of-two alignment and a value whose rounding does not
    exceed [SIZE_MAX], [align_up] returns the least multiple of the
    alignment that is not below the value; an aligned value is returned
    as it is. *)
Theorem align_up_least_multiple (value k : Z) :
  0 <= k < 64 -> 0 <= value -> value + 2 ^ k - 1 <= SIZE_MAX ->
  let r := align_up value (2 ^ k) in
  r mod 2 ^ k = 0 /\ value <= r < value + 2 ^ k /\
  (forall r', r' mod 2 ^ k = 0 -> value <= r' -> r <= r') /\
  (value mod 2 ^ k = 0 -> r = value) /\
  align_up r (2 ^ k) = r.
Proof.
  intros Hk Hv Hmax r.
  assert (Hp : 0 < 2 ^ k) by (apply Z.pow_pos_nonneg; lia).
  assert (Hr : r = ((value + 2 ^ k - 1) / 2 ^ k) * 2 ^ k).
  { unfold r. rewrite align_up_spec; [reflexivity|lia|lia|].
    unfold SIZE_MAX in Hmax. lia. }
  pose proof (Z.div_mod (value + 2 ^ k - 1) (2 ^ k) ltac:(lia)) as Hdm.
  pose proof (Z.mod_pos_bound (value + 2 ^ k - 1) (2 ^ k) Hp) as Hmb.
  assert (Hmod : r mod 2 ^ k = 0).
  { rewrite Hr. apply Z.mod_mul. lia. }
  assert (Hrange : value <= r < value + 2 ^ k) by (rewrite Hr; lia).
  assert (Hleast : forall r', r' mod 2 ^ k = 0 -> value <= r' -> r <= r').
  { intros r' Hr' Hle.
    pose proof (Z.div_mod r' (2 ^ k) ltac:(lia)) as Hd'.
    rewrite Hr' in Hd'. rewrite Hr.
    assert ((value + 2 ^ k - 1) / 2 ^ k <= r' / 2 ^ k).
    { apply Z.div_le_lower_bound; [lia|].
      assert (Hq : (value + 2 ^ k - 1) / 2 ^ k * 2 ^ k < r' + 2 ^ k) by lia.
      destruct (Z_le_gt_dec ((value + 2 ^ k - 1) / 2 ^ k) (r' / 2 ^ k))
        as [Hok|Hbad]; [nia|exfalso].
      assert (r' / 2 ^ k + 1 <= (value + 2 ^ k - 1) / 2 ^ k) by lia.
      nia. }
    nia. }
  split; [exact Hmod|]. split; [exact Hrange|]. split; [exact Hleast|].
  assert (Hsame : forall v, 0 <= v -> v + 2 ^ k - 1 <= SIZE_MAX ->
                            v mod 2 ^ k = 0 -> align_up v (2 ^ k) = v).
  { intros v Hv0 Hvm Hv1.
    rewrite align_up_spec by (unfold SIZE_MAX in Hvm; lia).
    unfold spec_aligned_block_size.
    pose proof (Z.div_mod v (2 ^ k) ltac:(lia)) as Hd. rewrite Hv1 in Hd.
    replace (v + 2 ^ k - 1) with (2 ^ k - 1 + v / 2 ^ k * 2 ^ k) by lia.
    rewrite Z.div_add by lia. rewrite Z.div_small by lia. lia. }
  split; [intros E; apply Hsame; assumption|].
  apply Hsame; [lia| |exact Hmod].
  (* r is a multiple of 2^k not above value + 2^k - 1 *)
  pose proof (Z.div_mod r (2 ^ k) ltac:(lia)) as Hd. rewrite Hmod in Hd.
  assert (H64 : (SIZE_MAX + 1) mod 2 ^ k = 0).
  { assert (E : SIZE_MAX + 1 = 2 ^ (64 - k) * 2 ^ k).
    { unfold SIZE_MAX. rewrite <- Z.pow_add_r by lia.
      replace (64 - k + k) with 64 by lia. lia. }
    rewrite E. apply Z.mod_mul. lia. }
  pose proof (Z.div_mod (SIZE_MAX + 1) (2 ^ k) ltac:(lia)) as Hd64.
  rewrite H64 in Hd64.
  assert (r < SIZE_MAX + 1) by lia.
  assert (r / 2 ^ k < (SIZE_MAX + 1) / 2 ^ k) by nia.
  nia.
Qed.

Lemma align_up_least_multiple_witness :
  let r := align_up 61 (2 ^ 3) in
  0 <= 3 < 64 /\ 0 <= 61 /\ 61 + 2 ^ 3 - 1 <= SIZE_MAX /\
  r = 64 /\ r mod 2 ^ 3 = 0 /\ 61 <= r < 61 + 2 ^ 3 /\
  align_up r (2 ^ 3) = r.
Proof.
  intros r.
  assert (H1 : 0 <= 3 < 64) by lia.
  assert (H2 : 0 <= 61) by lia.
  assert (H3 : 61 + 2 ^ 3 - 1 <= SIZE_MAX) by (unfold SIZE_MAX; lia).
  destruct (align_up_least_multiple 61 3 H1 H2 H3) as (Ha & Hb & _ & _ & He).
  split; [exact H1|]. split; [exact H2|]. split; [exact H3|].
  split; [reflexivity|]. split; [exact Ha|]. split; [exact Hb|exact He].
Defined.

(** ** [mempool_strerror] *)

(** Every error code has a message of its own, none of them empty and none
    of them the message of an unknown code; every value outside the
    enumeration gets the message of an unknown code. *)
Theorem strerror_messages_distinct :
  (forall e1 e2,
      mempool_strerror (error_code e1) = mempool_strerror (error_code e2) ->
      e1 = e2) /\
  (forall e,
      mempool_strerror (error_code e) <> String.EmptyString /\
      mempool_strerror (error_code e) <> unknown_error) /\
  (forall x, x < 0 \/ 7 < x -> mempool_strerror x = unknown_error).
Proof.
  split; [|split].
  - intros e1 e2 H. destruct e1, e2; cbn in H; try reflexivity;
      discriminate H.
  - intros e. destruct e; cbn; split; discriminate.
  - intros x Hx. unfold mempool_strerror.
    destruct x as [|p|p]; [lia| |reflexivity].
    do 3 (destruct p as [p|p|]; try reflexivity; try lia).
Qed.

(** ** The argument checks of [mempool_init] *)

(** Whatever the arguments, a call of [mempool_init] that returns invokes
    no callback and returns one of four codes.  When it fails, it has
    written neither to the memory that holds the pool buffer nor through
    [pool_out], and the control block is either untouched or zeroed; when
    it succeeds, the handle it stores is the state buffer and the control
    block is initialized, with no hook and every block free. *)
Theorem init_failure_writes_nothing
    (state_buffer state_buffer_size pool_buffer pool_buffer_size
     blk_size align : Z) (pool_out : option Z) (m : memory)
    (r : result Z) :
  mempool_init state_buffer state_buffer_size pool_buffer pool_buffer_size
    blk_size align pool_out m = Some r ->
  r_trace r = [] /\
  (r_err r = MEMPOOL_OK \/ r_err r = MEMPOOL_ERR_NULL_PTR \/
   r_err r = MEMPOOL_ERR_INVALID_SIZE \/ r_err r = MEMPOOL_ERR_ALIGNMENT) /\
  (r_err r <> MEMPOOL_OK ->
   r_mem r = m /\ r_out r = pool_out /\
   (r_pool r = None \/ r_pool r = Some zero_pool)) /\
  (r_err r = MEMPOOL_OK ->
   pool_out <> None /\ r_out r = Some state_buffer /\
   exists p,
     r_pool r = Some p /\ initialized p = true /\ sync_enabled p = false /\
     free_blocks p = total_blocks p /\
     stats p
     = mk_stats (total_blocks p) 0 (total_blocks p) 0 0 0 (block_size p)).
Proof.
  unfold mempool_init. intros H.
  destruct pool_out as [out|].
  2:{ injection H as <-. cbn. repeat split; auto; try discriminate. }
  destruct ((state_buffer =? 0) || (pool_buffer =? 0)).
  { injection H as <-. cbn. repeat split; auto; try discriminate. }
  destruct (state_buffer_size <? sizeof_struct_mempool).
  { injection H as <-. cbn. repeat split; auto; try discriminate. }
  destruct ((pool_buffer_size =? 0) || (blk_size =? 0)).
  { injection H as <-. cbn. repeat split; auto; try discriminate. }
  destruct (negb (is_power_of_two align)).
  { injection H as <-. cbn. repeat split; auto; try discriminate. }
  destruct (negb (Z.land pool_buffer (size_t (align - 1)) =? 0)).
  { injection H as <-. cbn. repeat split; auto; try discriminate. }
  destruct (blk_size <? sizeof_free_node_t).
  { injection H as <-. cbn. repeat split; auto; try discriminate. }
  cbv zeta in H.
  destruct (udiv pool_buffer_size (align_up blk_size align))
    as [max_blocks|]; [|discriminate]. cbn [bind] in H.
  destruct (max_blocks =? 0).
  { injection H as <-. cbn. repeat split; auto; try discriminate. }
  destruct (layout_loop _ _ _ _ _) as [st|]; [|discriminate].
  cbn [bind] in H.
  destruct (negb (l_found st) || (l_n st =? 0)).
  { injection H as <-. cbn. repeat split; auto; try discriminate. }
  destruct ((UINT32_MAX <? l_n st) || (UINT32_MAX <? l_bitmap_bytes st)).
  { injection H as <-. cbn. repeat split; auto; try discriminate. }
  destruct (build_free_list _ _ _ _ _) as [prev m2].
  injection H as <-. cbn [r_trace r_err r_mem r_out r_pool].
  split; [reflexivity|]. split; [left; reflexivity|].
  split; [intros E; exfalso; apply E; reflexivity|].
  intros _. split; [discriminate|]. split; [reflexivity|].
  eexists. split; [reflexivity|]. fields. repeat split.
Qed.

Lemma init_failure_writes_nothing_witness :
  exists r,
    mempool_init 1000 128 4096 4096 4 8 (Some 77) demo_memory = Some r /\
    r_err r = MEMPOOL_ERR_INVALID_SIZE /\
    r_trace r = [] /\ r_mem r = demo_memory /\ r_out r = Some 77.
Proof.
  exists (mk_result MEMPOOL_ERR_INVALID_SIZE None demo_memory (Some 77) []).
  assert (H : mempool_init 1000 128 4096 4096 4 8 (Some 77) demo_memory
              = Some (mk_result MEMPOOL_ERR_INVALID_SIZE None demo_memory
                        (Some 77) [])) by reflexivity.
  destruct (init_failure_writes_nothing 1000 128 4096 4096 4 8 (Some 77)
              demo_memory _ H) as (Ht & _ & Hfail & _).
  destruct (Hfail ltac:(discriminate)) as (Hm & Ho & _).
  split; [exact H|]. split; [reflexivity|].
  split; [exact Ht|]. split; [exact Hm|exact Ho].
Defined.

(** The checks of [mempool_init] in the order the code makes them: a null
    pointer first, then the size of the state buffer against
    [mempool_state_size], then a zero pool size or block size, then an
    alignment that is not one of [2 ^ 0 .. 2 ^ 63], then a pool buffer that
    is not a multiple of the alignment, then a block too small for a
    free-list link.  Each rejection leaves the control block, the memory
    and [*pool_out] untouched; arguments that pass all of them make the
    call write the control block. *)
Theorem init_rejects_invalid_arguments
    (state_buffer state_buffer_size pool_buffer pool_buffer_size
     blk_size align : Z) (pool_out : option Z) (m : memory) :
  is_size_t align ->
  let call :=
    mempool_init state_buffer state_buffer_size pool_buffer pool_buffer_size
      blk_size align pool_out m in
  let rejected := fun e => call = Some (mk_result e None m pool_out []) in
  (state_buffer = 0 \/ pool_buffer = 0 \/ pool_out = None ->
   rejected MEMPOOL_ERR_NULL_PTR) /\
  (state_buffer <> 0 -> pool_buffer <> 0 -> pool_out <> None ->
   (state_buffer_size < mempool_state_size ->
    rejected MEMPOOL_ERR_INVALID_SIZE) /\
   (mempool_state_size <= state_buffer_size ->
    (pool_buffer_size = 0 \/ blk_size = 0 ->
     rejected MEMPOOL_ERR_INVALID_SIZE) /\
    (pool_buffer_size <> 0 -> blk_size <> 0 ->
     (~ (exists k, 0 <= k < 64 /\ align = 2 ^ k) ->
      rejected MEMPOOL_ERR_ALIGNMENT) /\
     ((exists k, 0 <= k < 64 /\ align = 2 ^ k) ->
      (pool_buffer mod align <> 0 -> rejected MEMPOOL_ERR_ALIGNMENT) /\
      (pool_buffer mod align = 0 ->
       (blk_size < sizeof_free_node_t ->
        rejected MEMPOOL_ERR_INVALID_SIZE) /\
       (sizeof_free_node_t <= blk_size ->
        forall r, call = Some r -> r_pool r <> None)))))).
Proof.
  intros Hal call rejected. unfold rejected, call, mempool_init.
  unfold mempool_state_size.
  split.
  { intros [H|[H|H]].
    - subst state_buffer. destruct pool_out; reflexivity.
    - subst pool_buffer. destruct pool_out; [|reflexivity].
      rewrite orb_true_r. reflexivity.
    - subst pool_out. reflexivity. }
  intros Hsb Hpb Hpo. destruct pool_out as [out|]; [|contradiction].
  apply Z.eqb_neq in Hsb. apply Z.eqb_neq in Hpb. rewrite Hsb, Hpb.
  cbn [orb]. split.
  { intros H. apply Z.ltb_lt in H. rewrite H. reflexivity. }
  intros H. apply Z.ltb_ge in H. rewrite H. split.
  { intros [E|E]; subst; [|rewrite orb_true_r]; reflexivity. }
  intros Hps Hbs. apply Z.eqb_neq in Hps. apply Z.eqb_neq in Hbs.
  rewrite Hps, Hbs. cbn [orb]. split.
  { intros Hnot. destruct (is_power_of_two align) eqn:E;
      [|reflexivity].
    exfalso. apply Hnot. apply is_power_of_two_inv; [|exact E].
    unfold is_size_t, SIZE_MAX in Hal. lia. }
  intros (k & Hk & Hak). subst align.
  rewrite is_power_of_two_pow2 by exact Hk. cbn [negb].
  rewrite land_pow2_pred by exact Hk. split.
  { intros Hm. apply Z.eqb_neq in Hm. rewrite Hm. reflexivity. }
  intros Hm. rewrite Hm. cbn [Z.eqb negb]. split.
  { intros Hlt. apply Z.ltb_lt in Hlt. rewrite Hlt. reflexivity. }
  intros Hge. apply Z.ltb_ge in Hge. rewrite Hge.
  intros r Hr. cbv zeta in Hr.
  destruct (udiv pool_buffer_size (align_up blk_size (2 ^ k)))
    as [max_blocks|]; [|discriminate]. cbn [bind] in Hr.
  destruct (max_blocks =? 0); [injection Hr as <-; discriminate|].
  destruct (layout_loop _ _ _ _ _) as [st|]; [|discriminate].
  cbn [bind] in Hr.
  destruct (negb (l_found st) || (l_n st =? 0));
    [injection Hr as <-; discriminate|].
  destruct ((UINT32_MAX <? l_n st) || (UINT32_MAX <? l_bitmap_bytes st));
    [injection Hr as <-; discriminate|].
  destruct (build_free_list _ _ _ _ _) as [prev m2].
  injection Hr as <-. discriminate.
Qed.

Lemma init_rejects_invalid_arguments_witness :
  is_size_t 7 /\
  mempool_init 1000 128 4096 4096 64 7 (Some 0) demo_memory
  = Some (mk_result MEMPOOL_ERR_ALIGNMENT None demo_memory (Some 0) []) /\
  mempool_init 1000 128 4097 4096 64 8 (Some 0) demo_memory
  = Some (mk_result MEMPOOL_ERR_ALIGNMENT None demo_memory (Some 0) []).
Proof.
  assert (H7 : is_size_t 7) by (unfold is_size_t, SIZE_MAX; lia).
  assert (H8 : is_size_t 8) by (unfold is_size_t, SIZE_MAX; lia).
  split; [exact H7|]. split.
  - destruct (init_rejects_invalid_arguments 1000 128 4096 4096 64 7
                (Some 0) demo_memory H7) as (_ & H).
    destruct (H ltac:(lia) ltac:(lia) ltac:(discriminate)) as (_ & H1).
    destruct (H1 ltac:(unfold mempool_state_size, sizeof_struct_mempool; lia))
      as (_ & H2).
    destruct (H2 ltac:(lia) ltac:(lia)) as (H3 & _).
    apply H3. intros (k & Hk & E).
    assert (k = 0 \/ k = 1 \/ k = 2 \/ 3 <= k) as [->|[->|[->|Hk3]]] by lia;
      try (cbn in E; lia).
    assert (2 ^ 3 <= 2 ^ k) by (apply Z.pow_le_mono_r; lia). lia.
  - destruct (init_rejects_invalid_arguments 1000 128 4097 4096 64 8
                (Some 0) demo_memory H8) as (_ & H).
    destruct (H ltac:(lia) ltac:(lia) ltac:(discriminate)) as (_ & H1).
    destruct (H1 ltac:(unfold mempool_state_size, sizeof_struct_mempool; lia))
      as (_ & H2).
    destruct (H2 ltac:(lia) ltac:(lia)) as (_ & H3).
    assert (Hk3 : 0 <= 3 < 64) by lia.
    destruct (H3 (ex_intro _ 3 (conj Hk3 eq_refl))) as (H4 & _).
    apply H4. cbn. lia.
Defined.

(** A block size so large that rounding it up to the alignment exceeds
    [SIZE_MAX] makes [align_up] return 0, and [mempool_init] then divides
    the pool size by it: the call is undefined. *)
Theorem init_undefined_when_block_size_wraps (a : init_args) (m : memory) :
  well_typed_args a -> planner_input a -> a_pool_buffer_size a <> 0 ->
  SIZE_MAX < a_block_size a + a_alignment a - 1 ->
  align_up (a_block_size a) (a_alignment a) = 0 /\ init a m = None.
Proof.
  intros Hwt Hpl Hne Hwrap.
  pose proof (init_checks_planner a Hwt Hpl Hne) as Hchk.
  destruct (init_checks_pass a Hwt Hchk) as (k & Hk & Hak & _).
  assert (HA : align_up (a_block_size a) (a_alignment a) = 0).
  { rewrite Hak. apply align_up_wraps; [exact Hk| |].
    - destruct Hwt as (_ & _ & _ & _ & Hbs & _).
      unfold is_size_t, SIZE_MAX in Hbs. lia.
    - rewrite <- Hak. unfold SIZE_MAX in Hwrap. lia. }
  split; [exact HA|].
  rewrite (init_searched a m Hchk). cbv zeta. rewrite HA. reflexivity.
Qed.

Lemma init_undefined_when_block_size_wraps_witness :
  well_typed_args wrapping_args /\ planner_input wrapping_args /\
  a_pool_buffer_size wrapping_args <> 0 /\
  SIZE_MAX < a_block_size wrapping_args + a_alignment wrapping_args - 1 /\
  align_up (2 ^ 64 - 1) 8 = 0 /\ init wrapping_args demo_memory = None.
Proof.
  assert (Hwt : well_typed_args wrapping_args).
  { unfold well_typed_args, is_size_t, SIZE_MAX, PTRDIFF_MAX, wrapping_args.
    cbn. lia. }
  assert (Hpl : planner_input wrapping_args).
  { unfold planner_input, wrapping_args, mempool_state_size,
      sizeof_struct_mempool, sizeof_free_node_t. cbn.
    split; [exists 3; split; [lia|reflexivity]|]. lia. }
  assert (Hne : a_pool_buffer_size wrapping_args <> 0) by (cbn; lia).
  assert (Hwrap : SIZE_MAX < a_block_size wrapping_args
                             + a_alignment wrapping_args - 1)
    by (unfold SIZE_MAX; cbn; lia).
  split; [exact Hwt|]. split; [exact Hpl|]. split; [exact Hne|].
  split; [exact Hwrap|].
  exact (init_undefined_when_block_size_wraps wrapping_args demo_memory
           Hwt Hpl Hne Hwrap).
Defined.

(** ** Calls without an initialized pool *)

(** On a null handle every call returns [NULL_PTR], and on a control block
    that is not initialized (such as the zeroed one a failed
    [mempool_init] leaves) every call returns [NOT_INITIALIZED], a null
    output pointer or a null block being reported first; nothing is
    written, no callback is invoked, and [mempool_contains] is false. *)
Theorem calls_without_initialized_pool_are_rejected
    (pool : option mempool) (m : memory) :
  (pool = None \/ exists p, pool = Some p /\ initialized p = false) ->
  let e := match pool with
           | None => MEMPOOL_ERR_NULL_PTR
           | Some _ => MEMPOOL_ERR_NOT_INITIALIZED
           end in
  (forall block,
      mempool_alloc pool block m
      = Some (mk_result
                (match block with None => MEMPOOL_ERR_NULL_PTR | Some _ => e end)
                pool m block [])) /\
  (forall block,
      mempool_free pool block m
      = Some (mk_result (if block =? 0 then MEMPOOL_ERR_NULL_PTR else e)
                pool m None [])) /\
  (forall stats_out,
      mempool_get_stats pool stats_out m
      = Some (mk_result
                (match stats_out with
                 | None => MEMPOOL_ERR_NULL_PTR
                 | Some _ => e
                 end) pool m stats_out [])) /\
  mempool_reset pool m = Some (mk_result e pool m None []) /\
  (forall lock_fn unlock_fn ctx,
      mempool_set_sync pool lock_fn unlock_fn ctx m
      = Some (mk_result e pool m None [])) /\
  (forall ptr, mempool_contains pool ptr = false).
Proof.
  intros [->|(p & -> & Hi)] e; unfold e.
  - repeat split.
    + intros [b|]; reflexivity.
    + intros block. cbn. destruct (block =? 0); reflexivity.
    + intros [st|]; reflexivity.
  - unfold mempool_alloc, mempool_free, mempool_get_stats, mempool_reset,
      mempool_set_sync, mempool_contains. rewrite Hi. cbn [negb].
    repeat split.
    + intros [b|]; reflexivity.
    + intros block. destruct (block =? 0); reflexivity.
    + intros [st|]; reflexivity.
    + intros ptr. rewrite orb_true_r. reflexivity.
Qed.

Lemma calls_without_initialized_pool_are_rejected_witness :
  mempool_alloc (Some zero_pool) (Some 5) demo_memory
  = Some (mk_result MEMPOOL_ERR_NOT_INITIALIZED (Some zero_pool) demo_memory
            (Some 5) []) /\
  mempool_free (Some zero_pool) 4104 demo_memory
  = Some (mk_result MEMPOOL_ERR_NOT_INITIALIZED (Some zero_pool) demo_memory
            None []) /\
  mempool_reset (Some zero_pool) demo_memory
  = Some (mk_result MEMPOOL_ERR_NOT_INITIALIZED (Some zero_pool) demo_memory
            None []).
Proof.
  destruct (calls_without_initialized_pool_are_rejected (Some zero_pool)
              demo_memory
              (or_intror (ex_intro _ zero_pool (conj eq_refl eq_refl))))
    as (Ha & Hf & _ & Hr & _).
  split; [exact (Ha (Some 5))|]. split; [exact (Hf 4104)|exact Hr].
Defined.

(** * Layout, validation of pointers and what the calls write *)

(** ** The layout of a pool inside the caller's buffer *)

Lemma init_ok_checks (a : init_args) (m : memory) (s : state) :
  init_ok a m s -> init_checks a = None.
Proof.
  intros (r & Hinit & Herr & _).
  destruct (init_checks a) as [e|] eqn:Hchk; [|reflexivity].
  rewrite (init_rejected a m e Hchk) in Hinit. injection Hinit as <-.
  cbn [r_err] in Herr. subst e. unfold init_checks in Hchk.
  repeat match type of Hchk with
         | (if ?c then _ else _) = _ => destruct c; try discriminate
         end.
Qed.

Lemma init_ok_aligned (a : init_args) (m : memory) (s : state) (k : Z) :
  well_typed_args a -> init_ok a m s ->
  0 <= k < 64 -> a_alignment a = 2 ^ k ->
  align_up (a_block_size a) (a_alignment a)
  = spec_aligned_block_size (a_block_size a) (2 ^ k).
Proof.
  intros Hwt Hok Hk Hak.
  pose proof (init_ok_checks a m s Hok) as Hchk.
  destruct Hok as (r & Hinit & _).
  pose proof Hwt as (_ & _ & _ & _ & Hbs & _).
  unfold is_size_t, SIZE_MAX in Hbs.
  destruct (Z_lt_ge_dec (a_block_size a + 2 ^ k - 1) (2 ^ 64)) as [H|H].
  - rewrite Hak. apply align_up_spec; lia.
  - exfalso. rewrite (init_searched a m Hchk) in Hinit. cbv zeta in Hinit.
    rewrite Hak in Hinit. rewrite align_up_wraps in Hinit by lia.
    discriminate.
Qed.

Lemma spec_pad_aligns (al n : Z) :
  0 < al -> (spec_bitmap_bytes n + spec_pad al n) mod al = 0.
Proof.
  intros Hp. unfold spec_pad. set (bb := spec_bitmap_bytes n).
  pose proof (Z.div_mod bb al ltac:(lia)) as Hdm.
  pose proof (Z.mod_pos_bound bb al Hp) as Hmb.
  destruct (Z.eq_dec (bb mod al) 0) as [E|E].
  - rewrite E, Z.sub_0_r, Z.mod_same, Z.add_0_r by lia. exact E.
  - rewrite (Z.mod_small (al - bb mod al)) by lia.
    replace (bb + (al - bb mod al)) with ((bb / al + 1) * al) by lia.
    apply Z.mod_mul. lia.
Qed.

(** The geometry [mempool_init] gives a pool whose block size fits. *)
Lemma init_geometry (a : init_args) (m : memory) (s : state) :
  well_typed_args a -> init_ok a m s -> block_size_fits a ->
  let p := st_pool s in
  0 < a_alignment a /\
  bitmap p = a_pool_buffer a /\ pool_buffer_start p = a_pool_buffer a /\
  alignment p = a_alignment a /\
  a_block_size a <= block_size p < a_block_size a + a_alignment a /\
  block_size p mod a_alignment a = 0 /\
  blocks_start p mod a_alignment a = 0 /\
  blocks_start p < a_pool_buffer a + bitmap_bytes p + a_alignment a /\
  blocks_end p <= a_pool_buffer a + a_pool_buffer_size a.
Proof.
  intros Hwt Hok Hfit p. unfold block_size_fits in Hfit.
  pose proof (init_ok_checks a m s Hok) as Hchk.
  destruct (init_checks_pass a Hwt Hchk)
    as (k' & Hk' & Hak' & Hmod & _ & Hlink & _).
  destruct (init_ok_facts a m s Hwt Hok)
    as (k & n & Hk & Hak & HA8 & HAa & HAmax & Hn & Hreq & _ & Hpb & Hs).
  assert (k' = k).
  { rewrite Hak in Hak'. apply (Z.pow_inj_r 2); lia. }
  subst k'.
  rewrite (init_ok_aligned a m s k Hwt Hok Hk Hak) in Hfit.
  set (A := spec_aligned_block_size (a_block_size a) (2 ^ k)) in *.
  assert (Hp : 0 < 2 ^ k) by (apply Z.pow_pos_nonneg; lia).
  pose proof (spec_pad_range (2 ^ k) n Hp) as Hpad.
  pose proof (spec_bitmap_bytes_range n ltac:(lia)) as Hbb.
  pose proof (spec_pad_aligns (2 ^ k) n Hp) as Hal.
  pose proof (spec_aligned_range (a_block_size a) (2 ^ k) Hp
                ltac:(unfold sizeof_free_node_t in Hlink; lia)) as (HAr & _).
  fold A in HAr.
  pose proof Hwt as (_ & _ & _ & _ & _ & Hal64 & Hobj & Hend).
  unfold spec_required in Hreq. unfold SIZE_MAX in *.
  assert (HnA : 0 <= n * A) by nia.
  unfold p, blocks_end. rewrite Hs. unfold init_pool_of.
  cbn [l_n l_bitmap_bytes l_blocks_offset st_pool].
  cbn [bitmap pool_buffer_start alignment block_size blocks_start
       total_blocks bitmap_bytes].
  rewrite (uint32_t_small n) by lia.
  rewrite (uint32_t_small A) by lia.
  rewrite (uint32_t_small (spec_bitmap_bytes n)) by lia.
  rewrite (size_t_small (a_pool_buffer a + _)) by lia.
  rewrite Hak. rewrite (uint32_t_small (2 ^ k)) by lia.
  split; [exact Hp|]. split; [reflexivity|]. split; [reflexivity|].
  split; [reflexivity|]. split; [exact HAr|].
  split; [unfold A, spec_aligned_block_size; apply Z.mod_mul; lia|].
  split.
  { rewrite <- Zplus_mod_idemp_l, Hmod, Z.add_0_l.
    exact Hal. }
  split; lia.
Qed.

(** What is known of every state a client can reach: the counters. *)
Lemma reached_counters_ok (a : init_args) (m0 : memory) (s : state) :
  well_typed_args a -> reached a m0 s -> counters_ok s.
Proof.
  intros Hwt (s0 & os & rs & Hok & Hrun).
  apply (run_counters_ok os s0 s rs); [|exact Hrun].
  apply (init_counters_ok a m0 s0 Hwt Hok).
Qed.

(** When the block size fits: the representation invariant and the
    geometry. *)
Lemma reached_pool_inv (a : init_args) (m0 : memory) (s : state) :
  well_typed_args a -> block_size_fits a -> reached a m0 s ->
  pool_inv s /\
  let p := st_pool s in
  0 < a_alignment a /\
  bitmap p = a_pool_buffer a /\ pool_buffer_start p = a_pool_buffer a /\
  alignment p = a_alignment a /\
  a_block_size a <= block_size p < a_block_size a + a_alignment a /\
  block_size p mod a_alignment a = 0 /\
  blocks_start p mod a_alignment a = 0 /\
  blocks_start p < a_pool_buffer a + bitmap_bytes p + a_alignment a /\
  blocks_end p <= a_pool_buffer a + a_pool_buffer_size a.
Proof.
  intros Hwt Hfit (s0 & os & rs & Hok & Hrun).
  destruct (init_pool_inv a m0 s0 Hwt Hok Hfit) as (Hinv0 & _ & _).
  split; [apply (run_pool_inv os s0 s rs Hinv0 Hrun)|].
  pose proof (init_geometry a m0 s0 Hwt Hok Hfit) as Hgeo.
  assert (Hi0 : initialized (st_pool s0) = true) by apply Hinv0.
  destruct (run_geometry os s0 s rs Hi0 Hrun)
    as (E1 & E2 & E3 & E4 & E5 & E6 & E7 & _).
  cbv zeta in *. unfold blocks_end in *.
  rewrite E1, E2, E3, E4, E5, E6, E7. exact Hgeo.
Qed.

Lemma reached_typed (a : init_args) (m0 : memory) (s : state) :
  well_typed_args a -> byte_memory m0 -> reached a m0 s -> typed_state s.
Proof.
  intros Hwt Hb (s0 & os & rs & Hok & Hrun).
  apply (run_typed os s0 s rs); [|apply (init_typed a m0 s0 Hwt Hb Hok)|exact Hrun].
  apply (init_counters_ok a m0 s0 Hwt Hok).
Qed.

Lemma demo_reached : reached demo_args demo_memory demo_state.
Proof.
  exists demo_state, [], []. split; [exact demo_state_init_ok|reflexivity].
Defined.

Lemma demo_fits : block_size_fits demo_args.
Proof. unfold block_size_fits. vm_compute. discriminate. Defined.

(** In every state reached from an [init] whose block size fits, every
    block is a multiple of the requested alignment, holds at least the
    requested number of bytes, lies behind the bitmap and inside the
    caller's pool buffer, and overlaps no other block; its address is
    accepted by [mempool_contains] and [mempool_block_index] maps it back
    to its index. *)
Theorem blocks_are_aligned_and_inside_buffer
    (a : init_args) (m0 : memory) (s : state) (i : Z) :
  well_typed_args a -> block_size_fits a -> reached a m0 s ->
  0 <= i < total_blocks (st_pool s) ->
  let p := st_pool s in
  let b := block_addr p i in
  b mod a_alignment a = 0 /\
  a_block_size a <= block_size p /\
  a_pool_buffer a + bitmap_bytes p <= b /\
  b + block_size p <= a_pool_buffer a + a_pool_buffer_size a /\
  (forall j, 0 <= j < total_blocks p -> j <> i ->
             b + block_size p <= block_addr p j \/
             block_addr p j + block_size p <= b) /\
  mempool_contains (Some p) b = true /\
  mempool_block_index p b = Some i.
Proof.
  intros Hwt Hfit Hre Hi p b.
  destruct (reached_pool_inv a m0 s Hwt Hfit Hre)
    as ((Hc & Hb8 & _) & Hal & Hbm & _ & _ & Hbs & Hbmod & Hsmod & _ & Hend).
  fold p in Hbm, Hbs, Hbmod, Hsmod, Hend, Hb8.
  assert (Hshape : shape_ok p) by apply Hc.
  unfold sizeof_free_node_t in Hb8.
  pose proof (block_addr_bounds p i Hshape Hi) as (Hlo & Hhi & Hty).
  fold b in Hlo, Hhi, Hty.
  destruct (block_addr_checked p i Hshape ltac:(lia) Hi)
    as (Hr & _ & Hidx).
  pose proof (shape_blocks_start p Hshape) as (Hbb & _ & _).
  unfold blocks_end in Hend.
  split.
  { unfold b, block_addr.
    rewrite <- Zplus_mod_idemp_l, Hsmod, Z.add_0_l.
    rewrite <- Zmult_mod_idemp_r, Hbmod, Z.mul_0_r. apply Z.mod_0_l. lia. }
  split; [lia|]. split; [lia|]. split; [lia|]. split.
  { intros j Hj Hne. unfold b, block_addr. nia. }
  split.
  { unfold mempool_contains.
    assert (E0 : (b =? 0) = false) by (apply Z.eqb_neq; lia).
    assert (Ei : initialized p = true) by apply Hshape.
    rewrite E0, Ei. cbn [negb orb].
    unfold in_blocks_range in Hr. fold b in Hr.
    apply negb_true_iff, orb_false_iff in Hr. destruct Hr as [H1 H2].
    apply Z.ltb_ge in H1. apply Z.leb_gt in H2.
    apply andb_true_iff. split; [apply Z.leb_le|apply Z.ltb_lt]; assumption. }
  rewrite block_index_defined by lia. fold (index_of p b).
  unfold b. rewrite Hidx. reflexivity.
Qed.

Lemma blocks_are_aligned_and_inside_buffer_witness :
  let p := st_pool demo_state in
  well_typed_args demo_args /\ block_size_fits demo_args /\
  reached demo_args demo_memory demo_state /\
  0 <= 62 < total_blocks p /\
  block_addr p 62 = 8072 /\
  8072 mod 8 = 0 /\ 64 <= block_size p /\
  4096 + bitmap_bytes p <= 8072 /\ 8072 + block_size p <= 4096 + 4096 /\
  mempool_contains (Some p) 8072 = true /\
  mempool_block_index p 8072 = Some 62.
Proof.
  intros p.
  assert (Hi : 0 <= 62 < total_blocks p) by (vm_compute; split; [discriminate|reflexivity]).
  assert (Hb : block_addr p 62 = 8072) by (vm_compute; reflexivity).
  destruct (blocks_are_aligned_and_inside_buffer demo_args demo_memory
              demo_state 62 demo_args_well_typed demo_fits demo_reached Hi)
    as (H1 & H2 & H3 & H4 & _ & H6 & H7).
  fold p in H1, H2, H3, H4, H6, H7. rewrite Hb in H1, H3, H4, H6, H7.
  split; [exact demo_args_well_typed|]. split; [exact demo_fits|].
  split; [exact demo_reached|]. split; [exact Hi|]. split; [exact Hb|].
  split; [exact H1|]. split; [exact H2|]. split; [exact H3|].
  split; [exact H4|]. split; [exact H6|exact H7].
Defined.

(** ** The blocks in use *)

(** Under the representation invariant the set bits are the blocks that
    are not on the free list, so their number is what is left of the
    total. *)
Lemma pool_inv_count (s : state) :
  pool_inv s ->
  free_blocks (st_pool s) + count_allocated (st_pool s) (st_mem s)
  = total_blocks (st_pool s).
Proof.
  intros (Hc & _ & idxs & Hl & Hnd & Hrange & Hlen & Hbits).
  set (p := st_pool s) in *. set (m := st_mem s) in *.
  assert (Ht : 1 <= total_blocks p) by apply Hc.
  unfold count_allocated.
  pose proof (filter_length (bit_set p m) (indices (total_blocks p))) as Hfl.
  pose proof (length_indices (total_blocks p) ltac:(lia)) as Hli.
  set (free := filter (fun i => negb (bit_set p m i))
                 (indices (total_blocks p))) in *.
  assert (H1 : (length idxs <= length free)%nat).
  { apply NoDup_incl_length; [exact Hnd|]. intros i Hi.
    apply filter_In. split; [apply In_indices, Hrange, Hi|].
    destruct (bit_set p m i) eqn:E; [|reflexivity].
    exfalso. apply (Hbits i (Hrange i Hi)) in E. contradiction. }
  assert (H2 : (length free <= length idxs)%nat).
  { apply NoDup_incl_length;
      [apply NoDup_filter, NoDup_indices|].
    intros i Hi. apply filter_In in Hi. destruct Hi as [Hin Hb].
    apply In_indices in Hin. apply negb_true_iff in Hb.
    destruct (In_dec Z.eq_dec i idxs) as [Hy|Hn]; [exact Hy|exfalso].
    apply (Hbits i Hin) in Hn. congruence. }
  lia.
Qed.

(** In every state reached from an [init] whose block size fits, the
    [used_blocks] statistic is the number of blocks whose allocation bit is
    set, [free_blocks] is the number of nodes on the free list, and the
    two add up to the total. *)
Theorem used_blocks_counts_set_bits
    (a : init_args) (m0 : memory) (s : state) :
  well_typed_args a -> block_size_fits a -> reached a m0 s ->
  let p := st_pool s in
  s_used_blocks (stats p) = count_allocated p (st_mem s) /\
  s_free_blocks (stats p) = Z.of_nat (length (free_list_nodes s)) /\
  free_blocks p = Z.of_nat (length (free_list_nodes s)) /\
  count_allocated p (st_mem s) + Z.of_nat (length (free_list_nodes s))
  = total_blocks p.
Proof.
  intros Hwt Hfit Hre p.
  destruct (reached_pool_inv a m0 s Hwt Hfit Hre) as (Hinv & _).
  pose proof (pool_inv_count s Hinv) as Hcount.
  destruct (pool_inv_free_list s Hinv) as (_ & Hlen & _).
  destruct Hinv as (Hc & _).
  destruct Hc as (_ & _ & _ & _ & Hsf & Hsu & _).
  fold p in Hcount, Hlen, Hsf, Hsu. cbv zeta in Hlen. lia.
Qed.

Lemma used_blocks_counts_set_bits_witness :
  let s := state_after_run demo_state [OpAlloc; OpAlloc; OpFree 8072] in
  well_typed_args demo_args /\ block_size_fits demo_args /\
  reached demo_args demo_memory s /\
  s_used_blocks (stats (st_pool s)) = 1 /\
  count_allocated (st_pool s) (st_mem s) = 1 /\
  Z.of_nat (length (free_list_nodes s)) = 62.
Proof.
  intros s.
  assert (Hrun : run demo_state [OpAlloc; OpAlloc; OpFree 8072]
                 = Some (s, responses_of_run demo_state
                               [OpAlloc; OpAlloc; OpFree 8072])).
  { apply run_defined_eq. intros E. vm_compute in E. discriminate. }
  assert (Hre : reached demo_args demo_memory s).
  { exists demo_state, [OpAlloc; OpAlloc; OpFree 8072],
      (responses_of_run demo_state [OpAlloc; OpAlloc; OpFree 8072]).
    split; [exact demo_state_init_ok|exact Hrun]. }
  assert (Hu : s_used_blocks (stats (st_pool s)) = 1)
    by (vm_compute; reflexivity).
  destruct (used_blocks_counts_set_bits demo_args demo_memory s
              demo_args_well_typed demo_fits Hre) as (H1 & H2 & H3 & H4).
  assert (Ht : total_blocks (st_pool s) = 63) by (vm_compute; reflexivity).
  split; [exact demo_args_well_typed|]. split; [exact demo_fits|].
  split; [exact Hre|]. split; [exact Hu|].
  rewrite Hu in H1. rewrite Ht in H4. split; [symmetry; exact H1|].
  rewrite <- H1 in H4. lia.
Defined.

(** ** What [mempool_alloc] hands out *)

(** In every state reached from an [init] whose block size fits,
    [mempool_alloc] is defined; it reports [OUT_OF_MEMORY], changing
    nothing, exactly when no block is free, and then every block is in
    use; otherwise it returns [OK] with the address of a block whose bit
    was clear, sets that bit and no other, and moves one block from free
    to used. *)
Theorem alloc_returns_free_block
    (a : init_args) (m0 : memory) (s : state) :
  well_typed_args a -> block_size_fits a -> reached a m0 s ->
  let p := st_pool s in
  let m := st_mem s in
  exists s' rsp,
    step s OpAlloc = Some (s', rsp) /\
    (free_blocks p = 0 ->
     rsp_err rsp = MEMPOOL_ERR_OUT_OF_MEMORY /\ rsp_block rsp = None /\
     s' = s /\ count_allocated p m = total_blocks p) /\
    (free_blocks p <> 0 ->
     exists i,
       0 <= i < total_blocks p /\
       rsp_err rsp = MEMPOOL_OK /\ rsp_block rsp = Some (block_addr p i) /\
       bit_set p m i = false /\
       bit_set (st_pool s') (st_mem s') i = true /\
       (forall j, 0 <= j < total_blocks p -> j <> i ->
                  bit_set (st_pool s') (st_mem s') j = bit_set p m j) /\
       free_blocks (st_pool s') = free_blocks p - 1 /\
       s_used_blocks (stats (st_pool s')) = s_used_blocks (stats p) + 1).
Proof.
  intros Hwt Hfit Hre.
  destruct (reached_pool_inv a m0 s Hwt Hfit Hre) as (Hinv & _).
  pose proof (pool_inv_count s Hinv) as Hcount.
  destruct Hinv as (Hc & Hb8 & idxs & Hfl).
  assert (Hshape : shape_ok (st_pool s)) by apply Hc.
  assert (Hi : initialized (st_pool s) = true) by apply Hshape.
  pose proof Hfl as (Hl & Hnd & Hrange & Hlen & Hbits).
  pose proof (step_alloc s Hi) as Hsa.
  pose proof (pool_inv_alloc s idxs Hc Hb8 Hfl) as Hpa.
  pose proof Hc as (_ & Hf0 & _ & _ & _ & Hsu & _).
  destruct s as [p m]. cbv zeta in *. cbn [st_pool st_mem] in *.
  unfold sizeof_free_node_t in Hb8.
  destruct Hsa as [(Hempty & Hstep)|[(_ & _ & Hz & _)|
    (Hnz & Hfnz & Hbnz & Hstep)]].
  - (* nothing to hand out *)
    assert (Hfree0 : free_blocks p = 0).
    { destruct Hempty as [E|E]; [|exact E].
      destruct idxs as [|i rest]; [cbn [length] in Hlen; lia|].
      cbn [map lseg] in Hl. destruct Hl as (Hh & Hne & _). congruence. }
    eexists _, _. split; [exact Hstep|]. cbn [rsp_err rsp_block].
    split; [intros _; repeat split; lia|]. intros Hne. contradiction.
  - lia.
  - destruct (Hpa Hnz)
      as (i & rest & -> & Hhead & Hidx & Hir & _ & Hfl').
    eexists _, _. split; [exact Hstep|]. cbn [rsp_err rsp_block].
    split; [intros E; contradiction|]. intros _.
    rewrite Hidx. exists i. split; [exact Hir|].
    split; [reflexivity|]. split; [rewrite Hhead; reflexivity|].
    inversion Hnd as [|i' rest' Hnotin Hnd']; subst i' rest'.
    assert (Hclear : bit_set p m i = false).
    { destruct (bit_set p m i) eqn:E; [|reflexivity].
      exfalso. apply (Hbits i Hir) in E. apply E. left. reflexivity. }
    split; [exact Hclear|].
    cbn [st_pool st_mem].
    assert (Hmem : mem_after_alloc p m i
                   = store_byte m (bitmap p + i / 8)
                       (uint8_t (Z.lor (load_byte m (bitmap p + i / 8))
                                   (uint8_t (Z.shiftl 1 (i mod 8)))))).
    { unfold mem_after_alloc.
      assert (E : (i / 8 <? bitmap_bytes p) = true).
      { apply Z.ltb_lt. destruct Hshape as (_ & _ & _ & Hbm & _).
        rewrite Hbm. apply bitmap_bytes_bound. exact Hir. }
      rewrite E. reflexivity. }
    assert (Hbit : forall j,
               bit_set (pool_after_alloc p m) (mem_after_alloc p m i) j
               = bit_set p m j || (j =? i)).
    { intros j.
      rewrite (bit_set_fields p (pool_after_alloc p m)) by reflexivity.
      rewrite Hmem. apply bit_set_after_set. }
    split; [rewrite Hbit, Z.eqb_refl; apply orb_true_r|].
    split.
    { intros j _ Hne. rewrite Hbit.
      apply Z.eqb_neq in Hne. rewrite Hne. apply orb_false_r. }
    destruct Hshape as (_ & Ht & _).
    pose proof (count_allocated_bounds p m ltac:(lia)) as Hcb.
    assert (Hf : 1 <= free_blocks p <= UINT32_MAX) by lia.
    cbn [pool_after_alloc free_blocks stats s_used_blocks total_blocks].
    rewrite (uint32_t_small (free_blocks p - 1)) by lia.
    split; [reflexivity|].
    rewrite Hsu. rewrite uint32_t_small by lia. ring.
Qed.

Lemma alloc_returns_free_block_witness :
  well_typed_args demo_args /\ block_size_fits demo_args /\
  reached demo_args demo_memory demo_state /\
  free_blocks (st_pool demo_state) <> 0 /\
  exists s' rsp i,
    step demo_state OpAlloc = Some (s', rsp) /\
    0 <= i < total_blocks (st_pool demo_state) /\
    rsp_err rsp = MEMPOOL_OK /\
    rsp_block rsp = Some (block_addr (st_pool demo_state) i) /\
    bit_set (st_pool demo_state) (st_mem demo_state) i = false /\
    bit_set (st_pool s') (st_mem s') i = true.
Proof.
  assert (Hne : free_blocks (st_pool demo_state) <> 0)
    by (vm_compute; discriminate).
  destruct (alloc_returns_free_block demo_args demo_memory demo_state
              demo_args_well_typed demo_fits demo_reached)
    as (s' & rsp & Hstep & _ & Hok).
  destruct (Hok Hne) as (i & Hi & He & Hb & Hc & Hs & _).
  split; [exact demo_args_well_typed|]. split; [exact demo_fits|].
  split; [exact demo_reached|]. split; [exact Hne|].
  exists s', rsp, i. repeat split; try assumption; apply Hi.
Defined.

(** ** The pointers [mempool_free] accepts *)

(** In every state reached from an [init] whose block size fits,
    [mempool_free] is defined for every pointer.  It returns [NULL_PTR]
    for a null pointer; for the address of block [i] it returns [OK] when
    the bit of [i] is set and [DOUBLE_FREE] when it is clear; for every
    other pointer, inside a block or outside the pool, it returns
    [INVALID_BLOCK].  Only [OK] changes the pool, and the null and invalid
    cases return before the lock is taken. *)
Theorem free_accepts_exactly_block_addresses
    (a : init_args) (m0 : memory) (s : state) (block : Z) :
  well_typed_args a -> block_size_fits a -> reached a m0 s ->
  let p := st_pool s in
  let m := st_mem s in
  exists s' rsp,
    step s (OpFree block) = Some (s', rsp) /\
    (block = 0 -> rsp_err rsp = MEMPOOL_ERR_NULL_PTR) /\
    (forall i, 0 <= i < total_blocks p -> block = block_addr p i ->
       (bit_set p m i = true -> rsp_err rsp = MEMPOOL_OK) /\
       (bit_set p m i = false -> rsp_err rsp = MEMPOOL_ERR_DOUBLE_FREE)) /\
    (block <> 0 ->
     (forall i, 0 <= i < total_blocks p -> block <> block_addr p i) ->
     rsp_err rsp = MEMPOOL_ERR_INVALID_BLOCK) /\
    (rsp_err rsp <> MEMPOOL_OK -> s' = s) /\
    (rsp_err rsp = MEMPOOL_ERR_NULL_PTR \/
     rsp_err rsp = MEMPOOL_ERR_INVALID_BLOCK -> rsp_trace rsp = []).
Proof.
  intros Hwt Hfit Hre.
  destruct (reached_pool_inv a m0 s Hwt Hfit Hre) as ((Hc & Hb8 & _) & _).
  unfold sizeof_free_node_t in Hb8.
  assert (Hshape : shape_ok (st_pool s)) by apply Hc.
  assert (Hi : initialized (st_pool s) = true) by apply Hshape.
  pose proof (step_free s block Hi) as Hsf. clear Hc Hre.
  destruct s as [p m]. cbv zeta in *. cbn [st_pool st_mem] in *.
  assert (Haddr : forall i, 0 <= i < total_blocks p ->
                            block = block_addr p i ->
                            block <> 0 /\ in_blocks_range p block = true /\
                            on_block_boundary p block = true /\
                            index_of p block = i).
  { intros i Hir ->.
    pose proof (block_addr_bounds p i Hshape Hir) as (_ & _ & Hty).
    destruct (block_addr_checked p i Hshape ltac:(lia) Hir) as (H1 & H2 & H3).
    repeat split; try assumption; lia. }
  destruct Hsf
    as [(Hz & Hstep)|[(Hnz & Hbad & Hstep)|(Hnz & Hr & Hb & Hstep)]].
  - (* null *)
    eexists _, _. split; [exact Hstep|]. cbn [rsp_err rsp_trace].
    split; [reflexivity|]. split.
    { intros i Hir E. destruct (Haddr i Hir E) as (Hne & _). contradiction. }
    split; [intros Hne; contradiction|].
    split; [reflexivity|]. reflexivity.
  - (* fails a check *)
    destruct Hstep as [Hstep|(_ & Hz)]; [|lia].
    eexists _, _. split; [exact Hstep|]. cbn [rsp_err rsp_trace].
    split; [intros E; contradiction|]. split.
    { intros i Hir E. destruct (Haddr i Hir E) as (_ & H1 & H2 & _).
      destruct Hbad as [Hbad|Hbad]; congruence. }
    split; [reflexivity|]. split; reflexivity.
  - (* passes both checks *)
    destruct (checked_index p block Hshape Hr Hb)
      as (_ & Hidx & Hbyte & Hblock).
    apply Z.leb_gt in Hbyte. rewrite Hbyte in Hstep.
    destruct (bit_set p m (index_of p block)) eqn:Ebit.
    + eexists _, _. split; [exact Hstep|]. cbn [rsp_err rsp_trace].
      split; [intros E; contradiction|]. split.
      { intros i Hir E. destruct (Haddr i Hir E) as (_ & _ & _ & Hi').
        rewrite <- Hi'. split; [reflexivity|]. intros E'. congruence. }
      split.
      { intros _ Hnone. exfalso. apply (Hnone _ Hidx). exact Hblock. }
      split; [intros E; exfalso; apply E; reflexivity|].
      intros [E|E]; discriminate E.
    + eexists _, _. split; [exact Hstep|]. cbn [rsp_err rsp_trace].
      split; [intros E; contradiction|]. split.
      { intros i Hir E. destruct (Haddr i Hir E) as (_ & _ & _ & Hi').
        rewrite <- Hi'. split; [intros E'; congruence|reflexivity]. }
      split.
      { intros _ Hnone. exfalso. apply (Hnone _ Hidx). exact Hblock. }
      split; [reflexivity|].
      intros [E|E]; discriminate E.
Qed.

Lemma free_accepts_exactly_block_addresses_witness :
  let s := state_after_run demo_state [OpAlloc] in
  well_typed_args demo_args /\ block_size_fits demo_args /\
  reached demo_args demo_memory s /\
  (exists s' rsp,
      step s (OpFree 8073) = Some (s', rsp) /\
      rsp_err rsp = MEMPOOL_ERR_INVALID_BLOCK /\ s' = s /\
      rsp_trace rsp = []) /\
  (exists s' rsp,
      step s (OpFree 8072) = Some (s', rsp) /\ rsp_err rsp = MEMPOOL_OK).
Proof.
  intros s.
  assert (Hrun : run demo_state [OpAlloc]
                 = Some (s, responses_of_run demo_state [OpAlloc])).
  { apply run_defined_eq. intros E. vm_compute in E. discriminate. }
  assert (Hre : reached demo_args demo_memory s).
  { exists demo_state, [OpAlloc], (responses_of_run demo_state [OpAlloc]).
    split; [exact demo_state_init_ok|exact Hrun]. }
  assert (Ht : total_blocks (st_pool s) = 63) by (vm_compute; reflexivity).
  assert (Hbs : blocks_start (st_pool s) = 4104) by (vm_compute; reflexivity).
  assert (Hsz : block_size (st_pool s) = 64) by (vm_compute; reflexivity).
  split; [exact demo_args_well_typed|]. split; [exact demo_fits|].
  split; [exact Hre|]. split.
  - destruct (free_accepts_exactly_block_addresses demo_args demo_memory s
                8073 demo_args_well_typed demo_fits Hre)
      as (s' & rsp & Hstep & _ & _ & Hinv & Hsame & Htr).
    assert (He : rsp_err rsp = MEMPOOL_ERR_INVALID_BLOCK).
    { apply Hinv; [lia|]. intros i Hi. unfold block_addr.
      rewrite Hbs, Hsz. lia. }
    exists s', rsp. split; [exact Hstep|]. split; [exact He|].
    split; [apply Hsame; rewrite He; discriminate|].
    apply Htr. right. exact He.
  - destruct (free_accepts_exactly_block_addresses demo_args demo_memory s
                8072 demo_args_well_typed demo_fits Hre)
      as (s' & rsp & Hstep & _ & Haddr & _).
    exists s', rsp. split; [exact Hstep|].
    assert (Hi : 0 <= 62 < total_blocks (st_pool s)) by (rewrite Ht; lia).
    assert (Hb : 8072 = block_addr (st_pool s) 62)
      by (unfold block_addr; rewrite Hbs, Hsz; reflexivity).
    destruct (Haddr 62 Hi Hb) as (Hok & _). apply Hok.
    vm_compute. reflexivity.
Defined.

(** ** [mempool_contains] *)

(** In every state reached from an [init] whose block size fits,
    [mempool_contains] is true exactly of the addresses inside some block,
    the first byte of a block or any byte after it; such an address lies
    in the caller's pool buffer, behind the bitmap.  A pointer it rejects
    that is not null is rejected by [mempool_free] with [INVALID_BLOCK]. *)
Theorem contains_iff_inside_a_block
    (a : init_args) (m0 : memory) (s : state) :
  well_typed_args a -> block_size_fits a -> reached a m0 s ->
  let p := st_pool s in
  (forall ptr,
      mempool_contains (Some p) ptr = true <->
      blocks_start p <= ptr < blocks_end p) /\
  (forall ptr,
      mempool_contains (Some p) ptr = true <->
      exists i d, 0 <= i < total_blocks p /\ 0 <= d < block_size p /\
                  ptr = block_addr p i + d) /\
  (forall ptr,
      mempool_contains (Some p) ptr = true ->
      in_pool_buffer a ptr /\ a_pool_buffer a + bitmap_bytes p <= ptr) /\
  (forall ptr,
      ptr <> 0 -> mempool_contains (Some p) ptr = false ->
      step s (OpFree ptr)
      = Some (s, mk_response MEMPOOL_ERR_INVALID_BLOCK None None [])).
Proof.
  intros Hwt Hfit Hre.
  destruct (reached_pool_inv a m0 s Hwt Hfit Hre)
    as ((Hc & Hb8 & _) & _ & Hbm & _ & _ & _ & _ & _ & _ & Hend).
  unfold sizeof_free_node_t in Hb8.
  assert (Hshape : shape_ok (st_pool s)) by apply Hc.
  assert (Hi : initialized (st_pool s) = true) by apply Hshape.
  assert (Hsf : forall ptr,
             (ptr = 0 /\ True) \/
             (ptr <> 0 /\ in_blocks_range (st_pool s) ptr = false /\
              (step s (OpFree ptr)
               = Some (s, mk_response MEMPOOL_ERR_INVALID_BLOCK None None [])
               \/ block_size (st_pool s) = 0)) \/
             in_blocks_range (st_pool s) ptr = true).
  { intros ptr. destruct (in_blocks_range (st_pool s) ptr) eqn:E;
      [right; right; reflexivity|].
    destruct (step_free s ptr Hi)
      as [(Hz & _)|[(Hnz & _ & [Hstep|(_ & Hz)])|(_ & Hr' & _)]].
    - left. split; [exact Hz|exact I].
    - right. left. split; [exact Hnz|]. split; [reflexivity|].
      left. exact Hstep.
    - right. left. split; [exact Hnz|]. split; [reflexivity|].
      right. exact Hz.
    - cbv zeta in Hr'. congruence. }
  clear Hc Hre. revert Hsf.
  generalize (step s). intros stp Hsf.
  destruct s as [p m]. cbv zeta in *. cbn [st_pool st_mem] in *.
  pose proof (shape_blocks_start p Hshape) as (Hbb & Hbb0 & Hbs).
  pose proof Hshape as (_ & Ht & _ & _ & _ & _ & Hmax).
  unfold SIZE_MAX in Hmax. unfold blocks_end in *.
  assert (HT : 0 <= total_blocks p * block_size p) by nia.
  assert (Hreg : forall ptr,
             mempool_contains (Some p) ptr = true <->
             blocks_start p <= ptr < blocks_start p
                                     + total_blocks p * block_size p).
  { intros ptr. unfold mempool_contains. rewrite Hi. cbn [negb].
    rewrite orb_false_r.
    rewrite (size_t_small (total_blocks p * block_size p)) by lia.
    rewrite size_t_small by lia.
    destruct (Z.eqb_spec ptr 0) as [->|Hne].
    - split; [discriminate|lia].
    - rewrite andb_true_iff, Z.leb_le, Z.ltb_lt. reflexivity. }
  assert (Hrange : forall ptr,
             in_blocks_range p ptr = true <->
             blocks_start p <= ptr < blocks_start p
                                     + total_blocks p * block_size p).
  { intros ptr. unfold in_blocks_range.
    rewrite (size_t_small (total_blocks p * block_size p)) by lia.
    rewrite size_t_small by lia.
    rewrite negb_true_iff, orb_false_iff, Z.ltb_ge, Z.leb_gt. reflexivity. }
  split; [exact Hreg|]. split; [|split].
  - intros ptr. rewrite Hreg. split.
    + intros Hin.
      set (off := ptr - blocks_start p).
      pose proof (Z.div_mod off (block_size p) ltac:(lia)) as Hdm.
      pose proof (Z.mod_pos_bound off (block_size p) ltac:(lia)) as Hmb.
      exists (off / block_size p), (off mod block_size p).
      split.
      { split; [apply Z.div_pos; unfold off; lia|].
        apply Z.div_lt_upper_bound; [lia|]. unfold off. nia. }
      split; [exact Hmb|]. unfold block_addr. unfold off in *. lia.
    + intros (i & d & Hir & Hd & ->). unfold block_addr. nia.
  - intros ptr Hin. apply Hreg in Hin. unfold in_pool_buffer.
    rewrite Hbm in Hbb. lia.
  - intros ptr Hne Hout.
    assert (Hr : in_blocks_range p ptr = false).
    { destruct (in_blocks_range p ptr) eqn:E; [|reflexivity].
      apply Hrange, Hreg in E. congruence. }
    destruct (Hsf ptr) as [(Hz & _)|[(_ & _ & [Hstep|Hz])|Hr']].
    + contradiction.
    + exact Hstep.
    + lia.
    + congruence.
Qed.

Lemma contains_iff_inside_a_block_witness :
  let p := st_pool demo_state in
  well_typed_args demo_args /\ block_size_fits demo_args /\
  reached demo_args demo_memory demo_state /\
  (mempool_contains (Some p) 4104 = true <-> 4104 <= 4104 < blocks_end p) /\
  mempool_contains (Some p) 8073 = true /\
  mempool_contains (Some p) 4096 = false /\
  step demo_state (OpFree 4096)
  = Some (demo_state,
          mk_response MEMPOOL_ERR_INVALID_BLOCK None None []).
Proof.
  intros p.
  destruct (contains_iff_inside_a_block demo_args demo_memory demo_state
              demo_args_well_typed demo_fits demo_reached)
    as (H1 & _ & _ & H4).
  fold p in H1.
  assert (Hbs : blocks_start p = 4104) by (vm_compute; reflexivity).
  assert (Hout : mempool_contains (Some p) 4096 = false)
    by (vm_compute; reflexivity).
  split; [exact demo_args_well_typed|]. split; [exact demo_fits|].
  split; [exact demo_reached|]. split.
  { pose proof (H1 4104) as H. rewrite Hbs in H. exact H. }
  split; [vm_compute; reflexivity|]. split; [exact Hout|].
  apply H4; [lia|exact Hout].
Defined.

(** ** What the calls write *)

Lemma build_free_list_outside (count : nat) :
  forall (step cur prev : Z) (m : memory) (x : Z),
    8 <= step -> 0 <= cur ->
    cur + Z.of_nat count * step <= SIZE_MAX ->
    x < cur \/ cur + Z.of_nat count * step <= x ->
    snd (build_free_list count step cur prev m) x = m x.
Proof.
  induction count as [|count IH]; intros step cur prev m x Hs Hc Hend Hx.
  - reflexivity.
  - cbn [build_free_list]. unfold SIZE_MAX in *.
    rewrite size_t_small by lia.
    rewrite IH; try lia.
    apply store_ptr_outside. lia.
Qed.

Lemma step_frame (s s' : state) (o : op) (rsp : response) :
  pool_inv s -> step s o = Some (s', rsp) ->
  forall x, ~ written_by (st_pool s) o rsp x -> st_mem s' x = st_mem s x.
Proof.
  intros (Hc & Hb8 & _) Hstep x Hnw.
  assert (Hshape : shape_ok (st_pool s)) by apply Hc.
  assert (Hi : initialized (st_pool s) = true) by apply Hshape.
  unfold sizeof_free_node_t in Hb8.
  pose proof (shape_blocks_start _ Hshape) as (Hbb & Hbb0 & Hbs).
  destruct o as [|block| | |l u c].
  - pose proof (step_alloc s Hi) as Hsa. cbv zeta in Hsa.
    destruct Hsa as [(_ & E)|[(_ & _ & _ & E)|(_ & _ & _ & E)]];
      rewrite E in Hstep; [|discriminate|].
    + injection Hstep as <- <-. reflexivity.
    + injection Hstep as <- <-. cbn [st_mem]. unfold mem_after_alloc.
      destruct (_ <? _) eqn:Eb; [|reflexivity].
      apply Z.ltb_lt in Eb. apply store_byte_other. intros ->.
      apply Hnw. split; [reflexivity|]. cbn.
      assert (0 <= index_of (st_pool s) (free_list (st_pool s)) / 8).
      { apply Z.div_pos; [|lia]. unfold index_of. apply uint32_t_range. }
      lia.
  - pose proof (step_free s block Hi) as Hsf. cbv zeta in Hsf.
    destruct Hsf as [(_ & E)|[(_ & _ & [E|(E & _)])|(_ & Hr & Hb & E)]];
      rewrite E in Hstep; try discriminate.
    + injection Hstep as <- <-. reflexivity.
    + injection Hstep as <- <-. reflexivity.
    + destruct (checked_index _ block Hshape Hr Hb)
        as (_ & Hidx & Hbyte & _).
      destruct (_ <=? _); [injection Hstep as <- <-; reflexivity|].
      destruct (bit_set _ _ _); [|injection Hstep as <- <-; reflexivity].
      injection Hstep as <- <-. cbn [st_mem]. unfold mem_after_free.
      assert (0 <= index_of (st_pool s) block / 8)
        by (apply Z.div_pos; lia).
      rewrite store_byte_other.
      * apply store_ptr_outside.
        destruct (Z_lt_ge_dec x block) as [H1|H1]; [left; exact H1|].
        destruct (Z_le_gt_dec (block + 8) x) as [H2|H2]; [right; exact H2|].
        exfalso. apply Hnw. split; [reflexivity|]. cbn. right.
        unfold sizeof_free_node_t. lia.
      * intros ->. apply Hnw. split; [reflexivity|]. cbn. left. lia.
  - rewrite (step_reset s Hi) in Hstep. injection Hstep as <- <-.
    cbn [st_mem]. unfold mem_after_reset.
    destruct Hshape as (_ & Ht & Hbsz & _ & _ & _ & Hend).
    assert (Hout : x < blocks_start (st_pool s) \/
                   blocks_end (st_pool s) <= x).
    { destruct (Z_lt_ge_dec x (blocks_start (st_pool s))) as [H1|H1];
        [left; exact H1|].
      destruct (Z_le_gt_dec (blocks_end (st_pool s)) x) as [H2|H2];
        [right; exact H2|].
      exfalso. apply Hnw. split; [reflexivity|]. cbn. right. lia. }
    unfold blocks_end in Hout.
    rewrite build_free_list_outside; try lia.
    apply memset_outside.
    destruct (Z_lt_ge_dec x (bitmap (st_pool s))) as [H1|H1];
      [left; exact H1|].
    destruct (Z_le_gt_dec (bitmap (st_pool s) + bitmap_bytes (st_pool s)) x)
      as [H2|H2]; [right; exact H2|].
    exfalso. apply Hnw. split; [reflexivity|]. cbn. left. lia.
  - rewrite (step_get_stats s Hi) in Hstep. injection Hstep as <- <-.
    reflexivity.
  - rewrite (step_set_sync s l u c Hi) in Hstep. injection Hstep as <- <-.
    reflexivity.
Qed.

(** A successful [free] writes its link inside the block region. *)
Lemma step_free_ok_block (s s' : state) (block : Z) (rsp : response) :
  counters_ok s -> step s (OpFree block) = Some (s', rsp) ->
  rsp_err rsp = MEMPOOL_OK ->
  in_blocks_range (st_pool s) block = true /\
  on_block_boundary (st_pool s) block = true /\
  bit_set (st_pool s) (st_mem s) (index_of (st_pool s) block) = true /\
  s' = mk_state (pool_after_free (st_pool s) block)
         (mem_after_free (st_pool s) (st_mem s) block
            (index_of (st_pool s) block)) /\
  rsp_trace rsp = critical_section (st_pool s).
Proof.
  intros Hc Hstep Hok.
  assert (Hshape : shape_ok (st_pool s)) by apply Hc.
  assert (Hi : initialized (st_pool s) = true) by apply Hshape.
  pose proof (step_free s block Hi) as Hsf. cbv zeta in Hsf.
  destruct Hsf as [(_ & E)|[(_ & _ & [E|(E & _)])|(_ & Hr & Hb & E)]];
    rewrite E in Hstep; try discriminate.
  - injection Hstep as <- <-. discriminate Hok.
  - injection Hstep as <- <-. discriminate Hok.
  - destruct (_ <=? _); [injection Hstep as <- <-; discriminate Hok|].
    destruct (bit_set _ _ _) eqn:Eb;
      [|injection Hstep as <- <-; discriminate Hok].
    injection Hstep as <- <-. repeat split; assumption.
Qed.

Lemma run_frame (os : list op) :
  forall (s s' : state) (rs : list response),
    pool_inv s -> run s os = Some (s', rs) ->
    forall x, x < bitmap (st_pool s) \/ blocks_end (st_pool s) <= x ->
              st_mem s' x = st_mem s x.
Proof.
  induction os as [|o os IH]; intros s s' rs Hinv Hrun x Hx.
  - injection Hrun as <- _. reflexivity.
  - cbn [run] in Hrun.
    destruct (step s o) as [[s1 rsp]|] eqn:Hstep; [|discriminate].
    cbn [bind fst snd] in Hrun.
    destruct (run s1 os) as [[s2 rs']|] eqn:Hrest; [|discriminate].
    cbn [bind fst snd] in Hrun. injection Hrun as <- _.
    pose proof (step_pool_inv s s1 o rsp Hinv Hstep) as Hinv1.
    pose proof Hinv as (Hc & Hb8 & _).
    assert (Hshape : shape_ok (st_pool s)) by apply Hc.
    assert (Hi : initialized (st_pool s) = true) by apply Hshape.
    destruct (step_geometry s s1 o rsp Hi Hstep)
      as (_ & E2 & E3 & _ & E5 & E6 & _).
    pose proof (shape_blocks_start _ Hshape) as (Hbb & Hbb0 & Hbs).
    unfold sizeof_free_node_t in Hb8.
    rewrite (IH s1 s2 rs' Hinv1 Hrest x).
    2:{ unfold blocks_end in *. rewrite E2, E3, E5, E6. exact Hx. }
    apply (step_frame s s1 o rsp Hinv Hstep).
    intros (Hok & Hw). unfold blocks_end in Hx.
    assert (HT : 0 <= total_blocks (st_pool s) * block_size (st_pool s)).
    { destruct Hshape as (_ & Ht & _). nia. }
    destruct o as [|block| | |l u c]; cbn in Hw; try contradiction.
    + lia.
    + destruct Hw as [Hw|Hw]; [lia|].
      destruct (step_free_ok_block s s1 block rsp Hc Hstep Hok)
        as (Hr & Hb & _).
      destruct (checked_index _ block Hshape Hr Hb)
        as (_ & Hidx & _ & Hblock).
      pose proof (block_addr_bounds _ _ Hshape Hidx) as (H1 & H2 & _).
      rewrite <- Hblock in H1, H2. unfold sizeof_free_node_t in Hw. lia.
    + unfold blocks_end in Hw. lia.
Qed.

Lemma init_frame (a : init_args) (m0 : memory) (s : state) :
  well_typed_args a -> init_ok a m0 s ->
  forall x, ~ in_pool_buffer a x -> st_mem s x = m0 x.
Proof.
  intros Hwt Hok x Hx.
  destruct (init_ok_facts a m0 s Hwt Hok)
    as (k & n & Hk & Hak & HA8 & HAa & HAmax & Hn & Hreq & _ & Hpb & Hs).
  set (A := spec_aligned_block_size (a_block_size a) (2 ^ k)) in *.
  assert (Hp : 0 < 2 ^ k) by (apply Z.pow_pos_nonneg; lia).
  pose proof (spec_pad_range (2 ^ k) n Hp) as Hpad.
  pose proof (spec_bitmap_bytes_range n ltac:(lia)) as Hbb.
  pose proof Hwt as (_ & _ & _ & _ & _ & _ & Hobj & Hend).
  unfold spec_required in Hreq. unfold SIZE_MAX in *.
  assert (HnA : 0 <= n * A) by nia.
  unfold in_pool_buffer in Hx.
  rewrite Hs. unfold init_pool_of.
  cbn [l_n l_bitmap_bytes l_blocks_offset st_mem].
  rewrite (uint32_t_small n) by lia.
  rewrite size_t_small by lia.
  rewrite build_free_list_outside.
  - apply memset_outside. lia.
  - lia.
  - lia.
  - rewrite Z2Nat.id by lia. unfold SIZE_MAX. lia.
  - rewrite Z2Nat.id by lia. lia.
Qed.

(** From a successful [init] whose block size fits, through any sequence
    of calls with any arguments, every byte outside the caller's pool
    buffer keeps the value it had before [init]. *)
Theorem writes_stay_inside_pool_buffer
    (a : init_args) (m0 : memory) (s : state) (x : Z) :
  well_typed_args a -> block_size_fits a -> reached a m0 s ->
  ~ in_pool_buffer a x -> st_mem s x = m0 x.
Proof.
  intros Hwt Hfit (s0 & os & rs & Hok & Hrun) Hx.
  destruct (init_pool_inv a m0 s0 Hwt Hok Hfit) as (Hinv0 & _ & _).
  destruct (init_geometry a m0 s0 Hwt Hok Hfit)
    as (_ & Hbm & _ & _ & _ & _ & _ & _ & Hend).
  rewrite (run_frame os s0 s rs Hinv0 Hrun).
  - apply (init_frame a m0 s0 Hwt Hok). exact Hx.
  - unfold in_pool_buffer in Hx. rewrite Hbm. lia.
Qed.

Lemma writes_stay_inside_pool_buffer_witness :
  let s := state_after_run demo_state
             [OpAlloc; OpFree 8072; OpFree 9000; OpReset; OpAlloc] in
  well_typed_args demo_args /\ block_size_fits demo_args /\
  reached demo_args demo_memory s /\
  ~ in_pool_buffer demo_args 8192 /\
  st_mem s 8192 = demo_memory 8192.
Proof.
  intros s.
  assert (Hrun : run demo_state
                   [OpAlloc; OpFree 8072; OpFree 9000; OpReset; OpAlloc]
                 = Some (s, responses_of_run demo_state
                              [OpAlloc; OpFree 8072; OpFree 9000; OpReset;
                               OpAlloc])).
  { apply run_defined_eq. intros E. vm_compute in E. discriminate. }
  assert (Hre : reached demo_args demo_memory s).
  { exists demo_state, [OpAlloc; OpFree 8072; OpFree 9000; OpReset; OpAlloc],
      (responses_of_run demo_state
         [OpAlloc; OpFree 8072; OpFree 9000; OpReset; OpAlloc]).
    split; [exact demo_state_init_ok|exact Hrun]. }
  assert (Hout : ~ in_pool_buffer demo_args 8192).
  { unfold in_pool_buffer, demo_args. cbn. lia. }
  split; [exact demo_args_well_typed|]. split; [exact demo_fits|].
  split; [exact Hre|]. split; [exact Hout|].
  exact (writes_stay_inside_pool_buffer demo_args demo_memory s 8192
           demo_args_well_typed demo_fits Hre Hout).
Defined.

(** In every state reached from an [init] whose block size fits, a call
    other than [reset] leaves the contents of every block untouched, the
    block it frees apart: a block whose bit is set after the call holds
    the bytes it held before.  A call that does not return [OK] writes
    nothing at all. *)
Theorem block_contents_preserved
    (a : init_args) (m0 : memory) (s s' : state) (o : op) (rsp : response)
    (i d : Z) :
  well_typed_args a -> block_size_fits a -> reached a m0 s ->
  step s o = Some (s', rsp) ->
  (rsp_err rsp <> MEMPOOL_OK -> forall x, st_mem s' x = st_mem s x) /\
  (o <> OpReset ->
   0 <= i < total_blocks (st_pool s) ->
   bit_set (st_pool s') (st_mem s') i = true ->
   0 <= d < block_size (st_pool s) ->
   st_mem s' (block_addr (st_pool s) i + d)
   = st_mem s (block_addr (st_pool s) i + d)).
Proof.
  intros Hwt Hfit Hre Hstep.
  destruct (reached_pool_inv a m0 s Hwt Hfit Hre) as (Hinv & _).
  pose proof Hinv as (Hc & Hb8 & _).
  assert (Hshape : shape_ok (st_pool s)) by apply Hc.
  unfold sizeof_free_node_t in Hb8.
  pose proof (shape_blocks_start _ Hshape) as (Hbb & Hbb0 & Hbs).
  split.
  { intros Herr x. apply (step_frame s s' o rsp Hinv Hstep).
    intros (Hok & _). contradiction. }
  intros Hnr Hi Hbit Hd.
  pose proof (block_addr_bounds _ i Hshape Hi) as (H1 & H2 & _).
  apply (step_frame s s' o rsp Hinv Hstep).
  intros (Hok & Hw).
  destruct o as [|block| | |l u c]; cbn in Hw; try contradiction.
  - lia.
  - destruct Hw as [Hw|Hw]; [lia|].
    destruct (step_free_ok_block s s' block rsp Hc Hstep Hok)
      as (Hr & Hb & Hset & -> & _).
    destruct (checked_index _ block Hshape Hr Hb)
      as (_ & Hidx & Hbyte & Hblock).
    set (idx := index_of (st_pool s) block) in *.
    destruct (Z.eq_dec i idx) as [->|Hne].
    + (* the block that was freed has its bit clear *)
      cbn [st_pool st_mem] in Hbit.
      rewrite (bit_set_fields (st_pool s) (pool_after_free (st_pool s) block))
        in Hbit by reflexivity.
      unfold mem_after_free in Hbit.
      rewrite (bit_set_after_clear (st_pool s) (st_mem s)) in Hbit.
      * rewrite Z.eqb_refl in Hbit. cbn [negb] in Hbit.
        rewrite andb_false_r in Hbit. discriminate.
      * intros y Hy. apply store_ptr_outside.
        pose proof (block_addr_bounds _ idx Hshape Hidx) as (H3 & _).
        rewrite <- Hblock in H3. lia.
      * apply index_byte_in_bitmap; assumption.
    + rewrite Hblock in Hw. unfold sizeof_free_node_t in Hw.
      unfold block_addr in *. nia.
Qed.

Lemma block_contents_preserved_witness :
  let s := state_after_run demo_state [OpAlloc; OpAlloc] in
  let s' := state_after_run s [OpFree 8008] in
  well_typed_args demo_args /\ block_size_fits demo_args /\
  reached demo_args demo_memory s /\
  step s (OpFree 8008)
  = Some (s', hd (mk_response MEMPOOL_OK None None [])
                (responses_of_run s [OpFree 8008])) /\
  OpFree 8008 <> OpReset /\
  0 <= 62 < total_blocks (st_pool s) /\
  bit_set (st_pool s') (st_mem s') 62 = true /\
  0 <= 5 < block_size (st_pool s) /\
  st_mem s' (block_addr (st_pool s) 62 + 5)
  = st_mem s (block_addr (st_pool s) 62 + 5).
Proof.
  intros s s'.
  assert (Hrun : run demo_state [OpAlloc; OpAlloc]
                 = Some (s, responses_of_run demo_state [OpAlloc; OpAlloc])).
  { apply run_defined_eq. intros E. vm_compute in E. discriminate. }
  assert (Hre : reached demo_args demo_memory s).
  { exists demo_state, [OpAlloc; OpAlloc],
      (responses_of_run demo_state [OpAlloc; OpAlloc]).
    split; [exact demo_state_init_ok|exact Hrun]. }
  assert (Hstep : step s (OpFree 8008)
                  = Some (s', hd (mk_response MEMPOOL_OK None None [])
                                (responses_of_run s [OpFree 8008]))).
  { assert (Hdef : step s (OpFree 8008) <> None).
    { intros E. vm_compute in E. discriminate. }
    unfold s', state_after_run, responses_of_run. cbn [run].
    destruct (step s (OpFree 8008)) as [[s1 r1]|]; [|contradiction].
    reflexivity. }
  assert (Hne : OpFree 8008 <> OpReset) by discriminate.
  assert (Hi : 0 <= 62 < total_blocks (st_pool s))
    by (vm_compute; split; [discriminate|reflexivity]).
  assert (Hbit : bit_set (st_pool s') (st_mem s') 62 = true)
    by (vm_compute; reflexivity).
  assert (Hd : 0 <= 5 < block_size (st_pool s))
    by (vm_compute; split; [discriminate|reflexivity]).
  destruct (block_contents_preserved demo_args demo_memory s s' (OpFree 8008)
              _ 62 5 demo_args_well_typed demo_fits Hre Hstep) as (_ & H).
  split; [exact demo_args_well_typed|]. split; [exact demo_fits|].
  split; [exact Hre|]. split; [exact Hstep|]. split; [exact Hne|].
  split; [exact Hi|]. split; [exact Hbit|]. split; [exact Hd|].
  exact (H Hne Hi Hbit Hd).
Defined.

(** * How the calls compose *)

(** ** The block freed last is the block allocated next *)

Lemma bit_after_free (p : mempool) (m : memory) (block i : Z) :
  shape_ok p ->
  in_blocks_range p block = true -> on_block_boundary p block = true ->
  0 <= i < total_blocks p ->
  bit_set (pool_after_free p block)
    (mem_after_free p m block (index_of p block)) i
  = bit_set p m i && negb (i =? index_of p block).
Proof.
  intros Hshape Hr Hb Hi.
  destruct (checked_index p block Hshape Hr Hb) as (_ & Hidx & _ & Haddr).
  pose proof (block_addr_bounds p _ Hshape Hidx) as (H1 & _).
  rewrite <- Haddr in H1.
  rewrite (bit_set_fields p (pool_after_free p block)) by reflexivity.
  unfold mem_after_free. apply bit_set_after_clear.
  - intros x Hx. apply store_ptr_outside. left. lia.
  - apply index_byte_in_bitmap; assumption.
Qed.

Lemma bit_after_alloc (p : mempool) (m : memory) (idx i : Z) :
  idx / 8 < bitmap_bytes p ->
  bit_set (pool_after_alloc p m) (mem_after_alloc p m idx) i
  = bit_set p m i || (i =? idx).
Proof.
  intros Hbyte.
  rewrite (bit_set_fields p (pool_after_alloc p m)) by reflexivity.
  unfold mem_after_alloc. apply Z.ltb_lt in Hbyte. rewrite Hbyte.
  apply bit_set_after_set.
Qed.

(** In every state reached from a successful [init], after a [free] that
    returned [OK] the next [alloc] returns [OK] with the block just freed,
    and puts the free list, the number of free blocks, the bitmap and
    [used_blocks] back to what they were before the [free]. *)
Theorem free_then_alloc_returns_same_block
    (a : init_args) (m0 : memory) (s s1 : state) (block : Z)
    (rsp1 : response) :
  well_typed_args a -> byte_memory m0 -> reached a m0 s ->
  step s (OpFree block) = Some (s1, rsp1) ->
  rsp_err rsp1 = MEMPOOL_OK ->
  exists s2,
    step s1 OpAlloc
    = Some (s2, mk_response MEMPOOL_OK (Some block) None
                  (critical_section (st_pool s))) /\
    free_list (st_pool s2) = free_list (st_pool s) /\
    free_blocks (st_pool s2) = free_blocks (st_pool s) /\
    (forall i, 0 <= i < total_blocks (st_pool s) ->
               bit_set (st_pool s2) (st_mem s2) i
               = bit_set (st_pool s) (st_mem s) i) /\
    s_used_blocks (stats (st_pool s2)) = s_used_blocks (stats (st_pool s)).
Proof.
  intros Hwt Hbytes Hre Hstep Hok.
  pose proof (reached_counters_ok a m0 s Hwt Hre) as Hc.
  pose proof (reached_typed a m0 s Hwt Hbytes Hre) as (_ & Hfl).
  destruct (step_free_ok_block s s1 block rsp1 Hc Hstep Hok)
    as (Hr & Hb & Hset & -> & _).
  assert (Hshape : shape_ok (st_pool s)) by apply Hc.
  destruct (checked_index _ block Hshape Hr Hb)
    as (Hpos & Hidx & Hbyte & Haddr).
  destruct (counters_after_free s block Hc Hr Hb Hset) as (Hlt & Hc1).
  pose proof (block_addr_bounds _ _ Hshape Hidx) as (H1 & H2 & H3).
  rewrite <- Haddr in H1, H2, H3.
  pose proof (shape_blocks_start _ Hshape) as (Hbb & Hbb0 & Hbs).
  pose proof Hc as (_ & Hf0 & _ & _ & _ & Hsu & _).
  pose proof Hshape as (Hi & Ht & _).
  destruct s as [p m]. cbn [st_pool st_mem] in *.
  set (idx := index_of p block) in *.
  set (p1 := pool_after_free p block).
  set (m1 := mem_after_free p m block idx).
  assert (Hfree1 : free_blocks p1 = free_blocks p + 1).
  { unfold p1, pool_after_free. fields.
    apply Z.ltb_lt in Hlt. rewrite Hlt. apply Z.ltb_lt in Hlt.
    apply uint32_t_small. lia. }
  assert (Hnext : load_ptr m1 block = free_list p).
  { unfold m1, mem_after_free.
    rewrite load_ptr_store_byte by lia.
    apply load_store_ptr_same. exact Hfl. }
  assert (Hi1 : initialized p1 = true) by exact Hi.
  pose proof (step_alloc (mk_state p1 m1) Hi1) as Hsa.
  cbv zeta in Hsa. cbn [st_pool st_mem] in Hsa.
  assert (Hhead : free_list p1 = block) by reflexivity.
  assert (Hsize : block_size p1 = block_size p) by reflexivity.
  destruct Hsa as [([E|E] & _)|[(_ & _ & E & _)|(_ & _ & _ & Hstep1)]];
    [lia|lia|lia|].
  assert (Hidx1 : index_of p1 (free_list p1) = idx) by reflexivity.
  rewrite Hidx1, Hhead in Hstep1.
  assert (Hcs : critical_section p1 = critical_section p) by reflexivity.
  rewrite Hcs in Hstep1.
  eexists. split; [exact Hstep1|]. cbn [st_pool st_mem].
  split; [exact Hnext|]. split.
  { unfold pool_after_alloc. fields. rewrite Hfree1.
    replace (free_blocks p + 1 - 1) with (free_blocks p) by ring.
    apply uint32_t_small. lia. }
  split.
  { intros i Hir.
    rewrite bit_after_alloc by exact Hbyte.
    unfold p1, m1, idx. rewrite bit_after_free by assumption.
    fold idx. destruct (Z.eqb_spec i idx) as [->|Hne].
    - rewrite Hset. reflexivity.
    - cbn [negb]. rewrite andb_true_r, orb_false_r. reflexivity. }
  unfold pool_after_alloc. fields. rewrite Hfree1.
  replace (free_blocks p + 1 - 1) with (free_blocks p) by ring.
  rewrite (uint32_t_small (free_blocks p)) by lia.
  change (total_blocks p1) with (total_blocks p).
  rewrite Hsu. apply uint32_t_small. lia.
Qed.

Lemma free_then_alloc_returns_same_block_witness :
  let s := state_after_run demo_state [OpAlloc; OpAlloc; OpAlloc] in
  let s1 := state_after_run s [OpFree 8008] in
  well_typed_args demo_args /\ byte_memory demo_memory /\
  reached demo_args demo_memory s /\
  step s (OpFree 8008)
  = Some (s1, mk_response MEMPOOL_OK None None []) /\
  exists s2,
    step s1 OpAlloc
    = Some (s2, mk_response MEMPOOL_OK (Some 8008) None
                  (critical_section (st_pool s))) /\
    free_blocks (st_pool s2) = free_blocks (st_pool s).
Proof.
  intros s s1.
  assert (Hrun : run demo_state [OpAlloc; OpAlloc; OpAlloc]
                 = Some (s, responses_of_run demo_state
                              [OpAlloc; OpAlloc; OpAlloc])).
  { apply run_defined_eq. intros E. vm_compute in E. discriminate. }
  assert (Hre : reached demo_args demo_memory s).
  { exists demo_state, [OpAlloc; OpAlloc; OpAlloc],
      (responses_of_run demo_state [OpAlloc; OpAlloc; OpAlloc]).
    split; [exact demo_state_init_ok|exact Hrun]. }
  assert (Hrsp : option_map snd (step s (OpFree 8008))
                 = Some (mk_response MEMPOOL_OK None None []))
    by (vm_compute; reflexivity).
  assert (Hstep : step s (OpFree 8008)
                  = Some (s1, mk_response MEMPOOL_OK None None [])).
  { unfold s1, state_after_run. cbn [run].
    destruct (step s (OpFree 8008)) as [[s' r']|]; [|discriminate Hrsp].
    cbn [option_map snd] in Hrsp. injection Hrsp as ->. reflexivity. }
  destruct (free_then_alloc_returns_same_block demo_args demo_memory s s1
              8008 _ demo_args_well_typed demo_memory_bytes Hre Hstep
              eq_refl) as (s2 & H1 & _ & H3 & _).
  split; [exact demo_args_well_typed|]. split; [exact demo_memory_bytes|].
  split; [exact Hre|]. split; [exact Hstep|].
  exists s2. split; [exact H1|exact H3].
Defined.

(** ** An allocation undone by freeing the block *)

Lemma store_bytes_ext (n : nat) :
  forall (m m' : memory) (a v : Z),
    (forall x, m' x = m x) ->
    forall x, store_bytes n m' a v x = store_bytes n m a v x.
Proof.
  induction n as [|n IH]; intros m m' a v H x; cbn [store_bytes].
  - apply H.
  - apply IH. intros y. unfold store_byte. rewrite H. reflexivity.
Qed.

(** Writing back the bytes that were read changes nothing. *)
Lemma store_load_bytes_same (n : nat) :
  forall (m : memory) (a : Z),
    byte_memory m ->
    forall x, store_bytes n m a (load_bytes n m a) x = m x.
Proof.
  induction n as [|n IH]; intros m a Hb x; cbn [store_bytes load_bytes].
  - reflexivity.
  - set (L := load_bytes n m (a + 1)).
    pose proof (Hb a) as Ha. unfold load_byte.
    assert (Hdiv : (m a + 256 * L) / 256 = L).
    { rewrite Z.mul_comm, Z.div_add by lia. rewrite Z.div_small by lia. lia. }
    assert (Hm1 : forall y, store_byte m a (m a + 256 * L) y = m y).
    { intros y. unfold store_byte. destruct (Z.eqb_spec y a) as [->|_];
        [|reflexivity].
      unfold uint8_t. change (2 ^ 8) with 256.
      rewrite Z.mul_comm, Z.mod_add by lia. apply Z.mod_small. lia. }
    rewrite Hdiv.
    rewrite (store_bytes_ext n m _ (a + 1) L Hm1).
    apply IH. exact Hb.
Qed.

Lemma store_load_ptr_same (m : memory) (a : Z) :
  byte_memory m -> forall x, store_ptr m a (load_ptr m a) x = m x.
Proof. intros Hb x. apply store_load_bytes_same. exact Hb. Qed.

Lemma walk_ext (fuel : nat) :
  forall (m m' : memory) (ptr : Z),
    (forall x, m' x = m x) -> walk fuel m' ptr = walk fuel m ptr.
Proof.
  induction fuel as [|fuel IH]; intros m m' ptr H; cbn [walk].
  - reflexivity.
  - destruct (ptr =? 0); [reflexivity|].
    rewrite (load_ptr_ext m m' ptr) by (intros x _; apply H).
    f_equal. apply IH. exact H.
Qed.

(** Two bytes with the same eight bits are equal. *)
Lemma byte_ext (x y : Z) :
  0 <= x < 256 -> 0 <= y < 256 ->
  (forall j, 0 <= j < 8 -> byte_bit x j = byte_bit y j) -> x = y.
Proof.
  intros Hx Hy H. apply Z.bits_inj'. intros n Hn.
  destruct (Z_lt_ge_dec n 8) as [Hlt|Hge].
  - rewrite <- !byte_bit_testbit by lia. apply H. lia.
  - rewrite <- (Z.mod_small x (2 ^ 8)), <- (Z.mod_small y (2 ^ 8))
      by (change (2 ^ 8) with 256; lia).
    rewrite !Z.mod_pow2_bits_high by lia. reflexivity.
Qed.

(** Clearing a bit that was clear before it was set gives the byte back. *)
Lemma clear_after_set (b k : Z) :
  0 <= b < 256 -> 0 <= k < 8 -> byte_bit b k = false ->
  uint8_t
    (uint8_t
       (Z.land (uint8_t (uint8_t (Z.lor b (uint8_t (Z.shiftl 1 k)))))
          (uint8_t (Z.lnot (uint8_t (Z.shiftl 1 k)))))) = b.
Proof.
  intros Hb Hk Hclear. apply byte_ext; [apply uint8_t_range|exact Hb|].
  intros j Hj. rewrite byte_bit_clear, byte_bit_set by assumption.
  destruct (Z.eqb_spec j k) as [->|Hne].
  - rewrite Hclear. reflexivity.
  - cbn [negb]. rewrite orb_false_r, andb_true_r. reflexivity.
Qed.

(** In every state reached from an [init] whose block size fits, freeing
    the block that [alloc] has just returned succeeds and undoes the
    allocation: the memory, the free list, the number of free blocks, the
    geometry and the hooks are what they were before the [alloc].  Of the
    statistics only the two call counters and the peak remember it. *)
Theorem alloc_then_free_restores_pool
    (a : init_args) (m0 : memory) (s s1 : state) (block : Z)
    (rsp : response) :
  well_typed_args a -> byte_memory m0 -> block_size_fits a ->
  reached a m0 s ->
  step s OpAlloc = Some (s1, rsp) -> allocated_block rsp = Some block ->
  let st := stats (st_pool s) in
  exists s2,
    step s1 (OpFree block)
    = Some (s2, mk_response MEMPOOL_OK None None
                  (critical_section (st_pool s))) /\
    (forall x, st_mem s2 x = st_mem s x) /\
    free_list (st_pool s2) = free_list (st_pool s) /\
    free_blocks (st_pool s2) = free_blocks (st_pool s) /\
    free_list_nodes s2 = free_list_nodes s /\
    same_geometry (st_pool s) (st_pool s2) /\
    sync (st_pool s2) = sync (st_pool s) /\
    sync_enabled (st_pool s2) = sync_enabled (st_pool s) /\
    stats (st_pool s2)
    = mk_stats (s_total_blocks st) (s_used_blocks st) (s_free_blocks st)
        (Z.max (s_peak_usage st) (s_used_blocks st + 1))
        (uint32_t (s_alloc_count st + 1)) (uint32_t (s_free_count st + 1))
        (s_block_size st).
Proof.
  intros Hwt Hbytes Hfit Hre Hstep Hblock.
  destruct (reached_pool_inv a m0 s Hwt Hfit Hre) as (Hinv & _).
  pose proof (reached_typed a m0 s Hwt Hbytes Hre) as (Hbm & _).
  destruct Hinv as (Hc & Hb8 & idxs & Hfl).
  assert (Hshape : shape_ok (st_pool s)) by apply Hc.
  assert (Hi : initialized (st_pool s) = true) by apply Hshape.
  pose proof Hfl as (_ & Hnd & _ & _ & Hbits).
  pose proof (step_alloc s Hi) as Hsa.
  pose proof (pool_inv_alloc s idxs Hc Hb8 Hfl) as Hpa.
  pose proof Hc as (_ & Hf0 & Hcount & Hst & Hsf & Hsu & Hpk & _).
  pose proof (shape_blocks_start _ Hshape) as (Hbb & Hbb0 & Hbs).
  pose proof Hshape as (_ & Ht & _ & Hbmb & _).
  destruct s as [p m]. cbv zeta in *. cbn [st_pool st_mem] in *.
  unfold sizeof_free_node_t in Hb8.
  destruct Hsa as [(_ & E)|[(_ & _ & Hz & _)|(Hnz & Hfnz & _ & E)]];
    [|lia|]; rewrite E in Hstep; injection Hstep as <- <-.
  { discriminate Hblock. }
  cbn in Hblock. injection Hblock as <-.
  destruct (Hpa Hnz) as (i & rest & -> & Hhead & Hidx & Hir & _ & _).
  rewrite Hidx. cbn [st_pool st_mem].
  set (p1 := pool_after_alloc p m). set (m1 := mem_after_alloc p m i).
  inversion Hnd as [|i' rest' Hnotin Hnd']; subst i' rest'.
  assert (Hclear : bit_set p m i = false).
  { destruct (bit_set p m i) eqn:Eb; [|reflexivity].
    exfalso. apply (Hbits i Hir) in Eb. apply Eb. left. reflexivity. }
  assert (Hbyte : i / 8 < bitmap_bytes p)
    by (rewrite Hbmb; apply bitmap_bytes_bound; exact Hir).
  pose proof (block_addr_bounds p i Hshape Hir) as (H1 & H2 & H3).
  destruct (block_addr_checked p i Hshape ltac:(lia) Hir)
    as (Hr & Hb & _).
  rewrite <- Hhead in H1, H2, H3, Hr, Hb.
  assert (Hset1 : bit_set p1 m1 i = true).
  { unfold p1, m1. rewrite bit_after_alloc by exact Hbyte.
    rewrite Z.eqb_refl. apply orb_true_r. }
  assert (Hi1 : initialized p1 = true) by exact Hi.
  pose proof (step_free (mk_state p1 m1) (free_list p) Hi1) as Hsf'.
  cbv zeta in Hsf'. cbn [st_pool st_mem] in Hsf'.
  change (in_blocks_range p1 (free_list p))
    with (in_blocks_range p (free_list p)) in Hsf'.
  change (on_block_boundary p1 (free_list p))
    with (on_block_boundary p (free_list p)) in Hsf'.
  change (index_of p1 (free_list p)) with (index_of p (free_list p)) in Hsf'.
  change (bitmap_bytes p1) with (bitmap_bytes p) in Hsf'.
  rewrite Hidx in Hsf'.
  destruct Hsf' as [(Hz & _)|[(_ & [Hbad|Hbad] & _)|(_ & _ & _ & Hstep2)]];
    [lia|congruence|congruence|].
  apply Z.leb_gt in Hbyte. rewrite Hbyte, Hset1 in Hstep2.
  apply Z.leb_gt in Hbyte.
  assert (Hcs : critical_section p1 = critical_section p) by reflexivity.
  rewrite Hcs in Hstep2.
  eexists. split; [exact Hstep2|]. cbn [st_pool st_mem].
  assert (Hf1 : 1 <= free_blocks p <= total_blocks p).
  { pose proof (count_allocated_bounds p m ltac:(lia)). lia. }
  assert (Hfree1 : free_blocks p1 = free_blocks p - 1).
  { unfold p1, pool_after_alloc. fields. apply uint32_t_small. lia. }
  assert (Hmem : forall x,
             mem_after_free p1 m1 (free_list p) i x = m x).
  { intros x. unfold mem_after_free.
    change (free_list p1) with (load_ptr m (free_list p)).
    change (bitmap p1) with (bitmap p).
    assert (Hm1 : m1 = store_byte m (bitmap p + i / 8)
                         (uint8_t (Z.lor (load_byte m (bitmap p + i / 8))
                                     (uint8_t (Z.shiftl 1 (i mod 8)))))).
    { unfold m1, mem_after_alloc. apply Z.ltb_lt in Hbyte.
      rewrite Hbyte. reflexivity. }
    assert (Hi8 : 0 <= i / 8) by (apply Z.div_pos; lia).
    assert (Hlink : load_ptr m (free_list p) = load_ptr m1 (free_list p)).
    { rewrite Hm1. symmetry. apply load_ptr_store_byte. lia. }
    assert (Hbm1 : byte_memory m1).
    { rewrite Hm1. apply store_byte_bytes. exact Hbm. }
    destruct (Z.eqb_spec x (bitmap p + i / 8)) as [->|Hne].
    - rewrite store_byte_same.
      assert (Hlb : load_byte m1 (bitmap p + i / 8)
                    = uint8_t
                        (uint8_t (Z.lor (m (bitmap p + i / 8))
                                    (uint8_t (Z.shiftl 1 (i mod 8)))))).
      { rewrite Hm1. unfold load_byte. apply store_byte_same. }
      rewrite Hlb.
      apply clear_after_set; [apply Hbm|apply mod8_range|].
      exact Hclear.
    - rewrite store_byte_other by exact Hne.
      rewrite Hlink, store_load_ptr_same by exact Hbm1.
      rewrite Hm1. apply store_byte_other. exact Hne. }
  split; [exact Hmem|].
  split; [reflexivity|].
  assert (Hfree2 : free_blocks (pool_after_free p1 (free_list p))
                   = free_blocks p).
  { unfold pool_after_free. fields. rewrite Hfree1.
    change (total_blocks p1) with (total_blocks p).
    assert (E' : (free_blocks p - 1 <? total_blocks p) = true)
      by (apply Z.ltb_lt; lia).
    rewrite E'. rewrite uint32_t_small by lia. ring. }
  split; [exact Hfree2|].
  split.
  { unfold free_list_nodes. cbn [st_pool st_mem].
    change (total_blocks (pool_after_free p1 (free_list p)))
      with (total_blocks p).
    change (free_list (pool_after_free p1 (free_list p)))
      with (free_list p).
    apply walk_ext. exact Hmem. }
  split; [unfold same_geometry; repeat split|].
  split; [reflexivity|]. split; [reflexivity|].
  unfold pool_after_free. fields. rewrite Hfree1.
  change (total_blocks p1) with (total_blocks p).
  assert (E' : (free_blocks p - 1 <? total_blocks p) = true)
    by (apply Z.ltb_lt; lia).
  rewrite E'. rewrite (uint32_t_small (free_blocks p - 1 + 1)) by lia.
  replace (free_blocks p - 1 + 1) with (free_blocks p) by ring.
  unfold p1, pool_after_alloc. fields.
  rewrite (uint32_t_small (free_blocks p - 1)) by lia.
  rewrite (uint32_t_small (total_blocks p - free_blocks p)) by lia.
  rewrite (uint32_t_small (total_blocks p - (free_blocks p - 1))) by lia.
  rewrite Hsu, Hsf. f_equal.
  destruct (s_peak_usage (stats p) <? total_blocks p - (free_blocks p - 1))
    eqn:Ep; [apply Z.ltb_lt in Ep|apply Z.ltb_ge in Ep]; lia.
Qed.

Lemma alloc_then_free_restores_pool_witness :
  let s := state_after_run demo_state [OpAlloc; OpAlloc] in
  let s1 := state_after_run s [OpAlloc] in
  well_typed_args demo_args /\ byte_memory demo_memory /\
  block_size_fits demo_args /\ reached demo_args demo_memory s /\
  step s OpAlloc
  = Some (s1, mk_response MEMPOOL_OK (Some 7944) None []) /\
  exists s2,
    step s1 (OpFree 7944)
    = Some (s2, mk_response MEMPOOL_OK None None
                  (critical_section (st_pool s))) /\
    (forall x, st_mem s2 x = st_mem s x) /\
    free_list_nodes s2 = free_list_nodes s.
Proof.
  intros s s1.
  assert (Hrun : run demo_state [OpAlloc; OpAlloc]
                 = Some (s, responses_of_run demo_state [OpAlloc; OpAlloc])).
  { apply run_defined_eq. intros E. vm_compute in E. discriminate. }
  assert (Hre : reached demo_args demo_memory s).
  { exists demo_state, [OpAlloc; OpAlloc],
      (responses_of_run demo_state [OpAlloc; OpAlloc]).
    split; [exact demo_state_init_ok|exact Hrun]. }
  assert (Hrsp : option_map snd (step s OpAlloc)
                 = Some (mk_response MEMPOOL_OK (Some 7944) None []))
    by (vm_compute; reflexivity).
  assert (Hstep : step s OpAlloc
                  = Some (s1, mk_response MEMPOOL_OK (Some 7944) None [])).
  { unfold s1, state_after_run. cbn [run].
    destruct (step s OpAlloc) as [[s' r']|]; [|discriminate Hrsp].
    cbn [option_map snd] in Hrsp. injection Hrsp as ->. reflexivity. }
  destruct (alloc_then_free_restores_pool demo_args demo_memory s s1 7944 _
              demo_args_well_typed demo_memory_bytes demo_fits Hre Hstep
              eq_refl) as (s2 & H1 & H2 & _ & _ & H5 & _).
  split; [exact demo_args_well_typed|]. split; [exact demo_memory_bytes|].
  split; [exact demo_fits|]. split; [exact Hre|]. split; [exact Hstep|].
  exists s2. split; [exact H1|]. split; [exact H2|exact H5].
Defined.

(** ** The call counters and the peak *)

Lemma uint32_t_succ (x : Z) : uint32_t (uint32_t x + 1) = uint32_t (x + 1).
Proof. unfold uint32_t. apply Zplus_mod_idemp_l. Qed.

Lemma step_free_failed (s s' : state) (block : Z) (rsp : response) :
  initialized (st_pool s) = true ->
  step s (OpFree block) = Some (s', rsp) ->
  rsp_err rsp <> MEMPOOL_OK -> s' = s.
Proof.
  intros Hi Hstep Herr.
  pose proof (step_free s block Hi) as Hsf. cbv zeta in Hsf.
  destruct Hsf as [(_ & E)|[(_ & _ & [E|(E & _)])|(_ & _ & _ & E)]];
    rewrite E in Hstep; try discriminate.
  - injection Hstep as <- <-. reflexivity.
  - injection Hstep as <- <-. reflexivity.
  - destruct (_ <=? _); [injection Hstep as <- <-; reflexivity|].
    destruct (bit_set _ _ _); injection Hstep as <- <-;
      [exfalso; apply Herr|]; reflexivity.
Qed.

(** What one call does to the two call counters. *)
Lemma step_call_counters (s s' : state) (o : op) (rsp : response) :
  counters_ok s -> step s o = Some (s', rsp) ->
  let st := stats (st_pool s) in
  (s_alloc_count (stats (st_pool s')), s_free_count (stats (st_pool s')))
  = match o, rsp_err rsp with
    | OpAlloc, MEMPOOL_OK => (uint32_t (s_alloc_count st + 1), s_free_count st)
    | OpFree _, MEMPOOL_OK =>
        (s_alloc_count st, uint32_t (s_free_count st + 1))
    | OpReset, MEMPOOL_OK => (0, 0)
    | _, _ => (s_alloc_count st, s_free_count st)
    end.
Proof.
  intros Hc Hstep.
  assert (Hi : initialized (st_pool s) = true) by apply Hc.
  destruct o as [|block| | |l u c]; cbv zeta.
  - pose proof (step_alloc s Hi) as Hsa. cbv zeta in Hsa.
    destruct Hsa as [(_ & E)|[(_ & _ & _ & E)|(_ & _ & _ & E)]];
      rewrite E in Hstep; [|discriminate|];
      injection Hstep as <- <-; reflexivity.
  - destruct (rsp_err rsp) eqn:Herr;
      [destruct (step_free_ok_block s s' block rsp Hc Hstep Herr)
         as (_ & _ & _ & -> & _); reflexivity|..];
      rewrite (step_free_failed s s' block rsp Hi Hstep)
        by (rewrite Herr; discriminate); reflexivity.
  - rewrite (step_reset s Hi) in Hstep. injection Hstep as <- <-.
    reflexivity.
  - rewrite (step_get_stats s Hi) in Hstep. injection Hstep as <- <-.
    reflexivity.
  - rewrite (step_set_sync s l u c Hi) in Hstep. injection Hstep as <- <-.
    reflexivity.
Qed.

Lemma run_tally (os : list op) :
  forall (s s' : state) (rs : list response) (ac fc : Z),
    counters_ok s -> run s os = Some (s', rs) ->
    s_alloc_count (stats (st_pool s)) = uint32_t ac ->
    s_free_count (stats (st_pool s)) = uint32_t fc ->
    s_alloc_count (stats (st_pool s')) = uint32_t (fst (tally (ac, fc) os rs))
    /\
    s_free_count (stats (st_pool s')) = uint32_t (snd (tally (ac, fc) os rs))
    /\ length rs = length os.
Proof.
  induction os as [|o os IH]; intros s s' rs ac fc Hc Hrun Ha Hf.
  - injection Hrun as <- <-. cbn. repeat split; assumption.
  - cbn [run] in Hrun.
    destruct (step s o) as [[s1 rsp]|] eqn:Hstep; [|discriminate].
    cbn [bind fst snd] in Hrun.
    destruct (run s1 os) as [[s2 rs']|] eqn:Hrest; [|discriminate].
    cbn [bind fst snd] in Hrun. injection Hrun as <- <-.
    pose proof (step_counters_ok s s1 o rsp Hc Hstep) as Hc1.
    pose proof (step_call_counters s s1 o rsp Hc Hstep) as Hcc.
    cbv zeta in Hcc. cbn [tally length].
    assert (Hnext : forall ac' fc',
               s_alloc_count (stats (st_pool s1)) = uint32_t ac' ->
               s_free_count (stats (st_pool s1)) = uint32_t fc' ->
               s_alloc_count (stats (st_pool s2))
               = uint32_t (fst (tally (ac', fc') os rs')) /\
               s_free_count (stats (st_pool s2))
               = uint32_t (snd (tally (ac', fc') os rs')) /\
               S (length rs') = S (length os)).
    { intros ac' fc' Ha' Hf'.
      destruct (IH s1 s2 rs' ac' fc' Hc1 Hrest Ha' Hf') as (H1 & H2 & H3).
      repeat split; congruence. }
    destruct o as [|block| | |l u c]; destruct (rsp_err rsp);
      injection Hcc as Hac Hfc; cbn [fst snd];
      apply Hnext; rewrite ?Hac, ?Hfc, ?Ha, ?Hf, ?uint32_t_succ;
      reflexivity.
Qed.

(** From a successful [init], after any sequence of calls, [alloc_count]
    and [free_count] are the numbers of [alloc] and of [free] calls that
    returned [OK] since the last [reset], or since [init] when there was
    none, modulo [2 ^ 32]. *)
Theorem call_counters_count_successes
    (a : init_args) (m0 : memory) (s0 s : state) (os : list op)
    (rs : list response) :
  well_typed_args a -> init_ok a m0 s0 -> run s0 os = Some (s, rs) ->
  length rs = length os /\
  s_alloc_count (stats (st_pool s)) = uint32_t (fst (tally (0, 0) os rs)) /\
  s_free_count (stats (st_pool s)) = uint32_t (snd (tally (0, 0) os rs)).
Proof.
  intros Hwt Hok Hrun.
  pose proof (init_counters_ok a m0 s0 Hwt Hok) as Hc.
  destruct (init_ok_facts a m0 s0 Hwt Hok)
    as (k & n & _ & _ & _ & _ & _ & _ & _ & _ & _ & Hs).
  destruct (run_tally os s0 s rs 0 0 Hc Hrun) as (H1 & H2 & H3).
  - rewrite Hs. reflexivity.
  - rewrite Hs. reflexivity.
  - repeat split; assumption.
Qed.

Lemma call_counters_count_successes_witness :
  let os := [OpAlloc; OpAlloc; OpFree 8072; OpFree 8072; OpReset; OpAlloc;
             OpGetStats; OpFree 5] in
  let s := state_after_run demo_state os in
  let rs := responses_of_run demo_state os in
  well_typed_args demo_args /\ init_ok demo_args demo_memory demo_state /\
  run demo_state os = Some (s, rs) /\
  tally (0, 0) os rs = (1, 0) /\
  s_alloc_count (stats (st_pool s)) = 1 /\
  s_free_count (stats (st_pool s)) = 0.
Proof.
  intros os s rs.
  assert (Hrun : run demo_state os = Some (s, rs)).
  { apply run_defined_eq. intros E. vm_compute in E. discriminate. }
  assert (Ht : tally (0, 0) os rs = (1, 0)) by (vm_compute; reflexivity).
  destruct (call_counters_count_successes demo_args demo_memory demo_state
              s os rs demo_args_well_typed demo_state_init_ok Hrun)
    as (_ & H1 & H2).
  rewrite Ht in H1, H2.
  split; [exact demo_args_well_typed|]. split; [exact demo_state_init_ok|].
  split; [exact Hrun|]. split; [exact Ht|]. split; [exact H1|exact H2].
Defined.

(** In every state reached from a successful [init], a call other than
    [reset] leaves [peak_usage] at the larger of its old value and the new
    [used_blocks], so that it never decreases between two resets; [reset]
    sets both to 0. *)
Theorem peak_usage_is_running_maximum
    (a : init_args) (m0 : memory) (s s' : state) (o : op) (rsp : response) :
  well_typed_args a -> reached a m0 s -> step s o = Some (s', rsp) ->
  let st := stats (st_pool s) in
  let st' := stats (st_pool s') in
  (o = OpReset -> s_peak_usage st' = 0 /\ s_used_blocks st' = 0) /\
  (o <> OpReset ->
   s_peak_usage st' = Z.max (s_peak_usage st) (s_used_blocks st') /\
   s_peak_usage st <= s_peak_usage st').
Proof.
  intros Hwt Hre Hstep st st'.
  pose proof (reached_counters_ok a m0 s Hwt Hre) as Hc.
  pose proof (step_counters_ok s s' o rsp Hc Hstep) as Hc'.
  assert (Hi : initialized (st_pool s) = true) by apply Hc.
  destruct Hc as (_ & _ & _ & _ & _ & _ & Hpk & _).
  destruct Hc' as (_ & _ & _ & _ & _ & _ & Hpk' & _).
  fold st in Hpk. fold st' in Hpk'.
  split.
  { intros ->. unfold st'. rewrite (step_reset s Hi) in Hstep.
    injection Hstep as <- <-. split; reflexivity. }
  intros Hnr.
  assert (Hcases : s_peak_usage st' = s_peak_usage st \/
                   s_peak_usage st'
                   = (if s_peak_usage st <? s_used_blocks st'
                      then s_used_blocks st' else s_peak_usage st)).
  { unfold st, st' in *. clear Hpk Hpk'.
    destruct o as [|block| | |l u c].
    - pose proof (step_alloc s Hi) as Hsa. cbv zeta in Hsa.
      destruct Hsa as [(_ & E)|[(_ & _ & _ & E)|(_ & _ & _ & E)]];
        rewrite E in Hstep; [|discriminate|];
        injection Hstep as <- <-; [left|right]; reflexivity.
    - pose proof (step_free s block Hi) as Hsf. cbv zeta in Hsf.
      destruct Hsf as [(_ & E)|[(_ & _ & [E|(E & _)])|(_ & _ & _ & E)]];
        rewrite E in Hstep; try discriminate;
        try (injection Hstep as <- <-; left; reflexivity).
      destruct (_ <=? _); [injection Hstep as <- <-; left; reflexivity|].
      destruct (bit_set _ _ _); injection Hstep as <- <-; left; reflexivity.
    - contradiction.
    - rewrite (step_get_stats s Hi) in Hstep. injection Hstep as <- <-.
      left. reflexivity.
    - rewrite (step_set_sync s l u c Hi) in Hstep.
      injection Hstep as <- <-. left. reflexivity. }
  destruct Hcases as [E|E].
  - rewrite E in *. lia.
  - destruct (s_peak_usage st <? s_used_blocks st') eqn:Ep;
      [apply Z.ltb_lt in Ep|apply Z.ltb_ge in Ep]; lia.
Qed.

Lemma peak_usage_is_running_maximum_witness :
  let s := state_after_run demo_state [OpAlloc; OpAlloc; OpFree 8072] in
  let s' := state_after_run s [OpAlloc] in
  well_typed_args demo_args /\ reached demo_args demo_memory s /\
  step s OpAlloc = Some (s', mk_response MEMPOOL_OK (Some 8072) None []) /\
  OpAlloc <> OpReset /\
  s_peak_usage (stats (st_pool s)) = 2 /\
  s_used_blocks (stats (st_pool s')) = 2 /\
  s_peak_usage (stats (st_pool s')) = Z.max 2 2.
Proof.
  intros s s'.
  assert (Hrun : run demo_state [OpAlloc; OpAlloc; OpFree 8072]
                 = Some (s, responses_of_run demo_state
                              [OpAlloc; OpAlloc; OpFree 8072])).
  { apply run_defined_eq. intros E. vm_compute in E. discriminate. }
  assert (Hre : reached demo_args demo_memory s).
  { exists demo_state, [OpAlloc; OpAlloc; OpFree 8072],
      (responses_of_run demo_state [OpAlloc; OpAlloc; OpFree 8072]).
    split; [exact demo_state_init_ok|exact Hrun]. }
  assert (Hrsp : option_map snd (step s OpAlloc)
                 = Some (mk_response MEMPOOL_OK (Some 8072) None []))
    by (vm_compute; reflexivity).
  assert (Hstep : step s OpAlloc
                  = Some (s', mk_response MEMPOOL_OK (Some 8072) None [])).
  { unfold s', state_after_run. cbn [run].
    destruct (step s OpAlloc) as [[s1 r1]|]; [|discriminate Hrsp].
    cbn [option_map snd] in Hrsp. injection Hrsp as ->. reflexivity. }
  assert (Hne : OpAlloc <> OpReset) by discriminate.
  assert (Hp : s_peak_usage (stats (st_pool s)) = 2)
    by (vm_compute; reflexivity).
  assert (Hu : s_used_blocks (stats (st_pool s')) = 2)
    by (vm_compute; reflexivity).
  destruct (peak_usage_is_running_maximum demo_args demo_memory s s' OpAlloc
              _ demo_args_well_typed Hre Hstep) as (_ & H).
  destruct (H Hne) as (Hmax & _). rewrite Hp, Hu in Hmax.
  split; [exact demo_args_well_typed|]. split; [exact Hre|].
  split; [exact Hstep|]. split; [exact Hne|]. split; [exact Hp|].
  split; [exact Hu|exact Hmax].
Defined.

(** ** The hooks, once installed *)

Lemma critical_section_enabled (p : mempool) (l u c : Z) :
  sync_enabled p = true -> sync p = mk_sync l u c -> l <> 0 -> u <> 0 ->
  critical_section p = bracket l u c.
Proof.
  intros He Hs Hl Hu.
  unfold critical_section, mempool_internal_lock, mempool_internal_unlock.
  rewrite He, Hs. cbn [lock unlock user_ctx].
  apply Z.eqb_neq in Hl. apply Z.eqb_neq in Hu. rewrite Hl, Hu. reflexivity.
Qed.

(** One call under installed hooks. *)
Lemma step_bracket (s s' : state) (o : op) (rsp : response) (l u c : Z) :
  initialized (st_pool s) = true ->
  sync_enabled (st_pool s) = true -> sync (st_pool s) = mk_sync l u c ->
  l <> 0 -> u <> 0 ->
  uses_critical_section o = true ->
  step s o = Some (s', rsp) ->
  sync_enabled (st_pool s') = true /\ sync (st_pool s') = mk_sync l u c /\
  (rsp_trace rsp = bracket l u c \/
   (rsp_trace rsp = [] /\
    exists block, o = OpFree block /\
                  (rsp_err rsp = MEMPOOL_ERR_NULL_PTR \/
                   rsp_err rsp = MEMPOOL_ERR_INVALID_BLOCK))).
Proof.
  intros Hi He Hs Hl Hu Ho Hstep.
  pose proof (critical_section_enabled _ l u c He Hs Hl Hu) as Hcs.
  destruct o as [|block| | |l' u' c']; [| | | |discriminate].
  - pose proof (step_alloc s Hi) as Hsa. cbv zeta in Hsa.
    destruct Hsa as [(_ & E)|[(_ & _ & _ & E)|(_ & _ & _ & E)]];
      rewrite E in Hstep; [|discriminate|];
      injection Hstep as <- <-; (split; [exact He|split; [exact Hs|]]);
      left; exact Hcs.
  - pose proof (step_free s block Hi) as Hsf. cbv zeta in Hsf.
    destruct Hsf as [(_ & E)|[(_ & _ & [E|(E & _)])|(_ & _ & _ & E)]];
      rewrite E in Hstep; try discriminate.
    + injection Hstep as <- <-. split; [exact He|split; [exact Hs|]].
      right. split; [reflexivity|]. exists block. split; [reflexivity|].
      left. reflexivity.
    + injection Hstep as <- <-. split; [exact He|split; [exact Hs|]].
      right. split; [reflexivity|]. exists block. split; [reflexivity|].
      right. reflexivity.
    + destruct (_ <=? _);
        [injection Hstep as <- <-; split; [exact He|split; [exact Hs|]];
         left; exact Hcs|].
      destruct (bit_set _ _ _); injection Hstep as <- <-;
        (split; [exact He|split; [exact Hs|]]); left; exact Hcs.
  - rewrite (step_reset s Hi) in Hstep. injection Hstep as <- <-.
    split; [exact He|split; [exact Hs|]]. left. exact Hcs.
  - rewrite (step_get_stats s Hi) in Hstep. injection Hstep as <- <-.
    split; [exact He|split; [exact Hs|]]. left. exact Hcs.
Qed.

Lemma run_bracket (os : list op) (l u c : Z) :
  forall (s s' : state) (rs : list response),
    initialized (st_pool s) = true ->
    sync_enabled (st_pool s) = true -> sync (st_pool s) = mk_sync l u c ->
    l <> 0 -> u <> 0 ->
    Forall (fun o => uses_critical_section o = true) os ->
    run s os = Some (s', rs) ->
    sync_enabled (st_pool s') = true /\ sync (st_pool s') = mk_sync l u c /\
    Forall2
      (fun o rsp =>
         rsp_trace rsp = bracket l u c \/
         (rsp_trace rsp = [] /\
          exists block, o = OpFree block /\
                        (rsp_err rsp = MEMPOOL_ERR_NULL_PTR \/
                         rsp_err rsp = MEMPOOL_ERR_INVALID_BLOCK))) os rs.
Proof.
  induction os as [|o os IH]; intros s s' rs Hi He Hs Hl Hu Hos Hrun.
  - injection Hrun as <- <-. repeat split; try assumption. constructor.
  - cbn [run] in Hrun.
    destruct (step s o) as [[s1 rsp]|] eqn:Hstep; [|discriminate].
    cbn [bind fst snd] in Hrun.
    destruct (run s1 os) as [[s2 rs']|] eqn:Hrest; [|discriminate].
    cbn [bind fst snd] in Hrun. injection Hrun as <- <-.
    inversion Hos as [|o' os' Ho Hos']; subst o' os'.
    destruct (step_bracket s s1 o rsp l u c Hi He Hs Hl Hu Ho Hstep)
      as (He1 & Hs1 & Htr).
    assert (Hi1 : initialized (st_pool s1) = true).
    { destruct (step_geometry s s1 o rsp Hi Hstep)
        as (_ & _ & _ & _ & _ & _ & _ & E). congruence. }
    destruct (IH s1 s2 rs' Hi1 He1 Hs1 Hl Hu Hos' Hrest) as (H1 & H2 & H3).
    split; [exact H1|]. split; [exact H2|]. constructor; assumption.
Qed.

(** On an initialized pool, [set_sync] with two callbacks that are not
    null returns [OK] and installs them without invoking them.  From then
    on every [alloc], [reset] and [get_stats], and every [free] whose
    pointer passes the validation, invokes the lock and then the unlock,
    once each and with the installed context; a [free] that is rejected
    for a null or invalid pointer invokes neither. *)
Theorem hooks_bracket_each_critical_section
    (s : state) (l u c : Z) (os : list op) :
  initialized (st_pool s) = true -> l <> 0 -> u <> 0 ->
  Forall (fun o => uses_critical_section o = true) os ->
  exists s1,
    step s (OpSetSync l u c)
    = Some (s1, mk_response MEMPOOL_OK None None []) /\
    sync_enabled (st_pool s1) = true /\
    sync (st_pool s1) = mk_sync l u c /\
    st_mem s1 = st_mem s /\
    forall s2 rs,
      run s1 os = Some (s2, rs) ->
      sync_enabled (st_pool s2) = true /\
      sync (st_pool s2) = mk_sync l u c /\
      Forall2
        (fun o rsp =>
           rsp_trace rsp = bracket l u c \/
           (rsp_trace rsp = [] /\
            exists block, o = OpFree block /\
                          (rsp_err rsp = MEMPOOL_ERR_NULL_PTR \/
                           rsp_err rsp = MEMPOOL_ERR_INVALID_BLOCK))) os rs.
Proof.
  intros Hi Hl Hu Hos.
  set (s1 := mk_state
               (set_sync (st_pool s) (mk_sync l u c)
                  (negb (l =? 0) && negb (u =? 0))) (st_mem s)).
  exists s1. split; [apply step_set_sync; exact Hi|].
  cbn [s1 st_pool st_mem].
  assert (He : sync_enabled
                 (set_sync (st_pool s) (mk_sync l u c)
                    (negb (l =? 0) && negb (u =? 0))) = true).
  { cbn [set_sync sync_enabled]. apply Z.eqb_neq in Hl. apply Z.eqb_neq in Hu.
    rewrite Hl, Hu. reflexivity. }
  split; [exact He|]. split; [reflexivity|]. split; [reflexivity|].
  intros s2 rs Hrun.
  apply (run_bracket os l u c s1 s2 rs); try assumption; reflexivity.
Qed.

Lemma hooks_bracket_each_critical_section_witness :
  initialized (st_pool demo_state) = true /\ 1 <> 0 /\ 2 <> 0 /\
  Forall (fun o => uses_critical_section o = true)
    [OpAlloc; OpFree 8073; OpFree 8072; OpGetStats] /\
  exists s1 s2 rs,
    step demo_state (OpSetSync 1 2 3)
    = Some (s1, mk_response MEMPOOL_OK None None []) /\
    run s1 [OpAlloc; OpFree 8073; OpFree 8072; OpGetStats] = Some (s2, rs) /\
    map rsp_trace rs = [bracket 1 2 3; []; bracket 1 2 3; bracket 1 2 3] /\
    Forall2
      (fun o rsp =>
         rsp_trace rsp = bracket 1 2 3 \/
         (rsp_trace rsp = [] /\
          exists block, o = OpFree block /\
                        (rsp_err rsp = MEMPOOL_ERR_NULL_PTR \/
                         rsp_err rsp = MEMPOOL_ERR_INVALID_BLOCK)))
      [OpAlloc; OpFree 8073; OpFree 8072; OpGetStats] rs.
Proof.
  assert (Hi : initialized (st_pool demo_state) = true)
    by (vm_compute; reflexivity).
  assert (Hl : 1 <> 0) by lia. assert (Hu : 2 <> 0) by lia.
  assert (Hos : Forall (fun o => uses_critical_section o = true)
                  [OpAlloc; OpFree 8073; OpFree 8072; OpGetStats])
    by (repeat constructor).
  destruct (hooks_bracket_each_critical_section demo_state 1 2 3 _
              Hi Hl Hu Hos) as (s1 & Hstep & _ & _ & _ & Hrun).
  split; [exact Hi|]. split; [exact Hl|]. split; [exact Hu|].
  split; [exact Hos|].
  assert (Hs1 : s1 = state_after_run demo_state [OpSetSync 1 2 3]).
  { unfold state_after_run. cbn [run]. rewrite Hstep. reflexivity. }
  set (os := [OpAlloc; OpFree 8073; OpFree 8072; OpGetStats]) in *.
  assert (Hdef : run s1 os = Some (state_after_run s1 os,
                                   responses_of_run s1 os)).
  { apply run_defined_eq. rewrite Hs1. intros E. vm_compute in E.
    discriminate. }
  exists s1, (state_after_run s1 os), (responses_of_run s1 os).
  split; [exact Hstep|]. split; [exact Hdef|]. split.
  - rewrite Hs1. vm_compute. reflexivity.
  - apply (Hrun _ _ Hdef).
Defined.

(** * The free list of the 4096-byte pool *)

(** The free list and the bitmap of the pool of 63 blocks after an
    allocation, the release of the block and another allocation. *)
Lemma free_list_agrees_with_bitmap_witness :
  well_typed_args demo_args /\
  init_ok demo_args demo_memory demo_state /\
  align_up (a_block_size demo_args) (a_alignment demo_args) <= UINT32_MAX /\
  exists s rs,
    run demo_state [OpAlloc; OpFree 8072; OpAlloc] = Some (s, rs) /\
    (forall i, 0 <= i < total_blocks (st_pool s) ->
       (bit_set (st_pool s) (st_mem s) i = true <->
        ~ In (block_addr (st_pool s) i) (free_list_nodes s))) /\
    Z.of_nat (length (free_list_nodes s)) = free_blocks (st_pool s) /\
    NoDup (free_list_nodes s).
Proof.
  destruct (free_list_agrees_with_bitmap demo_args demo_memory demo_state
              [OpAlloc; OpFree 8072; OpAlloc] demo_args_well_typed
              demo_state_init_ok demo_fits)
    as (s & rs & Hrun & Hbits & Hlen & Hnd & _).
  split; [exact demo_args_well_typed|]. split; [exact demo_state_init_ok|].
  split; [exact demo_fits|].
  exists s, rs. split; [exact Hrun|]. split; [exact Hbits|].
  split; [exact Hlen|exact Hnd].
Defined.

(** The 63 allocations of the fresh pool return the blocks 62, ..., 0. *)
Lemma first_allocations_descend_witness :
  let p := st_pool demo_state in
  well_typed_args demo_args /\
  init_ok demo_args demo_memory demo_state /\
  align_up (a_block_size demo_args) (a_alignment demo_args) <= UINT32_MAX /\
  free_list p = block_addr p (total_blocks p - 1) /\
  exists s1 rs,
    run demo_state (repeat OpAlloc 63) = Some (s1, rs) /\
    map rsp_err rs = repeat MEMPOOL_OK 63 /\
    map rsp_block rs = map (fun i => Some (block_addr p i)) (down 63) /\
    free_list (st_pool s1) = 0.
Proof.
  intros p.
  destruct (first_allocations_descend demo_args demo_memory demo_state
              demo_args_well_typed demo_state_init_ok demo_fits)
    as (Hhead & _ & s1 & rs & Hrun & Herr & Hblk & Hnil & _).
  cbv zeta in Hrun, Herr, Hblk.
  rewrite demo_total_blocks in Hrun, Herr, Hblk. fold p in Hhead, Hblk.
  split; [exact demo_args_well_typed|]. split; [exact demo_state_init_ok|].
  split; [exact demo_fits|]. split; [exact Hhead|].
  exists s1, rs. split; [exact Hrun|]. split; [exact Herr|].
  split; [exact Hblk|exact Hnil].
Defined.

(** A [reset] after two allocations gives back the free list of the fresh
    pool. *)
Lemma reset_rebuilds_initial_free_list_witness :
  let s := state_after_run demo_state [OpAlloc; OpAlloc] in
  well_typed_args demo_args /\
  init_ok demo_args demo_memory demo_state /\
  align_up (a_block_size demo_args) (a_alignment demo_args) <= UINT32_MAX /\
  run demo_state [OpAlloc; OpAlloc]
  = Some (s, responses_of_run demo_state [OpAlloc; OpAlloc]) /\
  exists s',
    step s OpReset
    = Some (s', mk_response MEMPOOL_OK None None
                  (critical_section (st_pool s))) /\
    free_list_nodes s' = free_list_nodes demo_state /\
    free_blocks (st_pool s') = total_blocks (st_pool s) /\
    stats (st_pool s')
    = mk_stats (total_blocks (st_pool s)) 0 (total_blocks (st_pool s)) 0 0 0
        (block_size (st_pool s)).
Proof.
  intros s.
  assert (Hrun : run demo_state [OpAlloc; OpAlloc]
                 = Some (s, responses_of_run demo_state [OpAlloc; OpAlloc])).
  { apply run_defined_eq. intros E. vm_compute in E. discriminate. }
  destruct (reset_rebuilds_initial_free_list demo_args demo_memory
              demo_state s [OpAlloc; OpAlloc] _ demo_args_well_typed
              demo_state_init_ok demo_fits Hrun)
    as (s' & Hstep & Hsame & _ & _ & Hfree & Hstats & _).
  split; [exact demo_args_well_typed|]. split; [exact demo_state_init_ok|].
  split; [exact demo_fits|]. split; [exact Hrun|].
  exists s'. split; [exact Hstep|]. split; [exact Hsame|].
  split; [exact Hfree|exact Hstats].
Defined.

(** * The two versions of the allocator *)

Lemma set_free_list_back (p : mempool) (x : Z) :
  set_free_list (set_free_list p x) (free_list p) = p.
Proof. destruct p. reflexivity. Qed.

(** [mempool_init] of the version with a visible control block against
    [mempool_init] with a state buffer that is not null and large enough:
    the two are defined on the same arguments, return the same code and
    leave the same memory; on success they build the same control block.
    On failure the first leaves the caller's control block as it was. *)
Theorem legacy_init_agrees
    (state_buffer state_buffer_size buffer buffer_size blk_size align : Z)
    (out : Z) (p0 : mempool) (m : memory) :
  state_buffer <> 0 -> mempool_state_size <= state_buffer_size ->
  match
    mempool_init state_buffer state_buffer_size buffer buffer_size blk_size
      align (Some out) m,
    Legacy.mempool_init (Some p0) buffer buffer_size blk_size align m
  with
  | Some r, Some r' =>
      r_err r' = r_err r /\ r_mem r' = r_mem r /\ r_trace r' = r_trace r /\
      (r_err r = MEMPOOL_OK -> r_pool r' = r_pool r) /\
      (r_err r <> MEMPOOL_OK -> r_pool r' = Some p0)
  | None, None => True
  | _, _ => False
  end.
Proof.
  intros Hsb Hsz. unfold mempool_init, Legacy.mempool_init.
  unfold mempool_state_size in Hsz.
  apply Z.eqb_neq in Hsb. rewrite Hsb. cbn [orb].
  apply Z.ltb_ge in Hsz. rewrite Hsz.
  destruct (buffer =? 0);
    [cbn; repeat split; try reflexivity; intros E; congruence|].
  destruct ((buffer_size =? 0) || (blk_size =? 0));
    [cbn; repeat split; try reflexivity; intros E; congruence|].
  destruct (negb (is_power_of_two align));
    [cbn; repeat split; try reflexivity; intros E; congruence|].
  destruct (negb (Z.land buffer (size_t (align - 1)) =? 0));
    [cbn; repeat split; try reflexivity; intros E; congruence|].
  destruct (blk_size <? sizeof_free_node_t);
    [cbn; repeat split; try reflexivity; intros E; congruence|].
  cbv zeta.
  destruct (udiv buffer_size (align_up blk_size align)) as [max_blocks|];
    [|exact I]. cbn [bind].
  destruct (max_blocks =? 0);
    [cbn; repeat split; try reflexivity; intros E; congruence|].
  destruct (layout_loop _ _ _ _ _) as [st|]; [|exact I]. cbn [bind].
  destruct (negb (l_found st) || (l_n st =? 0));
    [cbn; repeat split; try reflexivity; intros E; congruence|].
  destruct (UINT32_MAX <? l_n st); cbn [orb];
    [cbn; repeat split; try reflexivity; intros E; congruence|].
  destruct (UINT32_MAX <? l_bitmap_bytes st);
    [cbn; repeat split; try reflexivity; intros E; congruence|].
  destruct (build_free_list _ _ _ _ _) as [prev m2].
  cbn [r_err r_mem r_trace r_pool].
  repeat split; try reflexivity. intros E. exfalso. apply E. reflexivity.
Qed.

Lemma legacy_init_agrees_witness :
  1000 <> 0 /\ mempool_state_size <= 128 /\
  (exists r r',
      mempool_init 1000 128 4096 4096 64 8 (Some 0) demo_memory = Some r /\
      Legacy.mempool_init (Some zero_pool) 4096 4096 64 8 demo_memory
      = Some r' /\
      r_err r = MEMPOOL_OK /\ r_err r' = MEMPOOL_OK /\
      r_pool r' = r_pool r /\ r_mem r' = r_mem r).
Proof.
  assert (H1 : 1000 <> 0) by lia.
  assert (H2 : mempool_state_size <= 128)
    by (unfold mempool_state_size, sizeof_struct_mempool; lia).
  split; [exact H1|]. split; [exact H2|].
  pose proof (legacy_init_agrees 1000 128 4096 4096 64 8 0 zero_pool
                demo_memory H1 H2) as H.
  destruct demo_state_init_ok as (r & Hinit & Herr & _).
  unfold init, demo_args in Hinit.
  cbn [a_state_buffer a_state_buffer_size a_pool_buffer a_pool_buffer_size
       a_block_size a_alignment] in Hinit.
  rewrite Hinit in H.
  destruct (Legacy.mempool_init (Some zero_pool) 4096 4096 64 8 demo_memory)
    as [r'|]; [|contradiction].
  destruct H as (He & Hm & _ & Hp & _).
  exists r, r'. split; [exact Hinit|]. split; [reflexivity|].
  split; [exact Herr|]. split; [congruence|].
  split; [apply Hp; exact Herr|exact Hm].
Defined.

(** On any control block and memory, [get_stats], [reset], [set_sync] and
    [contains] of the two versions are the same function.  In every state
    reached from a successful [init], [free] of the two versions agrees on
    every pointer; when the block size fits its field, [alloc] agrees as
    well: same code, same control block, same memory, same block, same
    callbacks. *)
Theorem legacy_calls_agree
    (a : init_args) (m0 : memory) (s : state) :
  well_typed_args a -> reached a m0 s ->
  let p := st_pool s in
  let m := st_mem s in
  (forall pool out mem,
      Legacy.mempool_get_stats pool out mem = mempool_get_stats pool out mem)
  /\
  (forall pool mem, Legacy.mempool_reset pool mem = mempool_reset pool mem) /\
  (forall pool l u c mem,
      Legacy.mempool_set_sync pool l u c mem
      = mempool_set_sync pool l u c mem) /\
  (forall pool ptr,
      Legacy.mempool_contains pool ptr = mempool_contains pool ptr) /\
  (forall block,
      Legacy.mempool_free (Some p) block m = mempool_free (Some p) block m) /\
  (block_size_fits a ->
   forall out,
     Legacy.mempool_alloc (Some p) out m = mempool_alloc (Some p) out m).
Proof.
  intros Hwt Hre.
  pose proof (reached_counters_ok a m0 s Hwt Hre) as Hc.
  assert (Hshape : shape_ok (st_pool s)) by apply Hc.
  assert (Hpi : block_size_fits a -> pool_inv s).
  { intros Hfit. apply (reached_pool_inv a m0 s Hwt Hfit Hre). }
  clear Hre. destruct s as [p m]. cbv zeta. cbn [st_pool st_mem] in *.
  split; [reflexivity|]. split; [reflexivity|].
  split.
  { intros [q|] l u c mem; [|reflexivity].
    unfold Legacy.mempool_set_sync, mempool_set_sync.
    destruct (negb (initialized q)); [reflexivity|].
    destruct (negb (l =? 0) && negb (u =? 0)); reflexivity. }
  split.
  { intros [q|] ptr; [|reflexivity].
    unfold Legacy.mempool_contains, mempool_contains.
    destruct (ptr =? 0); [reflexivity|].
    destruct (initialized q); [|reflexivity]. cbn [negb orb andb].
    destruct ((_ <=? _) && (_ <? _)); reflexivity. }
  split.
  - intros block.
    unfold Legacy.mempool_free, mempool_free.
    destruct (block =? 0); [reflexivity|].
    destruct (negb (initialized p)); [reflexivity|].
    cbv zeta.
    destruct ((block <? blocks_start p)
              || (size_t (blocks_start p
                          + size_t (total_blocks p * block_size p))
                  <=? block)) eqn:Erange; [reflexivity|].
    assert (Hr : in_blocks_range p block = true)
      by (unfold in_blocks_range; rewrite Erange; reflexivity).
    destruct (umod (size_t (block - blocks_start p)) (block_size p))
      as [r|] eqn:Emod; [|reflexivity]. cbn [bind].
    destruct (r =? 0) eqn:Er; [|reflexivity]. cbn [negb].
    assert (Hb : on_block_boundary p block = true)
      by (unfold on_block_boundary; rewrite Emod; exact Er).
    destruct (checked_index p block Hshape Hr Hb)
      as (Hpos & Hidx & Hbyte & Haddr).
    unfold mempool_block_index, udiv. cbv zeta.
    assert (Enz : (block_size p =? 0) = false) by (apply Z.eqb_neq; lia).
    rewrite Enz. cbn [bind]. fold (index_of p block).
    set (idx := index_of p block) in *.
    assert (E1 : (total_blocks p <=? idx) = false) by (apply Z.leb_gt; lia).
    assert (E2 : (bitmap_bytes p <=? idx / 8) = false)
      by (apply Z.leb_gt; lia).
    rewrite E1, E2.
    destruct (Z.land (load_byte m (bitmap p + idx / 8))
                (uint8_t (Z.shiftl 1 (idx mod 8))) =? 0); [reflexivity|].
    assert (Hsame : load_byte (store_ptr m block (free_list p))
                      (bitmap p + idx / 8)
                    = load_byte m (bitmap p + idx / 8)).
    { unfold load_byte. apply store_ptr_outside. left.
      pose proof (index_byte_in_bitmap p idx Hshape Hidx).
      pose proof (block_addr_bounds p idx Hshape Hidx) as (H1 & _).
      rewrite <- Haddr in H1. lia. }
    destruct (free_blocks (set_free_list p block)
              <? total_blocks (set_free_list p block));
      cbn [set_stats set_free_blocks set_free_list bitmap];
      rewrite Hsame; reflexivity.
  - intros Hfit out. destruct (Hpi Hfit) as (_ & Hb8 & idxs & Hfl).
    pose proof (pool_inv_alloc (mk_state p m) idxs Hc Hb8 Hfl) as Hpa.
    cbn [st_pool st_mem] in Hpa, Hb8. unfold sizeof_free_node_t in Hb8.
    unfold Legacy.mempool_alloc, mempool_alloc.
    destruct out as [b|]; [|reflexivity].
    destruct (negb (initialized p)); [reflexivity|]. cbv zeta.
    destruct (free_list p =? 0) eqn:Efl; [reflexivity|].
    apply Z.eqb_neq in Efl.
    destruct (Hpa Efl) as (i & rest & _ & Hhead & Hidx & Hir & Hfnz & _).
    change (free_blocks (set_free_list p (load_ptr m (free_list p))))
      with (free_blocks p).
    apply Z.eqb_neq in Hfnz. rewrite Hfnz.
    unfold mempool_block_index, udiv. cbv zeta.
    cbn [set_stats set_free_blocks set_free_list block_size blocks_start
         total_blocks bitmap_bytes bitmap].
    assert (Enz : (block_size p =? 0) = false) by (apply Z.eqb_neq; lia).
    rewrite Enz. cbn [bind]. fold (index_of p (free_list p)).
    rewrite Hidx.
    assert (E1 : (i <? total_blocks p) = true) by (apply Z.ltb_lt; lia).
    assert (E2 : (i / 8 <? bitmap_bytes p) = true).
    { apply Z.ltb_lt. destruct Hshape as (_ & _ & _ & Hbm & _).
      rewrite Hbm. apply bitmap_bytes_bound. exact Hir. }
    rewrite E1, E2. reflexivity.
Qed.

Lemma legacy_calls_agree_witness :
  let s := state_after_run demo_state [OpAlloc; OpAlloc] in
  well_typed_args demo_args /\ reached demo_args demo_memory s /\
  block_size_fits demo_args /\
  Legacy.mempool_free (Some (st_pool s)) 8008 (st_mem s)
  = mempool_free (Some (st_pool s)) 8008 (st_mem s) /\
  Legacy.mempool_alloc (Some (st_pool s)) (Some 0) (st_mem s)
  = mempool_alloc (Some (st_pool s)) (Some 0) (st_mem s).
Proof.
  intros s.
  assert (Hrun : run demo_state [OpAlloc; OpAlloc]
                 = Some (s, responses_of_run demo_state [OpAlloc; OpAlloc])).
  { apply run_defined_eq. intros E. vm_compute in E. discriminate. }
  assert (Hre : reached demo_args demo_memory s).
  { exists demo_state, [OpAlloc; OpAlloc],
      (responses_of_run demo_state [OpAlloc; OpAlloc]).
    split; [exact demo_state_init_ok|exact Hrun]. }
  destruct (legacy_calls_agree demo_args demo_memory s demo_args_well_typed
              Hre) as (_ & _ & _ & _ & Hfree & Halloc).
  split; [exact demo_args_well_typed|]. split; [exact Hre|].
  split; [exact demo_fits|]. split; [apply Hfree|].
  apply (Halloc demo_fits).
Defined.

(** ** Emptying and refilling a pool *)

(** In every state reached from an [init] whose block size fits, the
    allocations that follow return the nodes of the free list in the order
    of the list, one node each and all different, until the list is used
    up; the next [alloc] returns [OUT_OF_MEMORY]. *)
Theorem allocations_follow_free_list
    (a : init_args) (m0 : memory) (s : state) :
  well_typed_args a -> block_size_fits a -> reached a m0 s ->
  let l := free_list_nodes s in
  NoDup l /\ Z.of_nat (length l) = free_blocks (st_pool s) /\
  exists s1 rs,
    run s (repeat OpAlloc (length l)) = Some (s1, rs) /\
    map rsp_err rs = repeat MEMPOOL_OK (length l) /\
    map rsp_block rs = map Some l /\
    free_blocks (st_pool s1) = 0 /\
    step s1 OpAlloc
    = Some (s1, mk_response MEMPOOL_ERR_OUT_OF_MEMORY None None
                  (critical_section (st_pool s1))).
Proof.
  intros Hwt Hfit Hre l.
  destruct (reached_pool_inv a m0 s Hwt Hfit Hre) as (Hinv & _).
  destruct (pool_inv_free_list s Hinv) as (_ & Hlen & Hnd & _).
  fold l in Hlen, Hnd.
  destruct Hinv as (Hc & Hb8 & idxs & Hfl).
  pose proof (free_list_nodes_of s idxs Hc Hfl) as Hnodes. fold l in Hnodes.
  split; [exact Hnd|]. split; [exact Hlen|].
  pose proof (allocs_follow_list idxs s [] Hc Hb8) as Hallocs.
  rewrite app_nil_r in Hallocs.
  destruct (Hallocs Hfl)
    as (s1 & rs & Hrun & Herr & Hblk & Hc1 & Hfl1 & _ & _).
  assert (Hlenl : length l = length idxs)
    by (rewrite Hnodes; apply length_map).
  exists s1, rs. rewrite Hlenl.
  split; [exact Hrun|]. split; [exact Herr|].
  split; [rewrite Hblk, Hnodes, map_map; reflexivity|].
  destruct Hfl1 as (Hl1 & _ & _ & Hlen1 & _). cbn [map lseg length] in *.
  split; [lia|].
  assert (Hi1 : initialized (st_pool s1) = true) by apply Hc1.
  destruct (step_alloc s1 Hi1) as [(_ & E)|[(Hne & _)|(Hne & _)]];
    [exact E|contradiction|contradiction].
Qed.

Lemma allocations_follow_free_list_witness :
  let s := state_after_run demo_state (repeat OpAlloc 61) in
  well_typed_args demo_args /\ block_size_fits demo_args /\
  reached demo_args demo_memory s /\
  free_list_nodes s = [4168; 4104] /\
  exists s1 rs,
    run s [OpAlloc; OpAlloc] = Some (s1, rs) /\
    map rsp_block rs = [Some 4168; Some 4104] /\
    step s1 OpAlloc
    = Some (s1, mk_response MEMPOOL_ERR_OUT_OF_MEMORY None None
                  (critical_section (st_pool s1))).
Proof.
  intros s.
  assert (Hrun : run demo_state (repeat OpAlloc 61)
                 = Some (s, responses_of_run demo_state
                              (repeat OpAlloc 61))).
  { apply run_defined_eq. intros E. vm_compute in E. discriminate. }
  assert (Hre : reached demo_args demo_memory s).
  { exists demo_state, (repeat OpAlloc 61),
      (responses_of_run demo_state (repeat OpAlloc 61)).
    split; [exact demo_state_init_ok|exact Hrun]. }
  assert (Hl : free_list_nodes s = [4168; 4104])
    by (vm_compute; reflexivity).
  destruct (allocations_follow_free_list demo_args demo_memory s
              demo_args_well_typed demo_fits Hre)
    as (_ & _ & s1 & rs & Hrun1 & _ & Hblk & _ & Hoom).
  cbv zeta in Hrun1, Hblk. rewrite Hl in Hrun1, Hblk.
  split; [exact demo_args_well_typed|]. split; [exact demo_fits|].
  split; [exact Hre|]. split; [exact Hl|].
  exists s1, rs. split; [exact Hrun1|]. split; [exact Hblk|exact Hoom].
Defined.

(** Freeing blocks that are in use, each once, in any order. *)
Lemma free_many (l : list Z) :
  forall s : state,
    pool_inv s -> NoDup l ->
    (forall i, In i l ->
               0 <= i < total_blocks (st_pool s) /\
               bit_set (st_pool s) (st_mem s) i = true) ->
    exists s' rs,
      run s (free_calls (st_pool s) l) = Some (s', rs) /\
      map rsp_err rs = repeat MEMPOOL_OK (length l) /\
      pool_inv s' /\
      total_blocks (st_pool s') = total_blocks (st_pool s) /\
      free_blocks (st_pool s')
      = free_blocks (st_pool s) + Z.of_nat (length l) /\
      (forall i, In i l -> bit_set (st_pool s') (st_mem s') i = false) /\
      (forall i, 0 <= i < total_blocks (st_pool s) -> ~ In i l ->
                 bit_set (st_pool s') (st_mem s') i
                 = bit_set (st_pool s) (st_mem s) i).
Proof.
  induction l as [|i l IH]; intros s Hinv Hnd Hl.
  - exists s, []. cbn [free_calls map run length repeat].
    split; [reflexivity|]. split; [reflexivity|]. split; [exact Hinv|].
    split; [reflexivity|]. split; [lia|].
    split; [intros i []|]. intros i _ _. reflexivity.
  - inversion Hnd as [|i' l' Hnotin Hnd']; subst i' l'.
    destruct (Hl i (or_introl eq_refl)) as (Hir & Hset).
    pose proof Hinv as (Hc & Hb8 & _).
    assert (Hshape : shape_ok (st_pool s)) by apply Hc.
    assert (Hi : initialized (st_pool s) = true) by apply Hshape.
    unfold sizeof_free_node_t in Hb8.
    destruct (block_addr_checked _ i Hshape ltac:(lia) Hir)
      as (Hr & Hb & Hidx).
    pose proof (block_addr_bounds _ i Hshape Hir) as (_ & _ & Hnz).
    set (block := block_addr (st_pool s) i) in *.
    destruct (checked_index _ block Hshape Hr Hb) as (_ & _ & Hbyte & _).
    pose proof (step_free s block Hi) as Hsf. cbv zeta in Hsf.
    destruct Hsf as [(Hz & _)|[(_ & [Hbad|Hbad] & _)|(_ & _ & _ & Hstep)]];
      [lia|congruence|congruence|].
    rewrite Hidx in Hstep, Hbyte.
    apply Z.leb_gt in Hbyte. rewrite Hbyte, Hset in Hstep.
    set (s1 := mk_state (pool_after_free (st_pool s) block)
                 (mem_after_free (st_pool s) (st_mem s) block i)) in *.
    pose proof (step_pool_inv s s1 _ _ Hinv Hstep) as Hinv1.
    assert (Hbit1 : forall j, 0 <= j < total_blocks (st_pool s) ->
                bit_set (st_pool s1) (st_mem s1) j
                = bit_set (st_pool s) (st_mem s) j && negb (j =? i)).
    { intros j Hj. unfold s1. cbn [st_pool st_mem].
      rewrite <- Hidx at 1. rewrite bit_after_free by assumption.
      rewrite Hidx. reflexivity. }
    destruct (counters_after_free s block Hc Hr Hb
                ltac:(rewrite Hidx; exact Hset)) as (Hlt & _).
    assert (Hfree1 : free_blocks (st_pool s1) = free_blocks (st_pool s) + 1).
    { unfold s1, pool_after_free. fields.
      apply Z.ltb_lt in Hlt. rewrite Hlt. apply Z.ltb_lt in Hlt.
      destruct Hc as (_ & Hf0 & _). destruct Hshape as (_ & Ht & _).
      apply uint32_t_small. lia. }
    destruct (IH s1 Hinv1 Hnd') as (s' & rs & Hrun & Herr & Hinv' & Htot
                                    & Hfree & Hclr & Hkeep).
    { intros j Hj. destruct (Hl j (or_intror Hj)) as (Hjr & Hjs).
      split; [exact Hjr|]. rewrite Hbit1 by exact Hjr. rewrite Hjs.
      destruct (Z.eqb_spec j i) as [->|_]; [contradiction|reflexivity]. }
    exists s', (mk_response MEMPOOL_OK None None
                  (critical_section (st_pool s)) :: rs).
    cbn [free_calls map run length repeat]. fold block.
    rewrite Hstep. cbn [bind fst snd].
    change (map (fun i0 => OpFree (block_addr (st_pool s) i0)) l)
      with (free_calls (st_pool s1) l).
    rewrite Hrun. cbn [bind fst snd map rsp_err].
    split; [reflexivity|]. split; [rewrite Herr; reflexivity|].
    split; [exact Hinv'|]. split; [exact Htot|].
    split; [rewrite Hfree, Hfree1; lia|]. split.
    + intros j [<-|Hj]; [|apply Hclr; exact Hj].
      rewrite Hkeep by assumption.
      rewrite Hbit1 by exact Hir. rewrite Z.eqb_refl. apply andb_false_r.
    + intros j Hjr Hnin.
      rewrite Hkeep by (try exact Hjr; intros Hin; apply Hnin; right;
                        exact Hin).
      rewrite Hbit1 by exact Hjr.
      destruct (Z.eqb_spec j i) as [->|_];
        [exfalso; apply Hnin; left; reflexivity|].
      apply andb_true_r.
Qed.

(** In every state reached from an [init] whose block size fits, freeing
    the blocks in use, each once and in any order, returns [OK] every time
    and leaves the pool with every block free: [used_blocks] is 0,
    [free_blocks] is the total and no bit is set. *)
Theorem freeing_every_block_empties_the_pool
    (a : init_args) (m0 : memory) (s : state) (l : list Z) :
  well_typed_args a -> block_size_fits a -> reached a m0 s ->
  NoDup l ->
  (forall i, In i l <->
             0 <= i < total_blocks (st_pool s) /\
             bit_set (st_pool s) (st_mem s) i = true) ->
  exists s' rs,
    run s (free_calls (st_pool s) l) = Some (s', rs) /\
    map rsp_err rs = repeat MEMPOOL_OK (length l) /\
    Z.of_nat (length l) = s_used_blocks (stats (st_pool s)) /\
    free_blocks (st_pool s') = total_blocks (st_pool s) /\
    s_used_blocks (stats (st_pool s')) = 0 /\
    s_free_blocks (stats (st_pool s')) = total_blocks (st_pool s) /\
    (forall i, 0 <= i < total_blocks (st_pool s) ->
               bit_set (st_pool s') (st_mem s') i = false).
Proof.
  intros Hwt Hfit Hre Hnd Hl.
  destruct (reached_pool_inv a m0 s Hwt Hfit Hre) as (Hinv & _).
  pose proof (pool_inv_count s Hinv) as Hcount.
  assert (Hlen : Z.of_nat (length l)
                 = count_allocated (st_pool s) (st_mem s)).
  { unfold count_allocated. f_equal.
    apply Nat.le_antisymm.
    - apply NoDup_incl_length; [exact Hnd|]. intros i Hi.
      apply Hl in Hi. destruct Hi as (Hir & Hs).
      apply filter_In. split; [apply In_indices; exact Hir|exact Hs].
    - apply NoDup_incl_length; [apply NoDup_filter, NoDup_indices|].
      intros i Hi. apply filter_In in Hi. destruct Hi as (Hin & Hs).
      apply Hl. split; [apply In_indices; exact Hin|exact Hs]. }
  destruct (free_many l s Hinv Hnd (fun i Hi => proj1 (Hl i) Hi))
    as (s' & rs & Hrun & Herr & Hinv' & Htot & Hfree & Hclr & Hkeep).
  pose proof Hinv as (Hc & _). pose proof Hinv' as (Hc' & _).
  destruct Hc as (_ & _ & _ & _ & _ & Hsu & _).
  destruct Hc' as (_ & _ & _ & _ & Hsf' & Hsu' & _).
  exists s', rs. split; [exact Hrun|]. split; [exact Herr|].
  split; [lia|]. split; [lia|]. split; [lia|]. split; [lia|].
  intros i Hir.
  destruct (In_dec Z.eq_dec i l) as [Hin|Hnin]; [apply Hclr; exact Hin|].
  rewrite Hkeep by assumption.
  destruct (bit_set (st_pool s) (st_mem s) i) eqn:E; [|reflexivity].
  exfalso. apply Hnin. apply Hl. split; assumption.
Qed.

Lemma freeing_every_block_empties_the_pool_witness :
  let s := state_after_run demo_state [OpAlloc; OpAlloc; OpAlloc] in
  well_typed_args demo_args /\ block_size_fits demo_args /\
  reached demo_args demo_memory s /\ NoDup [61; 62; 60] /\
  exists s' rs,
    run s [OpFree 8008; OpFree 8072; OpFree 7944] = Some (s', rs) /\
    map rsp_err rs = [MEMPOOL_OK; MEMPOOL_OK; MEMPOOL_OK] /\
    free_blocks (st_pool s') = 63 /\
    s_used_blocks (stats (st_pool s')) = 0.
Proof.
  intros s.
  assert (Hrun : run demo_state [OpAlloc; OpAlloc; OpAlloc]
                 = Some (s, responses_of_run demo_state
                              [OpAlloc; OpAlloc; OpAlloc])).
  { apply run_defined_eq. intros E. vm_compute in E. discriminate. }
  assert (Hre : reached demo_args demo_memory s).
  { exists demo_state, [OpAlloc; OpAlloc; OpAlloc],
      (responses_of_run demo_state [OpAlloc; OpAlloc; OpAlloc]).
    split; [exact demo_state_init_ok|exact Hrun]. }
  assert (Hnd : NoDup [61; 62; 60]).
  { repeat constructor; cbn [In]; lia. }
  assert (Ht : total_blocks (st_pool s) = 63) by (vm_compute; reflexivity).
  assert (Hbits : forallb
                    (fun i => Bool.eqb (bit_set (st_pool s) (st_mem s) i)
                                (60 <=? i))
                    (indices 63) = true) by (vm_compute; reflexivity).
  assert (Hl : forall i, In i [61; 62; 60] <->
                         0 <= i < total_blocks (st_pool s) /\
                         bit_set (st_pool s) (st_mem s) i = true).
  { intros i. rewrite Ht. split.
    - intros Hi. assert (Hr : 60 <= i < 63) by (cbn [In] in Hi; lia).
      split; [lia|].
      rewrite forallb_forall in Hbits.
      specialize (Hbits i ltac:(apply In_indices; lia)).
      apply Bool.eqb_prop in Hbits. rewrite Hbits. apply Z.leb_le. lia.
    - intros (Hr & Hs).
      rewrite forallb_forall in Hbits.
      specialize (Hbits i ltac:(apply In_indices; lia)).
      apply Bool.eqb_prop in Hbits. rewrite Hs in Hbits.
      symmetry in Hbits. apply Z.leb_le in Hbits. cbn [In]. lia. }
  destruct (freeing_every_block_empties_the_pool demo_args demo_memory s
              [61; 62; 60] demo_args_well_typed demo_fits Hre Hnd Hl)
    as (s' & rs & Hrun' & Herr & _ & Hfree & Hused & _).
  assert (Hcalls : free_calls (st_pool s) [61; 62; 60]
                   = [OpFree 8008; OpFree 8072; OpFree 7944])
    by (vm_compute; reflexivity).
  rewrite Hcalls in Hrun'. rewrite Ht in Hfree.
  split; [exact demo_args_well_typed|]. split; [exact demo_fits|].
  split; [exact Hre|]. split; [exact Hnd|].
  exists s', rs. split; [exact Hrun'|]. split; [exact Herr|].
  split; [exact Hfree|exact Hused].
Defined.
